(** * rehex: the incremental disassembly region and the live preview

    A shallow embedding of [src/disassemble.cpp]: the tool panel
    [REHex::Disassemble] (live preview of the instruction under the cursor)
    and the document region [REHex::DisassemblyRegion] (background
    disassembly of a byte range in bounded steps, with a cache of decoded
    instructions and cursor navigation over it).

    Conventions.
    - [off_t], [int64_t], [size_t] and [uint64_t] values are integers of [Z].
      Signed overflow is undefined in C++ and file offsets stay far below
      2^63, so no wrap-around is written; [/] and [%] on [off_t] are
      [Z.quot] and [Z.rem] (truncation towards zero).
    - A [std::vector] is a [list]; an iterator into it is a position, and
      [end()] is the position equal to the length.
    - The member functions mutate the region, read the document, write to
      stderr, throw and assert.  They are written in a small state monad
      over the region and a trace of the effects, whose outcomes tell a
      return from an exception, a failed assertion, undefined behaviour and
      a loop that never ends.
    - Capstone ([cs_disasm_iter]) and the document ([read_data]) are not
      part of this file: they are the variables of the sections below. *)

From Stdlib Require Import ZArith List Lia Bool String Ascii.
From Stdlib Require Import Strings.Byte.
Import ListNotations.
Open Scope Z_scope.

Set Implicit Arguments.

(* ================================================================== *)
(** * Byte range sets *)
(* ================================================================== *)

(** Modelled from the spec: [ByteRangeSet] (ByteRangeSet.hpp, the type of
    the member [dirty]) is missing from the sources.  The spec describes it
    as "a set of still-unprocessed byte sub-ranges": a set of byte offsets
    kept as ranges.  Here, a list of ranges in ascending order; [dirty[0]]
    is its head, and the operations are those that [DisassemblyRegion]
    uses. *)
Module ByteRangeSet.

Record Range := { offset : Z; length : Z }.

Definition t := list Range.

Definition range_end (r : Range) : Z := offset r + length r.

(** Membership of a byte offset. *)
Definition contains (r : Range) (o : Z) : Prop :=
  offset r <= o < range_end r.

Definition isset (s : t) (o : Z) : Prop :=
  exists r, In r s /\ contains r o.

(** [empty()] *)
Definition empty (s : t) : bool :=
  match s with
  | [] => true
  | _ :: _ => false
  end.

(** The pieces of [r] left once [clear_off, clear_off + clear_len) is
    taken out of it. *)
Definition cut (clear_off clear_len : Z) (r : Range) : t :=
  let left_end    := Z.min (range_end r) clear_off in
  let right_begin := Z.max (offset r) (clear_off + clear_len) in
  (if offset r <? left_end
   then [ {| offset := offset r; length := left_end - offset r |} ]
   else [])
  ++
  (if right_begin <? range_end r
   then [ {| offset := right_begin; length := range_end r - right_begin |} ]
   else []).

(** [clear_range(offset, length)] *)
Definition clear_range (s : t) (clear_off clear_len : Z) : t :=
  if clear_len <=? 0 then s
  else flat_map (cut clear_off clear_len) s.

(** [set_range(offset, length)]: the ranges that overlap or touch the new
    one are merged with it. *)
Definition touches (set_off set_len : Z) (r : Range) : bool :=
  (offset r <=? set_off + set_len) && (set_off <=? range_end r).

Definition set_range (s : t) (set_off set_len : Z) : t :=
  if set_len <=? 0 then s
  else
    let merged := filter (touches set_off set_len) s in
    let lo := fold_right (fun r acc => Z.min (offset r) acc) set_off merged in
    let hi := fold_right (fun r acc => Z.max (range_end r) acc)
                         (set_off + set_len) merged in
    filter (fun r => range_end r <? set_off) s
    ++ [ {| offset := lo; length := hi - lo |} ]
    ++ filter (fun r => set_off + set_len <? offset r) s.

(** Every range of a set holds at least one byte. *)
Definition wf (s : t) : Prop :=
  Forall (fun r => 0 < length r) s.

End ByteRangeSet.

(* ================================================================== *)
(** * The region's data *)
(* ================================================================== *)

(** [struct DisassemblyRegion::InstructionRange]: a processed chunk. *)
Module InstructionRange.
Record t := {
  offset              : Z;
  length              : Z;
  longest_instruction : Z;
  longest_disasm      : Z;
  rel_y_offset        : Z;
  y_lines             : Z
}.
End InstructionRange.

(** [struct DisassemblyRegion::Instruction]: a cached instruction. *)
Module Instruction.
Record t := {
  offset       : Z;
  length       : Z;
  data         : list byte;
  disasm       : string;
  rel_y_offset : Z
}.
End Instruction.

(** The members of [DisassemblyRegion] that the functions below use
    ([d_offset], [d_length] of [GenericDataRegion]; [y_lines],
    [indent_final] of [Region]). *)
Record Region := {
  d_offset            : Z;
  d_length            : Z;
  indent_final        : Z;
  y_lines             : Z;
  dirty               : ByteRangeSet.t;
  processed           : list InstructionRange.t;
  instructions        : list Instruction.t;
  longest_instruction : Z;
  longest_disasm      : Z
}.


Definition set_dirty (v : ByteRangeSet.t) (r : Region) : Region :=
  {| d_offset := d_offset r; d_length := d_length r;
     indent_final := indent_final r; y_lines := y_lines r;
     dirty := v; processed := processed r;
     instructions := instructions r;
     longest_instruction := longest_instruction r;
     longest_disasm := longest_disasm r |}.

Definition set_processed (v : list InstructionRange.t) (r : Region) : Region :=
  {| d_offset := d_offset r; d_length := d_length r;
     indent_final := indent_final r; y_lines := y_lines r;
     dirty := dirty r; processed := v;
     instructions := instructions r;
     longest_instruction := longest_instruction r;
     longest_disasm := longest_disasm r |}.

Definition set_instructions (v : list Instruction.t) (r : Region) : Region :=
  {| d_offset := d_offset r; d_length := d_length r;
     indent_final := indent_final r; y_lines := y_lines r;
     dirty := dirty r; processed := processed r;
     instructions := v;
     longest_instruction := longest_instruction r;
     longest_disasm := longest_disasm r |}.

Definition set_longest_instruction (v : Z) (r : Region) : Region :=
  {| d_offset := d_offset r; d_length := d_length r;
     indent_final := indent_final r; y_lines := y_lines r;
     dirty := dirty r; processed := processed r;
     instructions := instructions r;
     longest_instruction := v;
     longest_disasm := longest_disasm r |}.

Definition set_longest_disasm (v : Z) (r : Region) : Region :=
  {| d_offset := d_offset r; d_length := d_length r;
     indent_final := indent_final r; y_lines := y_lines r;
     dirty := dirty r; processed := processed r;
     instructions := instructions r;
     longest_instruction := longest_instruction r;
     longest_disasm := v |}.

(** Modelled from the spec: the flags of [Region::StateFlag] are declared in
    DocumentCtrl.hpp, which is missing.  The spec gives the result of a step
    as combinable flags (no change, height changed, width changed, still
    dirty): one bit each. *)
Module StateFlag.
Definition IDLE          : Z := 0.
Definition PROCESSING    : Z := 1.
Definition WIDTH_CHANGE  : Z := 2.
Definition HEIGHT_CHANGE : Z := 4.
End StateFlag.

(** Modelled from the spec: the sentinels that the cursor functions return
    for "go to the previous / next region" are declared in DocumentCtrl.hpp,
    which is missing.  They are values that no offset takes. *)
Definition CURSOR_PREV_REGION : Z := -2.
Definition CURSOR_NEXT_REGION : Z := -3.

Definition SOFT_IR_LIMIT : Z := 10240.
Definition INSTRUCTION_CACHE_LIMIT : Z := 250000.

(* ================================================================== *)
(** * Effects *)
(* ================================================================== *)

(** What a call does to the world outside the region. *)
Inductive Event :=
| EvRead   (offset max_length : Z)   (* doc->read_data(offset, max_length) *)
| EvStderr (msg : string).           (* fprintf(stderr, ...) *)

Record State := { rgn : Region; trace : list Event }.

(** How a call ends. *)
Inductive Outcome (A : Type) :=
| Returned (a : A)            (* return *)
| Thrown (what : string)      (* a std::exception leaves the function *)
| AssertFailed                (* assert(...) aborts the process *)
| Undefined                   (* undefined behaviour *)
| Diverged.                   (* the loop or recursion does not end *)

Arguments Returned {A} a.
Arguments Thrown {A} what.
Arguments AssertFailed {A}.
Arguments Undefined {A}.
Arguments Diverged {A}.

Definition M (A : Type) : Type := State -> Outcome A * State.

Definition ret {A} (a : A) : M A := fun s => (Returned a, s).

Definition bind {A B} (m : M A) (k : A -> M B) : M B :=
  fun s =>
    match m s with
    | (Returned a, s')   => k a s'
    | (Thrown what, s')  => (Thrown what, s')
    | (AssertFailed, s') => (AssertFailed, s')
    | (Undefined, s')    => (Undefined, s')
    | (Diverged, s')     => (Diverged, s')
    end.

Declare Scope region_scope.
Delimit Scope region_scope with region.
Notation "x <- m ;; k" := (bind m (fun x => k))
  (at level 100, m at next level, right associativity) : region_scope.
Notation "m ;;; k" := (bind m (fun _ => k))
  (at level 100, right associativity) : region_scope.
Open Scope region_scope.

Definition get_region : M Region := fun s => (Returned (rgn s), s).

Definition modify (f : Region -> Region) : M unit :=
  fun s => (Returned tt, {| rgn := f (rgn s); trace := trace s |}).

Definition emit (e : Event) : M unit :=
  fun s => (Returned tt, {| rgn := rgn s; trace := trace s ++ [e] |}).

Definition throw {A} (what : string) : M A := fun s => (Thrown what, s).
Definition undefined {A} : M A := fun s => (Undefined, s).
Definition diverge {A} : M A := fun s => (Diverged, s).

(** [try { m } catch(const std::exception &e) { handler(e.what()) }] *)
Definition try_catch {A} (m : M A) (handler : string -> M A) : M A :=
  fun s =>
    match m s with
    | (Thrown what, s') => handler what s'
    | other => other
    end.

(** The result of [Document::read_data]: the bytes, or the exception. *)
Inductive ReadResult :=
| ReadOk (data : list byte)
| ReadError (what : string).

(** [struct cs_insn], as far as it is read here. *)
Record cs_insn := {
  size     : Z;
  mnemonic : string;
  op_str   : string
}.

Definition strlen (s : string) : Z := Z.of_nat (String.length s).
Definition vsize {A} (v : list A) : Z := Z.of_nat (List.length v).

(** [v.back()], where there is one. *)
Fixpoint back {A} (v : list A) : option A :=
  match v with
  | [] => None
  | [x] => Some x
  | _ :: v' => back v'
  end.

(** [v.front()], where there is one. *)
Definition front {A} (v : list A) : option A :=
  match v with
  | [] => None
  | x :: _ => Some x
  end.

(** [v.insert(v.begin() + pos, first, last)] *)
Definition insert_at {A} (pos : nat) (elems v : list A) : list A :=
  firstn pos v ++ elems ++ skipn pos v.

(** [std::upper_bound(v.begin(), v.end(), value)] under the order of the
    keys: the position of the first element whose key is greater than
    [value].  (The library requires [v] to be partitioned by the test, as a
    vector sorted by the key is; it then returns that position.) *)
Fixpoint upper_bound {A} (key : A -> Z) (v : list A) (value : Z) : nat :=
  match v with
  | [] => O
  | x :: v' => if value <? key x then O else S (upper_bound key v' value)
  end.

(** [snprintf(buf, sizeof(buf), "%s\t%s", mnemonic, op_str)] with a buffer of
    256 bytes: the text is cut at 255 characters. *)
Definition tab : string := String (ascii_of_nat 9) EmptyString.

Definition snprintf_disasm (insn : cs_insn) : string :=
  substring 0 255 (mnemonic insn ++ tab ++ op_str insn).

(* ================================================================== *)
(** * [REHex::DisassemblyRegion] *)
(* ================================================================== *)

Section DisassemblyRegion.

(** Whether the file is compiled with [NDEBUG] ([assert] then does
    nothing). *)
Variable NDEBUG : bool.

(** Capstone's [cs_disasm_iter] on the region's handle (opened with
    [CS_OPT_SKIPDATA] on): from the bytes left and the address, the next
    instruction, or nothing when it stops. *)
Variable cs_disasm_iter : list byte -> Z -> option cs_insn.

(** [doc->read_data(offset, max_length)] *)
Variable read_data : Z -> Z -> ReadResult.

Definition assert_opt (cond : option bool) : M unit :=
  fun s =>
    if NDEBUG then (Returned tt, s)
    else match cond with
         | Some true  => (Returned tt, s)
         | Some false => (AssertFailed, s)
         | None       => (Undefined, s)
         end.

(** [assert(cond)] *)
Definition assert_ (cond : bool) : M unit := assert_opt (Some cond).

Definition doc_read_data (offset max_length : Z) : M (list byte) :=
  emit (EvRead offset max_length) ;;;
  match read_data offset max_length with
  | ReadOk data    => ret data
  | ReadError what => throw what
  end.

(** [while(cs_disasm_iter(disassembler, &code_, &code_size, &address, insn)) body]:
    each round hands the body the address of the instruction, its bytes
    and the instruction, and moves [code_] and [address] past it.  A
    round needs fuel; [None] when it runs out. *)
Fixpoint cs_disasm_while {S : Type} (fuel : nat)
    (body : S -> Z -> list byte -> cs_insn -> S)
    (code : list byte) (address : Z) (acc : S) : option S :=
  match fuel with
  | O => None
  | Datatypes.S fuel' =>
      match cs_disasm_iter code address with
      | None => Some acc
      | Some insn =>
          let n := Z.to_nat (size insn) in
          cs_disasm_while fuel' body (skipn n code) (address + size insn)
                          (body acc address (firstn n code) insn)
      end
  end.

(** The loop over a buffer: an instruction takes at least one byte, so
    there are at most as many rounds as bytes, and one more that stops. *)
Definition disasm_loop {S : Type} (body : S -> Z -> list byte -> cs_insn -> S)
    (code : list byte) (address : Z) (acc : S) : M S :=
  match cs_disasm_while (Datatypes.S (List.length code)) body code address acc with
  | Some acc' => ret acc'
  | None      => diverge
  end.

(** The constructor, once [cs_open] has succeeded (it calls [abort()]
    otherwise). *)
Definition DisassemblyRegion_new (offset length : Z) : Region :=
  {| d_offset := offset; d_length := length;
     indent_final := 0; y_lines := 0;
     dirty := ByteRangeSet.set_range [] offset length;
     processed := []; instructions := [];
     longest_instruction := 0; longest_disasm := 0 |}.

(** ** Geometry *)

Definition unprocessed_offset (r : Region) : Z :=
  match back (processed r) with
  | None => d_offset r
  | Some b => InstructionRange.offset b + InstructionRange.length b
  end.

Definition unprocessed_bytes (r : Region) : Z :=
  d_length r - (unprocessed_offset r - d_offset r).

Definition processed_lines (r : Region) : Z :=
  match back (processed r) with
  | None => 0
  | Some b => InstructionRange.rel_y_offset b + InstructionRange.y_lines b
  end.

Definition max_bytes_per_line (r : Region) : Z :=
  if longest_instruction r >? 0 then longest_instruction r else 8.


(** ** [check()]: one step of background processing *)

(** The body of the loop of [check]. *)
Definition check_body (acc : InstructionRange.t * Z)
    (address : Z) (bytes : list byte) (insn : cs_insn) : InstructionRange.t * Z :=
  let new_ir := fst acc in
  let state := snd acc in
  let disasm_length := strlen (mnemonic insn) + 1 + strlen (op_str insn) in
  ({| InstructionRange.offset := InstructionRange.offset new_ir;
      InstructionRange.length := InstructionRange.length new_ir + size insn;
      InstructionRange.longest_instruction :=
        Z.max (InstructionRange.longest_instruction new_ir) (size insn);
      InstructionRange.longest_disasm :=
        Z.max (InstructionRange.longest_disasm new_ir) disasm_length;
      InstructionRange.rel_y_offset := InstructionRange.rel_y_offset new_ir;
      InstructionRange.y_lines := InstructionRange.y_lines new_ir + 1 |},
   Z.lor state StateFlag.HEIGHT_CHANGE).

Definition check : M Z :=
  r <- get_region ;;
  match dirty r with
  | [] =>
      (* Range is fully analysed. *)
      ret StateFlag.IDLE
  | first_dirty_range :: _ =>
      let state := StateFlag.IDLE in
      let process_base := ByteRangeSet.offset first_dirty_range in
      let process_len := Z.min (ByteRangeSet.length first_dirty_range) SOFT_IR_LIMIT in
      data <- doc_read_data process_base process_len ;;
      let new_ir :=
        {| InstructionRange.offset := process_base;
           InstructionRange.length := 0;
           InstructionRange.longest_instruction := 0;
           InstructionRange.longest_disasm := 0;
           InstructionRange.rel_y_offset := processed_lines r;
           InstructionRange.y_lines := 0 |} in
      acc <- disasm_loop check_body data process_base (new_ir, state) ;;
      let new_ir := fst acc in
      let state := snd acc in
      assert_ (match back (processed r) with
               | None => true
               | Some b => InstructionRange.offset b + InstructionRange.length b
                           =? InstructionRange.offset new_ir
               end) ;;;
      modify (fun r => set_processed (processed r ++ [new_ir]) r) ;;;
      state <- (if InstructionRange.longest_instruction new_ir >? longest_instruction r
                then modify (set_longest_instruction
                               (InstructionRange.longest_instruction new_ir)) ;;;
                     ret (Z.lor state StateFlag.WIDTH_CHANGE)
                else ret state) ;;
      state <- (if InstructionRange.longest_disasm new_ir >? longest_disasm r
                then modify (set_longest_disasm
                               (InstructionRange.longest_disasm new_ir)) ;;;
                     ret (Z.lor state StateFlag.WIDTH_CHANGE)
                else ret state) ;;
      modify (fun r => set_dirty
                         (ByteRangeSet.clear_range (dirty r)
                            (InstructionRange.offset new_ir)
                            (InstructionRange.length new_ir)) r) ;;;
      r' <- get_region ;;
      if negb (ByteRangeSet.empty (dirty r'))
      then ret (Z.lor state StateFlag.PROCESSING)
      else ret state
  end.

(** ** Lookups *)

Definition processed_by_offset (r : Region) (abs_offset : Z)
  : option InstructionRange.t :=
  let next_ir := upper_bound InstructionRange.offset (processed r) abs_offset in
  match next_ir with
  | O => None                         (* next_ir == processed.begin() *)
  | Datatypes.S ir_pos =>
      match nth_error (processed r) ir_pos with
      | Some ir =>
          if (InstructionRange.offset ir <=? abs_offset)
             && (InstructionRange.offset ir + InstructionRange.length ir >? abs_offset)
          then Some ir
          else None
      | None => None
      end
  end.

(** The first part of [instruction_by_offset]: the search of the cache.
    The answer is the position found and the instruction there. *)
Definition cached_instruction (r : Region) (abs_offset : Z)
  : option (nat * Instruction.t) :=
  let next_i := upper_bound Instruction.offset (instructions r) abs_offset in
  match next_i with
  | O => None                         (* next_i == instructions.begin() *)
  | Datatypes.S i_pos =>
      match nth_error (instructions r) i_pos with
      | Some i =>
          if (Instruction.offset i <=? abs_offset)
             && (Instruction.offset i + Instruction.length i >? abs_offset)
          then Some (i_pos, i)
          else None
      | None => None
      end
  end.

(** The body of the loop of [instruction_by_offset]. *)
Definition decode_body (ir : InstructionRange.t) (new_instructions : list Instruction.t)
    (address : Z) (bytes : list byte) (insn : cs_insn) : list Instruction.t :=
  new_instructions ++
  [ {| Instruction.offset := address;
       Instruction.length := size insn;
       Instruction.data := bytes;
       Instruction.disasm := snprintf_disasm insn;
       Instruction.rel_y_offset :=
         InstructionRange.rel_y_offset ir + vsize new_instructions |} ].

(** The two assertions before the insertion. *)
Definition assert_after_prev (cache new_instructions : list Instruction.t)
    (next_i : nat) : option bool :=
  match next_i with
  | O => Some true
  | Datatypes.S prev_i =>
      match nth_error cache prev_i, front new_instructions with
      | Some p, Some f =>
          Some (Instruction.offset p + Instruction.length p <=? Instruction.offset f)
      | _, _ => None
      end
  end.

Definition assert_before_next (cache new_instructions : list Instruction.t)
    (next_i : nat) : option bool :=
  if Nat.eqb next_i (List.length cache) then Some true
  else
    match nth_error cache next_i, back new_instructions with
    | Some n, Some b =>
        Some (Instruction.offset n >=? Instruction.offset b + Instruction.length b)
    | _, _ => None
    end.

(** The second part of [instruction_by_offset], from the search of the
    chunk to the insertion into the cache.  The answer is [false] where the
    function returns [EMPTY_END], [true] where it goes on to call itself. *)
Definition instruction_by_offset_fill (abs_offset : Z) : M bool :=
  r <- get_region ;;
  let next_i := upper_bound Instruction.offset (instructions r) abs_offset in
  match processed_by_offset r abs_offset with
  | None => ret false
  | Some ir =>
      ir_data <- try_catch
        (data <- doc_read_data (InstructionRange.offset ir) (InstructionRange.length ir) ;;
         ret (Some data))
        (fun what =>
           emit (EvStderr ("Exception in REHex::DisassemblyRegion::instruction_by_offset: "
                           ++ what)) ;;;
           ret None) ;;
      match ir_data with
      | None => ret false
      | Some ir_data =>
          new_instructions <-
            disasm_loop (decode_body ir) ir_data (InstructionRange.offset ir) [] ;;
          assert_opt (assert_after_prev (instructions r) new_instructions next_i) ;;;
          assert_opt (assert_before_next (instructions r) new_instructions next_i) ;;;
          (* If we're about to exceed the disassembly cache size, clear it and
             start again with only the range we just disassembled. *)
          (if vsize (instructions r) + vsize new_instructions >? INSTRUCTION_CACHE_LIMIT
           then modify (set_instructions new_instructions)
           else modify (set_instructions
                          (insert_at next_i new_instructions (instructions r)))) ;;;
          ret true
      end
  end.

(** [instruction_by_offset(abs_offset)].  The answer stands for the pair of
    the vector and the iterator: [None] is [EMPTY_END], [Some (pos, i)] is
    the iterator at position [pos] of [instructions], which holds [i].  The
    function ends by calling itself; each call needs fuel. *)
Fixpoint instruction_by_offset (fuel : nat) (abs_offset : Z)
  : M (option (nat * Instruction.t)) :=
  match fuel with
  | O => diverge
  | Datatypes.S fuel' =>
      r <- get_region ;;
      match cached_instruction r abs_offset with
      | Some found => ret (Some found)
      | None =>
          again <- instruction_by_offset_fill abs_offset ;;
          if again then instruction_by_offset fuel' abs_offset
          else ret None
      end
  end.

(** ** Cursor movement *)

Definition assert_pos_in_region (pos : Z) : M unit :=
  r <- get_region ;;
  assert_ (pos >=? d_offset r) ;;;
  assert_ (pos <=? d_offset r + d_length r).

Definition cursor_left_from (pos : Z) : M Z :=
  assert_pos_in_region pos ;;;
  r <- get_region ;;
  if pos >? d_offset r
  then ret (pos - 1)
  else ret CURSOR_PREV_REGION.

Definition cursor_right_from (pos : Z) : M Z :=
  assert_pos_in_region pos ;;;
  r <- get_region ;;
  if pos + 1 <? d_offset r + d_length r
  then ret (pos + 1)
  else ret CURSOR_NEXT_REGION.

Definition cursor_up_from (fuel : nat) (pos : Z) : M Z :=
  assert_pos_in_region pos ;;;
  r <- get_region ;;
  let up_off := unprocessed_offset r in
  let up_bytes_per_line := max_bytes_per_line r in
  if pos <? up_off then
    instr <- instruction_by_offset fuel pos ;;
    match instr with
    | None => ret pos                 (* Couldn't get instruction. *)
    | Some (_, this_instr) =>
        let this_instr_off := Instruction.offset this_instr in
        if this_instr_off =? d_offset r
        then ret CURSOR_PREV_REGION   (* Already on first line in region. *)
        else
          prev_instr <- instruction_by_offset fuel (this_instr_off - 1) ;;
          match prev_instr with
          | None => ret pos           (* Couldn't get instruction. *)
          | Some (_, prev) =>
              let prev_instr_off := Instruction.offset prev in
              let prev_instr_len := Instruction.length prev in
              ret (Z.min (prev_instr_off + (pos - this_instr_off))
                         (prev_instr_off + prev_instr_len - 1))
          end
    end
  else if pos <? up_off + up_bytes_per_line then
    (* Move from top of unprocessed data to last line of disassembly. *)
    if up_off =? d_offset r
    then ret CURSOR_PREV_REGION
    else
      instr <- instruction_by_offset fuel (up_off - 1) ;;
      match instr with
      | None => ret pos               (* Couldn't get instruction. *)
      | Some (_, i) =>
          ret (Z.min (Instruction.offset i + (pos - up_off))
                     (Instruction.offset i + Instruction.length i - 1))
      end
  else
    (* Move between unprocessed lines. *)
    ret (pos - up_bytes_per_line).

Definition cursor_down_from (fuel : nat) (pos : Z) : M Z :=
  assert_pos_in_region pos ;;;
  r <- get_region ;;
  let up_off := unprocessed_offset r in
  let up_bytes_per_line := max_bytes_per_line r in
  if pos <? up_off then
    (* Move down a line from within disassembly. *)
    instr <- instruction_by_offset fuel pos ;;
    match instr with
    | None => ret pos                 (* Couldn't get instruction. *)
    | Some (_, this_instr) =>
        let this_instr_off := Instruction.offset this_instr in
        let this_instr_len := Instruction.length this_instr in
        r <- get_region ;;
        let up_off := unprocessed_offset r in
        if this_instr_off + this_instr_len =? d_offset r + d_length r
        then ret CURSOR_NEXT_REGION   (* Already on last line in region. *)
        else if this_instr_off + this_instr_len =? up_off
        then (* On last line in disassembly. *)
          ret (Z.min (up_off + (pos - this_instr_off))
                     (d_offset r + d_length r - 1))
        else
          next_instr <- instruction_by_offset fuel (this_instr_off + this_instr_len) ;;
          match next_instr with
          | None => ret pos           (* Couldn't get instruction. *)
          | Some (_, next) =>
              let next_instr_off := Instruction.offset next in
              let next_instr_len := Instruction.length next in
              ret (Z.min (next_instr_off + (pos - this_instr_off))
                         (next_instr_off + next_instr_len - 1))
          end
    end
  else
    (* Move down a line from within unprocessed data. *)
    let line_pos := Z.rem (pos - up_off) up_bytes_per_line in
    let next_line_begin := (pos - line_pos) + up_bytes_per_line in
    let next_line_pos := pos + up_bytes_per_line in
    if next_line_pos <? d_offset r + d_length r
    then ret next_line_pos            (* Move to same position in next line. *)
    else if next_line_begin <? d_offset r + d_length r
    then ret (d_offset r + d_length r - 1)   (* Move to end of next (last) line. *)
    else ret CURSOR_NEXT_REGION.      (* Move to next region. *)

Definition cursor_home_from (fuel : nat) (pos : Z) : M Z :=
  assert_pos_in_region pos ;;;
  r <- get_region ;;
  let up_off := unprocessed_offset r in
  let up_bytes_per_line := max_bytes_per_line r in
  if pos <? up_off then
    (* Move to start of line in disassembly. *)
    instr <- instruction_by_offset fuel pos ;;
    match instr with
    | None => ret pos                 (* Couldn't get Instruction. *)
    | Some (_, i) => ret (Instruction.offset i)
    end
  else
    (* Move to start of unprocessed line. *)
    let line_pos := Z.rem (pos - up_off) up_bytes_per_line in
    ret (pos - line_pos).

Definition cursor_end_from (fuel : nat) (pos : Z) : M Z :=
  assert_pos_in_region pos ;;;
  r <- get_region ;;
  let up_off := unprocessed_offset r in
  let up_bytes_per_line := max_bytes_per_line r in
  if pos <? up_off then
    (* Move to end of line in disassembly. *)
    instr <- instruction_by_offset fuel pos ;;
    match instr with
    | None => ret pos                 (* Couldn't get Instruction. *)
    | Some (_, i) => ret (Instruction.offset i + Instruction.length i - 1)
    end
  else
    (* Move to end of unprocessed line. *)
    let line_pos := Z.rem (pos - up_off) up_bytes_per_line in
    ret (Z.min ((pos - line_pos) + (up_bytes_per_line - 1))
               (d_offset r + d_length r - 1)).

(** ** Lookups by line *)

Definition processed_by_line (r : Region) (rel_line : Z)
  : option InstructionRange.t :=
  let next_ir := upper_bound InstructionRange.rel_y_offset (processed r) rel_line in
  match next_ir with
  | O => None                         (* next_ir == processed.begin() *)
  | Datatypes.S ir_pos =>
      match nth_error (processed r) ir_pos with
      | Some ir =>
          if (InstructionRange.rel_y_offset ir <=? rel_line)
             && (InstructionRange.rel_y_offset ir + InstructionRange.y_lines ir
                 >? rel_line)
          then Some ir
          else None
      | None => None
      end
  end.

(** [std::next(it, n)] on the vector [v], for an iterator at position [pos]:
    the position reached, which may be [end()]; nothing when it leaves the
    vector (undefined behaviour). *)
Definition iterator_next {A} (v : list A) (pos : nat) (n : Z) : option nat :=
  let target := Z.of_nat pos + n in
  if (0 <=? target) && (target <=? vsize v) then Some (Z.to_nat target) else None.

(** [instruction_by_line(rel_line)].  The answer is as for
    [instruction_by_offset]; an iterator that is [end()] of [instructions]
    is [None] too, since that is what the callers test. *)
Definition instruction_by_line (fuel : nat) (rel_line : Z)
  : M (option (nat * Instruction.t)) :=
  r <- get_region ;;
  match processed_by_line r rel_line with
  | None => ret None
  | Some ir =>
      let line_within_ir := rel_line - InstructionRange.rel_y_offset ir in
      assert_ (line_within_ir >=? 0) ;;;
      assert_ (line_within_ir
               <? InstructionRange.rel_y_offset ir + InstructionRange.y_lines ir) ;;;
      ir_first_i <- instruction_by_offset fuel (InstructionRange.offset ir) ;;
      match ir_first_i with
      | None => ret None
      | Some (first_pos, _) =>
          r' <- get_region ;;
          assert_ (vsize (instructions r') - Z.of_nat first_pos >? line_within_ir) ;;;
          match iterator_next (instructions r') first_pos line_within_ir with
          | None => undefined
          | Some pos =>
              match nth_error (instructions r') pos with
              | Some i => ret (Some (pos, i))
              | None => ret None
              end
          end
      end
  end.

(** ** Columns *)

(** The conversion of an [off_t] to [int]: the value modulo 2^32, in
    [-2^31, 2^31). *)
Definition to_int (v : Z) : Z := (v + 2147483648) mod 4294967296 - 2147483648.

Definition cursor_column (fuel : nat) (pos : Z) : M Z :=
  assert_pos_in_region pos ;;;
  r <- get_region ;;
  let up_off := unprocessed_offset r in
  if pos <? up_off then
    (* Offset is within disassembled area. *)
    instr <- instruction_by_offset fuel pos ;;
    match instr with
    | None => ret 0                   (* Couldn't get instruction. Fallback. *)
    | Some (_, i) =>
        assert_ (Instruction.offset i <=? pos) ;;;
        assert_ (Instruction.offset i + Instruction.length i >? pos) ;;;
        ret (to_int (pos - Instruction.offset i))
    end
  else
    (* Offset is within not-yet-processed data. *)
    ret (to_int (Z.rem (pos - up_off) (max_bytes_per_line r))).

Definition nth_row_nearest_column (fuel : nat) (row column : Z) : M Z :=
  r <- get_region ;;
  let processed_lines :=
    match back (processed r) with
    | None => 0
    | Some b => InstructionRange.rel_y_offset b + InstructionRange.y_lines b
    end in
  if row <? processed_lines then
    (* Line has been processed. *)
    instr <- instruction_by_line fuel row ;;
    match instr with
    | None =>                         (* Couldn't get instruction. Fallback. *)
        r' <- get_region ;;
        ret (d_offset r')
    | Some (_, i) =>
        ret (Z.min (Instruction.offset i + column)
                   (Instruction.offset i + Instruction.length i - 1))
    end
  else
    (* Line isn't processed yet. *)
    let up_base := unprocessed_offset r in
    let up_row := row - processed_lines in
    ret (Z.min (up_base + up_row * max_bytes_per_line r + column)
               (d_offset r + d_length r - 1)).

Definition first_row_nearest_column (fuel : nat) (column : Z) : M Z :=
  nth_row_nearest_column fuel 0 column.

Definition last_row_nearest_column (fuel : nat) (column : Z) : M Z :=
  r <- get_region ;;
  nth_row_nearest_column fuel (y_lines r) column.

End DisassemblyRegion.

(* ================================================================== *)
(** * [REHex::DisassemblyRegion] on screen *)
(* ================================================================== *)

(** The members of the region that place it on screen: [y_offset] of
    [Region], and the left edge of the hex column, [hex_text_x], that
    [calc_width] sets. *)
Record Layout := {
  y_offset   : Z;
  hex_text_x : Z
}.

(** [DocumentCtrl::Rect(x, y, w, h)] *)
Record Rect := { rect_x : Z; rect_y : Z; rect_w : Z; rect_h : Z }.

(** Modelled from the spec: [GenericDataRegion::ScreenArea] is declared in
    DocumentCtrl.hpp, which is missing.  The spec counts the "pixel/column
    mapping" among the queries of the region; the answers here are [SA_NONE]
    (no byte at the place) and [SA_HEX] (a byte of the hex column). *)
Inductive ScreenArea := SA_NONE | SA_HEX | SA_ASCII | SA_SPECIAL.

Definition ScreenArea_eqb (a b : ScreenArea) : bool :=
  match a, b with
  | SA_NONE, SA_NONE | SA_HEX, SA_HEX | SA_ASCII, SA_ASCII
  | SA_SPECIAL, SA_SPECIAL => true
  | _, _ => false
  end.

Section RegionOnScreen.

Variable NDEBUG : bool.
Variable cs_disasm_iter : list byte -> Z -> option cs_insn.
Variable read_data : Z -> Z -> ReadResult.

(** The region's place on screen. *)
Variable layout : Layout.

(** [DocumentCtrl] is not part of this file: [get_bytes_per_group()],
    [hf_string_width(length)], and the two functions of
    [GenericDataRegion] that turn a horizontal distance in pixels from the
    left edge of the hex column into the index of a byte of the line,
    [offset_at_x_hex(doc_ctrl, rel_x)] (negative when there is no byte
    there) and [offset_near_x_hex(doc_ctrl, rel_x)]. *)
Variable bytes_per_group : Z.
Variable hf_string_width : Z -> Z.
Variable offset_at_x_hex : Z -> Z.
Variable offset_near_x_hex : Z -> Z.

(** [calc_offset_bounds(offset, doc_ctrl)]; a division by a
    [bytes_per_group] of zero is undefined, and [hf_string_width] takes an
    [int]. *)
Definition calc_offset_bounds (fuel : nat) (offset : Z) : M Rect :=
  r <- get_region ;;
  let up_off := unprocessed_offset r in
  if offset <? up_off then
    (* Offset is within disassembly. *)
    instr <- instruction_by_offset NDEBUG cs_disasm_iter read_data fuel offset ;;
    match instr with
    | None =>                         (* Couldn't get instruction. Fallback. *)
        r' <- get_region ;;
        ret {| rect_x := y_offset layout; rect_y := y_lines r';
               rect_w := 1; rect_h := 1 |}
    | Some (_, i) =>
        assert_ NDEBUG (Instruction.offset i <=? offset) ;;;
        assert_ NDEBUG (Instruction.offset i + Instruction.length i >? offset) ;;;
        let line_off := offset - Instruction.offset i in
        if bytes_per_group =? 0 then undefined
        else
          ret {| rect_x := hex_text_x layout
                           + hf_string_width
                               (to_int (line_off * 2
                                        + Z.quot line_off bytes_per_group));
                 rect_y := y_offset layout + Instruction.rel_y_offset i;
                 rect_w := hf_string_width 2;
                 rect_h := 1 |}
    end
  else
    (* Offset hasn't been processed yet. *)
    let up_bytes_per_line := max_bytes_per_line r in
    let offset_within_up := offset - up_off in
    let line_off := Z.rem offset_within_up up_bytes_per_line in
    let processed_lines :=
      match back (processed r) with
      | None => 0
      | Some b => InstructionRange.rel_y_offset b + InstructionRange.y_lines b
      end in
    let up_line := Z.quot offset_within_up up_bytes_per_line in
    if bytes_per_group =? 0 then undefined
    else
      ret {| rect_x := hex_text_x layout
                       + hf_string_width
                           (to_int (line_off * 2
                                    + Z.quot line_off bytes_per_group));
             rect_y := y_offset layout + processed_lines + up_line;
             rect_w := hf_string_width 2;
             rect_h := 1 |}.

(** [offset_at_xy(doc_ctrl, mouse_x_px, mouse_y_lines)] *)
Definition offset_at_xy (fuel : nat) (mouse_x_px mouse_y_lines : Z)
  : M (Z * ScreenArea) :=
  r <- get_region ;;
  let processed_lines := processed_lines r in
  if mouse_y_lines <? processed_lines then
    (* Line has been processed. *)
    instr <- instruction_by_line NDEBUG cs_disasm_iter read_data fuel mouse_y_lines ;;
    match instr with
    | None =>
        (* Couldn't get instruction. Don't know how long the line is. *)
        ret (-1, SA_NONE)
    | Some (_, i) =>
        if mouse_x_px >=? hex_text_x layout then
          (* Mouse in hex area. *)
          let line_offset := offset_at_x_hex (mouse_x_px - hex_text_x layout) in
          if (line_offset <? 0) || (line_offset >=? Instruction.length i)
          then ret (-1, SA_NONE)
          else ret (Instruction.offset i + line_offset, SA_HEX)
        else
          (* Mouse in offset area. *)
          ret (-1, SA_NONE)
    end
  else
    (* Line isn't processed yet. *)
    let up_base := unprocessed_offset r in
    let up_bytes_per_line := max_bytes_per_line r in
    let up_row := mouse_y_lines - processed_lines in
    let line_base := up_base + up_row * up_bytes_per_line in
    let line_end := Z.min (line_base + up_bytes_per_line) (d_offset r + d_length r - 1) in
    let line_len := line_end - line_base in
    if mouse_x_px >=? hex_text_x layout then
      (* Mouse in hex area. *)
      let line_offset := offset_at_x_hex (mouse_x_px - hex_text_x layout) in
      if (line_offset <? 0) || (line_offset >=? line_len)
      then ret (-1, SA_NONE)
      else ret (line_base + line_offset, SA_HEX)
    else
      (* Mouse in offset area. *)
      ret (-1, SA_NONE).

(** [offset_near_xy(doc_ctrl, mouse_x_px, mouse_y_lines, type_hint)] *)
Definition offset_near_xy (fuel : nat) (mouse_x_px mouse_y_lines : Z)
    (type_hint : ScreenArea) : M (Z * ScreenArea) :=
  r <- get_region ;;
  let processed_lines := processed_lines r in
  if mouse_y_lines <? processed_lines then
    (* Line has been processed. *)
    instr <- instruction_by_line NDEBUG cs_disasm_iter read_data fuel mouse_y_lines ;;
    match instr with
    | None =>
        (* Couldn't get instruction. Don't know how long the line is. *)
        ret (-1, SA_NONE)
    | Some (_, i) =>
        let instr_base := Instruction.offset i in
        let instr_end := Instruction.offset i + Instruction.length i in
        if (mouse_x_px >=? hex_text_x layout) || ScreenArea_eqb type_hint SA_HEX then
          (* Mouse in hex area. *)
          let line_offset := offset_near_x_hex (mouse_x_px - hex_text_x layout) in
          let real_offset :=
            if line_offset <? 0
            then Z.max (instr_base - 1) 0
            else Z.min (instr_base + line_offset) (instr_end - 1) in
          ret (real_offset, SA_HEX)
        else
          (* Mouse in offset area. *)
          ret (-1, SA_NONE)
    end
  else
    (* Line isn't processed yet. *)
    let up_base := unprocessed_offset r in
    let up_bytes_per_line := max_bytes_per_line r in
    let up_row := mouse_y_lines - processed_lines in
    let line_base := up_base + up_row * up_bytes_per_line in
    let line_end := Z.min (line_base + up_bytes_per_line) (d_offset r + d_length r - 1) in
    if (mouse_x_px >=? hex_text_x layout) || ScreenArea_eqb type_hint SA_HEX then
      (* Mouse in hex area. *)
      let line_offset := offset_near_x_hex (mouse_x_px - hex_text_x layout) in
      let real_offset :=
        if line_offset <? 0
        then Z.max (line_base - 1) 0
        else Z.min (line_base + line_offset) (line_end - 1) in
      ret (real_offset, SA_HEX)
    else
      (* Mouse in offset area. *)
      ret (-1, SA_NONE).

End RegionOnScreen.

(* ================================================================== *)
(** * [REHex::Disassemble]: the live preview *)
(* ================================================================== *)

Module Disassemble.

(** [struct Disassemble::Instruction] *)
Record Instruction := { length : Z; disasm : string }.

(** [std::map<off_t, Instruction>]: the entries in ascending order of
    their keys, one entry per key. *)
Definition InstructionMap := list (Z * Instruction).

(** [m.insert(std::make_pair(k, v))]: an entry already under [k] stays. *)
Fixpoint map_insert (k : Z) (v : Instruction) (m : InstructionMap) : InstructionMap :=
  match m with
  | [] => [(k, v)]
  | (k', v') :: m' =>
      if k <? k' then (k, v) :: m
      else if k =? k' then m
      else (k', v') :: map_insert k v m'
  end.

(** [m.find(k) != m.end()] *)
Definition map_has (m : InstructionMap) (k : Z) : bool :=
  existsb (fun e => fst e =? k) m.

(** [m.lower_bound(k)]: the position of the first entry whose key is not
    less than [k]. *)
Fixpoint lower_bound (m : InstructionMap) (k : Z) : nat :=
  match m with
  | [] => O
  | (k', _) :: m' => if k' <? k then S (lower_bound m' k) else O
  end.

(** A line of the [CodeCtrl], and what [update] leaves on display. *)
Record Line := { line_offset : Z; text : string; active : bool }.

Record Display := {
  lines       : list Line;     (* clear(), then append_line(...) *)
  center_line : option Z       (* center_line(...), when called *)
}.

(** Size of window to load to try disassembling. *)
Definition WINDOW_SIZE : Z := 256.

Section Preview.

(** [cs_disasm_iter] on the panel's handle ([CS_OPT_SKIPDATA] is off). *)
Variable cs_disasm_iter : list byte -> Z -> option cs_insn.

(** [document->read_data(offset, max_length)] *)
Variable read_data : Z -> Z -> ReadResult.

Definition disassemble_body (instructions : InstructionMap)
    (address : Z) (bytes : list byte) (insn : cs_insn) : InstructionMap :=
  map_insert address
    {| length := size insn; disasm := snprintf_disasm insn |}
    instructions.

(** [disassemble(offset, code, size)]; [None] when the loop does not
    end. *)
Definition disassemble (offset : Z) (code : list byte) : option InstructionMap :=
  cs_disasm_while cs_disasm_iter (S (List.length code))
                  disassemble_body code offset [].

(** Step 1 accepts a disassembly with an instruction that starts at
    [position]. *)
Definition starts_at (position : Z) (i_instructions : InstructionMap) : bool :=
  map_has i_instructions position.

(** Step 2 accepts on the test
    [ii != begin() && ii != end() && (--ii, (ii->first + ii->second.length) > position)]
    with [ii = i_instructions.lower_bound(position)]. *)
Definition overlaps (position : Z) (i_instructions : InstructionMap) : bool :=
  let ii := lower_bound i_instructions position in
  negb (Nat.eqb ii 0)
  && negb (Nat.eqb ii (List.length i_instructions))
  && match nth_error i_instructions (Nat.pred ii) with
     | Some (first, second) => first + length second >? position
     | None => false
     end.

(** One of the two loops
    [for(doc_off = window_base, data_off = 0;
         doc_off <= position && data_off < data.size(); ++doc_off, ++data_off)]:
    [data] is what is left of the window from [data_off] on.  The answer
    is the disassembly taken, empty when the loop ends without one. *)
Fixpoint search (accept : InstructionMap -> bool) (position doc_off : Z)
    (data : list byte) : option InstructionMap :=
  match data with
  | [] => Some []
  | _ :: rest =>
      if doc_off <=? position then
        match disassemble doc_off data with
        | None => None
        | Some i_instructions =>
            if accept i_instructions then Some i_instructions
            else search accept position (doc_off + 1) rest
        end
      else Some []
  end.

(** The lines shown for a disassembly, and the line that is centred. *)
Fixpoint show (position : Z) (instructions : InstructionMap)
    (this_line highlighted_line : Z) : list Line * Z :=
  match instructions with
  | [] => ([], highlighted_line)
  | (first, second) :: rest =>
      if (first <=? position) && (first + length second >? position)
      then
        let shown := show position rest (this_line + 1) this_line in
        ({| line_offset := first; text := disasm second; active := true |}
           :: fst shown, snd shown)
      else
        let shown := show position rest (this_line + 1) highlighted_line in
        ({| line_offset := first; text := disasm second; active := false |}
           :: fst shown, snd shown)
  end.

(** [update()], for the cursor at [position]; [shown] is what the control
    shows before.  [None] when a disassembly does not end. *)
Definition update (is_visible disassembler_open : bool) (position : Z)
    (shown : Display) : option Display :=
  if negb is_visible then Some shown
  else if negb disassembler_open then
    Some {| lines := [ {| line_offset := 0; text := "<error>"; active := false |} ];
            center_line := center_line shown |}
  else
    let window_base := Z.max (position - Z.quot WINDOW_SIZE 2) 0 in
    match read_data window_base WINDOW_SIZE with
    | ReadError what =>
        Some {| lines := [ {| line_offset := window_base; text := what;
                              active := false |} ];
                center_line := center_line shown |}
    | ReadOk data =>
        (* Step 1 *)
        match search (starts_at position) position window_base data with
        | None => None
        | Some instructions =>
            (* Step 2 *)
            match (if Nat.eqb (List.length instructions) 0
                   then search (overlaps position) position window_base data
                   else Some instructions) with
            | None => None
            | Some instructions =>
                if negb (Nat.eqb (List.length instructions) 0) then
                  let shown := show position instructions 0 0 in
                  Some {| lines := fst shown; center_line := Some (snd shown) |}
                else
                  Some {| lines := [ {| line_offset := position;
                                        text := "<invalid instruction>";
                                        active := true |} ];
                          center_line := center_line shown |}
            end
        end
    end.

End Preview.

End Disassemble.

(* ================================================================== *)
(** * A small decoder and a document in memory *)
(* ================================================================== *)

(** Three instructions of x86 ([nop], [xor eax, eax], [mov eax, imm32]) and a
    document that is a buffer of bytes: enough to run the definitions. *)
Module Sample.

Definition insn_nop : cs_insn :=
  {| size := 1; mnemonic := "nop"; op_str := "" |}.
Definition insn_xor : cs_insn :=
  {| size := 2; mnemonic := "xor"; op_str := "eax, eax" |}.
Definition insn_mov : cs_insn :=
  {| size := 5; mnemonic := "mov"; op_str := "eax, imm32" |}.
(** What Capstone makes of a byte it skips as data. *)
Definition insn_data : cs_insn :=
  {| size := 1; mnemonic := ".byte"; op_str := "data" |}.

(** [cs_disasm_iter]; [skipdata] is the option [CS_OPT_SKIPDATA]. *)
Definition decode (skipdata : bool) (code : list byte) (address : Z)
  : option cs_insn :=
  match code with
  | [] => None
  | b :: rest =>
      if Byte.eqb b x90 then Some insn_nop
      else if Byte.eqb b x31 && match rest with
                                | b' :: _ => Byte.eqb b' xc0
                                | [] => false
                                end
      then Some insn_xor
      else if Byte.eqb b xb8 && (4 <=? List.length rest)%nat
      then Some insn_mov
      else if skipdata then Some insn_data else None
  end.

(** [read_data] of a document whose content is [buf]. *)
Definition buffer_read_data (buf : list byte) (offset max_length : Z) : ReadResult :=
  if (offset <? 0) || (vsize buf <? offset)
  then ReadError "offset out of range"
  else ReadOk (firstn (Z.to_nat max_length) (skipn (Z.to_nat offset) buf)).

(** [read_data] of a document whose file cannot be read. *)
Definition failing_read_data (offset max_length : Z) : ReadResult :=
  ReadError "Input/output error".

(** [xor eax, eax; nop; mov eax, 1; hlt] *)
Definition code9 : list byte :=
  [x31; xc0; x90; xb8; x01; x00; x00; x00; xf4].

Definition start (r : Region) : State := {| rgn := r; trace := [] |}.

(** [nop; mov eax, 1], and a region over it that has decoded the [nop]. *)
Definition code6 : list byte := [x90; xb8; x01; x00; x00; x00].

Definition nop_done : Region :=
  {| d_offset := 0; d_length := 6; indent_final := 0; y_lines := 0;
     dirty := [ {| ByteRangeSet.offset := 1; ByteRangeSet.length := 5 |} ];
     processed := [ {| InstructionRange.offset := 0;
                       InstructionRange.length := 1;
                       InstructionRange.longest_instruction := 1;
                       InstructionRange.longest_disasm := 4;
                       InstructionRange.rel_y_offset := 0;
                       InstructionRange.y_lines := 1 |} ];
     instructions := [];
     longest_instruction := 1; longest_disasm := 4 |}.

(** A region over [code9], processed in one step; nothing is cached yet. *)
Definition code9_done : Region :=
  {| d_offset := 0; d_length := 9; indent_final := 0; y_lines := 0;
     dirty := [];
     processed := [ {| InstructionRange.offset := 0;
                       InstructionRange.length := 9;
                       InstructionRange.longest_instruction := 5;
                       InstructionRange.longest_disasm := 14;
                       InstructionRange.rel_y_offset := 0;
                       InstructionRange.y_lines := 4 |} ];
     instructions := [];
     longest_instruction := 5; longest_disasm := 14 |}.

(** [code9] followed by [code6], and a region over the fifteen bytes,
    processed in two chunks.  In [two_chunks] nothing is cached; in
    [first_cached] and [second_cached] the instructions of the first and of
    the second chunk are; in [both_cached] those of both chunks. *)
Definition code15 : list byte := code9 ++ code6.

Definition two_chunks : Region :=
  {| d_offset := 0; d_length := 15; indent_final := 0; y_lines := 0;
     dirty := [];
     processed := [ {| InstructionRange.offset := 0;
                       InstructionRange.length := 9;
                       InstructionRange.longest_instruction := 5;
                       InstructionRange.longest_disasm := 14;
                       InstructionRange.rel_y_offset := 0;
                       InstructionRange.y_lines := 4 |};
                    {| InstructionRange.offset := 9;
                       InstructionRange.length := 6;
                       InstructionRange.longest_instruction := 5;
                       InstructionRange.longest_disasm := 14;
                       InstructionRange.rel_y_offset := 4;
                       InstructionRange.y_lines := 2 |} ];
     instructions := [];
     longest_instruction := 5; longest_disasm := 14 |}.

Definition second_cached : Region :=
  Eval vm_compute in
    rgn (snd (instruction_by_offset false (decode true) (buffer_read_data code15)
                                    2 10 (start two_chunks))).


Definition both_cached : Region :=
  Eval vm_compute in
    rgn (snd (instruction_by_offset false (decode true) (buffer_read_data code15)
                                    2 4 (start second_cached))).

(** What the preview shows before a call of [update]. *)
Definition blank : Disassemble.Display :=
  {| Disassemble.lines := []; Disassemble.center_line := None |}.

End Sample.

(** One call of [check()] on a state, whatever its outcome, and [n] calls in
    a row. *)
Definition after_check (NDEBUG : bool) (cs_disasm_iter : list byte -> Z -> option cs_insn)
    (read_data : Z -> Z -> ReadResult) (s : State) : State :=
  snd (check NDEBUG cs_disasm_iter read_data s).

Fixpoint after_checks (NDEBUG : bool) (cs_disasm_iter : list byte -> Z -> option cs_insn)
    (read_data : Z -> Z -> ReadResult) (n : nat) (s : State) : State :=
  match n with
  | O => s
  | S n' => after_checks NDEBUG cs_disasm_iter read_data n'
              (after_check NDEBUG cs_disasm_iter read_data s)
  end.

(* ================================================================== *)
(** * What is assumed of Capstone and of the document *)
(* ================================================================== *)

(** An instruction that [cs_disasm_iter] hands out has at least one byte and
    no more bytes than it was given. *)
Definition decoder_ok (cs_disasm_iter : list byte -> Z -> option cs_insn) : Prop :=
  forall code address insn,
    cs_disasm_iter code address = Some insn ->
    0 < size insn <= vsize code.

(** [read_data(offset, max_length)] returns at most [max_length] bytes. *)
Definition read_ok (read_data : Z -> Z -> ReadResult) : Prop :=
  forall offset max_length data,
    0 <= max_length ->
    read_data offset max_length = ReadOk data ->
    vsize data <= max_length.

(* ================================================================== *)
(** * Predicates of the statements *)
(* ================================================================== *)

(** The chunks follow one another without a gap: the first starts at byte
    [byte_off] and line [line_off], each next one where the one before
    ends. *)
Fixpoint contiguous (byte_off line_off : Z) (chunks : list InstructionRange.t) : Prop :=
  match chunks with
  | [] => True
  | c :: rest =>
      InstructionRange.offset c = byte_off
      /\ InstructionRange.rel_y_offset c = line_off
      /\ contiguous (InstructionRange.offset c + InstructionRange.length c)
                    (InstructionRange.rel_y_offset c + InstructionRange.y_lines c)
                    rest
  end.

(** No chunk has a negative number of bytes or lines. *)
Definition chunks_nonneg (chunks : list InstructionRange.t) : Prop :=
  Forall (fun c => 0 <= InstructionRange.length c /\ 0 <= InstructionRange.y_lines c)
         chunks.

(** The chunks are in ascending order, in bytes and in lines: of two
    chunks, the earlier one ends before the later one starts. *)
Definition chunks_ordered (chunks : list InstructionRange.t) : Prop :=
  forall i j a b,
    (i < j)%nat ->
    nth_error chunks i = Some a -> nth_error chunks j = Some b ->
    InstructionRange.offset a + InstructionRange.length a <= InstructionRange.offset b
    /\ InstructionRange.rel_y_offset a + InstructionRange.y_lines a
       <= InstructionRange.rel_y_offset b.

(** Byte [o] lies in the span of chunk [c]. *)
Definition in_chunk (c : InstructionRange.t) (o : Z) : Prop :=
  InstructionRange.offset c <= o < InstructionRange.offset c + InstructionRange.length c.

(** Byte [o] lies in the span of instruction [i]. *)
Definition covers (i : Instruction.t) (o : Z) : Prop :=
  Instruction.offset i <= o < Instruction.offset i + Instruction.length i.

(** What the region keeps true between two calls. *)
Record region_inv (r : Region) : Prop := {
  inv_length   : 0 <= d_length r;
  inv_chunks   : contiguous (d_offset r) 0 (processed r);
  inv_nonneg   : chunks_nonneg (processed r);
  inv_frontier : unprocessed_offset r <= d_offset r + d_length r;
  inv_dirty    : dirty r = ByteRangeSet.set_range [] (unprocessed_offset r)
                                                  (unprocessed_bytes r)
}.

(** Spans in ascending order: each has a positive length and starts at or
    after [lo] and at or after the end of the one before. *)
Fixpoint cache_ordered (lo : Z) (v : list Instruction.t) : Prop :=
  match v with
  | [] => True
  | i :: rest =>
      lo <= Instruction.offset i
      /\ 0 < Instruction.length i
      /\ cache_ordered (Instruction.offset i + Instruction.length i) rest
  end.

(** A decoded instruction, as the loop hands it to its body. *)
Record Decoded := {
  dec_address : Z;
  dec_bytes   : list byte;
  dec_insn    : cs_insn
}.

(** The instructions that the loop goes through, in a list. *)
Fixpoint cs_disasm_list (cs_disasm_iter : list byte -> Z -> option cs_insn)
    (fuel : nat) (code : list byte) (address : Z) : option (list Decoded) :=
  match fuel with
  | O => None
  | S fuel' =>
      match cs_disasm_iter code address with
      | None => Some []
      | Some insn =>
          let n := Z.to_nat (size insn) in
          match cs_disasm_list cs_disasm_iter fuel' (skipn n code) (address + size insn) with
          | Some l => Some ({| dec_address := address; dec_bytes := firstn n code;
                               dec_insn := insn |} :: l)
          | None => None
          end
      end
  end.

(** The bytes that a list of decoded instructions takes. *)
Definition total_size (l : list Decoded) : Z :=
  fold_right (fun d acc => size (dec_insn d) + acc) 0 l.

(** The instructions that decoding the bytes [data] of chunk [ir] puts in
    the cache. *)
Definition chunk_instructions (cs_disasm_iter : list byte -> Z -> option cs_insn)
    (ir : InstructionRange.t) (data : list byte) : option (list Instruction.t) :=
  cs_disasm_while cs_disasm_iter (S (List.length data)) (decode_body ir)
                  data (InstructionRange.offset ir) [].

(** Every instruction of the cache comes from decoding a chunk of the
    region, read from the document. *)
Definition cache_from_chunks (cs_disasm_iter : list byte -> Z -> option cs_insn)
    (read_data : Z -> Z -> ReadResult) (r : Region) : Prop :=
  forall i, In i (instructions r) ->
    exists ir data batch,
      In ir (processed r)
      /\ read_data (InstructionRange.offset ir) (InstructionRange.length ir) = ReadOk data
      /\ chunk_instructions cs_disasm_iter ir data = Some batch
      /\ In i batch.

(** [clear()] of the cache. *)
Definition clear_cache (s : State) : State :=
  {| rgn := set_instructions [] (rgn s); trace := trace s |}.

(** The flag [f] is set in [state]. *)
Definition has_flag (state f : Z) : bool := negb (Z.land state f =? 0).

(** The sum of the line counts of the chunks. *)
Definition chunk_lines (chunks : list InstructionRange.t) : Z :=
  fold_right (fun c acc => InstructionRange.y_lines c + acc) 0 chunks.

(** The instructions of a list follow one another from [address], each with
    at least one byte. *)
Fixpoint decoded_chain (address : Z) (l : list Decoded) : Prop :=
  match l with
  | [] => True
  | d :: rest =>
      dec_address d = address
      /\ 0 < size (dec_insn d)
      /\ decoded_chain (address + size (dec_insn d)) rest
  end.

(** The cache entries that [decode_body] makes of a list of decoded
    instructions, the first on line [n] of the chunk. *)
Fixpoint to_instructions (ir : InstructionRange.t) (n : Z) (l : list Decoded)
  : list Instruction.t :=
  match l with
  | [] => []
  | d :: rest =>
      {| Instruction.offset := dec_address d;
         Instruction.length := size (dec_insn d);
         Instruction.data := dec_bytes d;
         Instruction.disasm := snprintf_disasm (dec_insn d);
         Instruction.rel_y_offset := InstructionRange.rel_y_offset ir + n |}
      :: to_instructions ir (n + 1) rest
  end.

(** The chunk that [check] starts from, before its loop. *)
Definition empty_chunk (r : Region) (process_base : Z) : InstructionRange.t :=
  {| InstructionRange.offset := process_base;
     InstructionRange.length := 0;
     InstructionRange.longest_instruction := 0;
     InstructionRange.longest_disasm := 0;
     InstructionRange.rel_y_offset :=
       match back (processed r) with
       | None => 0
       | Some b => InstructionRange.rel_y_offset b + InstructionRange.y_lines b
       end;
     InstructionRange.y_lines := 0 |}.

(** The region once [check] has appended the chunk [new_ir]. *)
Definition with_chunk (r : Region) (new_ir : InstructionRange.t) : Region :=
  {| d_offset := d_offset r; d_length := d_length r;
     indent_final := indent_final r; y_lines := y_lines r;
     dirty := ByteRangeSet.clear_range (dirty r)
                (InstructionRange.offset new_ir) (InstructionRange.length new_ir);
     processed := processed r ++ [new_ir];
     instructions := instructions r;
     longest_instruction :=
       Z.max (longest_instruction r) (InstructionRange.longest_instruction new_ir);
     longest_disasm :=
       Z.max (longest_disasm r) (InstructionRange.longest_disasm new_ir) |}.

(** The first dirty range starts where the last chunk ends: the assertion
    of [check]. *)
Definition frontier_test (r : Region) (process_base : Z) : bool :=
  match back (processed r) with
  | None => true
  | Some b => InstructionRange.offset b + InstructionRange.length b =? process_base
  end.

(** Where a list of chunks that starts at [byte_off] ends, and the bytes it
    holds. *)
Definition chunks_end (byte_off : Z) (chunks : list InstructionRange.t) : Z :=
  match back chunks with
  | None => byte_off
  | Some b => InstructionRange.offset b + InstructionRange.length b
  end.

Definition lines_end (line_off : Z) (chunks : list InstructionRange.t) : Z :=
  match back chunks with
  | None => line_off
  | Some b => InstructionRange.rel_y_offset b + InstructionRange.y_lines b
  end.

Definition chunk_bytes (chunks : list InstructionRange.t) : Z :=
  fold_right (fun c acc => InstructionRange.length c + acc) 0 chunks.

(** A call of [check] ends in a return or in the exception of a failed
    read. *)
Definition returns_or_throws {A : Type} (o : Outcome A) : Prop :=
  match o with
  | Returned _ | Thrown _ => True
  | AssertFailed | Undefined | Diverged => False
  end.

(** Spans in ascending order, for the two binary searches: each span has a
    length that is not negative, starts at or after [lo] and at or after the
    end of the one before. *)
Fixpoint spans_sorted {A : Type} (key len : A -> Z) (lo : Z) (v : list A) : Prop :=
  match v with
  | [] => True
  | x :: rest =>
      lo <= key x /\ 0 <= len x /\ spans_sorted key len (key x + len x) rest
  end.

(** The cache is in offset order: every instruction has a byte at least,
    and of two instructions the earlier one ends at or before the start of
    the later one. *)
Definition in_offset_order (v : list Instruction.t) : Prop :=
  Forall (fun i => 0 < Instruction.length i) v
  /\ ForallOrdPairs
       (fun a b => Instruction.offset a + Instruction.length a <= Instruction.offset b) v.

(** The span of instruction [i] and the span of chunk [ir] share no byte. *)
Definition outside_chunk (ir : InstructionRange.t) (i : Instruction.t) : Prop :=
  Instruction.offset i + Instruction.length i <= InstructionRange.offset ir
  \/ InstructionRange.offset ir + InstructionRange.length ir <= Instruction.offset i.

(** The cache once [instruction_by_offset] has inserted [batch], found for
    [abs_offset]. *)
Definition cache_after_insert (cache batch : list Instruction.t) (abs_offset : Z)
  : list Instruction.t :=
  if vsize cache + vsize batch >? INSTRUCTION_CACHE_LIMIT
  then batch
  else insert_at (upper_bound Instruction.offset cache abs_offset) batch cache.

(** The document does not change between two reads: a shorter read at the
    same offset returns the first bytes of a longer one. *)
Definition read_stable (read_data : Z -> Z -> ReadResult) : Prop :=
  forall offset max_length data shorter,
    read_data offset max_length = ReadOk data ->
    0 <= shorter <= vsize data ->
    read_data offset shorter = ReadOk (firstn (Z.to_nat shorter) data).

(** An instruction decoded from a buffer is decoded from every prefix of
    the buffer that holds it. *)
Definition decoder_stable (cs_disasm_iter : list byte -> Z -> option cs_insn) : Prop :=
  forall code address insn n,
    cs_disasm_iter code address = Some insn ->
    size insn <= n ->
    cs_disasm_iter (firstn (Z.to_nat n) code) address = Some insn.

(** Decoding chunk [c] again, as [instruction_by_offset] does, gives
    instructions that cover every byte of the chunk. *)
Definition chunk_decodes (cs_disasm_iter : list byte -> Z -> option cs_insn)
    (read_data : Z -> Z -> ReadResult) (c : InstructionRange.t) : Prop :=
  exists data batch,
    read_data (InstructionRange.offset c) (InstructionRange.length c) = ReadOk data
    /\ chunk_instructions cs_disasm_iter c data = Some batch
    /\ forall o, in_chunk c o -> exists i, In i batch /\ covers i o.

(** A chunk is in the cache with all its instructions or with none. *)
Definition chunks_cached_whole (cs_disasm_iter : list byte -> Z -> option cs_insn)
    (read_data : Z -> Z -> ReadResult) (r : Region) : Prop :=
  forall ir data batch i,
    In ir (processed r) ->
    read_data (InstructionRange.offset ir) (InstructionRange.length ir) = ReadOk data ->
    chunk_instructions cs_disasm_iter ir data = Some batch ->
    In i batch -> In i (instructions r) ->
    forall j, In j batch -> In j (instructions r).

(** What the region keeps true between two calls, the cache included. *)
Record lookup_inv (cs_disasm_iter : list byte -> Z -> option cs_insn)
    (read_data : Z -> Z -> ReadResult) (r : Region) : Prop := {
  li_region  : region_inv r;
  li_decodes : Forall (chunk_decodes cs_disasm_iter read_data) (processed r);
  li_order   : in_offset_order (instructions r);
  li_from    : cache_from_chunks cs_disasm_iter read_data r;
  li_whole   : chunks_cached_whole cs_disasm_iter read_data r
}.

(** The states that calls of [check] and of [instruction_by_offset] lead to
    from a region as the constructor leaves it. *)
Inductive reachable (NDEBUG : bool) (cs_disasm_iter : list byte -> Z -> option cs_insn)
    (read_data : Z -> Z -> ReadResult) : State -> Prop :=
| reach_new : forall offset length events,
    0 <= length ->
    reachable NDEBUG cs_disasm_iter read_data
      {| rgn := DisassemblyRegion_new offset length; trace := events |}
| reach_check : forall s,
    reachable NDEBUG cs_disasm_iter read_data s ->
    reachable NDEBUG cs_disasm_iter read_data
      (after_check NDEBUG cs_disasm_iter read_data s)
| reach_lookup : forall s fuel abs_offset,
    reachable NDEBUG cs_disasm_iter read_data s ->
    reachable NDEBUG cs_disasm_iter read_data
      (snd (instruction_by_offset NDEBUG cs_disasm_iter read_data fuel abs_offset s)).

(* ================================================================== *)
(** * Predicates for the rest of the region *)
(* ================================================================== *)

(** What the loop of [check] builds from the instructions it decodes: the
    chunk, and the flags so far. *)
Definition summarize (r : Region) (process_base : Z) (l : list Decoded)
  : InstructionRange.t * Z :=
  fold_left (fun a d => check_body a (dec_address d) (dec_bytes d) (dec_insn d))
            l (empty_chunk r process_base, StateFlag.IDLE).

(** The flags that [check] returns after its loop has built [acc]. *)
Definition check_state (r : Region) (acc : InstructionRange.t * Z) : Z :=
  let state := snd acc in
  let state :=
    if InstructionRange.longest_instruction (fst acc) >? longest_instruction r
    then Z.lor state StateFlag.WIDTH_CHANGE else state in
  let state :=
    if InstructionRange.longest_disasm (fst acc) >? longest_disasm r
    then Z.lor state StateFlag.WIDTH_CHANGE else state in
  if negb (ByteRangeSet.empty (dirty (with_chunk r (fst acc))))
  then Z.lor state StateFlag.PROCESSING else state.

(** With [CS_OPT_SKIPDATA] on and a skip of one byte, a buffer that holds a
    byte gives an instruction. *)
Definition decoder_skips_data (cs_disasm_iter : list byte -> Z -> option cs_insn)
  : Prop :=
  forall code address, code <> [] -> cs_disasm_iter code address <> None.

(** The document holds the bytes of [offset, offset + length): a read
    inside gives at least one byte. *)
Definition document_holds (read_data : Z -> Z -> ReadResult) (offset length : Z)
  : Prop :=
  forall o n,
    offset <= o -> 0 < n -> o + n <= offset + length ->
    exists data, read_data o n = ReadOk data /\ data <> [].


(** Chunk [c] is the summary of what decoding its bytes gives: the
    instructions [l] take its length, are as many as its lines, and none is
    longer than its [longest_instruction]. *)
Definition chunk_summary (cs_disasm_iter : list byte -> Z -> option cs_insn)
    (read_data : Z -> Z -> ReadResult) (c : InstructionRange.t)
    (l : list Decoded) : Prop :=
  exists data,
    read_data (InstructionRange.offset c) (InstructionRange.length c) = ReadOk data
    /\ cs_disasm_list cs_disasm_iter (S (List.length data)) data
                      (InstructionRange.offset c) = Some l
    /\ decoded_chain (InstructionRange.offset c) l
    /\ total_size l = InstructionRange.length c
    /\ vsize l = InstructionRange.y_lines c
    /\ Forall (fun d => size (dec_insn d) <= InstructionRange.longest_instruction c) l
    /\ 0 <= InstructionRange.longest_instruction c <= InstructionRange.length c
    /\ InstructionRange.length c <= SOFT_IR_LIMIT.

(** What the region keeps true of the summaries of its chunks. *)
Record summary_inv (cs_disasm_iter : list byte -> Z -> option cs_insn)
    (read_data : Z -> Z -> ReadResult) (r : Region) : Prop := {
  si_chunks : Forall (fun c => exists l, chunk_summary cs_disasm_iter read_data c l)
                     (processed r);
  si_widest : Forall (fun c => InstructionRange.longest_instruction c
                               <= longest_instruction r) (processed r);
  si_limit  : 0 <= longest_instruction r <= SOFT_IR_LIMIT
}.


(** Line [line] of the region is a line of chunk [c]. *)
Definition in_chunk_lines (c : InstructionRange.t) (line : Z) : Prop :=
  InstructionRange.rel_y_offset c <= line
  < InstructionRange.rel_y_offset c + InstructionRange.y_lines c.


(** What the region keeps true of its cache, its chunks and their
    summaries. *)
Record cache_inv (cs_disasm_iter : list byte -> Z -> option cs_insn)
    (read_data : Z -> Z -> ReadResult) (r : Region) : Prop := {
  ci_lookup  : lookup_inv cs_disasm_iter read_data r;
  ci_summary : summary_inv cs_disasm_iter read_data r;
  ci_size    : vsize (instructions r) <= INSTRUCTION_CACHE_LIMIT
}.


(** Instruction [i] is one of the instructions of the region: one of those
    that the summary of a chunk was made of, as [decode_body] writes it. *)
Definition region_instruction (cs_disasm_iter : list byte -> Z -> option cs_insn)
    (read_data : Z -> Z -> ReadResult) (r : Region) (i : Instruction.t) : Prop :=
  exists c l,
    In c (processed r)
    /\ chunk_summary cs_disasm_iter read_data c l
    /\ In i (to_instructions c 0 l).


(** The entries of a disassembly of the preview follow one another from
    [offset], each with at least one byte. *)
Fixpoint preview_chain (offset : Z) (m : Disassemble.InstructionMap) : Prop :=
  match m with
  | [] => True
  | (k, v) :: rest =>
      k = offset /\ 0 < Disassemble.length v
      /\ preview_chain (k + Disassemble.length v) rest
  end.

(** The bytes that the entries of a disassembly take. *)
Definition preview_bytes (m : Disassemble.InstructionMap) : Z :=
  fold_right (fun e acc => Disassemble.length (snd e) + acc) 0 m.

(** The entry that [disassemble] makes of a decoded instruction. *)
Definition preview_entry (d : Decoded) : Z * Disassemble.Instruction :=
  (dec_address d,
   {| Disassemble.length := size (dec_insn d);
      Disassemble.disasm := snprintf_disasm (dec_insn d) |}).


(** The line that [update] shows for an entry of a disassembly. *)
Definition preview_line (position : Z) (e : Z * Disassemble.Instruction)
  : Disassemble.Line :=
  {| Disassemble.line_offset := fst e;
     Disassemble.text := Disassemble.disasm (snd e);
     Disassemble.active :=
       (fst e <=? position) && (fst e + Disassemble.length (snd e) >? position) |}.

(** Line [idx] is the one active line of a display. *)
Definition one_active_line (d : Disassemble.Display) (idx : nat)
    (line : Disassemble.Line) : Prop :=
  nth_error (Disassemble.lines d) idx = Some line
  /\ Disassemble.active line = true
  /\ forall j l, nth_error (Disassemble.lines d) j = Some l ->
                 Disassemble.active l = true -> j = idx.


Unset Implicit Arguments.

(* ================================================================== *)
(** * Lemmas on the containers *)
(* ================================================================== *)

Lemma back_app : forall (A : Type) (v : list A) (x : A), back (v ++ [x]) = Some x.
Proof.
  induction v as [|y v IH]; intros x; simpl; [reflexivity|].
  rewrite IH. destruct (v ++ [x]) eqn:E; [|reflexivity].
  destruct v; discriminate.
Qed.

Lemma back_nil_inv : forall (A : Type) (v : list A), back v = None -> v = [].
Proof.
  induction v as [|y v IH]; intros H; [reflexivity|].
  simpl in H. destruct v as [|z v]; [discriminate|].
  apply IH in H. discriminate.
Qed.

Lemma vsize_app : forall (A : Type) (u v : list A), vsize (u ++ v) = vsize u + vsize v.
Proof. intros. unfold vsize. rewrite length_app. lia. Qed.

Lemma vsize_nonneg : forall (A : Type) (v : list A), 0 <= vsize v.
Proof. intros. unfold vsize. lia. Qed.

Module ByteRangeSetFacts.
Import ByteRangeSet.

Lemma cut_isset : forall clear_off clear_len r o,
  0 < clear_len ->
  (exists p, In p (cut clear_off clear_len r) /\ contains p o)
  <-> contains r o /\ ~ (clear_off <= o < clear_off + clear_len).
Proof.
  intros clear_off clear_len r o Hlen. unfold cut, contains, range_end.
  split.
  - intros [p [Hin Hc]]. apply in_app_or in Hin.
    destruct Hin as [Hin | Hin].
    + destruct (Z.ltb_spec (offset r) (Z.min (offset r + length r) clear_off));
        [|contradiction].
      destruct Hin as [<- | []]. simpl in Hc. lia.
    + destruct (Z.ltb_spec (Z.max (offset r) (clear_off + clear_len))
                           (offset r + length r)); [|contradiction].
      destruct Hin as [<- | []]. simpl in Hc. lia.
  - intros [Hc Hout].
    destruct (Z_lt_le_dec o clear_off) as [Hlo | Hhi].
    + eexists. split.
      * apply in_or_app. left.
        destruct (Z.ltb_spec (offset r) (Z.min (offset r + length r) clear_off));
          [left; reflexivity | lia].
      * simpl. lia.
    + eexists. split.
      * apply in_or_app. right.
        destruct (Z.ltb_spec (Z.max (offset r) (clear_off + clear_len))
                             (offset r + length r));
          [left; reflexivity | lia].
      * simpl. lia.
Qed.

(** [clear_range] takes exactly the bytes of the range out of the set. *)
Lemma clear_range_isset : forall s clear_off clear_len o,
  isset (clear_range s clear_off clear_len) o
  <-> isset s o /\ ~ (clear_off <= o < clear_off + clear_len).
Proof.
  intros s clear_off clear_len o. unfold clear_range, isset.
  destruct (Z.leb_spec clear_len 0) as [Hle | Hlt].
  - split; [intros H; split; [exact H | lia] | intros [H _]; exact H].
  - split.
    + intros [p [Hin Hc]]. apply in_flat_map in Hin.
      destruct Hin as [r [Hr Hp]].
      destruct (proj1 (cut_isset clear_off clear_len r o Hlt)) as [H1 H2].
      { exists p. split; assumption. }
      split; [exists r; split; assumption | exact H2].
    + intros [[r [Hr Hc]] Hout].
      destruct (proj2 (cut_isset clear_off clear_len r o Hlt)) as [p [Hp Hpc]].
      { split; assumption. }
      exists p. split; [|exact Hpc].
      apply in_flat_map. exists r. split; assumption.
Qed.

Lemma cut_wf : forall clear_off clear_len r, wf (cut clear_off clear_len r).
Proof.
  intros. unfold cut, wf. apply Forall_app. split.
  - destruct (Z.ltb_spec (offset r) (Z.min (range_end r) clear_off));
      constructor; [simpl; lia | constructor].
  - destruct (Z.ltb_spec (Z.max (offset r) (clear_off + clear_len)) (range_end r));
      constructor; [simpl; lia | constructor].
Qed.

Lemma clear_range_wf : forall s clear_off clear_len,
  wf s -> wf (clear_range s clear_off clear_len).
Proof.
  intros s clear_off clear_len H. unfold clear_range.
  destruct (clear_len <=? 0); [exact H|].
  clear H. induction s as [|r s IH]; simpl; [constructor|].
  apply Forall_app. split; [apply cut_wf | exact IH].
Qed.

(** A set whose ranges are not empty is empty exactly when it holds no
    byte. *)
Lemma not_empty_iff : forall s,
  wf s -> (empty s = false <-> exists o, isset s o).
Proof.
  intros s H. destruct s as [|r s]; simpl.
  - split; [discriminate | intros [o [p [[] _]]]].
  - split; [|reflexivity]. intros _.
    inversion H as [|? ? Hr _]; subst.
    exists (offset r), r. split; [now left|].
    unfold contains, range_end. lia.
Qed.

Lemma set_range_nil : forall set_off set_len,
  set_range [] set_off set_len
  = if set_len <=? 0 then []
    else [ {| offset := set_off; length := set_len |} ].
Proof.
  intros. unfold set_range. destruct (set_len <=? 0); [reflexivity|].
  simpl. do 2 f_equal. lia.
Qed.

(** Taking the first [n] bytes out of a set of one range. *)
Lemma clear_range_prefix : forall off len n,
  0 <= n <= len ->
  clear_range (set_range [] off len) off n = set_range [] (off + n) (len - n).
Proof.
  intros off len n Hn. rewrite !set_range_nil. unfold clear_range.
  destruct (Z.leb_spec len 0) as [H0 | H0].
  - destruct (Z.leb_spec (len - n) 0); [|lia].
    destruct (n <=? 0); reflexivity.
  - destruct (Z.leb_spec n 0) as [Hn0 | Hn0].
    + assert (n = 0) by lia. subst n.
      destruct (Z.leb_spec (len - 0) 0); [lia|].
      do 2 f_equal; lia.
    + simpl. unfold cut, range_end. simpl.
      destruct (Z.ltb_spec off (Z.min (off + len) off)); [lia|].
      destruct (Z.ltb_spec (Z.max off (off + n)) (off + len)) as [H1 | H1];
        destruct (Z.leb_spec (len - n) 0); try lia; simpl; [|reflexivity].
      do 2 f_equal; lia.
Qed.

End ByteRangeSetFacts.

(* ================================================================== *)
(** * Lemmas on the decoding loop *)
(* ================================================================== *)

Section DecodeFacts.

Variable cs_disasm_iter : list byte -> Z -> option cs_insn.

(** The loop is a fold of its body over the list of the instructions. *)
Lemma cs_disasm_while_list :
  forall (S : Type) (body : S -> Z -> list byte -> cs_insn -> S) fuel code address acc,
    cs_disasm_while cs_disasm_iter fuel body code address acc
    = match cs_disasm_list cs_disasm_iter fuel code address with
      | Some l =>
          Some (fold_left (fun a d => body a (dec_address d) (dec_bytes d) (dec_insn d))
                          l acc)
      | None => None
      end.
Proof.
  intros S body fuel. induction fuel as [|fuel IH]; intros code address acc; simpl.
  - reflexivity.
  - destruct (cs_disasm_iter code address) as [insn|]; [|reflexivity].
    rewrite IH.
    destruct (cs_disasm_list cs_disasm_iter fuel _ _); reflexivity.
Qed.

Hypothesis decoder_contract : decoder_ok cs_disasm_iter.

Lemma skipn_vsize : forall (A : Type) (v : list A) n,
  0 <= n <= vsize v -> vsize (skipn (Z.to_nat n) v) = vsize v - n.
Proof.
  intros A v n Hn. unfold vsize in *. rewrite length_skipn. lia.
Qed.

(** With an instruction of at least one byte per round, a loop over a
    buffer ends before the fuel does. *)
Lemma cs_disasm_list_ends : forall fuel code address,
  (List.length code < fuel)%nat ->
  exists l,
    cs_disasm_list cs_disasm_iter fuel code address = Some l
    /\ decoded_chain address l
    /\ 0 <= total_size l <= vsize code.
Proof.
  induction fuel as [|fuel IH]; intros code address Hfuel; [lia|].
  simpl. destruct (cs_disasm_iter code address) as [insn|] eqn:E.
  - pose proof (decoder_contract code address insn E) as Hsize.
    destruct (IH (skipn (Z.to_nat (size insn)) code) (address + size insn))
      as [l [Hl [Hchain Htotal]]].
    { rewrite length_skipn. unfold vsize in Hsize. lia. }
    rewrite Hl. eexists. split; [reflexivity|].
    rewrite skipn_vsize in Htotal by lia.
    split.
    + simpl. repeat split; [lia | exact Hchain].
    + unfold total_size in *. simpl. lia.
  - exists []. split; [reflexivity|]. split; [exact I|].
    unfold total_size. simpl. pose proof (vsize_nonneg _ code). lia.
Qed.

Lemma disasm_loop_returns :
  forall (S : Type) (body : S -> Z -> list byte -> cs_insn -> S) code address acc s,
  exists l,
    cs_disasm_list cs_disasm_iter (Datatypes.S (List.length code)) code address = Some l
    /\ decoded_chain address l
    /\ 0 <= total_size l <= vsize code
    /\ disasm_loop cs_disasm_iter body code address acc s
       = (Returned (fold_left (fun a d => body a (dec_address d) (dec_bytes d) (dec_insn d))
                              l acc), s).
Proof.
  intros S body code address acc s.
  destruct (cs_disasm_list_ends (Datatypes.S (List.length code)) code address)
    as [l [Hl [Hc Ht]]]; [lia|].
  exists l. repeat split; try assumption; try lia.
  unfold disasm_loop. rewrite cs_disasm_while_list, Hl. reflexivity.
Qed.

End DecodeFacts.

(** What the body of the loop of [check] adds up. *)
Lemma check_body_fold : forall l new_ir state,
  let acc := fold_left (fun a d => check_body a (dec_address d) (dec_bytes d) (dec_insn d))
                       l (new_ir, state) in
  InstructionRange.offset (fst acc) = InstructionRange.offset new_ir
  /\ InstructionRange.rel_y_offset (fst acc) = InstructionRange.rel_y_offset new_ir
  /\ InstructionRange.length (fst acc) = InstructionRange.length new_ir + total_size l
  /\ InstructionRange.y_lines (fst acc) = InstructionRange.y_lines new_ir + vsize l
  /\ has_flag (snd acc) StateFlag.PROCESSING = has_flag state StateFlag.PROCESSING.
Proof.
  induction l as [|d l IH]; intros new_ir state; simpl.
  - unfold total_size, vsize. simpl. repeat split; try lia.
  - specialize (IH (fst (check_body (new_ir, state) (dec_address d) (dec_bytes d) (dec_insn d)))
                   (snd (check_body (new_ir, state) (dec_address d) (dec_bytes d) (dec_insn d)))).
    rewrite <- surjective_pairing in IH.
    destruct IH as [H1 [H2 [H3 [H4 H5]]]].
    simpl in *. rewrite H1, H2, H3, H4, H5.
    repeat split.
    + unfold total_size. simpl. lia.
    + unfold vsize. change (List.length (d :: l)) with (S (List.length l)).
      rewrite Nat2Z.inj_succ. lia.
    + unfold has_flag, StateFlag.PROCESSING, StateFlag.HEIGHT_CHANGE.
      rewrite Z.land_lor_distr_l. change (Z.land 4 1) with 0.
      rewrite Z.lor_0_r. reflexivity.
Qed.

(** The body of the loop of [instruction_by_offset] appends one cache entry
    per instruction. *)
Lemma decode_body_fold : forall ir l acc,
  fold_left (fun a d => decode_body ir a (dec_address d) (dec_bytes d) (dec_insn d)) l acc
  = acc ++ to_instructions ir (vsize acc) l.
Proof.
  induction l as [|d l IH]; intros acc; simpl.
  - now rewrite app_nil_r.
  - rewrite IH. unfold decode_body. rewrite <- app_assoc. simpl.
    do 3 f_equal. rewrite vsize_app. reflexivity.
Qed.

Lemma to_instructions_bounds : forall ir l n address i,
  decoded_chain address l ->
  In i (to_instructions ir n l) ->
  address <= Instruction.offset i
  /\ 0 < Instruction.length i
  /\ Instruction.offset i + Instruction.length i <= address + total_size l.
Proof.
  induction l as [|d l IH]; intros n address i Hc Hin; simpl in *; [contradiction|].
  destruct Hc as [Ha [Hs Hc]].
  assert (Hpos : 0 <= total_size l).
  { clear -Hc. revert Hc. generalize (address + size (dec_insn d)).
    induction l as [|e l IHl]; intros a Hc; unfold total_size in *; simpl in *; [lia|].
    destruct Hc as [_ [Hs Hc]]. specialize (IHl _ Hc). lia. }
  unfold total_size in *. simpl.
  destruct Hin as [<- | Hin].
  - simpl. lia.
  - specialize (IH _ _ _ Hc Hin). lia.
Qed.

Lemma to_instructions_ordered : forall ir l n address,
  decoded_chain address l ->
  cache_ordered address (to_instructions ir n l).
Proof.
  induction l as [|d l IH]; intros n address Hc; simpl in *; [exact I|].
  destruct Hc as [Ha [Hs Hc]]. rewrite Ha.
  repeat split; [lia | exact Hs | apply IH; exact Hc].
Qed.

(* ================================================================== *)
(** * What one call of [check] does *)
(* ================================================================== *)

Section CheckFacts.

Variable NDEBUG : bool.
Variable cs_disasm_iter : list byte -> Z -> option cs_insn.
Variable read_data : Z -> Z -> ReadResult.

(** The end of [check], from the chunk that its loop has built. *)
Lemma check_tail : forall s first rest data acc s1,
  dirty (rgn s) = first :: rest ->
  read_data (ByteRangeSet.offset first)
            (Z.min (ByteRangeSet.length first) SOFT_IR_LIMIT) = ReadOk data ->
  s1 = {| rgn := rgn s;
          trace := trace s ++ [EvRead (ByteRangeSet.offset first)
                                 (Z.min (ByteRangeSet.length first) SOFT_IR_LIMIT)] |} ->
  disasm_loop cs_disasm_iter check_body data (ByteRangeSet.offset first)
              (empty_chunk (rgn s) (ByteRangeSet.offset first), StateFlag.IDLE) s1
  = (Returned acc, s1) ->
  if NDEBUG || frontier_test (rgn s) (InstructionRange.offset (fst acc))
  then exists state,
      check NDEBUG cs_disasm_iter read_data s = (Returned state,
                 {| rgn := with_chunk (rgn s) (fst acc); trace := trace s1 |})
      /\ has_flag state StateFlag.PROCESSING
         = (has_flag (snd acc) StateFlag.PROCESSING
            || negb (ByteRangeSet.empty (dirty (with_chunk (rgn s) (fst acc)))))%bool
  else check NDEBUG cs_disasm_iter read_data s = (AssertFailed, s1).
Proof.
  intros s first rest data acc s1 Hd Hr Hs1 Hloop.
  unfold check, doc_read_data, get_region, emit, ret, bind.
  rewrite Hd, Hr. cbn [rgn trace].
  unfold empty_chunk in Hloop. unfold processed_lines. rewrite <- Hs1, Hloop.
  assert (Hflag : forall st,
             has_flag (Z.lor st StateFlag.WIDTH_CHANGE) StateFlag.PROCESSING
             = has_flag st StateFlag.PROCESSING).
  { intros st. unfold has_flag, StateFlag.PROCESSING, StateFlag.WIDTH_CHANGE.
    rewrite Z.land_lor_distr_l. change (Z.land 2 1) with 0.
    now rewrite Z.lor_0_r. }
  assert (Hset : forall st (b : bool),
             has_flag (if b then Z.lor st StateFlag.PROCESSING else st)
                      StateFlag.PROCESSING
             = (has_flag st StateFlag.PROCESSING || b)%bool).
  { intros st b. destruct b; [|now rewrite orb_false_r].
    rewrite orb_true_r. unfold has_flag, StateFlag.PROCESSING.
    rewrite Z.land_lor_distr_l. change (Z.land 1 1) with 1.
    destruct (Z.eqb_spec (Z.lor (Z.land st 1) 1) 0) as [E|E]; [|reflexivity].
    apply Z.lor_eq_0_iff in E. lia. }
  unfold frontier_test.
  match goal with |- context [assert_ _ ?c] => set (ft := c) end.
  unfold assert_, assert_opt.
  destruct NDEBUG, ft; cbn [orb]; try reflexivity;
    unfold modify; subst s1; cbn [rgn trace];
    destruct (Z.gtb_spec (InstructionRange.longest_instruction (fst acc))
                         (longest_instruction (rgn s)));
    destruct (Z.gtb_spec (InstructionRange.longest_disasm (fst acc))
                         (longest_disasm (rgn s)));
    cbn;
    match goal with
    | |- exists _, (if ?c then (fun _ => (Returned (Z.lor ?x _), _)) else _) _ = _ /\ _ =>
        exists (if c then Z.lor x StateFlag.PROCESSING else x); split;
        [ destruct c; unfold with_chunk, set_dirty, set_longest_disasm,
            set_longest_instruction, set_processed; cbn;
          f_equal; f_equal; f_equal; lia
        | rewrite Hset, ?Hflag; reflexivity ]
    end.
Qed.


Lemma check_idle : forall s,
  dirty (rgn s) = [] -> check NDEBUG cs_disasm_iter read_data s = (Returned StateFlag.IDLE, s).
Proof.
  intros s Hd. unfold check, get_region, ret, bind. rewrite Hd.
  reflexivity.
Qed.

(** A read that fails: the exception leaves [check]; nothing is caught or
    written to stderr, and the region is as before. *)
Lemma check_read_error : forall s first rest what,
  dirty (rgn s) = first :: rest ->
  read_data (ByteRangeSet.offset first)
            (Z.min (ByteRangeSet.length first) SOFT_IR_LIMIT) = ReadError what ->
  check NDEBUG cs_disasm_iter read_data s = (Thrown what,
             {| rgn := rgn s;
                trace := trace s ++ [EvRead (ByteRangeSet.offset first)
                                       (Z.min (ByteRangeSet.length first)
                                              SOFT_IR_LIMIT)] |}).
Proof.
  intros s first rest what Hd Hr.
  unfold check, doc_read_data, get_region, emit, ret, throw, bind.
  rewrite Hd, Hr. reflexivity.
Qed.

(** Whatever the outcome, a call leaves the region as it was or with one
    more chunk. *)
Lemma check_region_cases : forall s,
  rgn (after_check NDEBUG cs_disasm_iter read_data s) = rgn s
  \/ exists new_ir,
       rgn (after_check NDEBUG cs_disasm_iter read_data s) = with_chunk (rgn s) new_ir.
Proof.
  intros s. unfold after_check.
  destruct (dirty (rgn s)) as [|first rest] eqn:Hd.
  - left. now rewrite check_idle.
  - destruct (read_data (ByteRangeSet.offset first)
                        (Z.min (ByteRangeSet.length first) SOFT_IR_LIMIT))
      as [data|what] eqn:Hr.
    + set (s1 := {| rgn := rgn s;
                    trace := trace s ++ [EvRead (ByteRangeSet.offset first)
                                           (Z.min (ByteRangeSet.length first)
                                                  SOFT_IR_LIMIT)] |}).
      destruct (disasm_loop cs_disasm_iter check_body data (ByteRangeSet.offset first)
                  (empty_chunk (rgn s) (ByteRangeSet.offset first), StateFlag.IDLE) s1)
        as [o s2] eqn:Hloop.
      assert (Hs2 : s2 = s1 /\ (o = Diverged \/ exists acc, o = Returned acc)).
      { unfold disasm_loop in Hloop.
        destruct (cs_disasm_while _ _ _ _ _ _); inversion Hloop; subst;
          (split; [reflexivity|]); [right; eauto | left; reflexivity]. }
      destruct Hs2 as [-> [-> | [acc ->]]].
      * left.
        unfold check, doc_read_data, get_region, emit, ret, bind.
        rewrite Hd, Hr. cbn [rgn trace].
        unfold empty_chunk in Hloop. unfold processed_lines.
        fold s1. rewrite Hloop. reflexivity.
      * pose proof (check_tail s first rest data acc s1 Hd Hr eq_refl Hloop) as Ht.
        destruct (NDEBUG || frontier_test (rgn s) (InstructionRange.offset (fst acc)))%bool.
        -- destruct Ht as [state [-> _]]. right. exists (fst acc). reflexivity.
        -- rewrite Ht. left. reflexivity.
    + left. rewrite (check_read_error s first rest what Hd Hr). reflexivity.
Qed.

Hypothesis decoder_contract : decoder_ok cs_disasm_iter.

(** A call on a region with dirty bytes whose read succeeds. *)
Lemma check_step : forall s first rest data,
  dirty (rgn s) = first :: rest ->
  read_data (ByteRangeSet.offset first)
            (Z.min (ByteRangeSet.length first) SOFT_IR_LIMIT) = ReadOk data ->
  let s1 := {| rgn := rgn s;
               trace := trace s ++ [EvRead (ByteRangeSet.offset first)
                                      (Z.min (ByteRangeSet.length first)
                                             SOFT_IR_LIMIT)] |} in
  exists insns new_ir,
    cs_disasm_list cs_disasm_iter (S (List.length data)) data
                   (ByteRangeSet.offset first) = Some insns
    /\ decoded_chain (ByteRangeSet.offset first) insns
    /\ 0 <= total_size insns <= vsize data
    /\ InstructionRange.offset new_ir = ByteRangeSet.offset first
    /\ InstructionRange.rel_y_offset new_ir = processed_lines (rgn s)
    /\ InstructionRange.length new_ir = total_size insns
    /\ InstructionRange.y_lines new_ir = vsize insns
    /\ if NDEBUG || frontier_test (rgn s) (ByteRangeSet.offset first)
       then exists state,
           check NDEBUG cs_disasm_iter read_data s = (Returned state,
                      {| rgn := with_chunk (rgn s) new_ir; trace := trace s1 |})
           /\ has_flag state StateFlag.PROCESSING
              = negb (ByteRangeSet.empty (dirty (with_chunk (rgn s) new_ir)))
       else check NDEBUG cs_disasm_iter read_data s = (AssertFailed, s1).
Proof.
  intros s first rest data Hd Hr s1.
  destruct (disasm_loop_returns cs_disasm_iter decoder_contract _ check_body data
              (ByteRangeSet.offset first)
              (empty_chunk (rgn s) (ByteRangeSet.offset first), StateFlag.IDLE) s1)
    as [insns [Hl [Hchain [Htotal Hloop]]]].
  set (acc := fold_left _ insns _) in Hloop.
  pose proof (check_body_fold insns (empty_chunk (rgn s) (ByteRangeSet.offset first))
                              StateFlag.IDLE) as Hfold.
  cbv zeta in Hfold. fold acc in Hfold.
  destruct Hfold as [Hoff [Hrel [Hlen [Hlines Hflag]]]].
  exists insns, (fst acc).
  pose proof (check_tail s first rest data acc s1 Hd Hr eq_refl Hloop) as Ht.
  rewrite Hoff in Ht. cbn [empty_chunk InstructionRange.offset] in Ht.
  repeat split; try assumption; try lia.
  destruct (NDEBUG || frontier_test (rgn s) (ByteRangeSet.offset first))%bool;
    [|exact Ht].
  destruct Ht as [state [Hc Hf]]. exists state. split; [exact Hc|].
  rewrite Hf, Hflag. reflexivity.
Qed.

End CheckFacts.

(* ================================================================== *)
(** * The chunk list *)
(* ================================================================== *)

Lemma back_cons : forall (A : Type) (x : A) (v : list A),
  back (x :: v) = match back v with
                  | None => Some x
                  | Some y => Some y
                  end.
Proof.
  intros A x v. destruct v as [|y v]; [reflexivity|].
  change (back (x :: y :: v)) with (back (y :: v)).
  destruct (back (y :: v)) eqn:E; [reflexivity|].
  apply back_nil_inv in E. discriminate.
Qed.

Lemma chunks_end_cons : forall b c cs,
  chunks_end b (c :: cs)
  = chunks_end (InstructionRange.offset c + InstructionRange.length c) cs.
Proof.
  intros. unfold chunks_end. rewrite back_cons. destruct (back cs); reflexivity.
Qed.

Lemma lines_end_cons : forall l c cs,
  lines_end l (c :: cs)
  = lines_end (InstructionRange.rel_y_offset c + InstructionRange.y_lines c) cs.
Proof.
  intros. unfold lines_end. rewrite back_cons. destruct (back cs); reflexivity.
Qed.

Lemma contiguous_app : forall cs b l c,
  contiguous b l (cs ++ [c])
  <-> contiguous b l cs
      /\ InstructionRange.offset c = chunks_end b cs
      /\ InstructionRange.rel_y_offset c = lines_end l cs.
Proof.
  induction cs as [|x cs IH]; intros b l c.
  - simpl. unfold chunks_end, lines_end. simpl. tauto.
  - rewrite chunks_end_cons, lines_end_cons. simpl. rewrite IH. tauto.
Qed.

Lemma contiguous_ends : forall cs b l,
  contiguous b l cs -> chunks_nonneg cs ->
  b <= chunks_end b cs /\ l <= lines_end l cs
  /\ chunk_bytes cs = chunks_end b cs - b
  /\ chunk_lines cs = lines_end l cs - l.
Proof.
  induction cs as [|x cs IH]; intros b l Hc Hn.
  - unfold chunks_end, lines_end, chunk_bytes, chunk_lines. simpl. lia.
  - rewrite chunks_end_cons, lines_end_cons.
    destruct Hc as [Ho [Hl Hc]]. inversion Hn as [|? ? [Hx1 Hx2] Hn']; subst.
    destruct (IH _ _ Hc Hn') as [H1 [H2 [H3 H4]]].
    unfold chunk_bytes, chunk_lines in *. simpl. lia.
Qed.

Lemma contiguous_in : forall cs b l c,
  contiguous b l cs -> chunks_nonneg cs -> In c cs ->
  b <= InstructionRange.offset c
  /\ l <= InstructionRange.rel_y_offset c
  /\ InstructionRange.offset c + InstructionRange.length c <= chunks_end b cs
  /\ InstructionRange.rel_y_offset c + InstructionRange.y_lines c <= lines_end l cs.
Proof.
  induction cs as [|x cs IH]; intros b l c Hc Hn Hin; [contradiction|].
  rewrite chunks_end_cons, lines_end_cons.
  destruct Hc as [Ho [Hl Hc]]. inversion Hn as [|? ? [Hx1 Hx2] Hn']; subst.
  destruct (contiguous_ends _ _ _ Hc Hn') as [H1 [H2 _]].
  destruct Hin as [<- | Hin].
  - lia.
  - specialize (IH _ _ _ Hc Hn' Hin). lia.
Qed.

(** Contiguous chunks are in ascending order and do not overlap. *)
Lemma contiguous_ordered : forall cs b l,
  contiguous b l cs -> chunks_nonneg cs -> chunks_ordered cs.
Proof.
  induction cs as [|x cs IH]; intros b l Hc Hn i j p q Hij Hi Hj.
  - destruct i; discriminate.
  - destruct Hc as [Ho [Hl Hc]]. inversion Hn as [|? ? [Hx1 Hx2] Hn']; subst.
    destruct j as [|j]; [lia|]. simpl in Hj.
    destruct i as [|i]; simpl in Hi.
    + injection Hi as <-. apply nth_error_In in Hj.
      pose proof (contiguous_in _ _ _ _ Hc Hn' Hj). lia.
    + apply (IH _ _ Hc Hn' i j); [lia | assumption | assumption].
Qed.

(** Contiguous chunks hold each byte from their start to their end, and no
    other. *)
Lemma contiguous_cover : forall cs b l o,
  contiguous b l cs -> chunks_nonneg cs ->
  ((exists c, In c cs /\ in_chunk c o) <-> b <= o < chunks_end b cs).
Proof.
  induction cs as [|x cs IH]; intros b l o Hc Hn.
  - unfold chunks_end. simpl. split; [intros [c [[] _]] | lia].
  - rewrite chunks_end_cons.
    destruct Hc as [Ho [Hl Hc]]. inversion Hn as [|? ? [Hx1 Hx2] Hn']; subst.
    specialize (IH _ _ o Hc Hn').
    destruct (contiguous_ends _ _ _ Hc Hn') as [H1 _].
    split.
    + intros [c [[<- | Hin] Hic]].
      * unfold in_chunk in Hic. lia.
      * assert (He : exists c, In c cs /\ in_chunk c o) by eauto.
        apply IH in He. lia.
    + intros Ho'.
      destruct (Z_lt_le_dec o (InstructionRange.offset x + InstructionRange.length x)).
      * exists x. split; [now left | unfold in_chunk; lia].
      * destruct (proj2 IH) as [c [Hin Hic]]; [lia|].
        exists c. split; [now right | exact Hic].
Qed.

(* ================================================================== *)
(** * The invariant of the region *)
(* ================================================================== *)

Lemma region_inv_new : forall offset length,
  0 <= length -> region_inv (DisassemblyRegion_new offset length).
Proof.
  intros offset length Hlen. constructor; simpl.
  - exact Hlen.
  - exact I.
  - constructor.
  - unfold unprocessed_offset. simpl. lia.
  - unfold unprocessed_bytes, unprocessed_offset. simpl. f_equal. lia.
Qed.

(** Under the invariant a region with dirty bytes has one dirty range, from
    the end of the chunks to the end of the region. *)
Lemma region_inv_dirty : forall r first rest,
  region_inv r -> dirty r = first :: rest ->
  ByteRangeSet.offset first = unprocessed_offset r
  /\ ByteRangeSet.length first = unprocessed_bytes r
  /\ 0 < unprocessed_bytes r
  /\ rest = [].
Proof.
  intros r first rest Hinv Hd. rewrite (inv_dirty Hinv) in Hd.
  rewrite ByteRangeSetFacts.set_range_nil in Hd.
  destruct (Z.leb_spec (unprocessed_bytes r) 0); [discriminate|].
  injection Hd as <- <-. simpl. repeat split; try reflexivity; lia.
Qed.

Lemma region_inv_with_chunk : forall r first rest new_ir,
  region_inv r -> dirty r = first :: rest ->
  InstructionRange.offset new_ir = ByteRangeSet.offset first ->
  InstructionRange.rel_y_offset new_ir = processed_lines r ->
  0 <= InstructionRange.length new_ir <= ByteRangeSet.length first ->
  0 <= InstructionRange.y_lines new_ir ->
  region_inv (with_chunk r new_ir).
Proof.
  intros r first rest new_ir Hinv Hd Hoff Hrel Hlen Hlines.
  destruct (region_inv_dirty _ _ _ Hinv Hd) as [Hfo [Hfl [Hpos _]]].
  assert (Hend : unprocessed_offset (with_chunk r new_ir)
                 = unprocessed_offset r + InstructionRange.length new_ir).
  { unfold unprocessed_offset at 1. cbn [processed with_chunk].
    rewrite back_app. lia. }
  constructor.
  - exact (inv_length Hinv).
  - cbn [processed with_chunk d_offset]. apply contiguous_app.
    split; [exact (inv_chunks Hinv)|]. split.
    + rewrite Hoff, Hfo. reflexivity.
    + rewrite Hrel. reflexivity.
  - cbn [processed with_chunk]. apply Forall_app. split; [exact (inv_nonneg Hinv)|].
    constructor; [lia | constructor].
  - rewrite Hend. cbn [with_chunk d_offset d_length].
    unfold unprocessed_bytes in *. lia.
  - unfold unprocessed_bytes at 1. rewrite Hend.
    cbn [dirty with_chunk d_offset d_length].
    rewrite (inv_dirty Hinv), Hoff, Hfo.
    rewrite ByteRangeSetFacts.clear_range_prefix by lia.
    f_equal. unfold unprocessed_bytes. lia.
Qed.

Lemma region_inv_frontier_test : forall r first rest,
  region_inv r -> dirty r = first :: rest ->
  frontier_test r (ByteRangeSet.offset first) = true.
Proof.
  intros r first rest Hinv Hd.
  destruct (region_inv_dirty _ _ _ Hinv Hd) as [Hfo _].
  unfold frontier_test, unprocessed_offset in *.
  destruct (back (processed r)); [|reflexivity].
  apply Z.eqb_eq. lia.
Qed.

Section RegionInvariant.

Variable NDEBUG : bool.
Variable cs_disasm_iter : list byte -> Z -> option cs_insn.
Variable read_data : Z -> Z -> ReadResult.
Hypothesis decoder_contract : decoder_ok cs_disasm_iter.
Hypothesis read_contract : read_ok read_data.

(** A call of [check] keeps the invariant, and ends in a return or in the
    exception of the read. *)
Lemma check_keeps_inv : forall s,
  region_inv (rgn s) ->
  region_inv (rgn (after_check NDEBUG cs_disasm_iter read_data s))
  /\ returns_or_throws (fst (check NDEBUG cs_disasm_iter read_data s)).
Proof.
  intros s Hinv. unfold after_check.
  destruct (dirty (rgn s)) as [|first rest] eqn:Hd.
  - rewrite check_idle by exact Hd. split; [exact Hinv | exact I].
  - destruct (read_data (ByteRangeSet.offset first)
                        (Z.min (ByteRangeSet.length first) SOFT_IR_LIMIT))
      as [data|what] eqn:Hr.
    + destruct (check_step NDEBUG cs_disasm_iter read_data decoder_contract
                           s first rest data Hd Hr)
        as [insns [new_ir [_ [_ [Htot [Hoff [Hrel [Hlen [Hlines Hc]]]]]]]]].
      rewrite (region_inv_frontier_test _ _ _ Hinv Hd), orb_true_r in Hc.
      destruct Hc as [state [Hc _]]. rewrite Hc. split; [|exact I].
      destruct (region_inv_dirty _ _ _ Hinv Hd) as [_ [Hfl [Hpos _]]].
      assert (Hdata : vsize data <= Z.min (ByteRangeSet.length first) SOFT_IR_LIMIT).
      { apply (read_contract (ByteRangeSet.offset first)); [|exact Hr].
        unfold SOFT_IR_LIMIT. lia. }
      apply (region_inv_with_chunk _ _ _ _ Hinv Hd); try assumption.
      * lia.
      * rewrite Hlines. apply vsize_nonneg.
    + rewrite (check_read_error NDEBUG cs_disasm_iter read_data s first rest what Hd Hr).
      split; [exact Hinv | exact I].
Qed.

Lemma checks_keep_inv : forall n s,
  region_inv (rgn s) ->
  region_inv (rgn (after_checks NDEBUG cs_disasm_iter read_data n s)).
Proof.
  induction n as [|n IH]; intros s Hinv; simpl; [exact Hinv|].
  apply IH. apply check_keeps_inv. exact Hinv.
Qed.

Lemma checks_keep_bounds : forall n s,
  d_offset (rgn (after_checks NDEBUG cs_disasm_iter read_data n s)) = d_offset (rgn s)
  /\ d_length (rgn (after_checks NDEBUG cs_disasm_iter read_data n s)) = d_length (rgn s).
Proof.
  induction n as [|n IH]; intros s; simpl; [split; reflexivity|].
  destruct (IH (after_check NDEBUG cs_disasm_iter read_data s)) as [-> ->].
  destruct (check_region_cases NDEBUG cs_disasm_iter read_data s) as [-> | [c ->]];
    split; reflexivity.
Qed.

End RegionInvariant.

(* ================================================================== *)
(** * The sample decoder and document meet what is assumed *)
(* ================================================================== *)

Lemma sample_decoder_ok : forall skipdata, decoder_ok (Sample.decode skipdata).
Proof.
  intros skipdata code address insn H. unfold Sample.decode in H.
  destruct code as [|b rest]; [discriminate|].
  unfold vsize. change (List.length (b :: rest)) with (S (List.length rest)).
  destruct (Byte.eqb b x90).
  { injection H as <-. simpl. lia. }
  destruct (Byte.eqb b x31 && _)%bool eqn:Exor.
  { injection H as <-. simpl size. apply andb_prop in Exor.
    destruct rest; [destruct Exor; discriminate|]. simpl List.length. lia. }
  destruct (Byte.eqb b xb8 && _)%bool eqn:Emov.
  { injection H as <-. simpl size. apply andb_prop in Emov.
    destruct Emov as [_ Hlen]. apply Nat.leb_le in Hlen. lia. }
  destruct skipdata; [|discriminate].
  injection H as <-. simpl. lia.
Qed.

Lemma sample_read_ok : forall buf, read_ok (Sample.buffer_read_data buf).
Proof.
  intros buf offset max_length data Hmax H. unfold Sample.buffer_read_data in H.
  destruct (_ || _)%bool; [discriminate|].
  injection H as <-. unfold vsize. rewrite length_firstn. lia.
Qed.

(* ================================================================== *)
(** * The steps of background processing *)
(* ================================================================== *)

(** C1.  Start from a region as the constructor leaves it and call [check]
    any number of times, whatever the calls answer.  The chunks are
    contiguous (the first starts at the base offset and at line 0, each
    later one at the byte and at the line where the one before ends) and in
    ascending order without overlap, and the next call ends in a return or
    in the exception of its read.  Once the dirty set is empty, the chunks
    end at the end of the region, their lengths add up to the length of the
    region, and a byte lies in a chunk exactly when it lies in
    [offset, offset + length). *)
Theorem check_chunks_contiguous_and_cover :
  forall NDEBUG cs_disasm_iter read_data,
    decoder_ok cs_disasm_iter -> read_ok read_data ->
    forall offset length s n,
      0 <= length ->
      rgn s = DisassemblyRegion_new offset length ->
      contiguous offset 0
        (processed (rgn (after_checks NDEBUG cs_disasm_iter read_data n s)))
      /\ chunks_ordered
           (processed (rgn (after_checks NDEBUG cs_disasm_iter read_data n s)))
      /\ returns_or_throws
           (fst (check NDEBUG cs_disasm_iter read_data
                       (after_checks NDEBUG cs_disasm_iter read_data n s)))
      /\ (ByteRangeSet.empty
            (dirty (rgn (after_checks NDEBUG cs_disasm_iter read_data n s))) = true ->
          chunks_end offset
            (processed (rgn (after_checks NDEBUG cs_disasm_iter read_data n s)))
          = offset + length
          /\ chunk_bytes
               (processed (rgn (after_checks NDEBUG cs_disasm_iter read_data n s)))
             = length
          /\ forall o,
               (exists c,
                   In c (processed (rgn (after_checks NDEBUG cs_disasm_iter read_data n s)))
                   /\ in_chunk c o)
               <-> offset <= o < offset + length).
Proof.
  intros NDEBUG dec read Hdec Hread offset length s n Hlen Hs.
  assert (Hinv0 : region_inv (rgn s)).
  { rewrite Hs. apply region_inv_new. exact Hlen. }
  pose proof (checks_keep_inv NDEBUG dec read Hdec Hread n s Hinv0) as Hinv.
  destruct (checks_keep_bounds NDEBUG dec read n s) as [Hoff Hlength].
  rewrite Hs in Hoff, Hlength. simpl in Hoff, Hlength.
  set (s' := after_checks NDEBUG dec read n s) in *.
  pose proof (inv_chunks Hinv) as Hc. rewrite Hoff in Hc.
  pose proof (inv_nonneg Hinv) as Hn.
  split; [exact Hc|].
  split; [exact (contiguous_ordered _ _ _ Hc Hn)|].
  split; [apply (check_keeps_inv NDEBUG dec read Hdec Hread); exact Hinv|].
  intros Hempty.
  assert (Hend : chunks_end offset (processed (rgn s')) = offset + length).
  { pose proof (inv_dirty Hinv) as Hd.
    pose proof (inv_frontier Hinv) as Hf.
    rewrite ByteRangeSetFacts.set_range_nil in Hd.
    unfold unprocessed_bytes in Hd.
    fold (chunks_end (d_offset (rgn s')) (processed (rgn s'))) in Hd, Hf.
    unfold unprocessed_offset in Hd, Hf.
    fold (chunks_end (d_offset (rgn s')) (processed (rgn s'))) in Hd, Hf.
    rewrite Hoff, Hlength in *.
    destruct (Z.leb_spec (length - (chunks_end offset (processed (rgn s')) - offset)) 0).
    - lia.
    - rewrite Hd in Hempty. discriminate. }
  split; [exact Hend|].
  destruct (contiguous_ends _ _ _ Hc Hn) as [_ [_ [Hbytes _]]].
  split; [lia|].
  intros o. rewrite <- Hend. apply (contiguous_cover _ _ 0 o Hc Hn).
Qed.

(** C1 on the sample: nine bytes of code, one call. *)
Lemma check_chunks_contiguous_and_cover_witness :
  contiguous 0 0
    (processed (rgn (after_checks false (Sample.decode true)
                       (Sample.buffer_read_data Sample.code9) 1
                       (Sample.start (DisassemblyRegion_new 0 9)))))
  /\ chunk_bytes
       (processed (rgn (after_checks false (Sample.decode true)
                          (Sample.buffer_read_data Sample.code9) 1
                          (Sample.start (DisassemblyRegion_new 0 9))))) = 9.
Proof.
  pose proof (check_chunks_contiguous_and_cover false
                (Sample.decode true) (Sample.buffer_read_data Sample.code9)
                (sample_decoder_ok true) (sample_read_ok Sample.code9)
                0 9 (Sample.start (DisassemblyRegion_new 0 9)) 1
                ltac:(lia) eq_refl) as [Hc [_ [_ Hcover]]].
  split; [exact Hc|].
  apply Hcover. vm_compute. reflexivity.
Defined.

(** C2.  A region whose dirty set is not empty (with ranges of at least one
    byte, the first of which starts where the last chunk ends, as [check]
    asserts), and a read that succeeds.  One call of [check] returns; it
    reads the document once, at the start of the first dirty range, for at
    most 10240 bytes; it appends one chunk, which starts there, whose length
    is the bytes of the instructions decoded and whose line count is their
    number; the dirty set loses exactly those bytes; and [PROCESSING] is set
    in the result exactly when the dirty set still holds a byte. *)
Theorem check_step_appends_one_chunk :
  forall NDEBUG cs_disasm_iter read_data,
    decoder_ok cs_disasm_iter ->
    forall s first rest data,
      dirty (rgn s) = first :: rest ->
      ByteRangeSet.wf (dirty (rgn s)) ->
      (NDEBUG || frontier_test (rgn s) (ByteRangeSet.offset first))%bool = true ->
      read_data (ByteRangeSet.offset first)
                (Z.min (ByteRangeSet.length first) SOFT_IR_LIMIT) = ReadOk data ->
      exists insns new_ir state s',
        check NDEBUG cs_disasm_iter read_data s = (Returned state, s')
        /\ trace s' = trace s ++ [EvRead (ByteRangeSet.offset first)
                                    (Z.min (ByteRangeSet.length first) SOFT_IR_LIMIT)]
        /\ Z.min (ByteRangeSet.length first) SOFT_IR_LIMIT <= 10240
        /\ cs_disasm_list cs_disasm_iter (S (List.length data)) data
                          (ByteRangeSet.offset first) = Some insns
        /\ 0 <= total_size insns <= vsize data
        /\ processed (rgn s') = processed (rgn s) ++ [new_ir]
        /\ InstructionRange.offset new_ir = ByteRangeSet.offset first
        /\ InstructionRange.length new_ir = total_size insns
        /\ InstructionRange.y_lines new_ir = vsize insns
        /\ (forall o,
              ByteRangeSet.isset (dirty (rgn s')) o
              <-> ByteRangeSet.isset (dirty (rgn s)) o
                  /\ ~ (ByteRangeSet.offset first <= o
                        < ByteRangeSet.offset first + total_size insns))
        /\ (has_flag state StateFlag.PROCESSING = true
            <-> exists o, ByteRangeSet.isset (dirty (rgn s')) o).
Proof.
  intros NDEBUG dec read Hdec s first rest data Hd Hwf Hassert Hr.
  destruct (check_step NDEBUG dec read Hdec s first rest data Hd Hr)
    as [insns [new_ir [Hl [_ [Htot [Hoff [_ [Hlen [Hlines Hc]]]]]]]]].
  rewrite Hassert in Hc. destruct Hc as [state [Hc Hflag]].
  exists insns, new_ir, state. eexists. split; [exact Hc|].
  cbn [rgn trace with_chunk processed dirty].
  split; [reflexivity|].
  split; [unfold SOFT_IR_LIMIT; lia|].
  split; [exact Hl|]. split; [exact Htot|]. split; [reflexivity|].
  split; [exact Hoff|]. split; [exact Hlen|]. split; [exact Hlines|].
  split.
  - intros o. rewrite <- Hoff, <- Hlen.
    apply ByteRangeSetFacts.clear_range_isset.
  - rewrite Hflag, negb_true_iff.
    apply ByteRangeSetFacts.not_empty_iff.
    apply ByteRangeSetFacts.clear_range_wf. exact Hwf.
Qed.

(** C2 on the sample: the first call on nine bytes of code decodes four
    instructions and leaves nothing dirty. *)
Lemma check_step_appends_one_chunk_witness :
  exists insns new_ir state s',
    check false (Sample.decode true) (Sample.buffer_read_data Sample.code9)
          (Sample.start (DisassemblyRegion_new 0 9)) = (Returned state, s')
    /\ trace s' = [EvRead 0 9]
    /\ processed (rgn s') = [new_ir]
    /\ InstructionRange.length new_ir = total_size insns
    /\ InstructionRange.y_lines new_ir = vsize insns
    /\ vsize insns = 4.
Proof.
  destruct (check_step_appends_one_chunk false
              (Sample.decode true) (Sample.buffer_read_data Sample.code9)
              (sample_decoder_ok true)
              (Sample.start (DisassemblyRegion_new 0 9))
              {| ByteRangeSet.offset := 0; ByteRangeSet.length := 9 |} []
              Sample.code9)
    as [insns [new_ir [state [s' [Hc [Ht [_ [Hl [_ [Hp [_ [Hlen [Hlines _]]]]]]]]]]]]].
  - reflexivity.
  - constructor; [simpl; lia | constructor].
  - reflexivity.
  - reflexivity.
  - exists insns, new_ir, state, s'.
    repeat split; try assumption.
    vm_compute in Hl. injection Hl as <-. reflexivity.
Defined.

(** C9.  Over any number of calls of [check], whatever they answer,
    [longest_instruction] and [longest_disasm] do not decrease, and neither
    does [max_bytes_per_line] once [longest_instruction] is positive (an
    instruction has been decoded).  In one call each of the two is left as
    it is, or takes the maximum of the chunk just appended, which is
    greater. *)
Theorem check_widths_never_decrease :
  forall NDEBUG cs_disasm_iter read_data s,
    (forall n,
        longest_instruction (rgn s)
        <= longest_instruction (rgn (after_checks NDEBUG cs_disasm_iter read_data n s))
        /\ longest_disasm (rgn s)
           <= longest_disasm (rgn (after_checks NDEBUG cs_disasm_iter read_data n s))
        /\ (0 < longest_instruction (rgn s) ->
            max_bytes_per_line (rgn s)
            <= max_bytes_per_line
                 (rgn (after_checks NDEBUG cs_disasm_iter read_data n s))))
    /\ (longest_instruction (rgn (after_check NDEBUG cs_disasm_iter read_data s))
        = longest_instruction (rgn s)
        \/ exists new_ir,
             back (processed (rgn (after_check NDEBUG cs_disasm_iter read_data s)))
             = Some new_ir
             /\ longest_instruction (rgn (after_check NDEBUG cs_disasm_iter read_data s))
                = InstructionRange.longest_instruction new_ir
             /\ longest_instruction (rgn s) < InstructionRange.longest_instruction new_ir)
    /\ (longest_disasm (rgn (after_check NDEBUG cs_disasm_iter read_data s))
        = longest_disasm (rgn s)
        \/ exists new_ir,
             back (processed (rgn (after_check NDEBUG cs_disasm_iter read_data s)))
             = Some new_ir
             /\ longest_disasm (rgn (after_check NDEBUG cs_disasm_iter read_data s))
                = InstructionRange.longest_disasm new_ir
             /\ longest_disasm (rgn s) < InstructionRange.longest_disasm new_ir).
Proof.
  intros NDEBUG dec read s. split; [|split].
  - intros n. revert s. induction n as [|n IH]; intros s; simpl.
    + repeat split; lia.
    + specialize (IH (after_check NDEBUG dec read s)).
      destruct IH as [H1 [H2 H3]].
      assert (Hstep : longest_instruction (rgn s)
                      <= longest_instruction (rgn (after_check NDEBUG dec read s))
                      /\ longest_disasm (rgn s)
                         <= longest_disasm (rgn (after_check NDEBUG dec read s))).
      { destruct (check_region_cases NDEBUG dec read s) as [-> | [c ->]]; simpl; lia. }
      destruct Hstep as [Hs1 Hs2].
      split; [lia|]. split; [lia|].
      intros Hpos.
      assert (Hpos' : 0 < longest_instruction (rgn (after_check NDEBUG dec read s)))
        by lia.
      specialize (H3 Hpos').
      unfold max_bytes_per_line in *.
      destruct (Z.gtb_spec (longest_instruction (rgn s)) 0); [|lia].
      destruct (Z.gtb_spec (longest_instruction (rgn (after_check NDEBUG dec read s))) 0);
        lia.
  - destruct (check_region_cases NDEBUG dec read s) as [-> | [c ->]];
      [left; reflexivity|].
    cbn [with_chunk longest_instruction processed]. rewrite back_app.
    destruct (Z_le_gt_dec (InstructionRange.longest_instruction c)
                          (longest_instruction (rgn s))).
    + left. lia.
    + right. exists c. repeat split; lia.
  - destruct (check_region_cases NDEBUG dec read s) as [-> | [c ->]];
      [left; reflexivity|].
    cbn [with_chunk longest_disasm processed]. rewrite back_app.
    destruct (Z_le_gt_dec (InstructionRange.longest_disasm c)
                          (longest_disasm (rgn s))).
    + left. lia.
    + right. exists c. repeat split; lia.
Qed.

(** C9 on a region that has decoded a [nop] and has a [mov] left to decode:
    the row width goes from one byte to five. *)
Lemma check_widths_never_decrease_witness :
  max_bytes_per_line Sample.nop_done
  <= max_bytes_per_line
       (rgn (after_checks false (Sample.decode true)
               (Sample.buffer_read_data Sample.code6) 1
               (Sample.start Sample.nop_done)))
  /\ max_bytes_per_line
       (rgn (after_checks false (Sample.decode true)
               (Sample.buffer_read_data Sample.code6) 1
               (Sample.start Sample.nop_done))) = 5.
Proof.
  split; [|reflexivity].
  apply (check_widths_never_decrease false (Sample.decode true)
           (Sample.buffer_read_data Sample.code6)
           (Sample.start Sample.nop_done)).
  simpl. lia.
Defined.

(* ================================================================== *)
(** * Geometry and cursor movement along the bytes *)
(* ================================================================== *)


Lemma max_bytes_per_line_pos : forall r, 0 < max_bytes_per_line r.
Proof.
  intros r. unfold max_bytes_per_line.
  destruct (Z.gtb_spec (longest_instruction r) 0); lia.
Qed.




Lemma assert_pos_in_region_ok : forall NDEBUG s pos,
  d_offset (rgn s) <= pos <= d_offset (rgn s) + d_length (rgn s) ->
  assert_pos_in_region NDEBUG pos s = (Returned tt, s).
Proof.
  intros NDEBUG s pos Hpos.
  unfold assert_pos_in_region, assert_, assert_opt, get_region, bind.
  destruct NDEBUG; [reflexivity|].
  destruct (Z.geb_spec pos (d_offset (rgn s))); [|lia].
  destruct (Z.leb_spec pos (d_offset (rgn s) + d_length (rgn s))); [|lia].
  reflexivity.
Qed.

Lemma cursor_left_from_eq : forall NDEBUG s pos,
  d_offset (rgn s) <= pos <= d_offset (rgn s) + d_length (rgn s) ->
  cursor_left_from NDEBUG pos s
  = (Returned (if pos >? d_offset (rgn s) then pos - 1 else CURSOR_PREV_REGION), s).
Proof.
  intros NDEBUG s pos Hpos. unfold cursor_left_from, bind.
  rewrite assert_pos_in_region_ok by exact Hpos.
  unfold get_region, ret. destruct (pos >? d_offset (rgn s)); reflexivity.
Qed.

Lemma cursor_right_from_eq : forall NDEBUG s pos,
  d_offset (rgn s) <= pos <= d_offset (rgn s) + d_length (rgn s) ->
  cursor_right_from NDEBUG pos s
  = (Returned (if pos + 1 <? d_offset (rgn s) + d_length (rgn s)
               then pos + 1 else CURSOR_NEXT_REGION), s).
Proof.
  intros NDEBUG s pos Hpos. unfold cursor_right_from, bind.
  rewrite assert_pos_in_region_ok by exact Hpos.
  unfold get_region, ret.
  destruct (pos + 1 <? d_offset (rgn s) + d_length (rgn s)); reflexivity.
Qed.

(** C5.  On every position of [d_offset, d_offset + d_length] both
    [cursor_left_from] and [cursor_right_from] return, and leave the region
    as it is.  At the low end [cursor_left_from] returns
    [CURSOR_PREV_REGION]; at the high end [cursor_right_from] returns
    [CURSOR_NEXT_REGION], also after [cursor_left_from]; at every position
    in between, [cursor_right_from] after [cursor_left_from] returns the
    position.  The two sentinels are no offsets of the region. *)
Theorem cursor_left_then_right :
  forall NDEBUG s pos,
    0 <= d_offset (rgn s) ->
    d_offset (rgn s) <= pos <= d_offset (rgn s) + d_length (rgn s) ->
    (exists l, cursor_left_from NDEBUG pos s = (Returned l, s))
    /\ (exists r, cursor_right_from NDEBUG pos s = (Returned r, s))
    /\ (pos = d_offset (rgn s) ->
        cursor_left_from NDEBUG pos s = (Returned CURSOR_PREV_REGION, s))
    /\ (d_offset (rgn s) < pos ->
        cursor_left_from NDEBUG pos s = (Returned (pos - 1), s))
    /\ (d_offset (rgn s) < pos < d_offset (rgn s) + d_length (rgn s) ->
        cursor_right_from NDEBUG (pos - 1) s = (Returned pos, s))
    /\ (d_offset (rgn s) < pos -> pos = d_offset (rgn s) + d_length (rgn s) ->
        cursor_right_from NDEBUG (pos - 1) s = (Returned CURSOR_NEXT_REGION, s))
    /\ (pos = d_offset (rgn s) + d_length (rgn s) ->
        cursor_right_from NDEBUG pos s = (Returned CURSOR_NEXT_REGION, s))
    /\ ~ (d_offset (rgn s) <= CURSOR_PREV_REGION <= d_offset (rgn s) + d_length (rgn s))
    /\ ~ (d_offset (rgn s) <= CURSOR_NEXT_REGION <= d_offset (rgn s) + d_length (rgn s)).
Proof.
  intros NDEBUG s pos Hoff Hpos.
  repeat match goal with |- _ /\ _ => split end.
  - eexists. apply cursor_left_from_eq. exact Hpos.
  - eexists. apply cursor_right_from_eq. exact Hpos.
  - intros ->. rewrite cursor_left_from_eq by lia.
    destruct (Z.gtb_spec (d_offset (rgn s)) (d_offset (rgn s))); [lia | reflexivity].
  - intros H. rewrite cursor_left_from_eq by lia.
    destruct (Z.gtb_spec pos (d_offset (rgn s))); [reflexivity | lia].
  - intros H. rewrite cursor_right_from_eq by lia.
    destruct (Z.ltb_spec (pos - 1 + 1) (d_offset (rgn s) + d_length (rgn s)));
      [do 2 f_equal; lia | lia].
  - intros H1 H2. rewrite cursor_right_from_eq by lia.
    destruct (Z.ltb_spec (pos - 1 + 1) (d_offset (rgn s) + d_length (rgn s)));
      [lia | reflexivity].
  - intros H. rewrite cursor_right_from_eq by lia.
    destruct (Z.ltb_spec (pos + 1) (d_offset (rgn s) + d_length (rgn s)));
      [lia | reflexivity].
  - unfold CURSOR_PREV_REGION. lia.
  - unfold CURSOR_NEXT_REGION. lia.
Qed.

(** C5 on a region of six bytes: from position 3 and back, and the two
    ends. *)
Lemma cursor_left_then_right_witness :
  cursor_left_from false 3 (Sample.start Sample.nop_done)
  = (Returned 2, Sample.start Sample.nop_done)
  /\ cursor_right_from false 2 (Sample.start Sample.nop_done)
     = (Returned 3, Sample.start Sample.nop_done).
Proof.
  destruct (cursor_left_then_right false (Sample.start Sample.nop_done) 3)
    as [_ [_ [_ [Hl [Hr _]]]]].
  - simpl. lia.
  - simpl. lia.
  - split; [apply Hl | apply Hr]; simpl; lia.
Defined.

(* ================================================================== *)
(** * Read failures *)
(* ================================================================== *)

Section ReadFailure.

Variable NDEBUG : bool.
Variable cs_disasm_iter : list byte -> Z -> option cs_insn.
Variable read_data : Z -> Z -> ReadResult.

(** A read that fails in [instruction_by_offset]: the exception is caught
    and written to stderr, the function returns [EMPTY_END], and the region
    is as before. *)
Lemma instruction_by_offset_read_error : forall fuel s abs_offset ir what,
  cached_instruction (rgn s) abs_offset = None ->
  processed_by_offset (rgn s) abs_offset = Some ir ->
  read_data (InstructionRange.offset ir) (InstructionRange.length ir) = ReadError what ->
  instruction_by_offset NDEBUG cs_disasm_iter read_data (S fuel) abs_offset s
  = (Returned None,
     {| rgn := rgn s;
        trace := (trace s
                  ++ [EvRead (InstructionRange.offset ir) (InstructionRange.length ir)])
                 ++ [EvStderr ("Exception in REHex::DisassemblyRegion::instruction_by_offset: "
                               ++ what)] |}).
Proof.
  intros fuel s abs_offset ir what Hmiss Hir Hr.
  cbn [instruction_by_offset].
  unfold instruction_by_offset_fill, try_catch, doc_read_data,
    get_region, emit, ret, throw, bind.
  rewrite Hmiss, Hir, Hr. reflexivity.
Qed.

End ReadFailure.

(** The sibling path: with a document that cannot be read, the
    lookup of offset 4 in the processed sample region returns [EMPTY_END],
    writes the exception to stderr and leaves the region as it is. *)
Lemma instruction_by_offset_read_failure_is_caught :
  instruction_by_offset false (Sample.decode true) Sample.failing_read_data 2 4
                        (Sample.start Sample.code9_done)
  = (Returned None,
     {| rgn := Sample.code9_done;
        trace := [EvRead 0 9;
                  EvStderr "Exception in REHex::DisassemblyRegion::instruction_by_offset: Input/output error"] |}).
Proof. reflexivity. Qed.

(** C8, [check]: with a document that cannot be read, [check] on a region
    with dirty bytes does not return.  The exception of [read_data] leaves
    the function: [check] does not catch it and writes nothing to stderr
    (the trace holds the read alone).  The region is as before. *)
Theorem check_read_failure_is_not_caught :
  check false (Sample.decode true) Sample.failing_read_data
        (Sample.start (DisassemblyRegion_new 0 9))
  = (Thrown "Input/output error",
     {| rgn := DisassemblyRegion_new 0 9; trace := [EvRead 0 9] |}).
Proof. reflexivity. Qed.

(* ================================================================== *)
(** * The live preview *)
(* ================================================================== *)

(** Step 2 of [update] takes no disassembly all of whose instructions start
    before the cursor: the test asks for an instruction at or after the
    cursor ([ii != end()]) before it looks at the one that may cover it. *)
Lemma lower_bound_all_before : forall (m : Disassemble.InstructionMap) position,
  Forall (fun e => fst e < position) m ->
  Disassemble.lower_bound m position = List.length m.
Proof.
  induction m as [|[k v] m IH]; intros position H; [reflexivity|].
  inversion H as [|? ? Hk Hm]; subst. simpl in *.
  destruct (Z.ltb_spec k position); [|lia].
  rewrite IH by exact Hm. reflexivity.
Qed.

Lemma overlaps_rejects_last : forall (m : Disassemble.InstructionMap) position,
  Forall (fun e => fst e < position) m ->
  Disassemble.overlaps position m = false.
Proof.
  intros m position H. unfold Disassemble.overlaps.
  rewrite lower_bound_all_before by exact H.
  rewrite Nat.eqb_refl. simpl. rewrite andb_false_r. reflexivity.
Qed.

(** C4.  A document of the two bytes of [xor eax, eax], the cursor on the
    second.  Disassembling from offset 0 gives one instruction, which spans
    [0, 2) and so covers the cursor; it starts before the cursor and is the
    last of its disassembly, and [update] shows "<invalid instruction>". *)
Theorem update_rejects_covering_last_instruction :
  Disassemble.disassemble (Sample.decode false) 0 [x31; xc0]
  = Some [(0, {| Disassemble.length := 2; Disassemble.disasm := "xor	eax, eax" |})]
  /\ 0 <= 1 < 0 + 2
  /\ Disassemble.update (Sample.decode false) (Sample.buffer_read_data [x31; xc0])
                        true true 1 Sample.blank
     = Some {| Disassemble.lines :=
                 [ {| Disassemble.line_offset := 1;
                      Disassemble.text := "<invalid instruction>";
                      Disassemble.active := true |} ];
               Disassemble.center_line := None |}.
Proof.
  split; [reflexivity|]. split; [lia|]. reflexivity.
Qed.

(** With one more instruction after it, the same instruction is taken. *)
Lemma update_takes_covering_instruction_with_successor :
  Disassemble.update (Sample.decode false) (Sample.buffer_read_data [x31; xc0; x90])
                     true true 1 Sample.blank
  = Some {| Disassemble.lines :=
              [ {| Disassemble.line_offset := 0;
                   Disassemble.text := "xor	eax, eax";
                   Disassemble.active := true |};
                {| Disassemble.line_offset := 2;
                   Disassemble.text := "nop	";
                   Disassemble.active := false |} ];
            Disassemble.center_line := Some 0 |}.
Proof. reflexivity. Qed.

(* ================================================================== *)
(** * The two binary searches *)
(* ================================================================== *)

Section UpperBound.

Variable A : Type.
Variables key len : A -> Z.

Lemma spans_sorted_lower : forall v lo x,
  spans_sorted key len lo v -> In x v -> lo <= key x.
Proof.
  induction v as [|a v IH]; intros lo x Hs Hin; [contradiction|].
  destruct Hs as [Hlo [Hlen Hs]]. destruct Hin as [<- | Hin]; [exact Hlo|].
  specialize (IH _ _ Hs Hin). lia.
Qed.

(** In sorted spans the search finds the span that holds the value: it is
    the element before the upper bound. *)
Lemma upper_bound_prev : forall v lo o x,
  spans_sorted key len lo v -> In x v -> key x <= o < key x + len x ->
  exists k, upper_bound key v o = S k /\ nth_error v k = Some x.
Proof.
  induction v as [|a v IH]; intros lo o x Hs Hin Hx; [contradiction|].
  destruct Hs as [Hlo [Hlen Hs]]. simpl.
  destruct Hin as [<- | Hin].
  - destruct (Z.ltb_spec o (key a)); [lia|].
    exists O. split; [|reflexivity]. f_equal.
    destruct v as [|y v]; [reflexivity|]. simpl.
    destruct Hs as [Hy _].
    destruct (Z.ltb_spec o (key y)); [reflexivity | lia].
  - pose proof (spans_sorted_lower _ _ _ Hs Hin) as Hlow.
    destruct (Z.ltb_spec o (key a)); [lia|].
    destruct (IH _ o x Hs Hin Hx) as [k [Hk Hn]].
    exists (S k). rewrite Hk. split; [reflexivity | exact Hn].
Qed.

(** The elements before the upper bound have keys up to the value. *)
Lemma upper_bound_firstn : forall v o x,
  In x (firstn (upper_bound key v o) v) -> key x <= o.
Proof.
  induction v as [|a v IH]; intros o x Hin; simpl in Hin; [contradiction|].
  destruct (Z.ltb_spec o (key a)); [contradiction|].
  destruct Hin as [<- | Hin]; [lia | apply IH; exact Hin].
Qed.

End UpperBound.

Lemma cache_ordered_spans : forall v lo,
  cache_ordered lo v -> spans_sorted Instruction.offset Instruction.length lo v.
Proof.
  induction v as [|i v IH]; intros lo H; [exact I|].
  destruct H as [H1 [H2 H3]]. simpl. repeat split; [lia | lia | apply IH; exact H3].
Qed.

Lemma contiguous_spans : forall cs b l,
  contiguous b l cs -> chunks_nonneg cs ->
  spans_sorted InstructionRange.offset InstructionRange.length b cs.
Proof.
  induction cs as [|c cs IH]; intros b l Hc Hn; [exact I|].
  destruct Hc as [Ho [Hl Hc]]. inversion Hn as [|? ? [Hx1 Hx2] Hn']; subst.
  simpl. repeat split; [lia | lia | apply (IH _ _ Hc Hn')].
Qed.

Lemma cached_instruction_some : forall r o k i,
  cached_instruction r o = Some (k, i) ->
  nth_error (instructions r) k = Some i /\ covers i o.
Proof.
  intros r o k i H. unfold cached_instruction in H.
  destruct (upper_bound Instruction.offset (instructions r) o) as [|p]; [discriminate|].
  destruct (nth_error (instructions r) p) as [j|] eqn:Hn; [|discriminate].
  destruct (Z.leb_spec (Instruction.offset j) o); [|discriminate].
  destruct (Z.gtb_spec (Instruction.offset j + Instruction.length j) o); [|discriminate].
  injection H as <- <-. split; [exact Hn | unfold covers; lia].
Qed.

Lemma cached_instruction_finds : forall r lo o i,
  cache_ordered lo (instructions r) -> In i (instructions r) -> covers i o ->
  exists k, cached_instruction r o = Some (k, i).
Proof.
  intros r lo o i Hs Hin Hc.
  destruct (upper_bound_prev _ Instruction.offset Instruction.length
              (instructions r) lo o i (cache_ordered_spans _ _ Hs) Hin Hc)
    as [k [Hk Hn]].
  exists k. unfold cached_instruction. rewrite Hk, Hn.
  unfold covers in Hc.
  destruct (Z.leb_spec (Instruction.offset i) o); [|lia].
  destruct (Z.gtb_spec (Instruction.offset i + Instruction.length i) o); [|lia].
  reflexivity.
Qed.

Lemma cached_instruction_nil : forall r o,
  instructions r = [] -> cached_instruction r o = None.
Proof. intros r o H. unfold cached_instruction. rewrite H. reflexivity. Qed.

Lemma processed_by_offset_some : forall r o c,
  processed_by_offset r o = Some c -> In c (processed r) /\ in_chunk c o.
Proof.
  intros r o c H. unfold processed_by_offset in H.
  destruct (upper_bound InstructionRange.offset (processed r) o) as [|p]; [discriminate|].
  destruct (nth_error (processed r) p) as [j|] eqn:Hn; [|discriminate].
  destruct (Z.leb_spec (InstructionRange.offset j) o); [|discriminate].
  destruct (Z.gtb_spec (InstructionRange.offset j + InstructionRange.length j) o);
    [|discriminate].
  injection H as <-. split; [eapply nth_error_In; exact Hn | unfold in_chunk; lia].
Qed.

Lemma processed_by_offset_finds : forall r b l o c,
  contiguous b l (processed r) -> chunks_nonneg (processed r) ->
  In c (processed r) -> in_chunk c o ->
  processed_by_offset r o = Some c.
Proof.
  intros r b l o c Hc Hn Hin Hic.
  destruct (upper_bound_prev _ InstructionRange.offset InstructionRange.length
              (processed r) b o c (contiguous_spans _ _ _ Hc Hn) Hin Hic)
    as [k [Hk Hnth]].
  unfold processed_by_offset. rewrite Hk, Hnth.
  unfold in_chunk in Hic.
  destruct (Z.leb_spec (InstructionRange.offset c) o); [|lia].
  destruct (Z.gtb_spec (InstructionRange.offset c + InstructionRange.length c) o); [|lia].
  reflexivity.
Qed.

(* ================================================================== *)
(** * The instruction cache *)
(* ================================================================== *)

Lemma set_instructions_same : forall r, set_instructions (instructions r) r = r.
Proof. intros r. destruct r. reflexivity. Qed.

Lemma in_insert_at : forall (A : Type) k (batch v : list A) x,
  In x (insert_at k batch v) <-> In x batch \/ In x v.
Proof.
  intros A k batch v x. unfold insert_at.
  rewrite !in_app_iff.
  rewrite <- (firstn_skipn k v) at 3. rewrite in_app_iff. tauto.
Qed.

Section CacheFacts.

Variable NDEBUG : bool.
Variable cs_disasm_iter : list byte -> Z -> option cs_insn.
Variable read_data : Z -> Z -> ReadResult.

(** The miss path, when it goes on to the recursive call. *)
Lemma fill_true : forall s abs_offset s',
  instruction_by_offset_fill NDEBUG cs_disasm_iter read_data abs_offset s
  = (Returned true, s') ->
  exists ir data batch,
    processed_by_offset (rgn s) abs_offset = Some ir
    /\ read_data (InstructionRange.offset ir) (InstructionRange.length ir) = ReadOk data
    /\ chunk_instructions cs_disasm_iter ir data = Some batch
    /\ s' = {| rgn := set_instructions
                        (cache_after_insert (instructions (rgn s)) batch abs_offset)
                        (rgn s);
               trace := trace s ++ [EvRead (InstructionRange.offset ir)
                                      (InstructionRange.length ir)] |}.
Proof.
  intros s abs_offset s' H.
  unfold instruction_by_offset_fill, try_catch, doc_read_data, disasm_loop,
    assert_opt, get_region, emit, modify, ret, throw, diverge, bind in H.
  destruct (processed_by_offset (rgn s) abs_offset) as [ir|]; [|discriminate].
  destruct (read_data (InstructionRange.offset ir) (InstructionRange.length ir))
    as [data|what] eqn:Hr; [|discriminate].
  fold (chunk_instructions cs_disasm_iter ir data) in H.
  destruct (chunk_instructions cs_disasm_iter ir data) as [batch|] eqn:Hb;
    [|discriminate].
  exists ir, data, batch.
  split; [reflexivity|]. split; [exact Hr|]. split; [exact Hb|].
  unfold cache_after_insert.
  destruct NDEBUG.
  - cbn [rgn trace] in H.
    destruct (vsize (instructions (rgn s)) + vsize batch >? INSTRUCTION_CACHE_LIMIT);
      injection H as <-; reflexivity.
  - destruct (assert_after_prev _ _ _) as [[|]|]; try discriminate.
    destruct (assert_before_next _ _ _) as [[|]|]; try discriminate.
    cbn [rgn trace] in H.
    destruct (vsize (instructions (rgn s)) + vsize batch >? INSTRUCTION_CACHE_LIMIT);
      injection H as <-; reflexivity.
Qed.

(** The miss path, when the function returns [EMPTY_END]. *)
Lemma fill_false : forall s abs_offset s',
  instruction_by_offset_fill NDEBUG cs_disasm_iter read_data abs_offset s
  = (Returned false, s') ->
  rgn s' = rgn s
  /\ (processed_by_offset (rgn s) abs_offset = None
      \/ exists ir what,
           processed_by_offset (rgn s) abs_offset = Some ir
           /\ read_data (InstructionRange.offset ir) (InstructionRange.length ir)
              = ReadError what).
Proof.
  intros s abs_offset s' H.
  unfold instruction_by_offset_fill, try_catch, doc_read_data, disasm_loop,
    assert_opt, get_region, emit, modify, ret, throw, diverge, bind in H.
  destruct (processed_by_offset (rgn s) abs_offset) as [ir|].
  - destruct (read_data (InstructionRange.offset ir) (InstructionRange.length ir))
      as [data|what] eqn:Hr.
    + exfalso.
      destruct (cs_disasm_while _ _ _ _ _ _); [|discriminate].
      destruct NDEBUG.
      * cbn [rgn trace] in H.
        destruct (_ >? INSTRUCTION_CACHE_LIMIT); discriminate.
      * destruct (assert_after_prev _ _ _) as [[|]|]; try discriminate.
        destruct (assert_before_next _ _ _) as [[|]|]; try discriminate.
        cbn [rgn trace] in H.
        destruct (_ >? INSTRUCTION_CACHE_LIMIT); discriminate.
    + injection H as <-. split; [reflexivity|]. right. eauto.
  - injection H as <-. split; [reflexivity|]. now left.
Qed.

(** The miss path touches nothing of the region but the cache. *)
Lemma fill_frame : forall s abs_offset o s',
  instruction_by_offset_fill NDEBUG cs_disasm_iter read_data abs_offset s = (o, s') ->
  rgn s' = set_instructions (instructions (rgn s')) (rgn s).
Proof.
  intros s abs_offset o s' H.
  unfold instruction_by_offset_fill, try_catch, doc_read_data, disasm_loop,
    assert_opt, get_region, emit, modify, ret, throw, diverge, bind in H.
  destruct (processed_by_offset (rgn s) abs_offset) as [ir|];
    [|injection H as _ <-; symmetry; apply set_instructions_same].
  destruct (read_data (InstructionRange.offset ir) (InstructionRange.length ir))
    as [data|what];
    [|injection H as _ <-; symmetry; apply set_instructions_same].
  destruct (cs_disasm_while _ _ _ _ _ _);
    [|injection H as _ <-; symmetry; apply set_instructions_same].
  destruct NDEBUG.
  - cbn [rgn trace] in H.
    destruct (_ >? INSTRUCTION_CACHE_LIMIT); injection H as _ <-; reflexivity.
  - destruct (assert_after_prev _ _ _) as [[|]|];
      try (injection H as _ <-; symmetry; apply set_instructions_same).
    destruct (assert_before_next _ _ _) as [[|]|];
      try (injection H as _ <-; symmetry; apply set_instructions_same).
    cbn [rgn trace] in H.
    destruct (_ >? INSTRUCTION_CACHE_LIMIT); injection H as _ <-; reflexivity.
Qed.

(** The miss path on an empty cache: the cache becomes the instructions of
    the chunk. *)
Lemma fill_empty_cache : forall s abs_offset ir data batch,
  instructions (rgn s) = [] ->
  processed_by_offset (rgn s) abs_offset = Some ir ->
  read_data (InstructionRange.offset ir) (InstructionRange.length ir) = ReadOk data ->
  chunk_instructions cs_disasm_iter ir data = Some batch ->
  instruction_by_offset_fill NDEBUG cs_disasm_iter read_data abs_offset s
  = (Returned true,
     {| rgn := set_instructions batch (rgn s);
        trace := trace s ++ [EvRead (InstructionRange.offset ir)
                               (InstructionRange.length ir)] |}).
Proof.
  intros s abs_offset ir data batch Hnil Hir Hr Hb.
  unfold instruction_by_offset_fill, try_catch, doc_read_data, disasm_loop,
    assert_opt, get_region, emit, modify, ret, throw, diverge, bind.
  rewrite Hir, Hr. fold (chunk_instructions cs_disasm_iter ir data). rewrite Hb.
  rewrite Hnil. cbn [upper_bound assert_after_prev assert_before_next
                     List.length Nat.eqb rgn trace].
  assert (Hins : insert_at 0 batch [] = batch).
  { unfold insert_at. simpl. apply app_nil_r. }
  rewrite Hins.
  destruct NDEBUG; destruct (_ >? INSTRUCTION_CACHE_LIMIT); reflexivity.
Qed.

(** [instruction_by_offset] touches nothing of the region but the cache. *)
Lemma instruction_by_offset_frame : forall fuel abs_offset s o s',
  instruction_by_offset NDEBUG cs_disasm_iter read_data fuel abs_offset s = (o, s') ->
  rgn s' = set_instructions (instructions (rgn s')) (rgn s).
Proof.
  induction fuel as [|fuel IH]; intros abs_offset s o s' H.
  - injection H as _ <-. symmetry. apply set_instructions_same.
  - cbn [instruction_by_offset] in H. unfold get_region, ret, bind in H.
    destruct (cached_instruction (rgn s) abs_offset).
    + injection H as _ <-. symmetry. apply set_instructions_same.
    + destruct (instruction_by_offset_fill NDEBUG cs_disasm_iter read_data abs_offset s)
        as [o1 s1] eqn:Hfill.
      pose proof (fill_frame _ _ _ _ Hfill) as Hf.
      assert (Hgoal : forall s2, rgn s2 = set_instructions (instructions (rgn s2)) (rgn s1) ->
                                 rgn s2 = set_instructions (instructions (rgn s2)) (rgn s)).
      { intros s2 H2. rewrite H2, Hf. reflexivity. }
      destruct o1 as [[|]| | | |];
        try (injection H as _ <-; exact Hf).
      apply Hgoal. apply (IH _ _ _ _ H).
Qed.

(** What [instruction_by_offset] returns is what the cache holds at the
    return; and it returns [EMPTY_END] only where no chunk holds the offset
    or where the read fails. *)
Lemma instruction_by_offset_result : forall fuel abs_offset s r1 s1,
  instruction_by_offset NDEBUG cs_disasm_iter read_data fuel abs_offset s
  = (Returned r1, s1) ->
  cached_instruction (rgn s1) abs_offset = r1
  /\ (r1 = None ->
      processed_by_offset (rgn s1) abs_offset = None
      \/ exists ir what,
           processed_by_offset (rgn s1) abs_offset = Some ir
           /\ read_data (InstructionRange.offset ir) (InstructionRange.length ir)
              = ReadError what).
Proof.
  induction fuel as [|fuel IH]; intros abs_offset s r1 s1 H; [discriminate|].
  cbn [instruction_by_offset] in H. unfold get_region, ret, bind in H.
  destruct (cached_instruction (rgn s) abs_offset) as [found|] eqn:Hc.
  - injection H as <- <-. split; [exact Hc | discriminate].
  - destruct (instruction_by_offset_fill NDEBUG cs_disasm_iter read_data abs_offset s)
      as [o2 s2] eqn:Hfill.
    destruct o2 as [[|]| | | |]; try discriminate.
    + apply (IH _ _ _ _ H).
    + injection H as <- <-.
      destruct (fill_false _ _ _ Hfill) as [Hr Hwhy].
      rewrite Hr. split; [exact Hc | intros _; exact Hwhy].
Qed.

End CacheFacts.

(* ================================================================== *)
(** * The order of the cache *)
(* ================================================================== *)

Lemma ordered_pairs_app : forall (A : Type) (R : A -> A -> Prop) (l1 l2 : list A),
  ForallOrdPairs R (l1 ++ l2)
  <-> ForallOrdPairs R l1 /\ ForallOrdPairs R l2
      /\ (forall a b, In a l1 -> In b l2 -> R a b).
Proof.
  intros A R. induction l1 as [|x l1 IH]; intros l2; simpl.
  - split.
    + intros H. split; [constructor|]. split; [exact H|]. intros a b [].
    + intros [_ [H _]]. exact H.
  - split.
    + intros H. inversion H as [|? ? Hx Hrest]; subst.
      apply IH in Hrest. destruct Hrest as [H1 [H2 H3]].
      rewrite Forall_app in Hx. destruct Hx as [Hx1 Hx2].
      split; [constructor; assumption|]. split; [exact H2|].
      intros a b [<- | Ha] Hb.
      * rewrite Forall_forall in Hx2. apply Hx2. exact Hb.
      * apply H3; assumption.
    + intros [H1 [H2 H3]]. inversion H1 as [|? ? Hx Hrest]; subst.
      constructor.
      * rewrite Forall_app. split; [exact Hx|].
        rewrite Forall_forall. intros b Hb. apply H3; [now left | exact Hb].
      * apply IH. split; [exact Hrest|]. split; [exact H2|].
        intros a b Ha Hb. apply H3; [now right | exact Hb].
Qed.

Lemma cache_ordered_lower : forall v lo i,
  cache_ordered lo v -> In i v -> lo <= Instruction.offset i.
Proof.
  intros v lo i H Hin.
  apply (spans_sorted_lower _ Instruction.offset Instruction.length v lo i
           (cache_ordered_spans _ _ H) Hin).
Qed.

Lemma cache_ordered_in_offset_order : forall v lo,
  cache_ordered lo v -> in_offset_order v.
Proof.
  induction v as [|i v IH]; intros lo H.
  - split; constructor.
  - destruct H as [H1 [H2 H3]]. destruct (IH _ H3) as [Hpos Hpairs].
    split; constructor; try assumption.
    rewrite Forall_forall. intros b Hb.
    apply (cache_ordered_lower _ _ _ H3 Hb).
Qed.

(** In a cache in offset order, the instructions from the upper bound on
    start after the value. *)
Lemma upper_bound_after : forall v o x,
  in_offset_order v ->
  In x (skipn (upper_bound Instruction.offset v o) v) ->
  o < Instruction.offset x.
Proof.
  induction v as [|a v IH]; intros o x [Hpos Hpairs] Hin; simpl in Hin; [contradiction|].
  inversion Hpos as [|? ? Ha Hpos']; subst.
  inversion Hpairs as [|? ? Hafter Hpairs']; subst.
  destruct (Z.ltb_spec o (Instruction.offset a)).
  - destruct Hin as [<- | Hin]; [lia|].
    rewrite Forall_forall in Hafter. specialize (Hafter _ Hin). lia.
  - apply IH; [split; assumption | exact Hin].
Qed.

Section CacheOrder.

Variable cs_disasm_iter : list byte -> Z -> option cs_insn.
Variable read_data : Z -> Z -> ReadResult.
Hypothesis decoder_contract : decoder_ok cs_disasm_iter.
Hypothesis read_contract : read_ok read_data.

(** The instructions of a chunk are the cache entries of a chain of decoded
    instructions that starts at the chunk and stays within the bytes
    read. *)
Lemma chunk_instructions_chain : forall ir data batch,
  chunk_instructions cs_disasm_iter ir data = Some batch ->
  exists l,
    decoded_chain (InstructionRange.offset ir) l
    /\ 0 <= total_size l <= vsize data
    /\ batch = to_instructions ir 0 l.
Proof.
  intros ir data batch H. unfold chunk_instructions in H.
  rewrite cs_disasm_while_list in H.
  destruct (cs_disasm_list_ends cs_disasm_iter decoder_contract
              (S (List.length data)) data (InstructionRange.offset ir))
    as [l [Hl [Hchain Htotal]]]; [lia|].
  rewrite Hl, decode_body_fold in H. injection H as <-.
  exists l. repeat split; try assumption; lia.
Qed.

(** They lie in the chunk, one after the other. *)
Lemma chunk_instructions_inside : forall ir data batch,
  0 <= InstructionRange.length ir ->
  read_data (InstructionRange.offset ir) (InstructionRange.length ir) = ReadOk data ->
  chunk_instructions cs_disasm_iter ir data = Some batch ->
  cache_ordered (InstructionRange.offset ir) batch
  /\ forall i, In i batch ->
       InstructionRange.offset ir <= Instruction.offset i
       /\ 0 < Instruction.length i
       /\ Instruction.offset i + Instruction.length i
          <= InstructionRange.offset ir + InstructionRange.length ir.
Proof.
  intros ir data batch Hlen Hr Hb.
  destruct (chunk_instructions_chain _ _ _ Hb) as [l [Hchain [Htotal ->]]].
  pose proof (read_contract _ _ _ Hlen Hr) as Hdata.
  split; [apply to_instructions_ordered; exact Hchain|].
  intros i Hin.
  pose proof (to_instructions_bounds _ _ _ _ _ Hchain Hin). lia.
Qed.

(** Inserting the instructions of a chunk at the upper bound of an offset of
    the chunk keeps the cache in offset order, when the cache holds nothing
    of the chunk. *)
Lemma insert_keeps_offset_order : forall cache ir data batch abs_offset,
  in_chunk ir abs_offset ->
  read_data (InstructionRange.offset ir) (InstructionRange.length ir) = ReadOk data ->
  chunk_instructions cs_disasm_iter ir data = Some batch ->
  in_offset_order cache ->
  Forall (outside_chunk ir) cache ->
  in_offset_order
    (insert_at (upper_bound Instruction.offset cache abs_offset) batch cache).
Proof.
  intros cache ir data batch abs_offset Hic Hr Hb Hord Hout.
  assert (Hlen : 0 <= InstructionRange.length ir) by (unfold in_chunk in Hic; lia).
  destruct (chunk_instructions_inside _ _ _ Hlen Hr Hb) as [Hchain Hinside].
  destruct (cache_ordered_in_offset_order _ _ Hchain) as [Hbpos Hbpairs].
  set (k := upper_bound Instruction.offset cache abs_offset).
  pose proof Hord as [Hpos Hpairs].
  rewrite <- (firstn_skipn k cache) in Hpos, Hpairs, Hout.
  rewrite Forall_app in Hpos, Hout. destruct Hpos as [Hpos1 Hpos2].
  destruct Hout as [Hout1 Hout2].
  rewrite ordered_pairs_app in Hpairs. destruct Hpairs as [Hp1 [Hp2 Hp12]].
  rewrite Forall_forall in Hout1, Hout2, Hpos1, Hpos2.
  assert (Hbefore : forall a b, In a (firstn k cache) -> In b batch ->
            Instruction.offset a + Instruction.length a <= Instruction.offset b).
  { intros a b Ha Hb'.
    pose proof (upper_bound_firstn _ Instruction.offset cache abs_offset a Ha).
    pose proof (Hinside b Hb'). pose proof (Hpos1 a Ha).
    destruct (Hout1 a Ha); unfold in_chunk in Hic; lia. }
  assert (Hafter : forall b c, In b batch -> In c (skipn k cache) ->
            Instruction.offset b + Instruction.length b <= Instruction.offset c).
  { intros b c Hb' Hc.
    pose proof (upper_bound_after cache abs_offset c Hord Hc).
    pose proof (Hinside b Hb'). pose proof (Hpos2 c Hc).
    destruct (Hout2 c Hc); unfold in_chunk in Hic; lia. }
  unfold insert_at. fold k. split.
  - rewrite !Forall_app. repeat split; try assumption;
      rewrite Forall_forall; assumption.
  - rewrite !ordered_pairs_app.
    split; [exact Hp1|]. split.
    + split; [exact Hbpairs|]. split; [exact Hp2 | exact Hafter].
    + intros a b Ha Hb'. apply in_app_or in Hb'. destruct Hb' as [Hb' | Hb'].
      * apply Hbefore; assumption.
      * apply Hp12; assumption.
Qed.

End CacheOrder.

(* ================================================================== *)
(** * Lookups by offset *)
(* ================================================================== *)

Section Lookup.

Variable NDEBUG : bool.
Variable cs_disasm_iter : list byte -> Z -> option cs_insn.
Variable read_data : Z -> Z -> ReadResult.

(** The miss path changes the region only where it goes on to the recursive
    call. *)
Lemma fill_cases : forall s abs_offset o s',
  instruction_by_offset_fill NDEBUG cs_disasm_iter read_data abs_offset s = (o, s') ->
  rgn s' = rgn s \/ o = Returned true.
Proof.
  intros s abs_offset o s' H.
  unfold instruction_by_offset_fill, try_catch, doc_read_data, disasm_loop,
    assert_opt, get_region, emit, modify, ret, throw, diverge, bind in H.
  destruct (processed_by_offset (rgn s) abs_offset) as [ir|];
    [|injection H as _ <-; now left].
  destruct (read_data (InstructionRange.offset ir) (InstructionRange.length ir))
    as [data|what];
    [|injection H as _ <-; now left].
  destruct (cs_disasm_while _ _ _ _ _ _);
    [|injection H as _ <-; now left].
  destruct NDEBUG.
  - cbn [rgn trace] in H.
    destruct (_ >? INSTRUCTION_CACHE_LIMIT); injection H as <- _; now right.
  - destruct (assert_after_prev _ _ _) as [[|]|];
      try (injection H as _ <-; now left).
    destruct (assert_before_next _ _ _) as [[|]|];
      try (injection H as _ <-; now left).
    cbn [rgn trace] in H.
    destruct (_ >? INSTRUCTION_CACHE_LIMIT); injection H as <- _; now right.
Qed.

(** Every call leaves a cache whose instructions come from the chunks. *)
Lemma instruction_by_offset_keeps_cache_from_chunks : forall fuel abs_offset s o s',
  cache_from_chunks cs_disasm_iter read_data (rgn s) ->
  instruction_by_offset NDEBUG cs_disasm_iter read_data fuel abs_offset s = (o, s') ->
  cache_from_chunks cs_disasm_iter read_data (rgn s').
Proof.
  induction fuel as [|fuel IH]; intros abs_offset s o s' Hinv H.
  - injection H as _ <-. exact Hinv.
  - cbn [instruction_by_offset] in H. unfold get_region, ret, bind in H.
    destruct (cached_instruction (rgn s) abs_offset).
    + injection H as _ <-. exact Hinv.
    + destruct (instruction_by_offset_fill NDEBUG cs_disasm_iter read_data abs_offset s)
        as [o1 s1] eqn:Hfill.
      assert (Hinv1 : cache_from_chunks cs_disasm_iter read_data (rgn s1)).
      { destruct (fill_cases _ _ _ _ Hfill) as [-> | ->]; [exact Hinv|].
        destruct (fill_true _ _ _ _ _ _ Hfill) as [ir [data [batch [Hir [Hr [Hb ->]]]]]].
        intros i Hi. cbn [rgn instructions set_instructions processed] in *.
        unfold cache_after_insert in Hi.
        assert (Hcase : In i batch \/ In i (instructions (rgn s))).
        { destruct (_ >? INSTRUCTION_CACHE_LIMIT); [now left|].
          apply in_insert_at in Hi. exact Hi. }
        destruct Hcase as [Hbatch | Hold]; [|apply Hinv; exact Hold].
        exists ir, data, batch.
        destruct (processed_by_offset_some _ _ _ Hir) as [Hin _].
        repeat split; assumption. }
      destruct o1 as [[|]| | | |]; try (injection H as _ <-; exact Hinv1).
      apply (IH _ _ _ _ Hinv1 H).
Qed.

(** A lookup of an offset that no chunk holds. *)
Lemma instruction_by_offset_no_chunk : forall fuel s abs_offset,
  cached_instruction (rgn s) abs_offset = None ->
  processed_by_offset (rgn s) abs_offset = None ->
  instruction_by_offset NDEBUG cs_disasm_iter read_data (S fuel) abs_offset s
  = (Returned None, s).
Proof.
  intros fuel s abs_offset Hmiss Hir.
  cbn [instruction_by_offset].
  unfold instruction_by_offset_fill, get_region, ret, bind.
  rewrite Hmiss, Hir. reflexivity.
Qed.

Hypothesis decoder_contract : decoder_ok cs_disasm_iter.
Hypothesis read_contract : read_ok read_data.

(** A lookup on an empty cache, of an offset that an instruction of its
    chunk covers: the chunk is decoded and the instruction returned. *)
Lemma instruction_by_offset_fresh : forall fuel s abs_offset ir data batch i,
  contiguous (d_offset (rgn s)) 0 (processed (rgn s)) ->
  chunks_nonneg (processed (rgn s)) ->
  instructions (rgn s) = [] ->
  In ir (processed (rgn s)) ->
  read_data (InstructionRange.offset ir) (InstructionRange.length ir) = ReadOk data ->
  chunk_instructions cs_disasm_iter ir data = Some batch ->
  In i batch -> covers i abs_offset ->
  exists k,
    instruction_by_offset NDEBUG cs_disasm_iter read_data (S (S fuel)) abs_offset s
    = (Returned (Some (k, i)),
       {| rgn := set_instructions batch (rgn s);
          trace := trace s ++ [EvRead (InstructionRange.offset ir)
                                 (InstructionRange.length ir)] |}).
Proof.
  intros fuel s abs_offset ir data batch i Hc Hn Hnil Hin Hr Hb Hi Hcov.
  assert (Hlen : 0 <= InstructionRange.length ir).
  { unfold chunks_nonneg in Hn. rewrite Forall_forall in Hn. apply (Hn ir Hin). }
  destruct (chunk_instructions_inside cs_disasm_iter read_data decoder_contract
              read_contract ir data batch Hlen Hr Hb) as [Hord Hinside].
  assert (Hic : in_chunk ir abs_offset).
  { specialize (Hinside i Hi). unfold covers in Hcov. unfold in_chunk. lia. }
  pose proof (processed_by_offset_finds _ _ _ _ _ Hc Hn Hin Hic) as Hir.
  set (s1 := {| rgn := set_instructions batch (rgn s);
                trace := trace s ++ [EvRead (InstructionRange.offset ir)
                                       (InstructionRange.length ir)] |}).
  destruct (cached_instruction_finds (rgn s1) (InstructionRange.offset ir)
              abs_offset i Hord Hi Hcov) as [k Hk].
  exists k.
  change (instruction_by_offset NDEBUG cs_disasm_iter read_data (S (S fuel)) abs_offset s)
    with (bind get_region
            (fun r =>
               match cached_instruction r abs_offset with
               | Some found => ret (Some found)
               | None =>
                   bind (instruction_by_offset_fill NDEBUG cs_disasm_iter read_data
                                                    abs_offset)
                        (fun again =>
                           if again
                           then instruction_by_offset NDEBUG cs_disasm_iter read_data
                                                      (S fuel) abs_offset
                           else ret None)
               end) s).
  unfold get_region, bind at 1.
  rewrite (cached_instruction_nil _ abs_offset Hnil).
  unfold bind.
  rewrite (fill_empty_cache NDEBUG cs_disasm_iter read_data s abs_offset ir data batch
             Hnil Hir Hr Hb).
  fold s1. cbn [instruction_by_offset]. unfold get_region, ret, bind.
  rewrite Hk. reflexivity.
Qed.

End Lookup.

(** Take a region whose chunks are contiguous and whose cache holds
    instructions decoded from its chunks, and a call of
    [instruction_by_offset] that returns.  A second call with the same
    offset returns the same answer (the same position and the same
    instruction, or [EMPTY_END]) and leaves the region as the first call left
    it.  When the cache is cleared between the two calls, the second call
    returns too, after decoding the chunk again, and with the same
    instruction (or [EMPTY_END]).  This holds for every offset, and also when
    the read of the chunk fails. *)
Lemma instruction_by_offset_again :
  forall NDEBUG cs_disasm_iter read_data,
    decoder_ok cs_disasm_iter -> read_ok read_data ->
    forall s abs_offset fuel r1 s1,
      contiguous (d_offset (rgn s)) 0 (processed (rgn s)) ->
      chunks_nonneg (processed (rgn s)) ->
      cache_from_chunks cs_disasm_iter read_data (rgn s) ->
      instruction_by_offset NDEBUG cs_disasm_iter read_data fuel abs_offset s
      = (Returned r1, s1) ->
      (forall fuel2, exists s2,
          instruction_by_offset NDEBUG cs_disasm_iter read_data (S fuel2) abs_offset s1
          = (Returned r1, s2)
          /\ rgn s2 = rgn s1)
      /\ (forall fuel2, exists r2 s2,
             instruction_by_offset NDEBUG cs_disasm_iter read_data (S (S fuel2))
                                   abs_offset (clear_cache s1)
             = (Returned r2, s2)
             /\ option_map snd r2 = option_map snd r1).
Proof.
  intros NDEBUG dec read Hdec Hread s abs_offset fuel r1 s1 Hc Hn Hprov H.
  destruct (instruction_by_offset_result _ _ _ _ _ _ _ _ H) as [Hcached Hnone].
  pose proof (instruction_by_offset_frame _ _ _ _ _ _ _ _ H) as Hframe.
  pose proof (instruction_by_offset_keeps_cache_from_chunks _ _ _ _ _ _ _ _ Hprov H)
    as Hprov1.
  split.
  - intros fuel2. destruct r1 as [found|].
    + exists s1. cbn [instruction_by_offset]. unfold get_region, ret, bind.
      rewrite Hcached. split; reflexivity.
    + destruct (Hnone eq_refl) as [Hno | [ir [what [Hir Hr]]]].
      * exists s1. rewrite instruction_by_offset_no_chunk by assumption.
        split; reflexivity.
      * eexists.
        rewrite (instruction_by_offset_read_error NDEBUG dec read fuel2 s1 abs_offset
                   ir what Hcached Hir Hr).
        split; reflexivity.
  - intros fuel2. destruct r1 as [[k i]|].
    + destruct (cached_instruction_some _ _ _ _ Hcached) as [Hnth Hcov].
      apply nth_error_In in Hnth.
      destruct (Hprov1 i Hnth) as [ir [data [batch [Hin [Hr [Hb Hi]]]]]].
      destruct (instruction_by_offset_fresh NDEBUG dec read Hdec Hread fuel2
                  (clear_cache s1) abs_offset ir data batch i) as [k2 Hk2];
        try assumption; try reflexivity.
      * cbn [clear_cache rgn set_instructions d_offset processed].
        rewrite Hframe. exact Hc.
      * cbn [clear_cache rgn set_instructions processed].
        rewrite Hframe. exact Hn.
      * eexists. eexists. split; [exact Hk2 | reflexivity].
    + assert (Hnil : cached_instruction (rgn (clear_cache s1)) abs_offset = None)
        by (apply cached_instruction_nil; reflexivity).
      destruct (Hnone eq_refl) as [Hno | [ir [what [Hir Hr]]]].
      * exists None. eexists.
        rewrite instruction_by_offset_no_chunk; [split; reflexivity | exact Hnil|].
        exact Hno.
      * exists None. eexists.
        rewrite (instruction_by_offset_read_error NDEBUG dec read (S fuel2)
                   (clear_cache s1) abs_offset ir what Hnil Hir Hr).
        split; reflexivity.
Qed.

Lemma sample_both_cached_from_chunks :
  cache_from_chunks (Sample.decode true) (Sample.buffer_read_data Sample.code15)
                    Sample.both_cached.
Proof.
  assert (H0 : cache_from_chunks (Sample.decode true)
                 (Sample.buffer_read_data Sample.code15)
                 (rgn (Sample.start Sample.two_chunks))).
  { intros i []. }
  destruct (instruction_by_offset false (Sample.decode true)
              (Sample.buffer_read_data Sample.code15) 2 10
              (Sample.start Sample.two_chunks)) as [o1 s1] eqn:H1.
  pose proof (instruction_by_offset_keeps_cache_from_chunks _ _ _ _ _ _ _ _ H0 H1) as Hs1.
  assert (E1 : s1 = {| rgn := Sample.second_cached; trace := trace s1 |}).
  { vm_compute in H1. injection H1 as _ <-. reflexivity. }
  destruct (instruction_by_offset false (Sample.decode true)
              (Sample.buffer_read_data Sample.code15) 2 4
              {| rgn := Sample.second_cached; trace := [] |}) as [o2 s2] eqn:H2.
  assert (Hs1' : cache_from_chunks (Sample.decode true)
                   (Sample.buffer_read_data Sample.code15)
                   (rgn {| rgn := Sample.second_cached; trace := [] |})).
  { rewrite E1 in Hs1. exact Hs1. }
  pose proof (instruction_by_offset_keeps_cache_from_chunks _ _ _ _ _ _ _ _ Hs1' H2) as Hs2.
  vm_compute in H2. injection H2 as _ <-. exact Hs2.
Qed.

(** On the sample: with both chunks cached, the lookup of offset 10
    returns the [mov] at position 5 of the cache; after a clear it returns
    the same [mov], now at position 1. *)
Lemma instruction_by_offset_again_sample :
  exists i s1 k2 s2,
    instruction_by_offset false (Sample.decode true)
      (Sample.buffer_read_data Sample.code15) 1 10 (Sample.start Sample.both_cached)
    = (Returned (Some (5%nat, i)), s1)
    /\ Instruction.offset i = 10
    /\ instruction_by_offset false (Sample.decode true)
         (Sample.buffer_read_data Sample.code15) 2 10 (clear_cache s1)
       = (Returned (Some (k2, i)), s2)
    /\ k2 = 1%nat.
Proof.
  destruct (instruction_by_offset false (Sample.decode true)
              (Sample.buffer_read_data Sample.code15) 1 10
              (Sample.start Sample.both_cached)) as [o1 s1] eqn:H1.
  assert (E : exists i, o1 = Returned (Some (5%nat, i)) /\ Instruction.offset i = 10
                        /\ s1 = Sample.start Sample.both_cached).
  { vm_compute in H1. injection H1 as <- <-. eexists. repeat split. }
  destruct E as [i [-> [Hoff Hs1]]].
  destruct (instruction_by_offset_again false (Sample.decode true)
              (Sample.buffer_read_data Sample.code15)
              (sample_decoder_ok true) (sample_read_ok Sample.code15)
              (Sample.start Sample.both_cached) 10 1 (Some (5%nat, i)) s1)
    as [_ Hclear].
  - simpl. repeat split.
  - repeat constructor; simpl; lia.
  - exact sample_both_cached_from_chunks.
  - exact H1.
  - destruct (Hclear O) as [r2 [s2 [H2 Hsame]]].
    destruct r2 as [[k2 i2]|]; [|discriminate].
    simpl in Hsame. injection Hsame as ->.
    exists i, s1, k2, s2. split; [reflexivity|]. split; [exact Hoff|].
    split; [exact H2|].
    rewrite Hs1 in H2. vm_compute in H2. injection H2 as -> _ _. reflexivity.
Defined.

(* ================================================================== *)
(** * Cursor movement across the lines *)
(* ================================================================== *)

Section CursorLines.

Variable NDEBUG : bool.
Variable cs_disasm_iter : list byte -> Z -> option cs_insn.
Variable read_data : Z -> Z -> ReadResult.


End CursorLines.



(* ================================================================== *)
(** * Decoding a chunk again *)
(* ================================================================== *)

Lemma back_in : forall (A : Type) (v : list A) (x : A), back v = Some x -> In x v.
Proof.
  induction v as [|y v IH]; intros x H; simpl in H; [discriminate|].
  destruct v as [|z v].
  - injection H as ->. now left.
  - right. apply IH. exact H.
Qed.

Lemma decoded_chain_total_nonneg : forall l address,
  decoded_chain address l -> 0 <= total_size l.
Proof.
  induction l as [|d l IH]; intros address H; unfold total_size in *; simpl in *; [lia|].
  destruct H as [_ [Hs H]]. specialize (IH _ H). lia.
Qed.

(** A chain of decoded instructions covers every byte from its start to its
    end. *)
Lemma chain_covers : forall ir l n address o,
  decoded_chain address l ->
  address <= o < address + total_size l ->
  exists i, In i (to_instructions ir n l) /\ covers i o.
Proof.
  induction l as [|d l IH]; intros n address o Hc Ho.
  - unfold total_size in Ho. simpl in Ho. lia.
  - destruct Hc as [Ha [Hs Hc]]. unfold total_size in Ho. simpl in Ho.
    fold (total_size l) in Ho.
    destruct (Z_lt_le_dec o (address + size (dec_insn d))) as [Hin | Hout].
    + eexists. split; [left; reflexivity|]. unfold covers. simpl. lia.
    + destruct (IH (n + 1) _ o Hc) as [i [Hi Hcov]]; [lia|].
      exists i. split; [right; exact Hi | exact Hcov].
Qed.

Section Redecode.

Variable cs_disasm_iter : list byte -> Z -> option cs_insn.
Variable read_data : Z -> Z -> ReadResult.
Hypothesis decoder_contract : decoder_ok cs_disasm_iter.
Hypothesis decoder_prefix : decoder_stable cs_disasm_iter.
Hypothesis read_prefix : read_stable read_data.

Lemma decode_nothing : forall address, cs_disasm_iter [] address = None.
Proof.
  intros address. destruct (cs_disasm_iter [] address) as [insn|] eqn:E; [|reflexivity].
  apply decoder_contract in E. unfold vsize in E. simpl in E. lia.
Qed.

Lemma cs_disasm_list_total_nonneg : forall fuel code address l,
  cs_disasm_list cs_disasm_iter fuel code address = Some l ->
  0 <= total_size l.
Proof.
  induction fuel as [|fuel IH]; intros code address l H; [discriminate|].
  simpl in H. destruct (cs_disasm_iter code address) as [insn|] eqn:E.
  - destruct (cs_disasm_list cs_disasm_iter fuel _ _) as [l2|] eqn:E2; [|discriminate].
    injection H as <-. apply IH in E2. apply decoder_contract in E.
    unfold total_size in *. simpl. lia.
  - injection H as <-. unfold total_size. simpl. lia.
Qed.

(** The instructions decoded from a buffer are decoded again, the same,
    from the bytes that they take. *)
Lemma cs_disasm_list_prefix : forall fuel code address l,
  cs_disasm_list cs_disasm_iter fuel code address = Some l ->
  forall fuel',
    (Z.to_nat (total_size l) < fuel')%nat ->
    cs_disasm_list cs_disasm_iter fuel' (firstn (Z.to_nat (total_size l)) code) address
    = Some l.
Proof.
  induction fuel as [|fuel IH]; intros code address l H fuel' Hfuel; [discriminate|].
  simpl in H. destruct fuel' as [|fuel']; [lia|].
  destruct (cs_disasm_iter code address) as [insn|] eqn:E.
  - destruct (cs_disasm_list cs_disasm_iter fuel _ _) as [l2|] eqn:E2; [|discriminate].
    injection H as <-.
    pose proof (decoder_contract _ _ _ E) as Hsize.
    pose proof (cs_disasm_list_total_nonneg _ _ _ _ E2) as Hl2.
    unfold total_size. cbn [fold_right dec_insn]. fold (total_size l2).
    simpl cs_disasm_list.
    rewrite (decoder_prefix code address insn (size insn + total_size l2) E) by lia.
    assert (Hskip : skipn (Z.to_nat (size insn))
                          (firstn (Z.to_nat (size insn + total_size l2)) code)
                    = firstn (Z.to_nat (total_size l2))
                             (skipn (Z.to_nat (size insn)) code)).
    { rewrite skipn_firstn_comm. f_equal. lia. }
    rewrite Hskip.
    rewrite (IH _ _ _ E2 fuel').
    + do 3 f_equal. rewrite firstn_firstn. f_equal. lia.
    + unfold total_size in Hfuel. cbn [fold_right dec_insn] in Hfuel.
      fold (total_size l2) in Hfuel. lia.
  - injection H as <-. unfold total_size. simpl.
    rewrite decode_nothing. reflexivity.
Qed.

(** The chunk that [check] appends decodes again to instructions that
    cover it. *)
Lemma new_chunk_decodes : forall process_base process_len data insns new_ir,
  read_data process_base process_len = ReadOk data ->
  cs_disasm_list cs_disasm_iter (S (List.length data)) data process_base = Some insns ->
  decoded_chain process_base insns ->
  0 <= total_size insns <= vsize data ->
  InstructionRange.offset new_ir = process_base ->
  InstructionRange.length new_ir = total_size insns ->
  chunk_decodes cs_disasm_iter read_data new_ir.
Proof.
  intros base len data insns new_ir Hr Hl Hchain Htotal Hoff Hlen.
  exists (firstn (Z.to_nat (total_size insns)) data), (to_instructions new_ir 0 insns).
  split; [|split].
  - rewrite Hoff, Hlen. apply (read_prefix base len data); assumption.
  - unfold chunk_instructions. rewrite cs_disasm_while_list, Hoff.
    rewrite (cs_disasm_list_prefix _ _ _ _ Hl).
    + rewrite decode_body_fold. reflexivity.
    + rewrite length_firstn. unfold vsize in Htotal. lia.
  - intros o Ho. unfold in_chunk in Ho. rewrite Hoff, Hlen in Ho.
    apply (chain_covers new_ir insns 0 base o Hchain Ho).
Qed.

End Redecode.

Lemma sample_decoder_stable : forall skipdata, decoder_stable (Sample.decode skipdata).
Proof.
  intros skipdata code address insn n H Hn.
  pose proof (sample_decoder_ok skipdata code address insn H) as Hsize.
  unfold Sample.decode in *.
  destruct code as [|b rest]; [discriminate|].
  assert (Hn1 : exists m, Z.to_nat n = S m).
  { exists (Nat.pred (Z.to_nat n)). lia. }
  destruct Hn1 as [m Hm]. rewrite Hm. cbn [firstn].
  destruct (Byte.eqb b x90); [exact H|].
  assert (Hhead : match firstn m rest with
                  | b' :: _ => Byte.eqb b' xc0
                  | [] => false
                  end = true ->
                  match rest with
                  | b' :: _ => Byte.eqb b' xc0
                  | [] => false
                  end = true).
  { destruct rest as [|b' rest'], m; simpl; intros E; try discriminate; exact E. }
  destruct (Byte.eqb b x31).
  - cbn [andb] in *.
    destruct rest as [|b' rest'].
    + cbn [firstn]. destruct m; exact H.
    + destruct (Byte.eqb b' xc0) eqn:Eb.
      * injection H as <-. simpl in Hn.
        destruct m as [|m]; [lia|]. cbn [firstn]. rewrite Eb. reflexivity.
      * destruct m as [|m]; cbn [firstn]; [|rewrite Eb].
        -- destruct (Byte.eqb b xb8 && (4 <=? List.length (b' :: rest'))%nat)%bool eqn:Emov.
           ++ injection H as <-. simpl in Hn. lia.
           ++ destruct (Byte.eqb b xb8); exact H.
        -- destruct (Byte.eqb b xb8) eqn:Eb8; cbn [andb] in *; [|exact H].
           destruct (4 <=? List.length (b' :: rest'))%nat eqn:E4.
           ++ injection H as <-. simpl in Hn.
              assert (E4' : (4 <=? List.length (b' :: firstn m rest'))%nat = true).
              { apply Nat.leb_le in E4. apply Nat.leb_le.
                simpl in *. rewrite length_firstn. lia. }
              rewrite E4'. reflexivity.
           ++ assert (E4' : (4 <=? List.length (b' :: firstn m rest'))%nat = false).
              { apply Nat.leb_gt in E4. apply Nat.leb_gt.
                simpl in *. rewrite length_firstn. lia. }
              rewrite E4'. exact H.
  - cbn [andb] in *.
    destruct (Byte.eqb b xb8) eqn:Eb8; cbn [andb] in *; [|exact H].
    destruct (4 <=? List.length rest)%nat eqn:E4.
    + injection H as <-. simpl in Hn.
      assert (E4' : (4 <=? List.length (firstn m rest))%nat = true).
      { apply Nat.leb_le in E4. apply Nat.leb_le. rewrite length_firstn. lia. }
      rewrite E4'. reflexivity.
    + assert (E4' : (4 <=? List.length (firstn m rest))%nat = false).
      { apply Nat.leb_gt in E4. apply Nat.leb_gt. rewrite length_firstn. lia. }
      rewrite E4'. exact H.
Qed.

Lemma sample_read_stable : forall buf, read_stable (Sample.buffer_read_data buf).
Proof.
  intros buf offset max_length data shorter H Hs.
  unfold Sample.buffer_read_data in *.
  destruct (_ || _)%bool; [discriminate|].
  injection H as <-. f_equal.
  rewrite firstn_firstn. f_equal.
  unfold vsize in Hs. rewrite length_firstn in Hs. lia.
Qed.

(* ================================================================== *)
(** * A miss of the cache *)
(* ================================================================== *)

Lemma in_offset_order_chain : forall v lo,
  (forall x, In x v -> lo <= Instruction.offset x) ->
  in_offset_order v -> cache_ordered lo v.
Proof.
  induction v as [|i v IH]; intros lo Hlo [Hpos Hpairs]; [exact I|].
  inversion Hpos as [|? ? Hi Hpos']; subst.
  inversion Hpairs as [|? ? Hafter Hpairs']; subst.
  simpl. split; [apply Hlo; now left|]. split; [exact Hi|].
  apply IH; [|split; assumption].
  rewrite Forall_forall in Hafter. exact Hafter.
Qed.

(** In a cache in offset order the search finds the instruction that
    covers the offset. *)
Lemma cached_instruction_finds_in_order : forall r o i,
  in_offset_order (instructions r) -> In i (instructions r) -> covers i o ->
  exists k, cached_instruction r o = Some (k, i).
Proof.
  intros r o i Hord Hin Hcov.
  destruct (instructions r) as [|j v] eqn:E; [contradiction|].
  assert (Hchain : cache_ordered (Instruction.offset j) (instructions r)).
  { rewrite E. apply in_offset_order_chain; [|exact Hord].
    intros x [<- | Hx]; [lia|].
    pose proof Hord as [Hpos Hpairs].
    inversion Hpairs as [|? ? Hafter _]; subst.
    inversion Hpos as [|? ? Hj _]; subst.
    rewrite Forall_forall in Hafter. specialize (Hafter x Hx). lia. }
  apply (cached_instruction_finds r _ o i Hchain); [rewrite E; exact Hin | exact Hcov].
Qed.

Lemma nth_error_in_firstn : forall (A : Type) (v : list A) p k x,
  nth_error v p = Some x -> (p < k)%nat -> In x (firstn k v).
Proof.
  induction v as [|a v IH]; intros p k x H Hp; [destruct p; discriminate|].
  destruct k as [|k]; [lia|]. destruct p as [|p]; simpl in *.
  - injection H as <-. now left.
  - right. apply (IH p); [exact H | lia].
Qed.

Lemma nth_error_in_skipn : forall (A : Type) (v : list A) k x,
  nth_error v k = Some x -> In x (skipn k v).
Proof.
  induction v as [|a v IH]; intros k x H; [destruct k; discriminate|].
  destruct k as [|k]; simpl in *.
  - injection H as <-. now left.
  - apply IH. exact H.
Qed.

Lemma upper_bound_le : forall (A : Type) (key : A -> Z) v o,
  (upper_bound key v o <= List.length v)%nat.
Proof.
  induction v as [|a v IH]; intros o; simpl; [lia|].
  destruct (o <? key a); [lia|]. specialize (IH o). lia.
Qed.

Section Miss.

Variable NDEBUG : bool.
Variable cs_disasm_iter : list byte -> Z -> option cs_insn.
Variable read_data : Z -> Z -> ReadResult.
Hypothesis decoder_contract : decoder_ok cs_disasm_iter.
Hypothesis read_contract : read_ok read_data.

(** Where the batch goes: the cache entries before the upper bound end
    before the batch, those after it start after the batch. *)
Lemma insert_neighbours : forall cache ir data batch abs_offset,
  in_chunk ir abs_offset ->
  read_data (InstructionRange.offset ir) (InstructionRange.length ir) = ReadOk data ->
  chunk_instructions cs_disasm_iter ir data = Some batch ->
  in_offset_order cache ->
  Forall (outside_chunk ir) cache ->
  (forall a b,
      In a (firstn (upper_bound Instruction.offset cache abs_offset) cache) ->
      In b batch ->
      Instruction.offset a + Instruction.length a <= Instruction.offset b)
  /\ (forall b c,
         In b batch ->
         In c (skipn (upper_bound Instruction.offset cache abs_offset) cache) ->
         Instruction.offset b + Instruction.length b <= Instruction.offset c).
Proof.
  intros cache ir data batch abs_offset Hic Hr Hb Hord Hout.
  assert (Hlen : 0 <= InstructionRange.length ir) by (unfold in_chunk in Hic; lia).
  destruct (chunk_instructions_inside cs_disasm_iter read_data decoder_contract
              read_contract _ _ _ Hlen Hr Hb) as [_ Hinside].
  set (k := upper_bound Instruction.offset cache abs_offset).
  pose proof Hord as [Hpos _].
  rewrite Forall_forall in Hout, Hpos.
  assert (Hfirst : forall a, In a (firstn k cache) -> In a cache).
  { intros a Ha. rewrite <- (firstn_skipn k cache). apply in_or_app. now left. }
  assert (Hskip : forall a, In a (skipn k cache) -> In a cache).
  { intros a Ha. rewrite <- (firstn_skipn k cache). apply in_or_app. now right. }
  split.
  - intros a b Ha Hb'.
    pose proof (upper_bound_firstn _ Instruction.offset cache abs_offset a Ha).
    pose proof (Hinside b Hb'). pose proof (Hpos a (Hfirst a Ha)).
    destruct (Hout a (Hfirst a Ha)); unfold in_chunk in Hic; lia.
  - intros b c Hb' Hc.
    pose proof (upper_bound_after cache abs_offset c Hord Hc).
    pose proof (Hinside b Hb'). pose proof (Hpos c (Hskip c Hc)).
    destruct (Hout c (Hskip c Hc)); unfold in_chunk in Hic; lia.
Qed.

(** The two assertions before the insertion hold then. *)
Lemma insert_assertions : forall cache ir data batch abs_offset,
  in_chunk ir abs_offset ->
  read_data (InstructionRange.offset ir) (InstructionRange.length ir) = ReadOk data ->
  chunk_instructions cs_disasm_iter ir data = Some batch ->
  batch <> [] ->
  in_offset_order cache ->
  Forall (outside_chunk ir) cache ->
  assert_after_prev cache batch (upper_bound Instruction.offset cache abs_offset)
  = Some true
  /\ assert_before_next cache batch (upper_bound Instruction.offset cache abs_offset)
     = Some true.
Proof.
  intros cache ir data batch abs_offset Hic Hr Hb Hne Hord Hout.
  destruct (insert_neighbours _ _ _ _ _ Hic Hr Hb Hord Hout) as [Hbefore Hafter].
  pose proof (upper_bound_le _ Instruction.offset cache abs_offset) as Hk.
  set (k := upper_bound Instruction.offset cache abs_offset) in *.
  destruct batch as [|f batch']; [contradiction|].
  split.
  - unfold assert_after_prev. destruct k as [|p] eqn:Ek; [reflexivity|].
    destruct (nth_error cache p) as [pr|] eqn:Hp.
    + cbn [front]. f_equal. apply Z.leb_le.
      apply Hbefore; [|now left].
      apply (nth_error_in_firstn _ cache p (S p) pr Hp). lia.
    + apply nth_error_None in Hp. lia.
  - unfold assert_before_next.
    destruct (Nat.eqb_spec k (List.length cache)) as [|Hneq]; [reflexivity|].
    destruct (nth_error cache k) as [nx|] eqn:Hn.
    + destruct (back (f :: batch')) as [b|] eqn:Hback.
      * f_equal. apply Z.geb_le.
        apply Hafter; [apply back_in; exact Hback|].
        apply nth_error_in_skipn. exact Hn.
      * apply back_nil_inv in Hback. discriminate.
    + apply nth_error_None in Hn. lia.
Qed.

(** The miss path, when the assertions hold. *)
Lemma fill_returns : forall s abs_offset ir data batch,
  processed_by_offset (rgn s) abs_offset = Some ir ->
  read_data (InstructionRange.offset ir) (InstructionRange.length ir) = ReadOk data ->
  chunk_instructions cs_disasm_iter ir data = Some batch ->
  assert_after_prev (instructions (rgn s)) batch
    (upper_bound Instruction.offset (instructions (rgn s)) abs_offset) = Some true ->
  assert_before_next (instructions (rgn s)) batch
    (upper_bound Instruction.offset (instructions (rgn s)) abs_offset) = Some true ->
  instruction_by_offset_fill NDEBUG cs_disasm_iter read_data abs_offset s
  = (Returned true,
     {| rgn := set_instructions
                 (cache_after_insert (instructions (rgn s)) batch abs_offset) (rgn s);
        trace := trace s ++ [EvRead (InstructionRange.offset ir)
                               (InstructionRange.length ir)] |}).
Proof.
  intros s abs_offset ir data batch Hir Hr Hb Ha1 Ha2.
  unfold instruction_by_offset_fill, try_catch, doc_read_data, disasm_loop,
    assert_opt, get_region, emit, modify, ret, throw, diverge, bind.
  rewrite Hir, Hr. fold (chunk_instructions cs_disasm_iter ir data). rewrite Hb.
  rewrite Ha1, Ha2. unfold cache_after_insert. cbn [rgn trace].
  destruct NDEBUG; destruct (_ >? INSTRUCTION_CACHE_LIMIT); reflexivity.
Qed.

End Miss.

(* ================================================================== *)
(** * The invariant of the cache *)
(* ================================================================== *)

Lemma region_inv_set_instructions : forall r v,
  region_inv r -> region_inv (set_instructions v r).
Proof.
  intros r v H. destruct H. constructor; assumption.
Qed.

(** Two chunks at different places of the list share no byte. *)
Lemma chunks_apart : forall cs b l n1 n2 c1 c2,
  contiguous b l cs -> chunks_nonneg cs ->
  nth_error cs n1 = Some c1 -> nth_error cs n2 = Some c2 -> n1 <> n2 ->
  InstructionRange.offset c1 + InstructionRange.length c1 <= InstructionRange.offset c2
  \/ InstructionRange.offset c2 + InstructionRange.length c2 <= InstructionRange.offset c1.
Proof.
  intros cs b l n1 n2 c1 c2 Hc Hn H1 H2 Hne.
  pose proof (contiguous_ordered _ _ _ Hc Hn) as Hord.
  destruct (Nat.lt_total n1 n2) as [Hlt | [Heq | Hgt]]; [|contradiction|].
  - left. apply (Hord n1 n2 c1 c2 Hlt H1 H2).
  - right. apply (Hord n2 n1 c2 c1 Hgt H2 H1).
Qed.

Section CacheInvariant.

Variable NDEBUG : bool.
Variable cs_disasm_iter : list byte -> Z -> option cs_insn.
Variable read_data : Z -> Z -> ReadResult.
Hypothesis decoder_contract : decoder_ok cs_disasm_iter.
Hypothesis read_contract : read_ok read_data.

(** An instruction decoded from two chunks of the list: they are one
    chunk. *)
Lemma same_chunk : forall r ir1 ir2 data1 data2 batch1 batch2 i,
  region_inv r ->
  In ir1 (processed r) -> In ir2 (processed r) ->
  read_data (InstructionRange.offset ir1) (InstructionRange.length ir1) = ReadOk data1 ->
  read_data (InstructionRange.offset ir2) (InstructionRange.length ir2) = ReadOk data2 ->
  chunk_instructions cs_disasm_iter ir1 data1 = Some batch1 ->
  chunk_instructions cs_disasm_iter ir2 data2 = Some batch2 ->
  In i batch1 -> In i batch2 ->
  ir1 = ir2 /\ batch1 = batch2.
Proof.
  intros r ir1 ir2 data1 data2 batch1 batch2 i Hinv Hin1 Hin2 Hr1 Hr2 Hb1 Hb2 Hi1 Hi2.
  pose proof (inv_nonneg Hinv) as Hn. pose proof (inv_chunks Hinv) as Hc.
  assert (Hlen : forall c, In c (processed r) -> 0 <= InstructionRange.length c).
  { intros c Hcin. unfold chunks_nonneg in Hn. rewrite Forall_forall in Hn.
    apply (Hn c Hcin). }
  destruct (chunk_instructions_inside cs_disasm_iter read_data decoder_contract
              read_contract _ _ _ (Hlen _ Hin1) Hr1 Hb1) as [_ Hinside1].
  destruct (chunk_instructions_inside cs_disasm_iter read_data decoder_contract
              read_contract _ _ _ (Hlen _ Hin2) Hr2 Hb2) as [_ Hinside2].
  specialize (Hinside1 i Hi1). specialize (Hinside2 i Hi2).
  destruct (In_nth_error _ _ Hin1) as [n1 Hn1].
  destruct (In_nth_error _ _ Hin2) as [n2 Hn2].
  destruct (Nat.eq_dec n1 n2) as [-> | Hne].
  - rewrite Hn1 in Hn2. injection Hn2 as <-.
    rewrite Hr1 in Hr2. injection Hr2 as <-.
    rewrite Hb1 in Hb2. injection Hb2 as <-. split; reflexivity.
  - destruct (chunks_apart _ _ _ _ _ _ _ Hc Hn Hn1 Hn2 Hne); lia.
Qed.

(** On a miss for an offset of chunk [ir], the chunk decodes to a batch with
    an instruction that covers the offset, and the cache holds nothing of
    the chunk. *)
Lemma miss_cache_outside : forall r abs_offset ir,
  lookup_inv cs_disasm_iter read_data r ->
  cached_instruction r abs_offset = None ->
  processed_by_offset r abs_offset = Some ir ->
  exists data batch i,
    read_data (InstructionRange.offset ir) (InstructionRange.length ir) = ReadOk data
    /\ chunk_instructions cs_disasm_iter ir data = Some batch
    /\ In i batch /\ covers i abs_offset
    /\ Forall (outside_chunk ir) (instructions r).
Proof.
  intros r abs_offset ir Hinv Hmiss Hir.
  destruct (processed_by_offset_some _ _ _ Hir) as [Hin Hic].
  pose proof (li_decodes Hinv) as Hdec. rewrite Forall_forall in Hdec.
  destruct (Hdec ir Hin) as [data [batch [Hr [Hb Hcover]]]].
  destruct (Hcover abs_offset Hic) as [i [Hi Hcov]].
  exists data, batch, i.
  split; [exact Hr|]. split; [exact Hb|]. split; [exact Hi|]. split; [exact Hcov|].
  assert (Hnone : forall j, In j batch -> ~ In j (instructions r)).
  { intros j Hj Hjc.
    pose proof (li_whole Hinv) as Hwhole.
    pose proof (Hwhole ir data batch j Hin Hr Hb Hj Hjc i Hi) as Hic'.
    destruct (cached_instruction_finds_in_order r abs_offset i (li_order Hinv) Hic' Hcov)
      as [k Hk].
    rewrite Hk in Hmiss. discriminate. }
  rewrite Forall_forall. intros x Hx.
  pose proof (li_from Hinv) as Hfrom.
  destruct (Hfrom x Hx) as [c [datac [batchc [Hcin [Hrc [Hbc Hxc]]]]]].
  pose proof (li_region Hinv) as Hreg.
  pose proof (inv_nonneg Hreg) as Hn. pose proof (inv_chunks Hreg) as Hc.
  assert (Hlenc : 0 <= InstructionRange.length c).
  { unfold chunks_nonneg in Hn. rewrite Forall_forall in Hn. apply (Hn c Hcin). }
  destruct (chunk_instructions_inside cs_disasm_iter read_data decoder_contract
              read_contract _ _ _ Hlenc Hrc Hbc) as [_ Hinside].
  specialize (Hinside x Hxc).
  destruct (In_nth_error _ _ Hin) as [n1 Hn1].
  destruct (In_nth_error _ _ Hcin) as [n2 Hn2].
  destruct (Nat.eq_dec n1 n2) as [-> | Hne].
  - exfalso. rewrite Hn1 in Hn2. injection Hn2 as <-.
    rewrite Hr in Hrc. injection Hrc as <-.
    rewrite Hb in Hbc. injection Hbc as <-.
    apply (Hnone x Hxc Hx).
  - unfold outside_chunk.
    destruct (chunks_apart _ _ _ _ _ _ _ Hc Hn Hn1 Hn2 Hne); [right | left]; lia.
Qed.

(** The miss path keeps the invariant. *)
Lemma fill_keeps_lookup_inv : forall s abs_offset o s',
  lookup_inv cs_disasm_iter read_data (rgn s) ->
  cached_instruction (rgn s) abs_offset = None ->
  instruction_by_offset_fill NDEBUG cs_disasm_iter read_data abs_offset s = (o, s') ->
  lookup_inv cs_disasm_iter read_data (rgn s').
Proof.
  intros s abs_offset o s' Hinv Hmiss Hfill.
  destruct (fill_cases _ _ _ _ _ _ _ Hfill) as [-> | ->]; [exact Hinv|].
  destruct (fill_true _ _ _ _ _ _ Hfill) as [ir [data [batch [Hir [Hr [Hb ->]]]]]].
  destruct (miss_cache_outside _ _ _ Hinv Hmiss Hir)
    as [data' [batch' [i [Hr' [Hb' [Hi [Hcov Hout]]]]]]].
  rewrite Hr in Hr'. injection Hr' as <-.
  rewrite Hb in Hb'. injection Hb' as <-.
  destruct (processed_by_offset_some _ _ _ Hir) as [Hin Hic].
  assert (Hlen : 0 <= InstructionRange.length ir) by (unfold in_chunk in Hic; lia).
  destruct (chunk_instructions_inside cs_disasm_iter read_data decoder_contract
              read_contract _ _ _ Hlen Hr Hb) as [Hchain _].
  cbn [rgn].
  assert (Hmem : forall x,
             In x (cache_after_insert (instructions (rgn s)) batch abs_offset) ->
             In x batch \/ In x (instructions (rgn s))).
  { intros x Hx. unfold cache_after_insert in Hx.
    destruct (_ >? INSTRUCTION_CACHE_LIMIT); [now left|].
    apply in_insert_at in Hx. exact Hx. }
  assert (Hbatch : forall x, In x batch ->
             In x (cache_after_insert (instructions (rgn s)) batch abs_offset)).
  { intros x Hx. unfold cache_after_insert.
    destruct (_ >? INSTRUCTION_CACHE_LIMIT); [exact Hx|].
    apply in_insert_at. now left. }
  constructor.
  - apply region_inv_set_instructions. exact (li_region Hinv).
  - exact (li_decodes Hinv).
  - cbn [instructions set_instructions]. unfold cache_after_insert.
    destruct (_ >? INSTRUCTION_CACHE_LIMIT).
    + apply (cache_ordered_in_offset_order _ _ Hchain).
    + apply (insert_keeps_offset_order cs_disasm_iter read_data decoder_contract
               read_contract _ ir data batch abs_offset Hic Hr Hb (li_order Hinv) Hout).
  - intros x Hx. cbn [instructions set_instructions processed] in *.
    destruct (Hmem x Hx) as [Hxb | Hxo].
    + exists ir, data, batch. repeat split; assumption.
    + pose proof (li_from Hinv) as Hfrom. apply (Hfrom x Hxo).
  - intros ir2 data2 batch2 i2 Hin2 Hr2 Hb2 Hi2 Hi2c j Hj.
    cbn [instructions set_instructions processed] in *.
    destruct (Hmem i2 Hi2c) as [Hib | Hio].
    + destruct (same_chunk (rgn s) ir ir2 data data2 batch batch2 i2
                  (li_region Hinv) Hin Hin2 Hr Hr2 Hb Hb2 Hib Hi2) as [_ <-].
      apply Hbatch. exact Hj.
    + pose proof (li_whole Hinv) as Hwhole.
      pose proof (Hwhole ir2 data2 batch2 i2 Hin2 Hr2 Hb2 Hi2 Hio j Hj) as Hjo.
      unfold cache_after_insert.
      destruct (_ >? INSTRUCTION_CACHE_LIMIT) eqn:Ebig.
      * (* the cache was cleared: [i2] is of the batch *)
        unfold cache_after_insert in Hi2c. rewrite Ebig in Hi2c.
        destruct (same_chunk (rgn s) ir ir2 data data2 batch batch2 i2
                    (li_region Hinv) Hin Hin2 Hr Hr2 Hb Hb2 Hi2c Hi2) as [_ <-].
        exact Hj.
      * apply in_insert_at. now right.
Qed.

(** Every call of [instruction_by_offset] keeps the invariant. *)
Lemma instruction_by_offset_keeps_lookup_inv : forall fuel abs_offset s o s',
  lookup_inv cs_disasm_iter read_data (rgn s) ->
  instruction_by_offset NDEBUG cs_disasm_iter read_data fuel abs_offset s = (o, s') ->
  lookup_inv cs_disasm_iter read_data (rgn s').
Proof.
  induction fuel as [|fuel IH]; intros abs_offset s o s' Hinv H.
  - injection H as _ <-. exact Hinv.
  - cbn [instruction_by_offset] in H. unfold get_region, ret, bind in H.
    destruct (cached_instruction (rgn s) abs_offset) eqn:Hc.
    + injection H as _ <-. exact Hinv.
    + destruct (instruction_by_offset_fill NDEBUG cs_disasm_iter read_data abs_offset s)
        as [o1 s1] eqn:Hfill.
      pose proof (fill_keeps_lookup_inv _ _ _ _ Hinv Hc Hfill) as Hinv1.
      destruct o1 as [[|]| | | |]; try (injection H as _ <-; exact Hinv1).
      apply (IH _ _ _ _ Hinv1 H).
Qed.

(** A lookup of an offset of the processed area returns the instruction
    that covers it. *)
Lemma instruction_by_offset_returns : forall fuel abs_offset s,
  lookup_inv cs_disasm_iter read_data (rgn s) ->
  d_offset (rgn s) <= abs_offset < unprocessed_offset (rgn s) ->
  exists k i s',
    instruction_by_offset NDEBUG cs_disasm_iter read_data (S (S fuel)) abs_offset s
    = (Returned (Some (k, i)), s')
    /\ covers i abs_offset.
Proof.
  intros fuel abs_offset s Hinv Ho.
  change (instruction_by_offset NDEBUG cs_disasm_iter read_data (S (S fuel)) abs_offset s)
    with (bind get_region
            (fun r =>
               match cached_instruction r abs_offset with
               | Some found => ret (Some found)
               | None =>
                   bind (instruction_by_offset_fill NDEBUG cs_disasm_iter read_data
                                                    abs_offset)
                        (fun again =>
                           if again
                           then instruction_by_offset NDEBUG cs_disasm_iter read_data
                                                      (S fuel) abs_offset
                           else ret None)
               end) s).
  unfold get_region, bind at 1.
  destruct (cached_instruction (rgn s) abs_offset) as [[k i]|] eqn:Hc.
  - exists k, i, s. split; [reflexivity|].
    apply (cached_instruction_some _ _ _ _ Hc).
  - pose proof (li_region Hinv) as Hreg.
    destruct (proj2 (contiguous_cover _ _ _ abs_offset (inv_chunks Hreg) (inv_nonneg Hreg)))
      as [c [Hcin Hcic]].
    { unfold unprocessed_offset in Ho. unfold chunks_end. exact Ho. }
    pose proof (processed_by_offset_finds _ _ _ _ _ (inv_chunks Hreg) (inv_nonneg Hreg)
                  Hcin Hcic) as Hir.
    destruct (miss_cache_outside _ _ _ Hinv Hc Hir)
      as [data [batch [i [Hr [Hb [Hi [Hcov Hout]]]]]]].
    assert (Hne : batch <> []) by (intros ->; contradiction).
    destruct (insert_assertions cs_disasm_iter read_data decoder_contract read_contract
                _ _ _ _ _ Hcic Hr Hb Hne (li_order Hinv) Hout) as [Ha1 Ha2].
    pose proof (fill_returns NDEBUG cs_disasm_iter read_data s abs_offset c data batch
                  Hir Hr Hb Ha1 Ha2) as Hfill.
    unfold bind. rewrite Hfill.
    pose proof (fill_keeps_lookup_inv _ _ _ _ Hinv Hc Hfill) as Hinv1.
    set (s1 := {| rgn := set_instructions
                           (cache_after_insert (instructions (rgn s)) batch abs_offset)
                           (rgn s);
                  trace := trace s ++ [EvRead (InstructionRange.offset c)
                                         (InstructionRange.length c)] |}) in *.
    assert (Hi1 : In i (instructions (rgn s1))).
    { cbn [s1 rgn instructions set_instructions]. unfold cache_after_insert.
      destruct (_ >? INSTRUCTION_CACHE_LIMIT); [exact Hi|].
      apply in_insert_at. now left. }
    destruct (cached_instruction_finds_in_order (rgn s1) abs_offset i
                (li_order Hinv1) Hi1 Hcov) as [k Hk].
    exists k, i, s1. split; [|exact Hcov].
    cbn [instruction_by_offset]. unfold get_region, ret, bind.
    rewrite Hk. reflexivity.
Qed.

End CacheInvariant.

Section Reachable.

Variable NDEBUG : bool.
Variable cs_disasm_iter : list byte -> Z -> option cs_insn.
Variable read_data : Z -> Z -> ReadResult.
Hypothesis decoder_contract : decoder_ok cs_disasm_iter.
Hypothesis read_contract : read_ok read_data.
Hypothesis decoder_prefix : decoder_stable cs_disasm_iter.
Hypothesis read_prefix : read_stable read_data.

(** A region as the constructor leaves it has the invariant. *)
Lemma lookup_inv_new : forall offset length,
  0 <= length ->
  lookup_inv cs_disasm_iter read_data (DisassemblyRegion_new offset length).
Proof.
  intros offset length Hlen. constructor.
  - apply region_inv_new. exact Hlen.
  - constructor.
  - split; constructor.
  - intros i [].
  - intros ir data batch i [].
Qed.

(** A call of [check] keeps the invariant: the chunk it appends decodes
    again to the same instructions, and none of them is in the cache. *)
Lemma check_keeps_lookup_inv : forall s,
  lookup_inv cs_disasm_iter read_data (rgn s) ->
  lookup_inv cs_disasm_iter read_data
    (rgn (after_check NDEBUG cs_disasm_iter read_data s)).
Proof.
  intros s Hinv. pose proof (li_region Hinv) as Hreg.
  destruct (check_keeps_inv NDEBUG cs_disasm_iter read_data decoder_contract
              read_contract s Hreg) as [Hreg' _].
  unfold after_check in *.
  destruct (dirty (rgn s)) as [|first rest] eqn:Hd.
  - rewrite check_idle by exact Hd. exact Hinv.
  - destruct (read_data (ByteRangeSet.offset first)
                        (Z.min (ByteRangeSet.length first) SOFT_IR_LIMIT))
      as [data|what] eqn:Hr.
    + destruct (check_step NDEBUG cs_disasm_iter read_data decoder_contract
                           s first rest data Hd Hr)
        as [insns [new_ir [Hlist [Hchain [Htot [Hoff [Hrel [Hlen [Hlines Hc]]]]]]]]].
      rewrite (region_inv_frontier_test _ _ _ Hreg Hd), orb_true_r in Hc.
      destruct Hc as [state [Hc _]]. rewrite Hc in *. cbn [snd rgn] in *.
      pose proof (new_chunk_decodes cs_disasm_iter read_data decoder_contract
                    decoder_prefix read_prefix _ _ data insns new_ir Hr Hlist Hchain
                    Htot Hoff Hlen) as Hnew.
      destruct (region_inv_dirty _ _ _ Hreg Hd) as [Hfo [_ [_ _]]].
      constructor.
      * exact Hreg'.
      * cbn [processed with_chunk]. apply Forall_app. split; [exact (li_decodes Hinv)|].
        constructor; [exact Hnew | constructor].
      * exact (li_order Hinv).
      * intros i Hi. cbn [instructions with_chunk] in Hi.
        pose proof (li_from Hinv) as Hfrom.
        destruct (Hfrom i Hi) as [c [datac [batchc [Hcin [Hrc [Hbc Hic]]]]]].
        exists c, datac, batchc. cbn [processed with_chunk].
        split; [apply in_or_app; now left|]. repeat split; assumption.
      * intros ir2 data2 batch2 i2 Hin2 Hr2 Hb2 Hi2 Hi2c j Hj.
        cbn [processed instructions with_chunk] in *.
        apply in_app_or in Hin2. destruct Hin2 as [Hin2 | [<- | []]].
        -- pose proof (li_whole Hinv) as Hwhole.
           apply (Hwhole ir2 data2 batch2 i2 Hin2 Hr2 Hb2 Hi2 Hi2c j Hj).
        -- exfalso.
           assert (Hlen0 : 0 <= InstructionRange.length new_ir) by lia.
           destruct (chunk_instructions_inside cs_disasm_iter read_data decoder_contract
                       read_contract _ _ _ Hlen0 Hr2 Hb2) as [_ Hinside].
           specialize (Hinside i2 Hi2).
           pose proof (li_from Hinv) as Hfrom.
           destruct (Hfrom i2 Hi2c) as [c [datac [batchc [Hcin [Hrc [Hbc Hic]]]]]].
           pose proof (inv_nonneg Hreg) as Hn. pose proof (inv_chunks Hreg) as Hch.
           assert (Hlenc : 0 <= InstructionRange.length c).
           { unfold chunks_nonneg in Hn. rewrite Forall_forall in Hn. apply (Hn c Hcin). }
           destruct (chunk_instructions_inside cs_disasm_iter read_data decoder_contract
                       read_contract _ _ _ Hlenc Hrc Hbc) as [_ Hinsidec].
           specialize (Hinsidec i2 Hic).
           destruct (contiguous_in _ _ _ c Hch Hn Hcin) as [_ [_ [Hend _]]].
           unfold unprocessed_offset in Hfo. unfold chunks_end in Hend.
           lia.
    + rewrite (check_read_error NDEBUG cs_disasm_iter read_data s first rest what Hd Hr).
      exact Hinv.
Qed.

(** Every state that calls of [check] and of [instruction_by_offset] lead
    to has the invariant. *)
Lemma reachable_lookup_inv : forall s,
  reachable NDEBUG cs_disasm_iter read_data s ->
  lookup_inv cs_disasm_iter read_data (rgn s).
Proof.
  intros s H. induction H as [offset length events Hlen | s _ IH | s fuel abs_offset _ IH].
  - apply lookup_inv_new. exact Hlen.
  - apply check_keeps_lookup_inv. exact IH.
  - destruct (instruction_by_offset NDEBUG cs_disasm_iter read_data fuel abs_offset s)
      as [o s'] eqn:E.
    apply (instruction_by_offset_keeps_lookup_inv NDEBUG cs_disasm_iter read_data
             decoder_contract read_contract fuel abs_offset s o s' IH E).
Qed.

End Reachable.

(* ================================================================== *)
(** * Lookups in a region that background processing has built *)
(* ================================================================== *)

(** C3.  Take a region that calls of [check] and of
    [instruction_by_offset] have built from the constructor, on a document
    that answers a shorter read with a prefix of the longer one, and an
    offset inside one of its processed chunks.  The call of
    [instruction_by_offset] returns an instruction that covers the offset.
    A second call with the same offset returns the same position and the
    same instruction and changes nothing.  When the cache is cleared between
    the two calls, the second call decodes the chunk again and returns the
    same instruction. *)
Theorem instruction_by_offset_idempotent :
  forall NDEBUG cs_disasm_iter read_data,
    decoder_ok cs_disasm_iter -> read_ok read_data ->
    decoder_stable cs_disasm_iter -> read_stable read_data ->
    forall s c abs_offset fuel,
      reachable NDEBUG cs_disasm_iter read_data s ->
      In c (processed (rgn s)) -> in_chunk c abs_offset ->
      exists k i s1,
        instruction_by_offset NDEBUG cs_disasm_iter read_data (S (S fuel)) abs_offset s
        = (Returned (Some (k, i)), s1)
        /\ covers i abs_offset
        /\ (forall fuel2,
               instruction_by_offset NDEBUG cs_disasm_iter read_data (S fuel2)
                                     abs_offset s1
               = (Returned (Some (k, i)), s1))
        /\ (forall fuel2, exists k2 s2,
               instruction_by_offset NDEBUG cs_disasm_iter read_data (S (S fuel2))
                                     abs_offset (clear_cache s1)
               = (Returned (Some (k2, i)), s2)).
Proof.
  intros NDEBUG dec read Hdec Hread Hdecs Hreads s c abs_offset fuel Hreach Hin Hic.
  pose proof (reachable_lookup_inv NDEBUG dec read Hdec Hread Hdecs Hreads s Hreach)
    as Hinv.
  pose proof (li_region Hinv) as Hreg.
  assert (Ho : d_offset (rgn s) <= abs_offset < unprocessed_offset (rgn s)).
  { apply (contiguous_cover _ _ _ abs_offset (inv_chunks Hreg) (inv_nonneg Hreg)).
    exists c. split; assumption. }
  destruct (instruction_by_offset_returns NDEBUG dec read Hdec Hread fuel abs_offset s
              Hinv Ho) as [k [i [s1 [H1 Hcov]]]].
  exists k, i, s1. split; [exact H1|]. split; [exact Hcov|].
  destruct (instruction_by_offset_result _ _ _ _ _ _ _ _ H1) as [Hcached _].
  destruct (instruction_by_offset_again NDEBUG dec read Hdec Hread s abs_offset _ _ s1
              (inv_chunks Hreg) (inv_nonneg Hreg) (li_from Hinv) H1) as [_ Hclear].
  split.
  - intros fuel2. cbn [instruction_by_offset]. unfold get_region, ret, bind.
    rewrite Hcached. reflexivity.
  - intros fuel2. destruct (Hclear fuel2) as [r2 [s2 [H2 Hsame]]].
    destruct r2 as [[k2 i2]|]; [|discriminate].
    simpl in Hsame. injection Hsame as ->.
    exists k2, s2. exact H2.
Qed.

(** C3 on the sample: one call of [check] decodes the fifteen bytes into
    one chunk; the lookup of offset 10 decodes the chunk and returns the
    [mov] at offset 10, and so does the lookup after a clear. *)
Lemma instruction_by_offset_idempotent_witness :
  exists k i s1 k2 s2,
    instruction_by_offset false (Sample.decode true)
      (Sample.buffer_read_data Sample.code15) 2 10
      (after_check false (Sample.decode true) (Sample.buffer_read_data Sample.code15)
         (Sample.start (DisassemblyRegion_new 0 15)))
    = (Returned (Some (k, i)), s1)
    /\ covers i 10
    /\ instruction_by_offset false (Sample.decode true)
         (Sample.buffer_read_data Sample.code15) 1 10 s1
       = (Returned (Some (k, i)), s1)
    /\ instruction_by_offset false (Sample.decode true)
         (Sample.buffer_read_data Sample.code15) 2 10 (clear_cache s1)
       = (Returned (Some (k2, i)), s2).
Proof.
  assert (Hin : exists c,
             In c (processed
                     (rgn (after_check false (Sample.decode true)
                             (Sample.buffer_read_data Sample.code15)
                             (Sample.start (DisassemblyRegion_new 0 15)))))
             /\ in_chunk c 10).
  { vm_compute. eexists. split; [left; reflexivity|].
    vm_compute. split; [discriminate | reflexivity]. }
  destruct Hin as [c [Hin Hic]].
  destruct (instruction_by_offset_idempotent false (Sample.decode true)
              (Sample.buffer_read_data Sample.code15)
              (sample_decoder_ok true) (sample_read_ok Sample.code15)
              (sample_decoder_stable true) (sample_read_stable Sample.code15)
              (after_check false (Sample.decode true)
                 (Sample.buffer_read_data Sample.code15)
                 (Sample.start (DisassemblyRegion_new 0 15)))
              c 10 O)
    as [k [i [s1 [H1 [Hcov [Hsecond Hclear]]]]]].
  - apply reach_check. apply reach_new. lia.
  - exact Hin.
  - exact Hic.
  - destruct (Hclear O) as [k2 [s2 H2]].
    exists k, i, s1, k2, s2.
    split; [exact H1|]. split; [exact Hcov|]. split; [exact (Hsecond O) | exact H2].
Defined.

(* ================================================================== *)
(** * The insertion into the cache *)
(* ================================================================== *)



(* ================================================================== *)
(** * The chunk and the flags of one step *)
(* ================================================================== *)

Section CheckResult.

Variable NDEBUG : bool.
Variable cs_disasm_iter : list byte -> Z -> option cs_insn.
Variable read_data : Z -> Z -> ReadResult.
Hypothesis decoder_contract : decoder_ok cs_disasm_iter.

(** A call whose read succeeds, with the chunk and the flags written
    out. *)
Lemma check_returns : forall s first rest data,
  dirty (rgn s) = first :: rest ->
  read_data (ByteRangeSet.offset first)
            (Z.min (ByteRangeSet.length first) SOFT_IR_LIMIT) = ReadOk data ->
  (NDEBUG || frontier_test (rgn s) (ByteRangeSet.offset first))%bool = true ->
  exists insns,
    cs_disasm_list cs_disasm_iter (S (List.length data)) data
                   (ByteRangeSet.offset first) = Some insns
    /\ decoded_chain (ByteRangeSet.offset first) insns
    /\ 0 <= total_size insns <= vsize data
    /\ check NDEBUG cs_disasm_iter read_data s
       = (Returned (check_state (rgn s)
                      (summarize (rgn s) (ByteRangeSet.offset first) insns)),
          {| rgn := with_chunk (rgn s)
                      (fst (summarize (rgn s) (ByteRangeSet.offset first) insns));
             trace := trace s ++ [EvRead (ByteRangeSet.offset first)
                                    (Z.min (ByteRangeSet.length first)
                                           SOFT_IR_LIMIT)] |}).
Proof.
  intros s first rest data Hd Hr Hft.
  set (s1 := {| rgn := rgn s;
                trace := trace s ++ [EvRead (ByteRangeSet.offset first)
                                       (Z.min (ByteRangeSet.length first)
                                              SOFT_IR_LIMIT)] |}).
  destruct (disasm_loop_returns cs_disasm_iter decoder_contract _ check_body data
              (ByteRangeSet.offset first)
              (empty_chunk (rgn s) (ByteRangeSet.offset first), StateFlag.IDLE) s1)
    as [insns [Hl [Hchain [Htotal Hloop]]]].
  exists insns. split; [exact Hl|]. split; [exact Hchain|]. split; [exact Htotal|].
  fold (summarize (rgn s) (ByteRangeSet.offset first) insns) in Hloop.
  set (acc := summarize (rgn s) (ByteRangeSet.offset first) insns) in *.
  assert (Hoff : InstructionRange.offset (fst acc) = ByteRangeSet.offset first).
  { pose proof (check_body_fold insns (empty_chunk (rgn s) (ByteRangeSet.offset first))
                                StateFlag.IDLE) as Hfold.
    cbv zeta in Hfold. destruct Hfold as [Hoff _]. exact Hoff. }
  unfold check, doc_read_data, get_region, emit, ret, bind.
  rewrite Hd, Hr. cbn [rgn trace].
  unfold empty_chunk in Hloop. unfold processed_lines. fold s1. rewrite Hloop.
  unfold frontier_test in Hft. rewrite <- Hoff in Hft.
  match goal with |- context [assert_ _ ?c] => set (ft := c) in * end.
  unfold assert_, assert_opt, check_state.
  assert (Hpass : (if NDEBUG
                   then (Returned tt, s1)
                   else match Some ft with
                        | Some true => (Returned tt, s1)
                        | Some false => (AssertFailed, s1)
                        | None => (Undefined, s1)
                        end) = (Returned tt, s1)).
  { destruct NDEBUG; [reflexivity|]. simpl in Hft. rewrite Hft. reflexivity. }
  rewrite Hpass. clear Hpass.
  unfold modify; subst s1; cbn [rgn trace].
  destruct (Z.gtb_spec (InstructionRange.longest_instruction (fst acc))
                       (longest_instruction (rgn s)));
    destruct (Z.gtb_spec (InstructionRange.longest_disasm (fst acc))
                         (longest_disasm (rgn s)));
    cbn;
    match goal with
    | |- (if ?c then _ else _) _ = (Returned (if ?d then _ else _), _) =>
        change d with c; destruct c;
        unfold with_chunk, set_dirty, set_longest_disasm,
          set_longest_instruction, set_processed; cbn;
        f_equal; f_equal; f_equal; lia
    end.
Qed.

End CheckResult.

(** The chunk that the loop of [check] builds. *)
Lemma summarize_chunk : forall r process_base l,
  InstructionRange.offset (fst (summarize r process_base l)) = process_base
  /\ InstructionRange.rel_y_offset (fst (summarize r process_base l)) = processed_lines r
  /\ InstructionRange.length (fst (summarize r process_base l)) = total_size l
  /\ InstructionRange.y_lines (fst (summarize r process_base l)) = vsize l.
Proof.
  intros r process_base l.
  pose proof (check_body_fold l (empty_chunk r process_base) StateFlag.IDLE) as Hfold.
  cbv zeta in Hfold. fold (summarize r process_base l) in Hfold.
  destruct Hfold as [Hoff [Hrel [Hlen [Hlines _]]]].
  unfold empty_chunk in *. cbn in *. unfold processed_lines.
  repeat split; lia.
Qed.

(** The widest instruction and the flags that the loop adds up. *)
Lemma check_body_widths : forall l c0 st0,
  let acc := fold_left (fun a d => check_body a (dec_address d) (dec_bytes d) (dec_insn d))
                       l (c0, st0) in
  InstructionRange.longest_instruction c0
  <= InstructionRange.longest_instruction (fst acc)
  /\ InstructionRange.longest_disasm c0 <= InstructionRange.longest_disasm (fst acc)
  /\ Forall (fun d => size (dec_insn d) <= InstructionRange.longest_instruction (fst acc)) l
  /\ (InstructionRange.longest_instruction (fst acc)
      = InstructionRange.longest_instruction c0
      \/ exists d, In d l
                   /\ InstructionRange.longest_instruction (fst acc) = size (dec_insn d))
  /\ snd acc = match l with
               | [] => st0
               | _ :: _ => Z.lor st0 StateFlag.HEIGHT_CHANGE
               end.
Proof.
  induction l as [|d l IH]; intros c0 st0; simpl.
  - split; [lia|]. split; [lia|]. split; [constructor|]. split; [now left | reflexivity].
  - specialize (IH (fst (check_body (c0, st0) (dec_address d) (dec_bytes d) (dec_insn d)))
                   (snd (check_body (c0, st0) (dec_address d) (dec_bytes d) (dec_insn d)))).
    rewrite <- surjective_pairing in IH. cbv zeta in IH.
    set (acc := fold_left _ l _) in *.
    destruct IH as [H1 [H2 [H3 [H4 H5]]]]. cbn in H1, H2, H4, H5.
    split; [lia|]. split; [lia|]. split; [|split].
    + constructor; [lia | exact H3].
    + destruct H4 as [H4 | [e [He H4]]].
      * destruct (Z.max_spec (InstructionRange.longest_instruction c0) (size (dec_insn d)))
          as [[_ Hm] | [_ Hm]]; rewrite Hm in H4.
        -- right. exists d. split; [now left | exact H4].
        -- left. exact H4.
      * right. exists e. split; [now right | exact H4].
    + rewrite H5. destruct l; [reflexivity|].
      rewrite <- Z.lor_assoc, Z.lor_diag. reflexivity.
Qed.

Section ReachableRegion.

Variable NDEBUG : bool.
Variable cs_disasm_iter : list byte -> Z -> option cs_insn.
Variable read_data : Z -> Z -> ReadResult.
Hypothesis decoder_contract : decoder_ok cs_disasm_iter.
Hypothesis read_contract : read_ok read_data.

(** Every state that calls of [check] and of [instruction_by_offset] lead to
    has the invariant of the chunks. *)
Lemma reachable_region_inv : forall s,
  reachable NDEBUG cs_disasm_iter read_data s -> region_inv (rgn s).
Proof.
  intros s H. induction H as [offset length events Hlen | s _ IH | s fuel abs_offset _ IH].
  - apply region_inv_new. exact Hlen.
  - apply (check_keeps_inv NDEBUG cs_disasm_iter read_data decoder_contract
             read_contract s IH).
  - destruct (instruction_by_offset NDEBUG cs_disasm_iter read_data fuel abs_offset s)
      as [o s'] eqn:E.
    cbn [snd]. rewrite (instruction_by_offset_frame _ _ _ _ _ _ _ _ E).
    apply region_inv_set_instructions. exact IH.
Qed.

End ReachableRegion.

(** The bytes of a region with the invariant: those of the chunks and those
    of the dirty set. *)
Lemma region_inv_accounts : forall r,
  region_inv r ->
  chunk_bytes (processed r) + unprocessed_bytes r = d_length r
  /\ 0 <= unprocessed_bytes r <= d_length r
  /\ chunk_lines (processed r) = processed_lines r
  /\ forall o, ByteRangeSet.isset (dirty r) o
               <-> unprocessed_offset r <= o < d_offset r + d_length r.
Proof.
  intros r Hinv.
  destruct (contiguous_ends _ _ _ (inv_chunks Hinv) (inv_nonneg Hinv))
    as [Hb [Hl [Hbytes Hlines]]].
  assert (Hend : chunks_end (d_offset r) (processed r) = unprocessed_offset r)
    by reflexivity.
  assert (Hlend : lines_end 0 (processed r) = processed_lines r) by reflexivity.
  pose proof (inv_frontier Hinv) as Hf.
  unfold unprocessed_bytes.
  split; [lia|]. split; [lia|]. split; [lia|].
  intros o. rewrite (inv_dirty Hinv), ByteRangeSetFacts.set_range_nil.
  unfold unprocessed_bytes.
  destruct (Z.leb_spec (d_length r - (unprocessed_offset r - d_offset r)) 0).
  - split; [intros [p [[] _]] | lia].
  - unfold ByteRangeSet.isset, ByteRangeSet.contains, ByteRangeSet.range_end. split.
    + intros [p [[<- | []] Hp]]. cbn in Hp. lia.
    + intros Ho. eexists. split; [left; reflexivity|]. cbn. lia.
Qed.

(** X1.  In every state that calls of [check] and of
    [instruction_by_offset] lead to from the constructor, the bytes of the
    chunks and the unprocessed bytes add up to the length of the region, the
    lines of the chunks add up to [processed_lines], and the dirty set holds
    exactly the bytes from [unprocessed_offset] to the end of the region. *)
Theorem region_accounts_for_every_byte :
  forall NDEBUG cs_disasm_iter read_data,
    decoder_ok cs_disasm_iter -> read_ok read_data ->
    forall s,
      reachable NDEBUG cs_disasm_iter read_data s ->
      chunk_bytes (processed (rgn s)) + unprocessed_bytes (rgn s) = d_length (rgn s)
      /\ 0 <= unprocessed_bytes (rgn s) <= d_length (rgn s)
      /\ chunk_lines (processed (rgn s)) = processed_lines (rgn s)
      /\ forall o, ByteRangeSet.isset (dirty (rgn s)) o
                   <-> unprocessed_offset (rgn s) <= o
                       < d_offset (rgn s) + d_length (rgn s).
Proof.
  intros NDEBUG dec read Hdec Hread s Hreach.
  apply region_inv_accounts.
  apply (reachable_region_inv NDEBUG dec read Hdec Hread s Hreach).
Qed.

(** X1 on the sample: a region of fifteen bytes on a document that holds
    nine; the first call decodes the nine into four lines and six bytes stay
    dirty. *)
Lemma region_accounts_for_every_byte_witness :
  chunk_bytes
    (processed (rgn (after_check false (Sample.decode true)
                       (Sample.buffer_read_data Sample.code9)
                       (Sample.start (DisassemblyRegion_new 0 15))))) = 9
  /\ unprocessed_bytes
       (rgn (after_check false (Sample.decode true)
               (Sample.buffer_read_data Sample.code9)
               (Sample.start (DisassemblyRegion_new 0 15)))) = 6
  /\ (ByteRangeSet.isset
        (dirty (rgn (after_check false (Sample.decode true)
                       (Sample.buffer_read_data Sample.code9)
                       (Sample.start (DisassemblyRegion_new 0 15))))) 9
      <-> 9 <= 9 < 0 + 15).
Proof.
  destruct (region_accounts_for_every_byte false (Sample.decode true)
              (Sample.buffer_read_data Sample.code9)
              (sample_decoder_ok true) (sample_read_ok Sample.code9)
              (after_check false (Sample.decode true)
                 (Sample.buffer_read_data Sample.code9)
                 (Sample.start (DisassemblyRegion_new 0 15))))
    as [_ [_ [_ Hdirty]]].
  - apply reach_check. apply reach_new. lia.
  - split; [vm_compute; reflexivity|]. split; [vm_compute; reflexivity|].
    exact (Hdirty 9).
Defined.

(** The three flags in a value that is built from them. *)
Lemma has_flag_bits : forall h w p : bool,
  let state := Z.lor (Z.lor (if h then StateFlag.HEIGHT_CHANGE else 0)
                            (if w then StateFlag.WIDTH_CHANGE else 0))
                     (if p then StateFlag.PROCESSING else 0) in
  has_flag state StateFlag.HEIGHT_CHANGE = h
  /\ has_flag state StateFlag.WIDTH_CHANGE = w
  /\ has_flag state StateFlag.PROCESSING = p
  /\ 0 <= state < 8.
Proof.
  intros [] [] []; vm_compute; repeat split; congruence.
Qed.

(** The flags that [check] returns, bit by bit. *)
Lemma check_state_bits : forall r l process_base,
  check_state r (summarize r process_base l)
  = Z.lor (Z.lor (if 0 <? vsize l then StateFlag.HEIGHT_CHANGE else 0)
                 (if (InstructionRange.longest_instruction
                        (fst (summarize r process_base l)) >? longest_instruction r)
                     || (InstructionRange.longest_disasm
                           (fst (summarize r process_base l)) >? longest_disasm r)
                  then StateFlag.WIDTH_CHANGE else 0))
          (if negb (ByteRangeSet.empty
                      (dirty (with_chunk r (fst (summarize r process_base l)))))
           then StateFlag.PROCESSING else 0).
Proof.
  intros r l process_base. unfold check_state.
  pose proof (check_body_widths l (empty_chunk r process_base) StateFlag.IDLE) as Hw.
  cbv zeta in Hw. fold (summarize r process_base l) in Hw.
  destruct Hw as [_ [_ [_ [_ Hsnd]]]]. rewrite Hsnd.
  assert (Hh : (match l with
                | [] => StateFlag.IDLE
                | _ :: _ => Z.lor StateFlag.IDLE StateFlag.HEIGHT_CHANGE
                end) = if 0 <? vsize l then StateFlag.HEIGHT_CHANGE else 0).
  { destruct l as [|d l]; [reflexivity|].
    unfold vsize. change (List.length (d :: l)) with (S (List.length l)).
    destruct (Z.ltb_spec 0 (Z.of_nat (S (List.length l)))); [reflexivity | lia]. }
  rewrite Hh.
  destruct (0 <? vsize l);
    destruct (InstructionRange.longest_instruction _ >? longest_instruction r);
    destruct (InstructionRange.longest_disasm _ >? longest_disasm r);
    destruct (negb _); reflexivity.
Qed.

(** X2.  The flags in the result of [check] say what the call changed.
    [HEIGHT_CHANGE] is set exactly when the call appended a chunk with at
    least one line, [WIDTH_CHANGE] exactly when [longest_instruction] or
    [longest_disasm] grew, [PROCESSING] exactly when the dirty set is not
    empty afterwards; no other bit is set.  A call on a region with an empty
    dirty set returns [IDLE] and changes nothing. *)
Theorem check_flags_report_changes :
  forall NDEBUG cs_disasm_iter read_data,
    decoder_ok cs_disasm_iter ->
    forall s state s',
      check NDEBUG cs_disasm_iter read_data s = (Returned state, s') ->
      (has_flag state StateFlag.HEIGHT_CHANGE = true
       <-> exists c, processed (rgn s') = processed (rgn s) ++ [c]
                     /\ 0 < InstructionRange.y_lines c)
      /\ (has_flag state StateFlag.WIDTH_CHANGE = true
          <-> longest_instruction (rgn s) < longest_instruction (rgn s')
              \/ longest_disasm (rgn s) < longest_disasm (rgn s'))
      /\ (has_flag state StateFlag.PROCESSING = true <-> dirty (rgn s') <> [])
      /\ 0 <= state < 8
      /\ (dirty (rgn s) = [] -> state = StateFlag.IDLE /\ s' = s).
Proof.
  intros NDEBUG dec read Hdec s state s' Hcheck.
  destruct (dirty (rgn s)) as [|first rest] eqn:Hd.
  - rewrite (check_idle NDEBUG dec read s Hd) in Hcheck.
    injection Hcheck as <- <-.
    split; [|split; [|split; [|split]]].
    + split; [discriminate|]. intros [c [Hc _]].
      apply (f_equal (@List.length _)) in Hc. rewrite length_app in Hc. simpl in Hc. lia.
    + split; [discriminate | lia].
    + rewrite Hd. split; [discriminate | congruence].
    + vm_compute. split; congruence.
    + intros _. split; reflexivity.
  - destruct (read (ByteRangeSet.offset first)
                   (Z.min (ByteRangeSet.length first) SOFT_IR_LIMIT))
      as [data|what] eqn:Hr.
    2:{ rewrite (check_read_error NDEBUG dec read s first rest what Hd Hr) in Hcheck.
        discriminate. }
    destruct (NDEBUG || frontier_test (rgn s) (ByteRangeSet.offset first))%bool eqn:Hft.
    2:{ destruct (check_step NDEBUG dec read Hdec s first rest data Hd Hr)
          as [insns [new_ir [_ [_ [_ [_ [_ [_ [_ Hc]]]]]]]]].
        rewrite Hft in Hc. rewrite Hc in Hcheck. discriminate. }
    destruct (check_returns NDEBUG dec read Hdec s first rest data Hd Hr Hft)
      as [insns [_ [_ [_ Hc]]]].
    rewrite Hc in Hcheck. injection Hcheck as <- <-.
    rewrite check_state_bits.
    set (c := fst (summarize (rgn s) (ByteRangeSet.offset first) insns)).
    destruct (summarize_chunk (rgn s) (ByteRangeSet.offset first) insns)
      as [_ [_ [_ Hlines]]]. fold c in Hlines.
    match goal with
    | |- context [Z.lor (Z.lor (if ?h then _ else _) (if ?w then _ else _))
                        (if ?p then _ else _)] =>
        destruct (has_flag_bits h w p) as [Hh [Hw [Hp Hrange]]]
    end.
    cbv zeta in Hh, Hw, Hp, Hrange. rewrite Hh, Hw, Hp.
    cbn [rgn processed with_chunk longest_instruction longest_disasm].
    split; [|split; [|split; [|split]]].
    + rewrite Z.ltb_lt. split.
      * intros Hpos. exists c. split; [reflexivity | lia].
      * intros [c' [Hc' Hpos]]. apply app_inv_head in Hc'. injection Hc' as <-. lia.
    + rewrite orb_true_iff, !Z.gtb_lt. fold c. lia.
    + rewrite negb_true_iff. fold c.
      destruct (dirty (with_chunk (rgn s) c)); simpl; split; congruence.
    + exact Hrange.
    + discriminate.
Qed.

(** X2 on the sample: the first call on nine bytes of code decodes four
    lines and finds the first widths; nothing stays dirty, so the flags are
    [HEIGHT_CHANGE] and [WIDTH_CHANGE]. *)
Lemma check_flags_report_changes_witness :
  exists s',
    check false (Sample.decode true) (Sample.buffer_read_data Sample.code9)
          (Sample.start (DisassemblyRegion_new 0 9))
    = (Returned (Z.lor StateFlag.HEIGHT_CHANGE StateFlag.WIDTH_CHANGE), s')
    /\ (has_flag (Z.lor StateFlag.HEIGHT_CHANGE StateFlag.WIDTH_CHANGE)
                 StateFlag.PROCESSING = true
        <-> dirty (rgn s') <> []).
Proof.
  destruct (check false (Sample.decode true) (Sample.buffer_read_data Sample.code9)
                  (Sample.start (DisassemblyRegion_new 0 9))) as [o s'] eqn:Hc.
  assert (Ho : o = Returned (Z.lor StateFlag.HEIGHT_CHANGE StateFlag.WIDTH_CHANGE)).
  { vm_compute in Hc. injection Hc as <- _. reflexivity. }
  subst o. exists s'. split; [reflexivity|].
  destruct (check_flags_report_changes false (Sample.decode true)
              (Sample.buffer_read_data Sample.code9) (sample_decoder_ok true)
              (Sample.start (DisassemblyRegion_new 0 9)) _ s' Hc)
    as [_ [_ [Hp _]]].
  exact Hp.
Defined.

(* ================================================================== *)
(** * The summaries of the chunks *)
(* ================================================================== *)

Lemma decoded_chain_lines : forall l address,
  decoded_chain address l -> vsize l <= total_size l.
Proof.
  induction l as [|d l IH]; intros address H; unfold total_size, vsize in *; simpl in *.
  - lia.
  - destruct H as [_ [Hs H]]. specialize (IH _ H). lia.
Qed.

Section Summaries.

Variable NDEBUG : bool.
Variable cs_disasm_iter : list byte -> Z -> option cs_insn.
Variable read_data : Z -> Z -> ReadResult.
Hypothesis decoder_contract : decoder_ok cs_disasm_iter.
Hypothesis read_contract : read_ok read_data.
Hypothesis decoder_prefix : decoder_stable cs_disasm_iter.
Hypothesis read_prefix : read_stable read_data.

(** The chunk that [check] appends is the summary of its instructions. *)
Lemma new_chunk_summary : forall r process_base process_len data insns,
  process_len <= SOFT_IR_LIMIT -> 0 <= process_len ->
  read_data process_base process_len = ReadOk data ->
  cs_disasm_list cs_disasm_iter (S (List.length data)) data process_base = Some insns ->
  decoded_chain process_base insns ->
  0 <= total_size insns <= vsize data ->
  chunk_summary cs_disasm_iter read_data (fst (summarize r process_base insns)) insns.
Proof.
  intros r base len data insns Hlim Hlen0 Hr Hl Hchain Htotal.
  destruct (summarize_chunk r base insns) as [Hoff [_ [Hlen Hlines]]].
  pose proof (check_body_widths insns (empty_chunk r base) StateFlag.IDLE) as Hw.
  cbv zeta in Hw. fold (summarize r base insns) in Hw.
  destruct Hw as [Hge [_ [Hall [Hmax _]]]]. cbn in Hge, Hmax.
  set (c := fst (summarize r base insns)) in *.
  pose proof (read_contract _ _ _ Hlen0 Hr) as Hdata.
  exists (firstn (Z.to_nat (total_size insns)) data).
  rewrite Hoff, Hlen.
  split; [apply (read_prefix base len data (total_size insns) Hr Htotal)|].
  split.
  { apply (cs_disasm_list_prefix cs_disasm_iter decoder_contract decoder_prefix
             _ _ _ _ Hl).
    rewrite length_firstn. unfold vsize in Htotal. lia. }
  split; [exact Hchain|]. split; [reflexivity|]. split; [symmetry; exact Hlines|].
  split; [exact Hall|]. split; [|lia].
  split; [exact Hge|].
  destruct Hmax as [-> | [d [Hd ->]]]; [lia|].
  clear -Hd Hchain. revert Hchain. generalize base.
  induction insns as [|e insns IH]; intros a Hc; [contradiction|].
  destruct Hc as [_ [Hs Hc]].
  pose proof (decoded_chain_total_nonneg _ _ Hc) as Hpos.
  unfold total_size in *. cbn [fold_right dec_insn].
  destruct Hd as [<- | Hd]; [lia|].
  specialize (IH Hd _ Hc). lia.
Qed.

Lemma summary_inv_new : forall offset length,
  summary_inv cs_disasm_iter read_data (DisassemblyRegion_new offset length).
Proof.
  intros offset length. constructor; cbn; [constructor | constructor |].
  unfold SOFT_IR_LIMIT. lia.
Qed.

Lemma check_keeps_summary_inv : forall s,
  region_inv (rgn s) ->
  summary_inv cs_disasm_iter read_data (rgn s) ->
  summary_inv cs_disasm_iter read_data
    (rgn (after_check NDEBUG cs_disasm_iter read_data s)).
Proof.
  intros s Hreg Hinv. unfold after_check.
  destruct (dirty (rgn s)) as [|first rest] eqn:Hd.
  - rewrite check_idle by exact Hd. exact Hinv.
  - destruct (read_data (ByteRangeSet.offset first)
                        (Z.min (ByteRangeSet.length first) SOFT_IR_LIMIT))
      as [data|what] eqn:Hr.
    + pose proof (region_inv_frontier_test _ _ _ Hreg Hd) as Hft.
      assert (Hft' : (NDEBUG || frontier_test (rgn s) (ByteRangeSet.offset first))%bool
                     = true) by (rewrite Hft; apply orb_true_r).
      destruct (check_returns NDEBUG cs_disasm_iter read_data decoder_contract
                  s first rest data Hd Hr Hft') as [insns [Hl [Hchain [Htotal Hc]]]].
      rewrite Hc. cbn [snd rgn].
      destruct (region_inv_dirty _ _ _ Hreg Hd) as [_ [Hfl [Hpos _]]].
      assert (Hsum : chunk_summary cs_disasm_iter read_data
                       (fst (summarize (rgn s) (ByteRangeSet.offset first) insns)) insns).
      { apply (new_chunk_summary (rgn s) _
                 (Z.min (ByteRangeSet.length first) SOFT_IR_LIMIT) data);
          try assumption; unfold SOFT_IR_LIMIT; lia. }
      set (c := fst (summarize (rgn s) (ByteRangeSet.offset first) insns)) in *.
      pose proof (si_limit Hinv) as Hlim.
      assert (Hc_lim : 0 <= InstructionRange.longest_instruction c <= SOFT_IR_LIMIT).
      { destruct Hsum as [_ [_ [_ [_ [_ [_ [_ [Hw Hle]]]]]]]]. lia. }
      constructor; cbn [processed longest_instruction with_chunk].
      * apply Forall_app. split; [exact (si_chunks Hinv)|].
        constructor; [exists insns; exact Hsum | constructor].
      * apply Forall_app. split.
        -- eapply Forall_impl; [|exact (si_widest Hinv)]. cbn. intros a Ha. lia.
        -- constructor; [lia | constructor].
      * lia.
    + rewrite (check_read_error NDEBUG cs_disasm_iter read_data s first rest what Hd Hr).
      exact Hinv.
Qed.

Lemma summary_inv_set_instructions : forall r v,
  summary_inv cs_disasm_iter read_data r ->
  summary_inv cs_disasm_iter read_data (set_instructions v r).
Proof.
  intros r v H. destruct H. constructor; assumption.
Qed.

(** Every state that calls of [check] and of [instruction_by_offset] lead
    to has chunks that are the summaries of their instructions. *)
Lemma reachable_summary_inv : forall s,
  reachable NDEBUG cs_disasm_iter read_data s ->
  summary_inv cs_disasm_iter read_data (rgn s).
Proof.
  intros s H. induction H as [offset length events Hlen | s Hs IH | s fuel abs_offset _ IH].
  - apply summary_inv_new.
  - apply check_keeps_summary_inv; [|exact IH].
    apply (reachable_region_inv NDEBUG cs_disasm_iter read_data decoder_contract
             read_contract s Hs).
  - destruct (instruction_by_offset NDEBUG cs_disasm_iter read_data fuel abs_offset s)
      as [o s'] eqn:E.
    cbn [snd]. rewrite (instruction_by_offset_frame _ _ _ _ _ _ _ _ E).
    apply summary_inv_set_instructions. exact IH.
Qed.

End Summaries.

(** X3.  The work of one step is bounded, and so is what it leaves.  In
    every state that calls of [check] and of [instruction_by_offset] lead to
    from the constructor, on an unchanged document, a chunk is at most
    [SOFT_IR_LIMIT] (10240) bytes long, has at most one line per byte, and
    has lines exactly when it has bytes; its [longest_instruction] is at
    most its length and at most the [longest_instruction] of the region; and
    [max_bytes_per_line] lies between 1 and 10240. *)
Theorem check_chunks_are_bounded :
  forall NDEBUG cs_disasm_iter read_data,
    decoder_ok cs_disasm_iter -> read_ok read_data ->
    decoder_stable cs_disasm_iter -> read_stable read_data ->
    forall s,
      reachable NDEBUG cs_disasm_iter read_data s ->
      (forall c, In c (processed (rgn s)) ->
         0 <= InstructionRange.y_lines c <= InstructionRange.length c
         /\ InstructionRange.length c <= SOFT_IR_LIMIT
         /\ (0 < InstructionRange.length c -> 0 < InstructionRange.y_lines c)
         /\ 0 <= InstructionRange.longest_instruction c <= InstructionRange.length c
         /\ (0 < InstructionRange.length c -> 0 < InstructionRange.longest_instruction c)
         /\ InstructionRange.longest_instruction c <= longest_instruction (rgn s))
      /\ 1 <= max_bytes_per_line (rgn s) <= SOFT_IR_LIMIT.
Proof.
  intros NDEBUG dec read Hdec Hread Hdecs Hreads s Hreach.
  pose proof (reachable_summary_inv NDEBUG dec read Hdec Hread Hdecs Hreads s Hreach)
    as Hinv.
  split.
  - intros c Hc.
    pose proof (si_chunks Hinv) as Hch. pose proof (si_widest Hinv) as Hw.
    rewrite Forall_forall in Hch, Hw.
    destruct (Hch c Hc) as [l [data [_ [_ [Hchain [Htot [Hlines [Hall [Hlong Hlim]]]]]]]]].
    pose proof (decoded_chain_lines _ _ Hchain) as Hle.
    pose proof (vsize_nonneg _ l) as Hn.
    specialize (Hw c Hc). cbn in Hw.
    split; [lia|]. split; [exact Hlim|].
    assert (Hne : 0 < InstructionRange.length c ->
                  exists d rest, l = d :: rest /\ 0 < size (dec_insn d)).
    { intros Hpos. destruct l as [|d rest].
      - unfold total_size in Htot. simpl in Htot. lia.
      - destruct Hchain as [_ [Hs _]]. exists d, rest. split; [reflexivity | exact Hs]. }
    split.
    { intros Hpos. destruct (Hne Hpos) as [d [rest [-> _]]].
      rewrite <- Hlines. unfold vsize. simpl. lia. }
    split; [exact Hlong|]. split; [|exact Hw].
    intros Hpos. destruct (Hne Hpos) as [d [rest [-> Hs]]].
    inversion Hall as [|? ? Hd _]; subst. lia.
  - pose proof (si_limit Hinv) as Hlim. unfold max_bytes_per_line.
    destruct (Z.gtb_spec (longest_instruction (rgn s)) 0); unfold SOFT_IR_LIMIT in *; lia.
Qed.

(** X3 on the sample: the chunk that the first call makes of fifteen
    bytes. *)
Lemma check_chunks_are_bounded_witness :
  exists c,
    processed (rgn (after_check false (Sample.decode true)
                      (Sample.buffer_read_data Sample.code15)
                      (Sample.start (DisassemblyRegion_new 0 15)))) = [c]
    /\ InstructionRange.y_lines c <= InstructionRange.length c
    /\ InstructionRange.length c = 15
    /\ InstructionRange.longest_instruction c = 5.
Proof.
  destruct (check_chunks_are_bounded false (Sample.decode true)
              (Sample.buffer_read_data Sample.code15)
              (sample_decoder_ok true) (sample_read_ok Sample.code15)
              (sample_decoder_stable true) (sample_read_stable Sample.code15)
              (after_check false (Sample.decode true)
                 (Sample.buffer_read_data Sample.code15)
                 (Sample.start (DisassemblyRegion_new 0 15))))
    as [Hchunks _].
  - apply reach_check. apply reach_new. lia.
  - destruct (processed (rgn (after_check false (Sample.decode true)
                                (Sample.buffer_read_data Sample.code15)
                                (Sample.start (DisassemblyRegion_new 0 15)))))
      as [|c [|c' rest]] eqn:E; try (vm_compute in E; discriminate).
    exists c. split; [reflexivity|].
    destruct (Hchunks c (or_introl eq_refl)) as [[_ Hle] _].
    split; [exact Hle|].
    vm_compute in E. injection E as <-. split; reflexivity.
Defined.

(* ================================================================== *)
(** * Progress of background processing *)
(* ================================================================== *)

Lemma region_inv_clean : forall r,
  region_inv r -> dirty r = [] -> unprocessed_bytes r <= 0.
Proof.
  intros r Hinv Hd. rewrite (inv_dirty Hinv), ByteRangeSetFacts.set_range_nil in Hd.
  destruct (Z.leb_spec (unprocessed_bytes r) 0); [assumption | discriminate].
Qed.

Lemma with_chunk_frontier : forall r c,
  unprocessed_offset (with_chunk r c)
  = InstructionRange.offset c + InstructionRange.length c
  /\ processed_lines (with_chunk r c)
     = InstructionRange.rel_y_offset c + InstructionRange.y_lines c.
Proof.
  intros r c. unfold unprocessed_offset, processed_lines.
  cbn [processed with_chunk]. rewrite back_app. split; reflexivity.
Qed.

Section Progress.

Variable NDEBUG : bool.
Variable cs_disasm_iter : list byte -> Z -> option cs_insn.
Variable read_data : Z -> Z -> ReadResult.
Hypothesis decoder_contract : decoder_ok cs_disasm_iter.
Hypothesis read_contract : read_ok read_data.
Hypothesis decoder_total : decoder_skips_data cs_disasm_iter.

(** A call on a document that holds the bytes of the region takes at least
    one byte off the unprocessed ones. *)
Lemma check_makes_progress : forall s,
  region_inv (rgn s) ->
  document_holds read_data (d_offset (rgn s)) (d_length (rgn s)) ->
  unprocessed_bytes (rgn (after_check NDEBUG cs_disasm_iter read_data s))
  <= Z.max 0 (unprocessed_bytes (rgn s) - 1).
Proof.
  intros s Hinv Hdoc. unfold after_check.
  destruct (dirty (rgn s)) as [|first rest] eqn:Hd.
  - rewrite check_idle by exact Hd. cbn [snd].
    pose proof (region_inv_clean _ Hinv Hd). lia.
  - destruct (region_inv_dirty _ _ _ Hinv Hd) as [Hfo [Hfl [Hpos _]]].
    destruct (contiguous_ends _ _ _ (inv_chunks Hinv) (inv_nonneg Hinv)) as [Hb _].
    change (chunks_end (d_offset (rgn s)) (processed (rgn s)))
      with (unprocessed_offset (rgn s)) in Hb.
    destruct (Hdoc (ByteRangeSet.offset first)
                   (Z.min (ByteRangeSet.length first) SOFT_IR_LIMIT))
      as [data [Hr Hne]].
    { lia. }
    { unfold SOFT_IR_LIMIT. lia. }
    { unfold unprocessed_bytes in *. lia. }
    pose proof (region_inv_frontier_test _ _ _ Hinv Hd) as Hft.
    assert (Hft' : (NDEBUG || frontier_test (rgn s) (ByteRangeSet.offset first))%bool
                   = true) by (rewrite Hft; apply orb_true_r).
    destruct (check_returns NDEBUG cs_disasm_iter read_data decoder_contract
                s first rest data Hd Hr Hft') as [insns [Hl [Hchain [Htotal Hc]]]].
    rewrite Hc. cbn [snd rgn].
    destruct (summarize_chunk (rgn s) (ByteRangeSet.offset first) insns)
      as [Hoff [_ [Hlen _]]].
    unfold unprocessed_bytes at 1.
    destruct (with_chunk_frontier (rgn s)
                (fst (summarize (rgn s) (ByteRangeSet.offset first) insns))) as [-> _].
    rewrite Hoff, Hlen. cbn [d_offset d_length with_chunk].
    assert (Hone : 1 <= total_size insns).
    { cbn [cs_disasm_list] in Hl.
      destruct (cs_disasm_iter data (ByteRangeSet.offset first)) as [insn|] eqn:E.
      - destruct (cs_disasm_list cs_disasm_iter _ _ _) as [l2|]; [|discriminate].
        injection Hl as <-. destruct Hchain as [_ [Hs Hchain]].
        pose proof (decoded_chain_total_nonneg _ _ Hchain).
        unfold total_size in *. cbn [fold_right dec_insn] in *. lia.
      - exfalso. apply (decoder_total data (ByteRangeSet.offset first) Hne E). }
    unfold unprocessed_bytes in *. lia.
Qed.

Lemma checks_make_progress : forall n s,
  region_inv (rgn s) ->
  document_holds read_data (d_offset (rgn s)) (d_length (rgn s)) ->
  unprocessed_bytes (rgn (after_checks NDEBUG cs_disasm_iter read_data n s))
  <= Z.max 0 (unprocessed_bytes (rgn s) - Z.of_nat n).
Proof.
  induction n as [|n IH]; intros s Hinv Hdoc.
  - simpl. lia.
  - cbn [after_checks].
    pose proof (check_makes_progress s Hinv Hdoc) as Hstep.
    destruct (check_keeps_inv NDEBUG cs_disasm_iter read_data decoder_contract
                read_contract s Hinv) as [Hinv' _].
    destruct (checks_keep_bounds NDEBUG cs_disasm_iter read_data 1 s) as [Ho Hl].
    cbn [after_checks] in Ho, Hl.
    specialize (IH (after_check NDEBUG cs_disasm_iter read_data s) Hinv').
    rewrite Ho, Hl in IH. specialize (IH Hdoc). lia.
Qed.

End Progress.

(** X4.  Background processing ends.  On a document that holds the bytes
    of the region, with a decoder that makes an instruction of every byte it
    cannot decode ([CS_OPT_SKIPDATA]), as many calls of [check] as the region
    has bytes leave the dirty set empty and the whole region in chunks; the
    next call returns [IDLE] and changes nothing. *)
Theorem check_finishes_region :
  forall NDEBUG cs_disasm_iter read_data,
    decoder_ok cs_disasm_iter -> read_ok read_data ->
    decoder_skips_data cs_disasm_iter ->
    forall offset length s n,
      0 <= length ->
      document_holds read_data offset length ->
      rgn s = DisassemblyRegion_new offset length ->
      length <= Z.of_nat n ->
      dirty (rgn (after_checks NDEBUG cs_disasm_iter read_data n s)) = []
      /\ unprocessed_offset (rgn (after_checks NDEBUG cs_disasm_iter read_data n s))
         = offset + length
      /\ check NDEBUG cs_disasm_iter read_data
               (after_checks NDEBUG cs_disasm_iter read_data n s)
         = (Returned StateFlag.IDLE, after_checks NDEBUG cs_disasm_iter read_data n s).
Proof.
  intros NDEBUG dec read Hdec Hread Htotal offset length s n Hlen Hdoc Hs Hn.
  assert (Hinv : region_inv (rgn s)) by (rewrite Hs; apply region_inv_new; exact Hlen).
  pose proof (checks_keep_inv NDEBUG dec read Hdec Hread n s Hinv) as Hinv'.
  destruct (checks_keep_bounds NDEBUG dec read n s) as [Ho Hl].
  assert (Hdoc' : document_holds read (d_offset (rgn s)) (d_length (rgn s)))
    by (rewrite Hs; exact Hdoc).
  pose proof (checks_make_progress NDEBUG dec read Hdec Hread Htotal n s Hinv Hdoc')
    as Hprog.
  set (s' := after_checks NDEBUG dec read n s) in *.
  assert (Hub : unprocessed_bytes (rgn s) = length).
  { rewrite Hs. unfold unprocessed_bytes, unprocessed_offset. cbn. lia. }
  destruct (region_inv_accounts _ Hinv') as [_ [Hnn _]].
  assert (Hzero : unprocessed_bytes (rgn s') = 0) by lia.
  assert (Hd : dirty (rgn s') = []).
  { rewrite (inv_dirty Hinv'), Hzero. apply ByteRangeSetFacts.set_range_nil. }
  split; [exact Hd|]. split.
  - unfold unprocessed_bytes in Hzero. rewrite Ho, Hl, Hs in Hzero. cbn in Hzero. lia.
  - apply check_idle. exact Hd.
Qed.

Lemma sample_decoder_skips_data : decoder_skips_data (Sample.decode true).
Proof.
  intros code address Hne. unfold Sample.decode.
  destruct code as [|b rest]; [contradiction|].
  destruct (Byte.eqb b x90); [discriminate|].
  destruct (Byte.eqb b x31 && _)%bool; [discriminate|].
  destruct (Byte.eqb b xb8 && _)%bool; discriminate.
Qed.

Lemma sample_document_holds : forall buf,
  document_holds (Sample.buffer_read_data buf) 0 (vsize buf).
Proof.
  intros buf o n Ho Hn Hend. unfold Sample.buffer_read_data.
  destruct (Z.ltb_spec o 0); [lia|].
  destruct (Z.ltb_spec (vsize buf) o); [lia|]. cbn [orb].
  eexists. split; [reflexivity|].
  intros E. apply (f_equal (@List.length _)) in E.
  rewrite length_firstn, length_skipn in E. unfold vsize in *. simpl in E. lia.
Qed.

(** X4 on the sample: fifteen bytes of code are processed in fifteen calls
    (the first one does it). *)
Lemma check_finishes_region_witness :
  dirty (rgn (after_checks false (Sample.decode true)
                (Sample.buffer_read_data Sample.code15) 15
                (Sample.start (DisassemblyRegion_new 0 15)))) = []
  /\ unprocessed_offset
       (rgn (after_checks false (Sample.decode true)
               (Sample.buffer_read_data Sample.code15) 15
               (Sample.start (DisassemblyRegion_new 0 15)))) = 15.
Proof.
  destruct (check_finishes_region false (Sample.decode true)
              (Sample.buffer_read_data Sample.code15)
              (sample_decoder_ok true) (sample_read_ok Sample.code15)
              sample_decoder_skips_data
              0 15 (Sample.start (DisassemblyRegion_new 0 15)) 15%nat)
    as [Hd [Ho _]].
  - lia.
  - exact (sample_document_holds Sample.code15).
  - reflexivity.
  - simpl. lia.
  - split; [exact Hd | exact Ho].
Defined.

(* ================================================================== *)
(** * A step that decodes nothing *)
(* ================================================================== *)

Section Stall.

Variable NDEBUG : bool.
Variable cs_disasm_iter : list byte -> Z -> option cs_insn.
Variable read_data : Z -> Z -> ReadResult.
Hypothesis decoder_contract : decoder_ok cs_disasm_iter.
Hypothesis read_contract : read_ok read_data.

(** A call whose read gives no byte appends the empty chunk and leaves the
    dirty set as it is. *)
Lemma check_empty_read : forall s,
  region_inv (rgn s) ->
  0 < unprocessed_bytes (rgn s) ->
  read_data (unprocessed_offset (rgn s))
            (Z.min (unprocessed_bytes (rgn s)) SOFT_IR_LIMIT) = ReadOk [] ->
  exists state s',
    check NDEBUG cs_disasm_iter read_data s = (Returned state, s')
    /\ has_flag state StateFlag.PROCESSING = true
    /\ has_flag state StateFlag.HEIGHT_CHANGE = false
    /\ processed (rgn s')
       = processed (rgn s) ++ [empty_chunk (rgn s) (unprocessed_offset (rgn s))]
    /\ dirty (rgn s') = dirty (rgn s)
    /\ unprocessed_offset (rgn s') = unprocessed_offset (rgn s)
    /\ unprocessed_bytes (rgn s') = unprocessed_bytes (rgn s)
    /\ processed_lines (rgn s') = processed_lines (rgn s)
    /\ region_inv (rgn s').
Proof.
  intros s Hinv Hpos Hr.
  pose proof (inv_dirty Hinv) as Hd.
  rewrite ByteRangeSetFacts.set_range_nil in Hd.
  destruct (Z.leb_spec (unprocessed_bytes (rgn s)) 0); [lia|].
  set (first := {| ByteRangeSet.offset := unprocessed_offset (rgn s);
                   ByteRangeSet.length := unprocessed_bytes (rgn s) |}) in *.
  pose proof (region_inv_frontier_test _ _ _ Hinv Hd) as Hft.
  assert (Hft' : (NDEBUG || frontier_test (rgn s) (ByteRangeSet.offset first))%bool
                 = true) by (rewrite Hft; apply orb_true_r).
  destruct (check_returns NDEBUG cs_disasm_iter read_data decoder_contract
              s first [] [] Hd Hr Hft') as [insns [Hl [_ [_ Hc]]]].
  assert (Hnil : insns = []).
  { cbn [cs_disasm_list List.length] in Hl.
    destruct (cs_disasm_iter [] (ByteRangeSet.offset first)) as [insn|] eqn:E.
    - apply decoder_contract in E. unfold vsize in E. simpl in E. lia.
    - injection Hl as <-. reflexivity. }
  subst insns. cbn [summarize fold_left fst ByteRangeSet.offset first] in Hc.
  unfold summarize in Hc. cbn [fold_left fst snd ByteRangeSet.offset first] in Hc.
  set (e := empty_chunk (rgn s) (unprocessed_offset (rgn s))) in *.
  assert (Hdirty : dirty (with_chunk (rgn s) e) = dirty (rgn s)).
  { cbn [dirty with_chunk]. unfold ByteRangeSet.clear_range. cbn. reflexivity. }
  destruct (with_chunk_frontier (rgn s) e) as [Hoff Hlines].
  cbn [e empty_chunk InstructionRange.offset InstructionRange.length
       InstructionRange.rel_y_offset InstructionRange.y_lines] in Hoff, Hlines.
  fold (processed_lines (rgn s)) in Hlines.
  eexists. eexists. split; [exact Hc|]. cbn [rgn].
  split.
  { pose proof (check_state_bits (rgn s) [] (unprocessed_offset (rgn s))) as Hbits.
    unfold summarize in Hbits. cbn [fold_left fst snd] in Hbits. fold e in Hbits.
    rewrite Hbits.
    match goal with
    | |- context [Z.lor (Z.lor (if ?h then _ else _) (if ?w then _ else _))
                        (if ?p then _ else _)] =>
        destruct (has_flag_bits h w p) as [_ [_ [Hp _]]]; cbv zeta in Hp; rewrite Hp
    end.
    rewrite Hdirty, Hd. reflexivity. }
  split.
  { pose proof (check_state_bits (rgn s) [] (unprocessed_offset (rgn s))) as Hbits.
    unfold summarize in Hbits. cbn [fold_left fst snd] in Hbits. fold e in Hbits.
    rewrite Hbits.
    match goal with
    | |- context [Z.lor (Z.lor (if ?h then _ else _) (if ?w then _ else _))
                        (if ?p then _ else _)] =>
        destruct (has_flag_bits h w p) as [Hh _]; cbv zeta in Hh; rewrite Hh
    end.
    reflexivity. }
  split; [reflexivity|]. split; [exact Hdirty|].
  split; [rewrite Hoff; lia|].
  split; [unfold unprocessed_bytes; rewrite Hoff; cbn [d_offset d_length with_chunk]; lia|].
  split; [rewrite Hlines; lia|].
  apply (region_inv_with_chunk _ first [] e Hinv Hd); cbn; try reflexivity;
    unfold processed_lines; try lia.
Qed.

End Stall.

(** X5.  A step that can read no byte makes no progress.  In a state that
    calls of [check] and of [instruction_by_offset] lead to, with
    unprocessed bytes left, when the read at [unprocessed_offset] gives no
    byte (the document ends there), every further call of [check] appends
    one more empty chunk at that offset and leaves the dirty set and
    [unprocessed_offset] as they are; each call returns, with [PROCESSING]
    set and [HEIGHT_CHANGE] not set. *)
Theorem check_stalls_on_empty_read :
  forall NDEBUG cs_disasm_iter read_data,
    decoder_ok cs_disasm_iter -> read_ok read_data ->
    forall s,
      reachable NDEBUG cs_disasm_iter read_data s ->
      0 < unprocessed_bytes (rgn s) ->
      read_data (unprocessed_offset (rgn s))
                (Z.min (unprocessed_bytes (rgn s)) SOFT_IR_LIMIT) = ReadOk [] ->
      forall n,
        processed (rgn (after_checks NDEBUG cs_disasm_iter read_data n s))
        = processed (rgn s)
          ++ repeat (empty_chunk (rgn s) (unprocessed_offset (rgn s))) n
        /\ dirty (rgn (after_checks NDEBUG cs_disasm_iter read_data n s))
           = dirty (rgn s)
        /\ exists state s',
             check NDEBUG cs_disasm_iter read_data
                   (after_checks NDEBUG cs_disasm_iter read_data n s)
             = (Returned state, s')
             /\ has_flag state StateFlag.PROCESSING = true
             /\ has_flag state StateFlag.HEIGHT_CHANGE = false.
Proof.
  intros NDEBUG dec read Hdec Hread s Hreach Hpos Hr n.
  pose proof (reachable_region_inv NDEBUG dec read Hdec Hread s Hreach) as Hinv.
  clear Hreach. revert s Hinv Hpos Hr.
  induction n as [|n IH]; intros s Hinv Hpos Hr.
  - cbn [after_checks repeat]. rewrite app_nil_r.
    split; [reflexivity|]. split; [reflexivity|].
    destruct (check_empty_read NDEBUG dec read Hdec s Hinv Hpos Hr)
      as [state [s' [Hc [Hp [Hh _]]]]].
    exists state, s'. split; [exact Hc|]. split; assumption.
  - cbn [after_checks]. unfold after_check.
    destruct (check_empty_read NDEBUG dec read Hdec s Hinv Hpos Hr)
      as [state [s' [Hc [_ [_ [Hproc [Hd [Ho [Hb [Hl Hinv']]]]]]]]]].
    rewrite Hc. cbn [snd].
    assert (Hr' : read (unprocessed_offset (rgn s'))
                       (Z.min (unprocessed_bytes (rgn s')) SOFT_IR_LIMIT) = ReadOk [])
      by (rewrite Ho, Hb; exact Hr).
    assert (Hpos' : 0 < unprocessed_bytes (rgn s')) by (rewrite Hb; exact Hpos).
    destruct (IH s' Hinv' Hpos' Hr') as [IHp [IHd IHc]].
    assert (He : empty_chunk (rgn s') (unprocessed_offset (rgn s'))
                 = empty_chunk (rgn s) (unprocessed_offset (rgn s))).
    { unfold empty_chunk. rewrite Ho. f_equal.
      change (processed_lines (rgn s') = processed_lines (rgn s)). exact Hl. }
    rewrite He in IHp.
    split.
    { rewrite IHp, Hproc, <- app_assoc. reflexivity. }
    split; [rewrite IHd; exact Hd | exact IHc].
Qed.

(** X5 on the sample: a region of fifteen bytes on a document of nine; the
    first call decodes the nine, the next two append an empty chunk each. *)
Lemma check_stalls_on_empty_read_witness :
  exists c e,
    processed (rgn (after_checks false (Sample.decode true)
                      (Sample.buffer_read_data Sample.code9) 3
                      (Sample.start (DisassemblyRegion_new 0 15)))) = [c; e; e]
    /\ InstructionRange.length e = 0
    /\ InstructionRange.offset e = 9.
Proof.
  pose (s1 := after_check false (Sample.decode true)
                (Sample.buffer_read_data Sample.code9)
                (Sample.start (DisassemblyRegion_new 0 15))).
  destruct (check_stalls_on_empty_read false (Sample.decode true)
              (Sample.buffer_read_data Sample.code9)
              (sample_decoder_ok true) (sample_read_ok Sample.code9) s1)
    with (n := 2%nat) as [Hp _].
  - apply reach_check. apply reach_new. lia.
  - vm_compute. reflexivity.
  - vm_compute. reflexivity.
  - change (after_checks false (Sample.decode true)
              (Sample.buffer_read_data Sample.code9) 3
              (Sample.start (DisassemblyRegion_new 0 15)))
      with (after_checks false (Sample.decode true)
              (Sample.buffer_read_data Sample.code9) 2 s1).
    rewrite Hp.
    destruct (processed (rgn s1)) as [|c [|c' rest]] eqn:E;
      try (vm_compute in E; discriminate).
    exists c, (empty_chunk (rgn s1) (unprocessed_offset (rgn s1))).
    split; [reflexivity|]. split; [reflexivity|]. vm_compute. reflexivity.
Defined.

(* ================================================================== *)
(** * The two searches of the chunk list *)
(* ================================================================== *)

Lemma contiguous_line_spans : forall cs b l,
  contiguous b l cs -> chunks_nonneg cs ->
  spans_sorted InstructionRange.rel_y_offset InstructionRange.y_lines l cs.
Proof.
  induction cs as [|c cs IH]; intros b l Hc Hn; [exact I|].
  destruct Hc as [Ho [Hl Hc]]. inversion Hn as [|? ? [Hx1 Hx2] Hn']; subst.
  simpl. repeat split; [lia | lia | apply (IH _ _ Hc Hn')].
Qed.

Lemma contiguous_line_cover : forall cs b l line,
  contiguous b l cs -> chunks_nonneg cs ->
  ((exists c, In c cs /\ in_chunk_lines c line) <-> l <= line < lines_end l cs).
Proof.
  induction cs as [|x cs IH]; intros b l line Hc Hn.
  - unfold lines_end. simpl. split; [intros [c [[] _]] | lia].
  - rewrite lines_end_cons.
    destruct Hc as [Ho [Hl Hc]]. inversion Hn as [|? ? [Hx1 Hx2] Hn']; subst.
    specialize (IH _ _ line Hc Hn').
    destruct (contiguous_ends _ _ _ Hc Hn') as [_ [H1 _]].
    split.
    + intros [c [[<- | Hin] Hic]].
      * unfold in_chunk_lines in Hic. lia.
      * assert (He : exists c, In c cs /\ in_chunk_lines c line) by eauto.
        apply IH in He. lia.
    + intros Hline.
      destruct (Z_lt_le_dec line (InstructionRange.rel_y_offset x
                                  + InstructionRange.y_lines x)) as [Hin | Hout].
      * exists x. split; [now left | unfold in_chunk_lines; lia].
      * destruct (proj2 IH) as [c [Hcin Hcl]]; [lia|].
        exists c. split; [now right | exact Hcl].
Qed.

Lemma processed_by_line_some : forall r line c,
  processed_by_line r line = Some c -> In c (processed r) /\ in_chunk_lines c line.
Proof.
  intros r line c H. unfold processed_by_line in H.
  destruct (upper_bound InstructionRange.rel_y_offset (processed r) line) as [|p];
    [discriminate|].
  destruct (nth_error (processed r) p) as [j|] eqn:Hn; [|discriminate].
  destruct (Z.leb_spec (InstructionRange.rel_y_offset j) line); [|discriminate].
  destruct (Z.gtb_spec (InstructionRange.rel_y_offset j + InstructionRange.y_lines j) line);
    [|discriminate].
  injection H as <-. split; [eapply nth_error_In; exact Hn | unfold in_chunk_lines; lia].
Qed.

Lemma processed_by_line_finds : forall r b l line c,
  contiguous b l (processed r) -> chunks_nonneg (processed r) ->
  In c (processed r) -> in_chunk_lines c line ->
  processed_by_line r line = Some c.
Proof.
  intros r b l line c Hc Hn Hin Hic.
  destruct (upper_bound_prev _ InstructionRange.rel_y_offset InstructionRange.y_lines
              (processed r) l line c (contiguous_line_spans _ _ _ Hc Hn) Hin Hic)
    as [k [Hk Hnth]].
  unfold processed_by_line. rewrite Hk, Hnth.
  unfold in_chunk_lines in Hic.
  destruct (Z.leb_spec (InstructionRange.rel_y_offset c) line); [|lia].
  destruct (Z.gtb_spec (InstructionRange.rel_y_offset c + InstructionRange.y_lines c) line);
    [|lia].
  reflexivity.
Qed.

(** X6.  In every state that calls of [check] and of
    [instruction_by_offset] lead to, [processed_by_offset] finds the chunk
    that holds the offset: it returns a chunk exactly when that chunk is in
    the list and the offset lies in its span, and [processed.end()] exactly
    when the offset lies outside [d_offset, unprocessed_offset). *)
Theorem processed_by_offset_finds_the_chunk :
  forall NDEBUG cs_disasm_iter read_data,
    decoder_ok cs_disasm_iter -> read_ok read_data ->
    forall s abs_offset,
      reachable NDEBUG cs_disasm_iter read_data s ->
      (forall c, processed_by_offset (rgn s) abs_offset = Some c
                 <-> In c (processed (rgn s)) /\ in_chunk c abs_offset)
      /\ (processed_by_offset (rgn s) abs_offset = None
          <-> ~ d_offset (rgn s) <= abs_offset < unprocessed_offset (rgn s)).
Proof.
  intros NDEBUG dec read Hdec Hread s o Hreach.
  pose proof (reachable_region_inv NDEBUG dec read Hdec Hread s Hreach) as Hinv.
  pose proof (inv_chunks Hinv) as Hc. pose proof (inv_nonneg Hinv) as Hn.
  assert (Hiff : forall c, processed_by_offset (rgn s) o = Some c
                           <-> In c (processed (rgn s)) /\ in_chunk c o).
  { intros c. split.
    - apply processed_by_offset_some.
    - intros [Hin Hic]. apply (processed_by_offset_finds _ _ _ _ _ Hc Hn Hin Hic). }
  split; [exact Hiff|].
  pose proof (contiguous_cover _ _ _ o Hc Hn) as Hcover.
  change (chunks_end (d_offset (rgn s)) (processed (rgn s)))
    with (unprocessed_offset (rgn s)) in Hcover.
  split.
  - intros Hnone Ho. apply Hcover in Ho. destruct Ho as [c Hc'].
    apply Hiff in Hc'. congruence.
  - intros Hout. destruct (processed_by_offset (rgn s) o) as [c|] eqn:E; [|reflexivity].
    exfalso. apply Hout. apply Hcover. exists c. apply Hiff. reflexivity.
Qed.

(** X6 on the sample: offset 10 of the fifteen bytes, once they are
    decoded, is in the chunk; offset 15 is in none. *)
Lemma processed_by_offset_finds_the_chunk_witness :
  (exists c,
      processed_by_offset
        (rgn (after_check false (Sample.decode true)
                (Sample.buffer_read_data Sample.code15)
                (Sample.start (DisassemblyRegion_new 0 15)))) 10 = Some c)
  /\ processed_by_offset
       (rgn (after_check false (Sample.decode true)
               (Sample.buffer_read_data Sample.code15)
               (Sample.start (DisassemblyRegion_new 0 15)))) 15 = None.
Proof.
  assert (Hreach : reachable false (Sample.decode true)
                     (Sample.buffer_read_data Sample.code15)
                     (after_check false (Sample.decode true)
                        (Sample.buffer_read_data Sample.code15)
                        (Sample.start (DisassemblyRegion_new 0 15))))
    by (apply reach_check; apply reach_new; lia).
  split.
  - destruct (processed_by_offset_finds_the_chunk false (Sample.decode true)
                (Sample.buffer_read_data Sample.code15)
                (sample_decoder_ok true) (sample_read_ok Sample.code15) _ 10 Hreach)
      as [Hsome _].
    eexists. apply Hsome. split; [left; reflexivity|].
    vm_compute. split; [discriminate | reflexivity].
  - destruct (processed_by_offset_finds_the_chunk false (Sample.decode true)
                (Sample.buffer_read_data Sample.code15)
                (sample_decoder_ok true) (sample_read_ok Sample.code15) _ 15 Hreach)
      as [_ Hnone].
    apply Hnone. vm_compute. intros [_ H]. discriminate.
Defined.

(** X7.  In every state that calls of [check] and of
    [instruction_by_offset] lead to, [processed_by_line] finds the chunk
    that holds the line: it returns a chunk exactly when that chunk is in
    the list and the line is one of its lines, and [processed.end()] exactly
    when the line lies outside [0, processed_lines). *)
Theorem processed_by_line_finds_the_chunk :
  forall NDEBUG cs_disasm_iter read_data,
    decoder_ok cs_disasm_iter -> read_ok read_data ->
    forall s rel_line,
      reachable NDEBUG cs_disasm_iter read_data s ->
      (forall c, processed_by_line (rgn s) rel_line = Some c
                 <-> In c (processed (rgn s)) /\ in_chunk_lines c rel_line)
      /\ (processed_by_line (rgn s) rel_line = None
          <-> ~ 0 <= rel_line < processed_lines (rgn s)).
Proof.
  intros NDEBUG dec read Hdec Hread s line Hreach.
  pose proof (reachable_region_inv NDEBUG dec read Hdec Hread s Hreach) as Hinv.
  pose proof (inv_chunks Hinv) as Hc. pose proof (inv_nonneg Hinv) as Hn.
  assert (Hiff : forall c, processed_by_line (rgn s) line = Some c
                           <-> In c (processed (rgn s)) /\ in_chunk_lines c line).
  { intros c. split.
    - apply processed_by_line_some.
    - intros [Hin Hic]. apply (processed_by_line_finds _ _ _ _ _ Hc Hn Hin Hic). }
  split; [exact Hiff|].
  pose proof (contiguous_line_cover _ _ _ line Hc Hn) as Hcover.
  change (lines_end 0 (processed (rgn s))) with (processed_lines (rgn s)) in Hcover.
  split.
  - intros Hnone Ho. apply Hcover in Ho. destruct Ho as [c Hc'].
    apply Hiff in Hc'. congruence.
  - intros Hout. destruct (processed_by_line (rgn s) line) as [c|] eqn:E; [|reflexivity].
    exfalso. apply Hout. apply Hcover. exists c. apply Hiff. reflexivity.
Qed.

(** X7 on the sample: the fifteen bytes decode into six lines; line 5 is in
    the chunk, line 6 is in none. *)
Lemma processed_by_line_finds_the_chunk_witness :
  (exists c,
      processed_by_line
        (rgn (after_check false (Sample.decode true)
                (Sample.buffer_read_data Sample.code15)
                (Sample.start (DisassemblyRegion_new 0 15)))) 5 = Some c)
  /\ processed_by_line
       (rgn (after_check false (Sample.decode true)
               (Sample.buffer_read_data Sample.code15)
               (Sample.start (DisassemblyRegion_new 0 15)))) 6 = None.
Proof.
  assert (Hreach : reachable false (Sample.decode true)
                     (Sample.buffer_read_data Sample.code15)
                     (after_check false (Sample.decode true)
                        (Sample.buffer_read_data Sample.code15)
                        (Sample.start (DisassemblyRegion_new 0 15))))
    by (apply reach_check; apply reach_new; lia).
  split.
  - destruct (processed_by_line_finds_the_chunk false (Sample.decode true)
                (Sample.buffer_read_data Sample.code15)
                (sample_decoder_ok true) (sample_read_ok Sample.code15) _ 5 Hreach)
      as [Hsome _].
    eexists. apply Hsome. split; [left; reflexivity|].
    vm_compute. split; [discriminate | reflexivity].
  - destruct (processed_by_line_finds_the_chunk false (Sample.decode true)
                (Sample.buffer_read_data Sample.code15)
                (sample_decoder_ok true) (sample_read_ok Sample.code15) _ 6 Hreach)
      as [_ Hnone].
    apply Hnone. vm_compute. intros [_ H]. discriminate.
Defined.

(* ================================================================== *)
(** * The cache and the summaries of the chunks *)
(* ================================================================== *)

Lemma to_instructions_size : forall ir l n,
  vsize (to_instructions ir n l) = vsize l.
Proof.
  induction l as [|d l IH]; intros n; [reflexivity|].
  unfold vsize in *. cbn [to_instructions List.length].
  rewrite !Nat2Z.inj_succ, IH. reflexivity.
Qed.

Lemma to_instructions_nth : forall ir l n j i,
  nth_error (to_instructions ir n l) j = Some i ->
  exists d,
    nth_error l j = Some d
    /\ Instruction.offset i = dec_address d
    /\ Instruction.length i = size (dec_insn d)
    /\ Instruction.rel_y_offset i = InstructionRange.rel_y_offset ir + (n + Z.of_nat j).
Proof.
  induction l as [|d l IH]; intros n j i H.
  - destruct j; discriminate.
  - destruct j as [|j]; cbn [to_instructions nth_error] in *.
    + injection H as <-. exists d. cbn. repeat split; lia.
    + destruct (IH _ _ _ H) as [e [He [Ho [Hl Hy]]]].
      exists e. repeat split; try assumption. rewrite Hy. lia.
Qed.

Lemma to_instructions_in : forall ir l n i,
  In i (to_instructions ir n l) ->
  exists d,
    In d l
    /\ Instruction.length i = size (dec_insn d)
    /\ InstructionRange.rel_y_offset ir + n <= Instruction.rel_y_offset i
       < InstructionRange.rel_y_offset ir + n + vsize l.
Proof.
  intros ir l n i Hin. apply In_nth_error in Hin. destruct Hin as [j Hj].
  destruct (to_instructions_nth _ _ _ _ _ Hj) as [d [Hd [_ [Hl Hy]]]].
  exists d. split; [eapply nth_error_In; exact Hd|]. split; [exact Hl|].
  assert (Hlt : (j < List.length l)%nat) by (apply nth_error_Some; congruence).
  unfold vsize. lia.
Qed.

Section CacheSummaries.

Variable NDEBUG : bool.
Variable cs_disasm_iter : list byte -> Z -> option cs_insn.
Variable read_data : Z -> Z -> ReadResult.
Hypothesis decoder_contract : decoder_ok cs_disasm_iter.
Hypothesis read_contract : read_ok read_data.
Hypothesis decoder_prefix : decoder_stable cs_disasm_iter.
Hypothesis read_prefix : read_stable read_data.

(** Decoding a chunk again gives the instructions that its summary was made
    of. *)
Lemma summary_batch : forall c l data batch,
  chunk_summary cs_disasm_iter read_data c l ->
  read_data (InstructionRange.offset c) (InstructionRange.length c) = ReadOk data ->
  chunk_instructions cs_disasm_iter c data = Some batch ->
  batch = to_instructions c 0 l.
Proof.
  intros c l data batch [data' [Hr' [Hl _]]] Hr Hb.
  rewrite Hr in Hr'. injection Hr' as <-.
  unfold chunk_instructions in Hb. rewrite cs_disasm_while_list, Hl in Hb.
  rewrite decode_body_fold in Hb. injection Hb as <-. reflexivity.
Qed.

Lemma summary_chunk_instructions : forall c l,
  chunk_summary cs_disasm_iter read_data c l ->
  exists data,
    read_data (InstructionRange.offset c) (InstructionRange.length c) = ReadOk data
    /\ chunk_instructions cs_disasm_iter c data = Some (to_instructions c 0 l).
Proof.
  intros c l [data [Hr [Hl _]]]. exists data. split; [exact Hr|].
  unfold chunk_instructions. rewrite cs_disasm_while_list, Hl, decode_body_fold.
  reflexivity.
Qed.

(** The miss path keeps the cache within its bound. *)
Lemma fill_keeps_size : forall s abs_offset o s',
  summary_inv cs_disasm_iter read_data (rgn s) ->
  vsize (instructions (rgn s)) <= INSTRUCTION_CACHE_LIMIT ->
  instruction_by_offset_fill NDEBUG cs_disasm_iter read_data abs_offset s = (o, s') ->
  vsize (instructions (rgn s')) <= INSTRUCTION_CACHE_LIMIT.
Proof.
  intros s abs_offset o s' Hsum Hsize Hfill.
  destruct (fill_cases _ _ _ _ _ _ _ Hfill) as [-> | ->]; [exact Hsize|].
  destruct (fill_true _ _ _ _ _ _ Hfill) as [ir [data [batch [Hir [Hr [Hb ->]]]]]].
  cbn [rgn instructions set_instructions]. unfold cache_after_insert.
  destruct (Z.gtb_spec (vsize (instructions (rgn s)) + vsize batch)
                       INSTRUCTION_CACHE_LIMIT) as [Hbig | Hsmall].
  - destruct (processed_by_offset_some _ _ _ Hir) as [Hin _].
    pose proof (si_chunks Hsum) as Hch. rewrite Forall_forall in Hch.
    destruct (Hch ir Hin) as [l Hl].
    rewrite (summary_batch _ _ _ _ Hl Hr Hb), to_instructions_size.
    destruct Hl as [_ [_ [_ [Hchain [Htot [_ [_ [_ Hlim]]]]]]]].
    pose proof (decoded_chain_lines _ _ Hchain).
    unfold SOFT_IR_LIMIT, INSTRUCTION_CACHE_LIMIT in *. lia.
  - unfold insert_at, vsize in *. rewrite !length_app.
    pose proof (firstn_skipn (upper_bound Instruction.offset (instructions (rgn s))
                                          abs_offset) (instructions (rgn s))) as Hsplit.
    apply (f_equal (@List.length _)) in Hsplit. rewrite length_app in Hsplit. lia.
Qed.

Lemma instruction_by_offset_keeps_size : forall fuel abs_offset s o s',
  summary_inv cs_disasm_iter read_data (rgn s) ->
  vsize (instructions (rgn s)) <= INSTRUCTION_CACHE_LIMIT ->
  instruction_by_offset NDEBUG cs_disasm_iter read_data fuel abs_offset s = (o, s') ->
  vsize (instructions (rgn s')) <= INSTRUCTION_CACHE_LIMIT.
Proof.
  induction fuel as [|fuel IH]; intros abs_offset s o s' Hsum Hsize H.
  - injection H as _ <-. exact Hsize.
  - cbn [instruction_by_offset] in H. unfold get_region, ret, bind in H.
    destruct (cached_instruction (rgn s) abs_offset) eqn:Hc.
    + injection H as _ <-. exact Hsize.
    + destruct (instruction_by_offset_fill NDEBUG cs_disasm_iter read_data abs_offset s)
        as [o1 s1] eqn:Hfill.
      pose proof (fill_keeps_size _ _ _ _ Hsum Hsize Hfill) as Hsize1.
      assert (Hsum1 : summary_inv cs_disasm_iter read_data (rgn s1)).
      { rewrite (fill_frame _ _ _ _ _ _ _ Hfill).
        apply summary_inv_set_instructions. exact Hsum. }
      destruct o1 as [[|]| | | |]; try (injection H as _ <-; exact Hsize1).
      apply (IH _ _ _ _ Hsum1 Hsize1 H).
Qed.

(** Every state that calls of [check] and of [instruction_by_offset] lead
    to has the invariant of the cache. *)
Lemma reachable_cache_inv : forall s,
  reachable NDEBUG cs_disasm_iter read_data s ->
  cache_inv cs_disasm_iter read_data (rgn s).
Proof.
  intros s Hreach.
  pose proof (reachable_lookup_inv NDEBUG cs_disasm_iter read_data decoder_contract
                read_contract decoder_prefix read_prefix s Hreach) as Hlook.
  pose proof (reachable_summary_inv NDEBUG cs_disasm_iter read_data decoder_contract
                read_contract decoder_prefix read_prefix s Hreach) as Hsum.
  constructor; [exact Hlook | exact Hsum |].
  clear Hlook Hsum.
  induction Hreach as [offset length events Hlen | s Hs IH | s fuel abs_offset Hs IH].
  - cbn. unfold INSTRUCTION_CACHE_LIMIT. lia.
  - destruct (check_region_cases NDEBUG cs_disasm_iter read_data s) as [-> | [c ->]];
      exact IH.
  - destruct (instruction_by_offset NDEBUG cs_disasm_iter read_data fuel abs_offset s)
      as [o s'] eqn:E.
    apply (instruction_by_offset_keeps_size fuel abs_offset s o s'); [|exact IH | exact E].
    apply (reachable_summary_inv NDEBUG cs_disasm_iter read_data decoder_contract
             read_contract decoder_prefix read_prefix s Hs).
Qed.

(** What the invariant says of one instruction of the cache. *)
Lemma cached_instruction_facts : forall r i,
  cache_inv cs_disasm_iter read_data r ->
  In i (instructions r) ->
  exists c,
    In c (processed r)
    /\ InstructionRange.offset c <= Instruction.offset i
    /\ 0 < Instruction.length i
    /\ Instruction.offset i + Instruction.length i
       <= InstructionRange.offset c + InstructionRange.length c
    /\ in_chunk_lines c (Instruction.rel_y_offset i)
    /\ Instruction.length i <= InstructionRange.longest_instruction c.
Proof.
  intros r i Hinv Hi.
  pose proof (li_from (ci_lookup Hinv)) as Hfrom.
  destruct (Hfrom i Hi) as [c [data [batch [Hc [Hr [Hb Hib]]]]]].
  pose proof (li_region (ci_lookup Hinv)) as Hreg.
  pose proof (inv_nonneg Hreg) as Hn. unfold chunks_nonneg in Hn.
  rewrite Forall_forall in Hn. destruct (Hn c Hc) as [Hlen _].
  destruct (chunk_instructions_inside cs_disasm_iter read_data decoder_contract
              read_contract _ _ _ Hlen Hr Hb) as [_ Hinside].
  destruct (Hinside i Hib) as [Ho [Hpos Hend]].
  pose proof (si_chunks (ci_summary Hinv)) as Hch. rewrite Forall_forall in Hch.
  destruct (Hch c Hc) as [l Hl].
  rewrite (summary_batch _ _ _ _ Hl Hr Hb) in Hib.
  destruct (to_instructions_in _ _ _ _ Hib) as [d [Hd [Hsize Hy]]].
  destruct Hl as [_ [_ [_ [_ [_ [Hlines [Hall _]]]]]]].
  rewrite Forall_forall in Hall. specialize (Hall d Hd). cbn in Hall.
  exists c. split; [exact Hc|]. split; [exact Ho|]. split; [exact Hpos|].
  split; [exact Hend|]. split; [unfold in_chunk_lines; lia | lia].
Qed.

End CacheSummaries.

Section LookupSpec.

Variable NDEBUG : bool.
Variable cs_disasm_iter : list byte -> Z -> option cs_insn.
Variable read_data : Z -> Z -> ReadResult.
Hypothesis decoder_contract : decoder_ok cs_disasm_iter.
Hypothesis read_contract : read_ok read_data.
Hypothesis decoder_prefix : decoder_stable cs_disasm_iter.
Hypothesis read_prefix : read_stable read_data.

Lemma instruction_by_offset_keeps_cache_inv : forall fuel abs_offset s o s',
  cache_inv cs_disasm_iter read_data (rgn s) ->
  instruction_by_offset NDEBUG cs_disasm_iter read_data fuel abs_offset s = (o, s') ->
  cache_inv cs_disasm_iter read_data (rgn s').
Proof.
  intros fuel abs_offset s o s' Hinv H. constructor.
  - apply (instruction_by_offset_keeps_lookup_inv NDEBUG cs_disasm_iter read_data
             decoder_contract read_contract fuel abs_offset s o s' (ci_lookup Hinv) H).
  - rewrite (instruction_by_offset_frame _ _ _ _ _ _ _ _ H).
    apply summary_inv_set_instructions. exact (ci_summary Hinv).
  - apply (instruction_by_offset_keeps_size NDEBUG cs_disasm_iter read_data
             fuel abs_offset s o s' (ci_summary Hinv) (ci_size Hinv) H).
Qed.

(** The cache holds no instruction for an offset outside the processed
    area. *)
Lemma cached_instruction_outside : forall r abs_offset,
  cache_inv cs_disasm_iter read_data r ->
  ~ d_offset r <= abs_offset < unprocessed_offset r ->
  cached_instruction r abs_offset = None.
Proof.
  intros r o Hinv Hout.
  destruct (cached_instruction r o) as [[k i]|] eqn:E; [|reflexivity].
  exfalso. apply Hout.
  destruct (cached_instruction_some _ _ _ _ E) as [Hn Hcov].
  apply nth_error_In in Hn.
  destruct (cached_instruction_facts cs_disasm_iter read_data decoder_contract
              read_contract r i Hinv Hn) as [c [Hc [Ho [_ [Hend _]]]]].
  pose proof (li_region (ci_lookup Hinv)) as Hreg.
  destruct (contiguous_in _ _ _ c (inv_chunks Hreg) (inv_nonneg Hreg) Hc)
    as [Hb [_ [He _]]].
  change (chunks_end (d_offset r) (processed r)) with (unprocessed_offset r) in He.
  unfold covers in Hcov. lia.
Qed.

(** A lookup inside the processed area: what it returns and what it
    does. *)
Lemma instruction_by_offset_spec : forall fuel abs_offset s,
  cache_inv cs_disasm_iter read_data (rgn s) ->
  d_offset (rgn s) <= abs_offset < unprocessed_offset (rgn s) ->
  exists k i s1,
    instruction_by_offset NDEBUG cs_disasm_iter read_data (S (S fuel)) abs_offset s
    = (Returned (Some (k, i)), s1)
    /\ covers i abs_offset
    /\ nth_error (instructions (rgn s1)) k = Some i
    /\ cache_inv cs_disasm_iter read_data (rgn s1)
    /\ rgn s1 = set_instructions (instructions (rgn s1)) (rgn s)
    /\ (s1 = s
        \/ exists c,
             In c (processed (rgn s)) /\ in_chunk c abs_offset
             /\ trace s1 = trace s ++ [EvRead (InstructionRange.offset c)
                                         (InstructionRange.length c)]).
Proof.
  intros fuel abs_offset s Hinv Ho.
  destruct (instruction_by_offset NDEBUG cs_disasm_iter read_data (S (S fuel))
                                  abs_offset s) as [out s1] eqn:E.
  pose proof (instruction_by_offset_keeps_cache_inv _ _ _ _ _ Hinv E) as Hinv1.
  pose proof (instruction_by_offset_frame _ _ _ _ _ _ _ _ E) as Hframe.
  pose proof (ci_lookup Hinv) as Hlook.
  revert E.
  change (instruction_by_offset NDEBUG cs_disasm_iter read_data (S (S fuel)) abs_offset s)
    with (bind get_region
            (fun r =>
               match cached_instruction r abs_offset with
               | Some found => ret (Some found)
               | None =>
                   bind (instruction_by_offset_fill NDEBUG cs_disasm_iter read_data
                                                    abs_offset)
                        (fun again =>
                           if again
                           then instruction_by_offset NDEBUG cs_disasm_iter read_data
                                                      (S fuel) abs_offset
                           else ret None)
               end) s).
  unfold get_region, bind at 1.
  destruct (cached_instruction (rgn s) abs_offset) as [[k i]|] eqn:Hc.
  - unfold ret. intros E. injection E as <- <-.
    destruct (cached_instruction_some _ _ _ _ Hc) as [Hn Hcov].
    exists k, i, s. split; [reflexivity|]. split; [exact Hcov|]. split; [exact Hn|].
    split; [exact Hinv|]. split; [exact Hframe | now left].
  - pose proof (li_region Hlook) as Hreg.
    destruct (proj2 (contiguous_cover _ _ _ abs_offset (inv_chunks Hreg) (inv_nonneg Hreg)))
      as [c [Hcin Hcic]].
    { unfold unprocessed_offset in Ho. unfold chunks_end. exact Ho. }
    pose proof (processed_by_offset_finds _ _ _ _ _ (inv_chunks Hreg) (inv_nonneg Hreg)
                  Hcin Hcic) as Hir.
    destruct (miss_cache_outside cs_disasm_iter read_data decoder_contract read_contract
                _ _ _ Hlook Hc Hir)
      as [data [batch [i [Hr [Hb [Hi [Hcov Hout]]]]]]].
    assert (Hne : batch <> []) by (intros ->; contradiction).
    destruct (insert_assertions cs_disasm_iter read_data decoder_contract read_contract
                _ _ _ _ _ Hcic Hr Hb Hne (li_order Hlook) Hout) as [Ha1 Ha2].
    pose proof (fill_returns NDEBUG cs_disasm_iter read_data s abs_offset c data batch
                  Hir Hr Hb Ha1 Ha2) as Hfill.
    unfold bind. rewrite Hfill.
    pose proof (fill_keeps_lookup_inv NDEBUG cs_disasm_iter read_data decoder_contract
                  read_contract _ _ _ _ Hlook Hc Hfill) as Hlook1.
    set (s2 := {| rgn := set_instructions
                           (cache_after_insert (instructions (rgn s)) batch abs_offset)
                           (rgn s);
                  trace := trace s ++ [EvRead (InstructionRange.offset c)
                                         (InstructionRange.length c)] |}) in *.
    assert (Hi2 : In i (instructions (rgn s2))).
    { cbn [s2 rgn instructions set_instructions]. unfold cache_after_insert.
      destruct (_ >? INSTRUCTION_CACHE_LIMIT); [exact Hi|].
      apply in_insert_at. now left. }
    destruct (cached_instruction_finds_in_order (rgn s2) abs_offset i
                (li_order Hlook1) Hi2 Hcov) as [k Hk].
    cbn [instruction_by_offset]. unfold get_region, ret, bind.
    rewrite Hk. intros E. injection E as <- <-.
    destruct (cached_instruction_some _ _ _ _ Hk) as [Hn _].
    exists k, i, s2. split; [reflexivity|]. split; [exact Hcov|]. split; [exact Hn|].
    split; [exact Hinv1|]. split; [exact Hframe|].
    right. exists c. split; [exact Hcin|]. split; [exact Hcic | reflexivity].
Qed.

End LookupSpec.

(** X8.  In every state that calls of [check] and of
    [instruction_by_offset] lead to, on an unchanged document, a lookup of
    an offset outside [d_offset, unprocessed_offset) returns [EMPTY_END]; it
    reads nothing, writes nothing and leaves the cache as it is. *)
Theorem instruction_by_offset_outside_processed :
  forall NDEBUG cs_disasm_iter read_data,
    decoder_ok cs_disasm_iter -> read_ok read_data ->
    decoder_stable cs_disasm_iter -> read_stable read_data ->
    forall s abs_offset fuel,
      reachable NDEBUG cs_disasm_iter read_data s ->
      ~ d_offset (rgn s) <= abs_offset < unprocessed_offset (rgn s) ->
      instruction_by_offset NDEBUG cs_disasm_iter read_data (S fuel) abs_offset s
      = (Returned None, s).
Proof.
  intros NDEBUG dec read Hdec Hread Hdecs Hreads s o fuel Hreach Hout.
  pose proof (reachable_cache_inv NDEBUG dec read Hdec Hread Hdecs Hreads s Hreach)
    as Hinv.
  apply instruction_by_offset_no_chunk.
  - apply (cached_instruction_outside dec read Hdec Hread _ _ Hinv Hout).
  - pose proof (li_region (ci_lookup Hinv)) as Hreg.
    destruct (processed_by_offset (rgn s) o) as [c|] eqn:E; [|reflexivity].
    exfalso. apply Hout.
    destruct (processed_by_offset_some _ _ _ E) as [Hin Hic].
    apply (contiguous_cover _ _ _ o (inv_chunks Hreg) (inv_nonneg Hreg)).
    exists c. split; assumption.
Qed.

(** X8 on the sample: nine of the fifteen bytes are in the document and
    decoded; offset 9 is the first that is not processed. *)
Lemma instruction_by_offset_outside_processed_witness :
  instruction_by_offset false (Sample.decode true)
    (Sample.buffer_read_data Sample.code9) 1 9
    (after_check false (Sample.decode true) (Sample.buffer_read_data Sample.code9)
       (Sample.start (DisassemblyRegion_new 0 15)))
  = (Returned None,
     after_check false (Sample.decode true) (Sample.buffer_read_data Sample.code9)
       (Sample.start (DisassemblyRegion_new 0 15))).
Proof.
  apply (instruction_by_offset_outside_processed false (Sample.decode true)
           (Sample.buffer_read_data Sample.code9)
           (sample_decoder_ok true) (sample_read_ok Sample.code9)
           (sample_decoder_stable true) (sample_read_stable Sample.code9)).
  - apply reach_check. apply reach_new. lia.
  - vm_compute. intros [_ H]. discriminate.
Defined.

(** X9.  The cache of every state that calls of [check] and of
    [instruction_by_offset] lead to, on an unchanged document: it holds at
    most [INSTRUCTION_CACHE_LIMIT] (250000) instructions, in offset order
    and without overlap; each instruction has at least one byte and at most
    [max_bytes_per_line], lies in the span of one chunk of the region (it
    straddles no chunk boundary) and is on one of the lines of that chunk. *)
Theorem cache_holds_instructions_of_chunks :
  forall NDEBUG cs_disasm_iter read_data,
    decoder_ok cs_disasm_iter -> read_ok read_data ->
    decoder_stable cs_disasm_iter -> read_stable read_data ->
    forall s,
      reachable NDEBUG cs_disasm_iter read_data s ->
      vsize (instructions (rgn s)) <= INSTRUCTION_CACHE_LIMIT
      /\ in_offset_order (instructions (rgn s))
      /\ forall i, In i (instructions (rgn s)) ->
           0 < Instruction.length i <= max_bytes_per_line (rgn s)
           /\ exists c,
                In c (processed (rgn s))
                /\ InstructionRange.offset c <= Instruction.offset i
                /\ Instruction.offset i + Instruction.length i
                   <= InstructionRange.offset c + InstructionRange.length c
                /\ in_chunk_lines c (Instruction.rel_y_offset i).
Proof.
  intros NDEBUG dec read Hdec Hread Hdecs Hreads s Hreach.
  pose proof (reachable_cache_inv NDEBUG dec read Hdec Hread Hdecs Hreads s Hreach)
    as Hinv.
  split; [exact (ci_size Hinv)|]. split; [exact (li_order (ci_lookup Hinv))|].
  intros i Hi.
  destruct (cached_instruction_facts dec read Hdec Hread _ i Hinv Hi)
    as [c [Hc [Ho [Hpos [Hend [Hlines Hlong]]]]]].
  pose proof (si_widest (ci_summary Hinv)) as Hw. rewrite Forall_forall in Hw.
  specialize (Hw c Hc). cbn in Hw.
  split.
  - unfold max_bytes_per_line.
    destruct (Z.gtb_spec (longest_instruction (rgn s)) 0); lia.
  - exists c. repeat split; try assumption; unfold in_chunk_lines in Hlines; lia.
Qed.

(** X9 on the sample: after the lookup of offset 10 the cache holds the six
    instructions of the chunk. *)
Lemma cache_holds_instructions_of_chunks_witness :
  vsize (instructions
           (rgn (snd (instruction_by_offset false (Sample.decode true)
                        (Sample.buffer_read_data Sample.code15) 2 10
                        (after_check false (Sample.decode true)
                           (Sample.buffer_read_data Sample.code15)
                           (Sample.start (DisassemblyRegion_new 0 15))))))) = 6
  /\ in_offset_order
       (instructions
          (rgn (snd (instruction_by_offset false (Sample.decode true)
                       (Sample.buffer_read_data Sample.code15) 2 10
                       (after_check false (Sample.decode true)
                          (Sample.buffer_read_data Sample.code15)
                          (Sample.start (DisassemblyRegion_new 0 15))))))).
Proof.
  destruct (cache_holds_instructions_of_chunks false (Sample.decode true)
              (Sample.buffer_read_data Sample.code15)
              (sample_decoder_ok true) (sample_read_ok Sample.code15)
              (sample_decoder_stable true) (sample_read_stable Sample.code15)
              (snd (instruction_by_offset false (Sample.decode true)
                      (Sample.buffer_read_data Sample.code15) 2 10
                      (after_check false (Sample.decode true)
                         (Sample.buffer_read_data Sample.code15)
                         (Sample.start (DisassemblyRegion_new 0 15))))))
    as [_ [Hord _]].
  - apply reach_lookup. apply reach_check. apply reach_new. lia.
  - split; [vm_compute; reflexivity | exact Hord].
Defined.

(** X10.  What a lookup does, in every state that calls of [check] and of
    [instruction_by_offset] lead to, on an unchanged document.  The call
    returns; it returns [EMPTY_END] exactly for an offset outside
    [d_offset, unprocessed_offset).  Either it finds the instruction in the
    cache and changes nothing, or it reads the document once, for the span
    of the chunk that holds the offset, and changes the cache only: it
    writes nothing to stderr and leaves the chunks, the dirty set and the
    widths as they are. *)
Theorem instruction_by_offset_reads_one_chunk :
  forall NDEBUG cs_disasm_iter read_data,
    decoder_ok cs_disasm_iter -> read_ok read_data ->
    decoder_stable cs_disasm_iter -> read_stable read_data ->
    forall s abs_offset fuel,
      reachable NDEBUG cs_disasm_iter read_data s ->
      exists out s1,
        instruction_by_offset NDEBUG cs_disasm_iter read_data (S (S fuel)) abs_offset s
        = (Returned out, s1)
        /\ (out = None
            <-> ~ d_offset (rgn s) <= abs_offset < unprocessed_offset (rgn s))
        /\ rgn s1 = set_instructions (instructions (rgn s1)) (rgn s)
        /\ (s1 = s
            \/ exists c,
                 In c (processed (rgn s)) /\ in_chunk c abs_offset
                 /\ trace s1 = trace s ++ [EvRead (InstructionRange.offset c)
                                             (InstructionRange.length c)]).
Proof.
  intros NDEBUG dec read Hdec Hread Hdecs Hreads s o fuel Hreach.
  pose proof (reachable_cache_inv NDEBUG dec read Hdec Hread Hdecs Hreads s Hreach)
    as Hinv.
  destruct (Z_le_dec (d_offset (rgn s)) o) as [Hlo | Hlo];
    [destruct (Z_lt_dec o (unprocessed_offset (rgn s))) as [Hhi | Hhi]|].
  - destruct (instruction_by_offset_spec NDEBUG dec read Hdec Hread fuel o s Hinv
                (conj Hlo Hhi)) as [k [i [s1 [H1 [_ [_ [_ [Hframe Heff]]]]]]]].
    exists (Some (k, i)), s1. split; [exact H1|]. split.
    + split; [discriminate | intros Hout; exfalso; apply Hout; lia].
    + split; [exact Hframe | exact Heff].
  - assert (Hout : ~ d_offset (rgn s) <= o < unprocessed_offset (rgn s)) by lia.
    exists None, s. split.
    + apply instruction_by_offset_no_chunk.
      * apply (cached_instruction_outside dec read Hdec Hread _ _ Hinv Hout).
      * pose proof (li_region (ci_lookup Hinv)) as Hreg.
        destruct (processed_by_offset (rgn s) o) as [c|] eqn:E; [|reflexivity].
        exfalso. apply Hout.
        destruct (processed_by_offset_some _ _ _ E) as [Hin Hic].
        apply (contiguous_cover _ _ _ o (inv_chunks Hreg) (inv_nonneg Hreg)).
        exists c. split; assumption.
    + split; [split; [intros _; exact Hout | reflexivity]|].
      split; [symmetry; apply set_instructions_same | now left].
  - assert (Hout : ~ d_offset (rgn s) <= o < unprocessed_offset (rgn s)) by lia.
    exists None, s. split.
    + apply instruction_by_offset_no_chunk.
      * apply (cached_instruction_outside dec read Hdec Hread _ _ Hinv Hout).
      * pose proof (li_region (ci_lookup Hinv)) as Hreg.
        destruct (processed_by_offset (rgn s) o) as [c|] eqn:E; [|reflexivity].
        exfalso. apply Hout.
        destruct (processed_by_offset_some _ _ _ E) as [Hin Hic].
        apply (contiguous_cover _ _ _ o (inv_chunks Hreg) (inv_nonneg Hreg)).
        exists c. split; assumption.
    + split; [split; [intros _; exact Hout | reflexivity]|].
      split; [symmetry; apply set_instructions_same | now left].
Qed.

(** X10 on the sample: the first lookup of offset 10 reads the chunk of
    fifteen bytes, once. *)
Lemma instruction_by_offset_reads_one_chunk_witness :
  exists out s1,
    instruction_by_offset false (Sample.decode true)
      (Sample.buffer_read_data Sample.code15) 2 10
      (after_check false (Sample.decode true) (Sample.buffer_read_data Sample.code15)
         (Sample.start (DisassemblyRegion_new 0 15)))
    = (Returned out, s1)
    /\ trace s1 = [EvRead 0 15; EvRead 0 15].
Proof.
  destruct (instruction_by_offset_reads_one_chunk false (Sample.decode true)
              (Sample.buffer_read_data Sample.code15)
              (sample_decoder_ok true) (sample_read_ok Sample.code15)
              (sample_decoder_stable true) (sample_read_stable Sample.code15)
              (after_check false (Sample.decode true)
                 (Sample.buffer_read_data Sample.code15)
                 (Sample.start (DisassemblyRegion_new 0 15))) 10 O)
    as [out [s1 [H1 _]]].
  - apply reach_check. apply reach_new. lia.
  - exists out, s1. split; [exact H1|].
    vm_compute in H1. injection H1 as _ <-. reflexivity.
Defined.

(* ================================================================== *)
(** * The instructions of a chunk in the cache *)
(* ================================================================== *)

Lemma ordered_pairs_nth : forall (A : Type) (R : A -> A -> Prop) (v : list A) p q a b,
  ForallOrdPairs R v ->
  nth_error v p = Some a -> nth_error v q = Some b -> (p < q)%nat -> R a b.
Proof.
  intros A R v. induction v as [|x v IH]; intros p q a b H Hp Hq Hlt.
  - destruct p; discriminate.
  - inversion H as [|? ? Hx Hv]; subst.
    destruct q as [|q]; [lia|]. cbn [nth_error] in Hq.
    destruct p as [|p]; cbn [nth_error] in Hp.
    + injection Hp as <-. rewrite Forall_forall in Hx. apply Hx.
      eapply nth_error_In. exact Hq.
    + apply (IH p q a b Hv Hp Hq). lia.
Qed.

(** In a cache in offset order, the instruction at the lower offset is at
    the lower position. *)
Lemma offset_order_positions : forall v p q a b,
  in_offset_order v ->
  nth_error v p = Some a -> nth_error v q = Some b ->
  Instruction.offset a < Instruction.offset b -> (p < q)%nat.
Proof.
  intros v p q a b [Hpos Hpairs] Hp Hq Hlt.
  destruct (Nat.lt_total p q) as [H | [H | H]]; [exact H | |].
  - subst q. rewrite Hp in Hq. injection Hq as <-. lia.
  - pose proof (ordered_pairs_nth _ _ _ _ _ _ _ Hpairs Hq Hp H) as Hba. cbn in Hba.
    rewrite Forall_forall in Hpos.
    pose proof (Hpos b (nth_error_In _ _ Hq)). lia.
Qed.

(** The instructions of a chunk, once all in a cache in offset order, are
    there one after the other. *)
Lemma cache_run : forall ir l n address v k,
  in_offset_order v ->
  decoded_chain address l ->
  (forall x, In x (to_instructions ir n l) -> In x v) ->
  nth_error v k = nth_error (to_instructions ir n l) 0 ->
  forall j x,
    nth_error (to_instructions ir n l) j = Some x -> nth_error v (k + j) = Some x.
Proof.
  induction l as [|d l IH]; intros n address v k Hord Hchain Hall Hk j x Hj.
  - destruct j; discriminate.
  - destruct j as [|j].
    + rewrite Nat.add_0_r, Hk. exact Hj.
    + cbn [to_instructions nth_error] in Hj.
      destruct Hchain as [Ha [Hs Hchain]].
      destruct l as [|e l]; [destruct j; discriminate|].
      set (b0 := {| Instruction.offset := dec_address d;
                    Instruction.length := size (dec_insn d);
                    Instruction.data := dec_bytes d;
                    Instruction.disasm := snprintf_disasm (dec_insn d);
                    Instruction.rel_y_offset :=
                      InstructionRange.rel_y_offset ir + n |}) in *.
      cbn [to_instructions nth_error] in Hk. fold b0 in Hk.
      set (b1 := {| Instruction.offset := dec_address e;
                    Instruction.length := size (dec_insn e);
                    Instruction.data := dec_bytes e;
                    Instruction.disasm := snprintf_disasm (dec_insn e);
                    Instruction.rel_y_offset :=
                      InstructionRange.rel_y_offset ir + (n + 1) |}).
      assert (Hb1 : In b1 v).
      { apply Hall. cbn [to_instructions]. right. left. reflexivity. }
      destruct (In_nth_error _ _ Hb1) as [p Hp].
      pose proof Hchain as [He [Hse _]].
      assert (Hlt : (k < p)%nat).
      { apply (offset_order_positions v k p b0 b1 Hord Hk Hp). cbn. lia. }
      assert (Hp1 : p = S k).
      { destruct (Nat.eq_dec p (S k)) as [|Hne]; [assumption|]. exfalso.
        assert (Hmid : (S k < p)%nat) by lia.
        destruct (nth_error v (S k)) as [y|] eqn:Hy.
        - pose proof Hord as [Hpos Hpairs].
          pose proof (ordered_pairs_nth _ _ _ _ _ _ _ Hpairs Hk Hy (Nat.lt_succ_diag_r k))
            as H0y.
          pose proof (ordered_pairs_nth _ _ _ _ _ _ _ Hpairs Hy Hp Hmid) as Hy1.
          cbn in H0y, Hy1. rewrite Forall_forall in Hpos.
          pose proof (Hpos y (nth_error_In _ _ Hy)). lia.
        - apply nth_error_None in Hy.
          assert (p < List.length v)%nat by (apply nth_error_Some; congruence). lia. }
      subst p.
      replace (k + S j)%nat with (S k + j)%nat by lia.
      apply (IH (n + 1) _ v (S k) Hord Hchain).
      * intros y Hy. apply Hall. cbn [to_instructions]. right. exact Hy.
      * rewrite Hp. reflexivity.
      * exact Hj.
Qed.

(** An offset lies in one chunk of the list, and so does a line. *)
Lemma chunk_of_offset_unique : forall r c c' o,
  region_inv r ->
  In c (processed r) -> In c' (processed r) ->
  in_chunk c o -> in_chunk c' o -> c = c'.
Proof.
  intros r c c' o Hinv Hc Hc' Ho Ho'.
  pose proof (processed_by_offset_finds _ _ _ _ _ (inv_chunks Hinv) (inv_nonneg Hinv)
                Hc Ho) as H1.
  pose proof (processed_by_offset_finds _ _ _ _ _ (inv_chunks Hinv) (inv_nonneg Hinv)
                Hc' Ho') as H2.
  congruence.
Qed.

Lemma chunk_of_line_unique : forall r c c' line,
  region_inv r ->
  In c (processed r) -> In c' (processed r) ->
  in_chunk_lines c line -> in_chunk_lines c' line -> c = c'.
Proof.
  intros r c c' line Hinv Hc Hc' Ho Ho'.
  pose proof (processed_by_line_finds _ _ _ _ _ (inv_chunks Hinv) (inv_nonneg Hinv)
                Hc Ho) as H1.
  pose proof (processed_by_line_finds _ _ _ _ _ (inv_chunks Hinv) (inv_nonneg Hinv)
                Hc' Ho') as H2.
  congruence.
Qed.

(* ================================================================== *)
(** * Lookups by line *)
(* ================================================================== *)

Lemma assert_holds : forall NDEBUG s, assert_ NDEBUG true s = (Returned tt, s).
Proof.
  intros NDEBUG s. unfold assert_, assert_opt. destruct NDEBUG; reflexivity.
Qed.

Section LineLookup.

Variable NDEBUG : bool.
Variable cs_disasm_iter : list byte -> Z -> option cs_insn.
Variable read_data : Z -> Z -> ReadResult.
Hypothesis decoder_contract : decoder_ok cs_disasm_iter.
Hypothesis read_contract : read_ok read_data.
Hypothesis decoder_prefix : decoder_stable cs_disasm_iter.
Hypothesis read_prefix : read_stable read_data.

(** An instruction of the cache is one of the instructions that the summary
    of its chunk was made of. *)
Lemma cached_instruction_of_summary : forall r c l i o,
  cache_inv cs_disasm_iter read_data r ->
  In c (processed r) -> chunk_summary cs_disasm_iter read_data c l ->
  In i (instructions r) -> covers i o -> in_chunk c o ->
  In i (to_instructions c 0 l)
  /\ forall x, In x (to_instructions c 0 l) -> In x (instructions r).
Proof.
  intros r c l i o Hinv Hc Hl Hi Hcov Ho.
  pose proof (ci_lookup Hinv) as Hlook. pose proof (li_region Hlook) as Hreg.
  pose proof (li_from Hlook) as Hfrom.
  destruct (Hfrom i Hi) as [c' [data [batch [Hc' [Hr [Hb Hib]]]]]].
  pose proof (inv_nonneg Hreg) as Hn. unfold chunks_nonneg in Hn.
  rewrite Forall_forall in Hn. destruct (Hn c' Hc') as [Hlen _].
  destruct (chunk_instructions_inside cs_disasm_iter read_data decoder_contract
              read_contract _ _ _ Hlen Hr Hb) as [_ Hinside].
  destruct (Hinside i Hib) as [Hio [_ Hie]].
  assert (Ho' : in_chunk c' o) by (unfold in_chunk, covers in *; lia).
  pose proof (chunk_of_offset_unique _ _ _ _ Hreg Hc Hc' Ho Ho') as <-.
  pose proof (summary_batch cs_disasm_iter read_data _ _ _ _ Hl Hr Hb) as ->.
  split; [exact Hib|].
  pose proof (li_whole Hlook) as Hwhole.
  intros x Hx. apply (Hwhole c data _ i Hc Hr Hb Hib Hi x Hx).
Qed.

(** A lookup of a processed line: what it returns and what it does. *)
Lemma instruction_by_line_spec : forall fuel rel_line s,
  cache_inv cs_disasm_iter read_data (rgn s) ->
  0 <= rel_line < processed_lines (rgn s) ->
  exists c l pos x s1,
    In c (processed (rgn s)) /\ in_chunk_lines c rel_line
    /\ chunk_summary cs_disasm_iter read_data c l
    /\ nth_error (to_instructions c 0 l)
                 (Z.to_nat (rel_line - InstructionRange.rel_y_offset c)) = Some x
    /\ instruction_by_line NDEBUG cs_disasm_iter read_data (S (S fuel)) rel_line s
       = (Returned (Some (pos, x)), s1)
    /\ nth_error (instructions (rgn s1)) pos = Some x
    /\ cache_inv cs_disasm_iter read_data (rgn s1)
    /\ rgn s1 = set_instructions (instructions (rgn s1)) (rgn s)
    /\ (s1 = s
        \/ trace s1 = trace s ++ [EvRead (InstructionRange.offset c)
                                    (InstructionRange.length c)]).
Proof.
  intros fuel line s Hinv Hline.
  pose proof (ci_lookup Hinv) as Hlook. pose proof (li_region Hlook) as Hreg.
  pose proof (inv_chunks Hreg) as Hch. pose proof (inv_nonneg Hreg) as Hn.
  destruct (proj2 (contiguous_line_cover _ _ _ line Hch Hn)) as [c [Hc Hcl]].
  { exact Hline. }
  pose proof (processed_by_line_finds _ _ _ _ _ Hch Hn Hc Hcl) as Hfind.
  pose proof (si_chunks (ci_summary Hinv)) as Hsum. rewrite Forall_forall in Hsum.
  destruct (Hsum c Hc) as [l Hl].
  pose proof Hl as [data0 [Hr0 [Hl0 [Hchain [Htot [Hlines _]]]]]].
  destruct (contiguous_in _ _ _ c Hch Hn Hc) as [_ [Hrel _]].
  unfold in_chunk_lines in Hcl.
  set (j := Z.to_nat (line - InstructionRange.rel_y_offset c)).
  assert (Hj : (j < List.length l)%nat) by (unfold vsize in Hlines; lia).
  destruct (nth_error (to_instructions c 0 l) j) as [x|] eqn:Hx.
  2:{ apply nth_error_None in Hx.
      pose proof (to_instructions_size c l 0) as Hsz. unfold vsize in Hsz. lia. }
  destruct l as [|d l']; [simpl in Hj; lia|].
  pose proof Hchain as [Hd [Hds Hchain']].
  pose proof (decoded_chain_total_nonneg _ _ Hchain') as Hrest.
  assert (Hlen : 0 < InstructionRange.length c).
  { rewrite <- Htot. unfold total_size in *. cbn [fold_right dec_insn]. lia. }
  assert (Ho : d_offset (rgn s) <= InstructionRange.offset c
                                < unprocessed_offset (rgn s)).
  { destruct (contiguous_in _ _ _ c Hch Hn Hc) as [Hb [_ [He _]]].
    change (chunks_end (d_offset (rgn s)) (processed (rgn s)))
      with (unprocessed_offset (rgn s)) in He. lia. }
  destruct (instruction_by_offset_spec NDEBUG cs_disasm_iter read_data decoder_contract
              read_contract fuel (InstructionRange.offset c) s Hinv Ho)
    as [k [i [s1 [H1 [Hcov [Hk [Hinv1 [Hframe Heff]]]]]]]].
  assert (Hc1 : In c (processed (rgn s1))) by (rewrite Hframe; exact Hc).
  assert (Hic : in_chunk c (InstructionRange.offset c)) by (unfold in_chunk; lia).
  destruct (cached_instruction_of_summary (rgn s1) c (d :: l') i
              (InstructionRange.offset c) Hinv1 Hc1 Hl (nth_error_In _ _ Hk) Hcov Hic)
    as [Hib Hall].
  (* the instruction found is the first of the batch *)
  assert (Hfirst : nth_error (instructions (rgn s1)) k
                   = nth_error (to_instructions c 0 (d :: l')) 0).
  { rewrite Hk. cbn [to_instructions nth_error]. f_equal.
    set (b0 := {| Instruction.offset := dec_address d;
                  Instruction.length := size (dec_insn d);
                  Instruction.data := dec_bytes d;
                  Instruction.disasm := snprintf_disasm (dec_insn d);
                  Instruction.rel_y_offset := InstructionRange.rel_y_offset c + 0 |}).
    assert (Hb0 : In b0 (instructions (rgn s1))).
    { apply Hall. cbn [to_instructions]. left. reflexivity. }
    assert (Hcov0 : covers b0 (InstructionRange.offset c)) by (unfold covers; cbn; lia).
    destruct (cached_instruction_finds_in_order (rgn s1) (InstructionRange.offset c) b0
                (li_order (ci_lookup Hinv1)) Hb0 Hcov0) as [k0 Hk0].
    destruct (instruction_by_offset_result _ _ _ _ _ _ _ _ H1) as [Hres _].
    congruence. }
  pose proof (cache_run c (d :: l') 0 _ (instructions (rgn s1)) k
                (li_order (ci_lookup Hinv1)) Hchain Hall Hfirst j x Hx) as Hrun.
  assert (Hbound : (k + j < List.length (instructions (rgn s1)))%nat)
    by (apply nth_error_Some; congruence).
  exists c, (d :: l'), (k + j)%nat, x, s1.
  split; [exact Hc|]. split; [exact Hcl|]. split; [exact Hl|]. split; [exact Hx|].
  split.
  { unfold instruction_by_line, get_region, ret, bind at 1. rewrite Hfind.
    assert (E1 : (line - InstructionRange.rel_y_offset c >=? 0) = true)
      by (apply Z.geb_le; lia).
    assert (E2 : (line - InstructionRange.rel_y_offset c
                  <? InstructionRange.rel_y_offset c + InstructionRange.y_lines c) = true)
      by (apply Z.ltb_lt; lia).
    rewrite E1, E2. unfold bind at 1. rewrite assert_holds.
    unfold bind at 1. rewrite assert_holds.
    unfold bind at 1. rewrite H1.
    unfold bind at 1.
    assert (E3 : (vsize (instructions (rgn s1)) - Z.of_nat k
                  >? line - InstructionRange.rel_y_offset c) = true).
    { apply Z.gtb_lt. unfold vsize. lia. }
    rewrite E3. unfold bind. rewrite assert_holds.
    unfold iterator_next.
    assert (E4 : ((0 <=? Z.of_nat k + (line - InstructionRange.rel_y_offset c))
                  && (Z.of_nat k + (line - InstructionRange.rel_y_offset c)
                      <=? vsize (instructions (rgn s1))))%bool = true).
    { apply andb_true_intro. split; [apply Z.leb_le | apply Z.leb_le; unfold vsize]; lia. }
    rewrite E4.
    replace (Z.to_nat (Z.of_nat k + (line - InstructionRange.rel_y_offset c)))
      with (k + j)%nat by lia.
    rewrite Hrun. reflexivity. }
  split; [exact Hrun|]. split; [exact Hinv1|]. split; [exact Hframe|].
  destruct Heff as [-> | [c' [Hc' [Hic' Ht]]]]; [now left|].
  right. pose proof (chunk_of_offset_unique _ _ _ _ Hreg Hc Hc' Hic Hic') as <-.
  exact Ht.
Qed.

(** A line outside the processed ones: the lookup returns [EMPTY_END]. *)
Lemma instruction_by_line_outside : forall fuel rel_line s,
  region_inv (rgn s) ->
  ~ 0 <= rel_line < processed_lines (rgn s) ->
  instruction_by_line NDEBUG cs_disasm_iter read_data fuel rel_line s
  = (Returned None, s).
Proof.
  intros fuel line s Hreg Hout.
  unfold instruction_by_line, get_region, ret, bind.
  destruct (processed_by_line (rgn s) line) as [c|] eqn:E; [|reflexivity].
  exfalso. apply Hout.
  destruct (processed_by_line_some _ _ _ E) as [Hc Hcl].
  apply (contiguous_line_cover _ _ _ line (inv_chunks Hreg) (inv_nonneg Hreg)).
  exists c. split; assumption.
Qed.

End LineLookup.

(** An instruction is at one position of a cache in offset order. *)
Lemma offset_order_position_unique : forall v p q a,
  in_offset_order v ->
  nth_error v p = Some a -> nth_error v q = Some a -> p = q.
Proof.
  intros v p q a [Hpos Hpairs] Hp Hq.
  rewrite Forall_forall in Hpos. pose proof (Hpos a (nth_error_In _ _ Hp)) as Ha.
  destruct (Nat.lt_total p q) as [H | [H | H]]; [| exact H |].
  - pose proof (ordered_pairs_nth _ _ _ _ _ _ _ Hpairs Hp Hq H) as Haa. cbn in Haa. lia.
  - pose proof (ordered_pairs_nth _ _ _ _ _ _ _ Hpairs Hq Hp H) as Haa. cbn in Haa. lia.
Qed.

(** X11.  In every state that calls of [check] and of
    [instruction_by_offset] lead to, on an unchanged document,
    [instruction_by_line] returns [EMPTY_END] for a line outside
    [0, processed_lines), and for a line inside it the instruction of that
    line: its [rel_y_offset] is the line, it lies in the chunk that holds
    the line, and a lookup by its offset finds the same instruction at the
    same position of the cache.  The call changes the cache only. *)
Theorem instruction_by_line_finds_the_line :
  forall NDEBUG cs_disasm_iter read_data,
    decoder_ok cs_disasm_iter -> read_ok read_data ->
    decoder_stable cs_disasm_iter -> read_stable read_data ->
    forall s rel_line fuel,
      reachable NDEBUG cs_disasm_iter read_data s ->
      (~ 0 <= rel_line < processed_lines (rgn s) ->
       instruction_by_line NDEBUG cs_disasm_iter read_data (S (S fuel)) rel_line s
       = (Returned None, s))
      /\ (0 <= rel_line < processed_lines (rgn s) ->
          exists pos i s1,
            instruction_by_line NDEBUG cs_disasm_iter read_data (S (S fuel)) rel_line s
            = (Returned (Some (pos, i)), s1)
            /\ Instruction.rel_y_offset i = rel_line
            /\ (exists c,
                   In c (processed (rgn s)) /\ in_chunk_lines c rel_line
                   /\ InstructionRange.offset c <= Instruction.offset i
                   /\ Instruction.offset i + Instruction.length i
                      <= InstructionRange.offset c + InstructionRange.length c)
            /\ rgn s1 = set_instructions (instructions (rgn s1)) (rgn s)
            /\ forall fuel2,
                 instruction_by_offset NDEBUG cs_disasm_iter read_data (S fuel2)
                                       (Instruction.offset i) s1
                 = (Returned (Some (pos, i)), s1)).
Proof.
  intros NDEBUG dec read Hdec Hread Hdecs Hreads s line fuel Hreach.
  pose proof (reachable_cache_inv NDEBUG dec read Hdec Hread Hdecs Hreads s Hreach)
    as Hinv.
  split.
  - intros Hout. apply instruction_by_line_outside; [|exact Hout].
    exact (li_region (ci_lookup Hinv)).
  - intros Hline.
    destruct (instruction_by_line_spec NDEBUG dec read Hdec Hread fuel line s Hinv Hline)
      as [c [l [pos [x [s1 [Hc [Hcl [Hl [Hx [H1 [Hpos [Hinv1 [Hframe _]]]]]]]]]]]]].
    exists pos, x, s1. split; [exact H1|].
    destruct (to_instructions_nth _ _ _ _ _ Hx) as [d [_ [_ [_ Hy]]]].
    unfold in_chunk_lines in Hcl.
    split; [rewrite Hy; lia|].
    pose proof (nth_error_In _ _ Hpos) as Hin.
    destruct (cached_instruction_facts dec read Hdec Hread _ x Hinv1 Hin)
      as [c' [Hc' [Ho [Hlen [Hend [Hlines' _]]]]]].
    split.
    { exists c. split; [exact Hc|]. split; [exact Hcl|].
      assert (Hcc : c = c').
      { apply (chunk_of_line_unique (rgn s1) c c' (Instruction.rel_y_offset x)).
        - exact (li_region (ci_lookup Hinv1)).
        - rewrite Hframe. exact Hc.
        - exact Hc'.
        - unfold in_chunk_lines. rewrite Hy. lia.
        - exact Hlines'. }
      subst c'. split; assumption. }
    split; [exact Hframe|].
    intros fuel2.
    assert (Hcov : covers x (Instruction.offset x)) by (unfold covers; lia).
    destruct (cached_instruction_finds_in_order (rgn s1) (Instruction.offset x) x
                (li_order (ci_lookup Hinv1)) Hin Hcov) as [k Hk].
    destruct (cached_instruction_some _ _ _ _ Hk) as [Hkn _].
    pose proof (offset_order_position_unique _ _ _ _ (li_order (ci_lookup Hinv1)) Hkn Hpos)
      as ->.
    cbn [instruction_by_offset]. unfold get_region, ret, bind. rewrite Hk. reflexivity.
Qed.

(** X11 on the sample: line 5 of the fifteen bytes is the [mov] at offset
    10. *)
Lemma instruction_by_line_finds_the_line_witness :
  exists pos i s1,
    instruction_by_line false (Sample.decode true)
      (Sample.buffer_read_data Sample.code15) 2 5
      (after_check false (Sample.decode true) (Sample.buffer_read_data Sample.code15)
         (Sample.start (DisassemblyRegion_new 0 15)))
    = (Returned (Some (pos, i)), s1)
    /\ Instruction.rel_y_offset i = 5
    /\ Instruction.offset i = 10.
Proof.
  destruct (instruction_by_line_finds_the_line false (Sample.decode true)
              (Sample.buffer_read_data Sample.code15)
              (sample_decoder_ok true) (sample_read_ok Sample.code15)
              (sample_decoder_stable true) (sample_read_stable Sample.code15)
              (after_check false (Sample.decode true)
                 (Sample.buffer_read_data Sample.code15)
                 (Sample.start (DisassemblyRegion_new 0 15))) 5 O)
    as [_ Hin].
  - apply reach_check. apply reach_new. lia.
  - destruct Hin as [pos [i [s1 [H1 [Hy _]]]]].
    + vm_compute. split; [discriminate | reflexivity].
    + exists pos, i, s1. split; [exact H1|]. split; [exact Hy|].
      vm_compute in H1. injection H1 as _ <- _. reflexivity.
Defined.

(* ================================================================== *)
(** * Columns and rows *)
(* ================================================================== *)

Lemma to_int_small : forall v, -2147483648 <= v < 2147483648 -> to_int v = v.
Proof.
  intros v Hv. unfold to_int.
  rewrite Z.mod_small by lia. lia.
Qed.

Lemma chunk_summary_unique : forall cs_disasm_iter read_data c l l',
  chunk_summary cs_disasm_iter read_data c l ->
  chunk_summary cs_disasm_iter read_data c l' -> l = l'.
Proof.
  intros dec read c l l' [data [Hr [Hl _]]] [data' [Hr' [Hl' _]]].
  rewrite Hr in Hr'. injection Hr' as <-. congruence.
Qed.

(** The state that [instruction_by_line] leaves is the state that its
    lookup by offset leaves. *)
Lemma instruction_by_line_state :
  forall NDEBUG cs_disasm_iter read_data fuel rel_line s out s1,
    instruction_by_line NDEBUG cs_disasm_iter read_data fuel rel_line s = (out, s1) ->
    s1 = s
    \/ exists c,
         processed_by_line (rgn s) rel_line = Some c
         /\ s1 = snd (instruction_by_offset NDEBUG cs_disasm_iter read_data fuel
                        (InstructionRange.offset c) s).
Proof.
  intros NDEBUG dec read fuel line s out s1 H.
  unfold instruction_by_line, get_region, bind at 1 in H.
  destruct (processed_by_line (rgn s) line) as [c|]; [|injection H as _ <-; now left].
  unfold bind at 1 in H. unfold assert_ at 1, assert_opt at 1 in H.
  destruct NDEBUG eqn:EN.
  - unfold bind at 1 in H. unfold assert_ at 1, assert_opt at 1 in H.
    unfold bind at 1 in H.
    destruct (instruction_by_offset true dec read fuel (InstructionRange.offset c) s)
      as [o' s'] eqn:E.
    right. exists c. split; [reflexivity|]. rewrite E. cbn [snd].
    destruct o' as [[[k i]|]| | | |]; try (injection H as _ <-; reflexivity).
    unfold get_region, bind, assert_, assert_opt, undefined, ret in H.
    destruct (iterator_next _ _ _); [|injection H as _ <-; reflexivity].
    destruct (nth_error _ _); injection H as _ <-; reflexivity.
  - destruct (line - InstructionRange.rel_y_offset c >=? 0);
      [|injection H as _ <-; now left].
    unfold bind at 1 in H. unfold assert_ at 1, assert_opt at 1 in H.
    destruct (line - InstructionRange.rel_y_offset c
              <? InstructionRange.rel_y_offset c + InstructionRange.y_lines c);
      [|injection H as _ <-; now left].
    unfold bind at 1 in H.
    destruct (instruction_by_offset false dec read fuel (InstructionRange.offset c) s)
      as [o' s'] eqn:E.
    right. exists c. split; [reflexivity|]. rewrite E. cbn [snd].
    destruct o' as [[[k i]|]| | | |]; try (injection H as _ <-; reflexivity).
    unfold get_region, bind, assert_, assert_opt, undefined, ret in H.
    destruct (_ >? _); [|injection H as _ <-; reflexivity].
    destruct (iterator_next _ _ _); [|injection H as _ <-; reflexivity].
    destruct (nth_error _ _); injection H as _ <-; reflexivity.
Qed.

(** A lookup of an offset that an instruction of the cache covers finds
    that instruction and changes nothing. *)
Lemma instruction_by_offset_hit :
  forall NDEBUG cs_disasm_iter read_data fuel s abs_offset i,
    in_offset_order (instructions (rgn s)) ->
    In i (instructions (rgn s)) -> covers i abs_offset ->
    exists k,
      nth_error (instructions (rgn s)) k = Some i
      /\ instruction_by_offset NDEBUG cs_disasm_iter read_data (S fuel) abs_offset s
         = (Returned (Some (k, i)), s).
Proof.
  intros NDEBUG dec read fuel s o i Hord Hi Hcov.
  destruct (cached_instruction_finds_in_order (rgn s) o i Hord Hi Hcov) as [k Hk].
  destruct (cached_instruction_some _ _ _ _ Hk) as [Hn _].
  exists k. split; [exact Hn|].
  cbn [instruction_by_offset]. unfold get_region, ret, bind. rewrite Hk. reflexivity.
Qed.

Section ColumnsRows.

Variable NDEBUG : bool.
Variable cs_disasm_iter : list byte -> Z -> option cs_insn.
Variable read_data : Z -> Z -> ReadResult.
Hypothesis decoder_contract : decoder_ok cs_disasm_iter.
Hypothesis read_contract : read_ok read_data.
Hypothesis decoder_prefix : decoder_stable cs_disasm_iter.
Hypothesis read_prefix : read_stable read_data.

(** The line of an instruction of the cache is a processed line. *)
Lemma cached_instruction_line : forall r i,
  cache_inv cs_disasm_iter read_data r ->
  In i (instructions r) ->
  0 <= Instruction.rel_y_offset i < processed_lines r
  /\ d_offset r <= Instruction.offset i
  /\ Instruction.offset i + Instruction.length i <= unprocessed_offset r
  /\ 0 < Instruction.length i <= max_bytes_per_line r.
Proof.
  intros r i Hinv Hi.
  destruct (cached_instruction_facts cs_disasm_iter read_data decoder_contract
              read_contract r i Hinv Hi) as [c [Hc [Ho [Hpos [Hend [Hlines Hlong]]]]]].
  pose proof (li_region (ci_lookup Hinv)) as Hreg.
  destruct (contiguous_in _ _ _ c (inv_chunks Hreg) (inv_nonneg Hreg) Hc)
    as [Hb [Hl [He Hle]]].
  change (chunks_end (d_offset r) (processed r)) with (unprocessed_offset r) in He.
  change (lines_end 0 (processed r)) with (processed_lines r) in Hle.
  pose proof (si_widest (ci_summary Hinv)) as Hw. rewrite Forall_forall in Hw.
  specialize (Hw c Hc). cbn in Hw.
  unfold in_chunk_lines in Hlines.
  split; [lia|]. split; [lia|]. split; [lia|].
  unfold max_bytes_per_line. destruct (Z.gtb_spec (longest_instruction r) 0); lia.
Qed.

(** A lookup of the line of an instruction of the cache finds that
    instruction and changes nothing. *)
Lemma instruction_by_line_hit : forall fuel s i,
  cache_inv cs_disasm_iter read_data (rgn s) ->
  In i (instructions (rgn s)) ->
  exists k,
    instruction_by_line NDEBUG cs_disasm_iter read_data (S (S fuel))
                        (Instruction.rel_y_offset i) s
    = (Returned (Some (k, i)), s).
Proof.
  intros fuel s i Hinv Hi.
  destruct (cached_instruction_line _ _ Hinv Hi) as [Hline [Hlo [Hhi Hlen]]].
  destruct (instruction_by_line_spec NDEBUG cs_disasm_iter read_data decoder_contract
              read_contract fuel _ s Hinv Hline)
    as [c [l [pos [x [s1 [Hc [Hcl [Hl [Hx [H1 _]]]]]]]]]].
  pose proof (li_region (ci_lookup Hinv)) as Hreg.
  (* the chunk of [i] is the chunk of its line *)
  destruct (cached_instruction_facts cs_disasm_iter read_data decoder_contract
              read_contract _ i Hinv Hi) as [c' [Hc' [Ho' [_ [Hend' [Hlines' _]]]]]].
  pose proof (chunk_of_line_unique _ _ _ _ Hreg Hc Hc' Hcl Hlines') as <-.
  assert (Hcov : covers i (Instruction.offset i)) by (unfold covers; lia).
  assert (Hic : in_chunk c (Instruction.offset i)) by (unfold in_chunk; lia).
  destruct (cached_instruction_of_summary cs_disasm_iter read_data decoder_contract
              read_contract (rgn s) c l i _ Hinv Hc Hl Hi Hcov Hic) as [Hib Hall].
  (* [i] and [x] are at the same place of the batch *)
  destruct (In_nth_error _ _ Hib) as [j Hj].
  destruct (to_instructions_nth _ _ _ _ _ Hj) as [_ [_ [_ [_ Hyj]]]].
  assert (Hjx : j = Z.to_nat (Instruction.rel_y_offset i
                              - InstructionRange.rel_y_offset c)) by lia.
  rewrite <- Hjx in Hx. rewrite Hj in Hx. injection Hx as <-.
  (* the lookup by offset hits the cache *)
  assert (Hs1 : s1 = s).
  { destruct (instruction_by_line_state _ _ _ _ _ _ _ _ H1) as [-> | [c2 [Hc2 ->]]];
      [reflexivity|].
    destruct (processed_by_line_some _ _ _ Hc2) as [Hc2in Hc2l].
    pose proof (chunk_of_line_unique _ _ _ _ Hreg Hc Hc2in Hcl Hc2l) as <-.
    destruct l as [|d l']; [contradiction|].
    pose proof Hl as [_ [_ [_ [Hchain _]]]]. destruct Hchain as [Hd [Hds _]].
    set (b0 := {| Instruction.offset := dec_address d;
                  Instruction.length := size (dec_insn d);
                  Instruction.data := dec_bytes d;
                  Instruction.disasm := snprintf_disasm (dec_insn d);
                  Instruction.rel_y_offset := InstructionRange.rel_y_offset c + 0 |}).
    assert (Hb0 : In b0 (instructions (rgn s))).
    { apply Hall. cbn [to_instructions]. left. reflexivity. }
    assert (Hcov0 : covers b0 (InstructionRange.offset c)) by (unfold covers; cbn; lia).
    destruct (instruction_by_offset_hit NDEBUG cs_disasm_iter read_data (S fuel) s
                (InstructionRange.offset c) b0 (li_order (ci_lookup Hinv)) Hb0 Hcov0)
      as [k0 [_ Hhit]].
    rewrite Hhit. reflexivity. }
  subst s1. exists pos. exact H1.
Qed.

End ColumnsRows.

(** X12.  The column and the line of an offset lead back to the offset.  In
    every state that calls of [check] and of [instruction_by_offset] lead
    to, on an unchanged document, for an offset of the region:
    [cursor_column] returns a column from 0 to [max_bytes_per_line] - 1;
    [calc_offset_bounds] gives a rectangle one line high, on a line of the
    region; and [nth_row_nearest_column] for that line and that column
    returns the offset.  After the first call the other two change
    nothing. *)
Theorem column_and_row_lead_back_to_offset :
  forall NDEBUG cs_disasm_iter read_data layout bytes_per_group hf_string_width,
    decoder_ok cs_disasm_iter -> read_ok read_data ->
    decoder_stable cs_disasm_iter -> read_stable read_data ->
    bytes_per_group <> 0 ->
    forall s pos fuel,
      reachable NDEBUG cs_disasm_iter read_data s ->
      d_offset (rgn s) <= pos < d_offset (rgn s) + d_length (rgn s) ->
      exists column bounds s1,
        cursor_column NDEBUG cs_disasm_iter read_data (S (S fuel)) pos s
        = (Returned column, s1)
        /\ 0 <= column < max_bytes_per_line (rgn s)
        /\ calc_offset_bounds NDEBUG cs_disasm_iter read_data layout bytes_per_group
                              hf_string_width (S (S fuel)) pos s1
           = (Returned bounds, s1)
        /\ rect_h bounds = 1
        /\ 0 <= rect_y bounds - y_offset layout
        /\ nth_row_nearest_column NDEBUG cs_disasm_iter read_data (S (S fuel))
                                  (rect_y bounds - y_offset layout) column s1
           = (Returned pos, s1).
Proof.
  intros NDEBUG dec read layout bpg hf Hdec Hread Hdecs Hreads Hbpg s pos fuel
         Hreach Hpos.
  pose proof (reachable_cache_inv NDEBUG dec read Hdec Hread Hdecs Hreads s Hreach)
    as Hinv.
  pose proof (li_region (ci_lookup Hinv)) as Hreg.
  pose proof (si_limit (ci_summary Hinv)) as Hlim.
  assert (Hbpg' : (bpg =? 0) = false) by (apply Z.eqb_neq; exact Hbpg).
  assert (Hrange : d_offset (rgn s) <= pos <= d_offset (rgn s) + d_length (rgn s))
    by lia.
  destruct (Z_lt_le_dec pos (unprocessed_offset (rgn s))) as [Hproc | Hup].
  - (* the offset is in the disassembly *)
    destruct (instruction_by_offset_spec NDEBUG dec read Hdec Hread fuel pos s Hinv
                (conj (proj1 Hpos) Hproc))
      as [k [i [s1 [H1 [Hcov [Hk [Hinv1 [Hframe _]]]]]]]].
    pose proof (nth_error_In _ _ Hk) as Hi.
    destruct (cached_instruction_line dec read Hdec Hread _ _ Hinv1 Hi)
      as [Hline [_ [_ Hlen]]].
    assert (Hsame : unprocessed_offset (rgn s1) = unprocessed_offset (rgn s)
                    /\ processed_lines (rgn s1) = processed_lines (rgn s)
                    /\ max_bytes_per_line (rgn s1) = max_bytes_per_line (rgn s)
                    /\ d_offset (rgn s1) = d_offset (rgn s)
                    /\ d_length (rgn s1) = d_length (rgn s))
      by (rewrite Hframe; repeat split; reflexivity).
    destruct Hsame as [Hup1 [Hpl1 [Hmb1 [Hdo1 Hdl1]]]].
    unfold covers in Hcov.
    assert (Hmax : max_bytes_per_line (rgn s) <= SOFT_IR_LIMIT).
    { unfold max_bytes_per_line.
      destruct (Z.gtb_spec (longest_instruction (rgn s)) 0); unfold SOFT_IR_LIMIT in *; lia. }
    exists (pos - Instruction.offset i),
      {| rect_x := hex_text_x layout
                   + hf (to_int ((pos - Instruction.offset i) * 2
                                 + Z.quot (pos - Instruction.offset i) bpg));
         rect_y := y_offset layout + Instruction.rel_y_offset i;
         rect_w := hf 2; rect_h := 1 |}, s1.
    assert (E1 : (Instruction.offset i <=? pos) = true) by (apply Z.leb_le; lia).
    assert (E2 : (Instruction.offset i + Instruction.length i >? pos) = true)
      by (apply Z.gtb_lt; lia).
    split.
    { unfold cursor_column. unfold bind at 1.
      rewrite (assert_pos_in_region_ok NDEBUG s pos Hrange).
      unfold get_region, bind at 1.
      destruct (Z.ltb_spec pos (unprocessed_offset (rgn s))); [|lia].
      unfold bind at 1. rewrite H1.
      rewrite E1, E2. unfold bind at 1. rewrite assert_holds.
      unfold bind. rewrite assert_holds. unfold ret.
      rewrite to_int_small; [reflexivity|]. unfold SOFT_IR_LIMIT in *. lia. }
    split; [rewrite <- Hmb1; lia|].
    destruct (instruction_by_offset_hit NDEBUG dec read (S fuel) s1 pos i
                (li_order (ci_lookup Hinv1)) Hi (conj (proj1 Hcov) (proj2 Hcov)))
      as [k' [Hk' Hhit]].
    split.
    { unfold calc_offset_bounds, get_region, bind at 1. rewrite Hup1.
      destruct (Z.ltb_spec pos (unprocessed_offset (rgn s))); [|lia].
      unfold bind at 1. rewrite Hhit.
      rewrite E1, E2. unfold bind at 1. rewrite assert_holds.
      unfold bind. rewrite assert_holds. rewrite Hbpg'. reflexivity. }
    split; [reflexivity|]. cbn [rect_y].
    split; [lia|].
    replace (y_offset layout + Instruction.rel_y_offset i - y_offset layout)
      with (Instruction.rel_y_offset i) by lia.
    destruct (instruction_by_line_hit NDEBUG dec read Hdec Hread fuel s1 i Hinv1 Hi)
      as [kl Hl].
    unfold nth_row_nearest_column, get_region, bind at 1.
    fold (processed_lines (rgn s1)). rewrite Hpl1.
    destruct (Z.ltb_spec (Instruction.rel_y_offset i) (processed_lines (rgn s))); [|lia].
    unfold bind. rewrite Hl. unfold ret. f_equal. f_equal. lia.
  - (* the offset is in the unprocessed bytes *)
    pose proof (max_bytes_per_line_pos (rgn s)) as Hm.
    assert (Hmax : max_bytes_per_line (rgn s) <= SOFT_IR_LIMIT).
    { unfold max_bytes_per_line.
      destruct (Z.gtb_spec (longest_instruction (rgn s)) 0); unfold SOFT_IR_LIMIT in *; lia. }
    set (m := max_bytes_per_line (rgn s)) in *.
    set (w := pos - unprocessed_offset (rgn s)) in *.
    assert (Hw : 0 <= w) by (unfold w; lia).
    pose proof (Z.rem_bound_pos w m Hw Hm) as Hrem.
    pose proof (Z.quot_rem' w m) as Hqr.
    assert (Hq : 0 <= Z.quot w m) by (apply Z.quot_pos; lia).
    destruct (region_inv_accounts _ Hreg) as [_ [_ [Hlines _]]].
    assert (Hpl : 0 <= processed_lines (rgn s)).
    { destruct (contiguous_ends _ _ _ (inv_chunks Hreg) (inv_nonneg Hreg))
        as [_ [Hl _]]. exact Hl. }
    exists (Z.rem w m),
      {| rect_x := hex_text_x layout
                   + hf (to_int (Z.rem w m * 2 + Z.quot (Z.rem w m) bpg));
         rect_y := y_offset layout + processed_lines (rgn s) + Z.quot w m;
         rect_w := hf 2; rect_h := 1 |}, s.
    split.
    { unfold cursor_column. unfold bind at 1.
      rewrite (assert_pos_in_region_ok NDEBUG s pos Hrange).
      unfold get_region, bind.
      destruct (Z.ltb_spec pos (unprocessed_offset (rgn s))); [lia|].
      unfold ret. fold w m.
      rewrite to_int_small; [reflexivity|]. unfold SOFT_IR_LIMIT in *. lia. }
    split; [lia|].
    split.
    { unfold calc_offset_bounds, get_region, bind.
      destruct (Z.ltb_spec pos (unprocessed_offset (rgn s))); [lia|].
      rewrite Hbpg'. reflexivity. }
    split; [reflexivity|]. cbn [rect_y].
    split; [lia|].
    unfold nth_row_nearest_column, get_region, bind.
    fold (processed_lines (rgn s)).
    destruct (Z.ltb_spec (y_offset layout + processed_lines (rgn s) + Z.quot w m
                          - y_offset layout) (processed_lines (rgn s))); [lia|].
    unfold ret. f_equal. f_equal. fold m. unfold w in *. nia.
Qed.

(** X12 on the sample: offset 12 of the fifteen bytes is byte 2 of the
    [mov] on line 5. *)
Lemma column_and_row_lead_back_to_offset_witness :
  exists bounds s1,
    cursor_column false (Sample.decode true) (Sample.buffer_read_data Sample.code15)
      2 12
      (after_check false (Sample.decode true) (Sample.buffer_read_data Sample.code15)
         (Sample.start (DisassemblyRegion_new 0 15)))
    = (Returned 2, s1)
    /\ calc_offset_bounds false (Sample.decode true)
         (Sample.buffer_read_data Sample.code15)
         {| y_offset := 100; hex_text_x := 40 |} 4 (fun n => n * 8) 2 12 s1
       = (Returned bounds, s1)
    /\ rect_y bounds = 105
    /\ nth_row_nearest_column false (Sample.decode true)
         (Sample.buffer_read_data Sample.code15) 2 (rect_y bounds - 100) 2 s1
       = (Returned 12, s1).
Proof.
  destruct (column_and_row_lead_back_to_offset false (Sample.decode true)
              (Sample.buffer_read_data Sample.code15)
              {| y_offset := 100; hex_text_x := 40 |} 4 (fun n => n * 8)
              (sample_decoder_ok true) (sample_read_ok Sample.code15)
              (sample_decoder_stable true) (sample_read_stable Sample.code15)
              ltac:(discriminate)
              (after_check false (Sample.decode true)
                 (Sample.buffer_read_data Sample.code15)
                 (Sample.start (DisassemblyRegion_new 0 15))) 12 O)
    as [column [bounds [s1 [Hcol [_ [Hb [_ [_ Hrow]]]]]]]].
  - apply reach_check. apply reach_new. lia.
  - vm_compute. split; [discriminate | reflexivity].
  - assert (Hc : column = 2).
    { vm_compute in Hcol. injection Hcol as <- _. reflexivity. }
    subst column.
    exists bounds, s1. split; [exact Hcol|]. split; [exact Hb|]. split; [|exact Hrow].
    assert (Hs1 : s1 = snd (cursor_column false (Sample.decode true)
                              (Sample.buffer_read_data Sample.code15) 2 12
                              (after_check false (Sample.decode true)
                                 (Sample.buffer_read_data Sample.code15)
                                 (Sample.start (DisassemblyRegion_new 0 15)))))
      by (rewrite Hcol; reflexivity).
    rewrite Hs1 in Hb. vm_compute in Hb. injection Hb as <-. reflexivity.
Defined.

(* ================================================================== *)
(** * The instructions of the region *)
(* ================================================================== *)

Lemma region_instruction_frame : forall cs_disasm_iter read_data r v i,
  region_instruction cs_disasm_iter read_data r i
  <-> region_instruction cs_disasm_iter read_data (set_instructions v r) i.
Proof.
  intros dec read r v i. unfold region_instruction. cbn [processed set_instructions].
  reflexivity.
Qed.

Section RegionInstructions.

Variable NDEBUG : bool.
Variable cs_disasm_iter : list byte -> Z -> option cs_insn.
Variable read_data : Z -> Z -> ReadResult.
Hypothesis decoder_contract : decoder_ok cs_disasm_iter.
Hypothesis read_contract : read_ok read_data.
Hypothesis decoder_prefix : decoder_stable cs_disasm_iter.
Hypothesis read_prefix : read_stable read_data.

(** Where an instruction of the region lies. *)
Lemma region_instruction_facts : forall r i,
  region_inv r -> summary_inv cs_disasm_iter read_data r ->
  region_instruction cs_disasm_iter read_data r i ->
  0 < Instruction.length i <= max_bytes_per_line r
  /\ d_offset r <= Instruction.offset i
  /\ Instruction.offset i + Instruction.length i <= unprocessed_offset r
  /\ 0 <= Instruction.rel_y_offset i < processed_lines r.
Proof.
  intros r i Hreg Hsum [c [l [Hc [Hl Hi]]]].
  pose proof Hl as [data [Hr [Hlist [Hchain [Htot [Hlines [Hall _]]]]]]].
  destruct (to_instructions_bounds c l 0 _ i Hchain Hi) as [Ho [Hpos Hend]].
  destruct (to_instructions_in _ _ _ _ Hi) as [d [Hd [Hsize Hy]]].
  rewrite Forall_forall in Hall. specialize (Hall d Hd). cbn in Hall.
  destruct (contiguous_in _ _ _ c (inv_chunks Hreg) (inv_nonneg Hreg) Hc)
    as [Hb [Hlb [He Hle]]].
  change (chunks_end (d_offset r) (processed r)) with (unprocessed_offset r) in He.
  change (lines_end 0 (processed r)) with (processed_lines r) in Hle.
  pose proof (si_widest Hsum) as Hw. rewrite Forall_forall in Hw.
  specialize (Hw c Hc). cbn in Hw.
  split.
  { unfold max_bytes_per_line. destruct (Z.gtb_spec (longest_instruction r) 0); lia. }
  split; [lia|]. split; lia.
Qed.

(** One instruction of the region covers an offset. *)
Lemma region_instruction_unique : forall r i i' o,
  region_inv r ->
  region_instruction cs_disasm_iter read_data r i ->
  region_instruction cs_disasm_iter read_data r i' ->
  covers i o -> covers i' o -> i = i'.
Proof.
  intros r i i' o Hreg [c [l [Hc [Hl Hi]]]] [c' [l' [Hc' [Hl' Hi']]]] Hcov Hcov'.
  pose proof Hl as [_ [_ [_ [Hchain [Htot _]]]]].
  pose proof Hl' as [_ [_ [_ [Hchain' [Htot' _]]]]].
  destruct (to_instructions_bounds c l 0 _ i Hchain Hi) as [Ho [_ Hend]].
  destruct (to_instructions_bounds c' l' 0 _ i' Hchain' Hi') as [Ho' [_ Hend']].
  unfold covers in *.
  assert (Hic : in_chunk c o) by (unfold in_chunk; lia).
  assert (Hic' : in_chunk c' o) by (unfold in_chunk; lia).
  pose proof (chunk_of_offset_unique _ _ _ _ Hreg Hc Hc' Hic Hic') as <-.
  pose proof (chunk_summary_unique _ _ _ _ _ Hl Hl') as <-.
  pose proof (cache_ordered_in_offset_order _ _
                (to_instructions_ordered c l 0 _ Hchain)) as Hord.
  destruct (In_nth_error _ _ Hi) as [p Hp]. destruct (In_nth_error _ _ Hi') as [q Hq].
  destruct Hord as [Hpos Hpairs].
  destruct (Nat.lt_total p q) as [H | [H | H]].
  - pose proof (ordered_pairs_nth _ _ _ _ _ _ _ Hpairs Hp Hq H) as Hlt. cbn in Hlt. lia.
  - subst q. congruence.
  - pose proof (ordered_pairs_nth _ _ _ _ _ _ _ Hpairs Hq Hp H) as Hlt. cbn in Hlt. lia.
Qed.

(** The instruction that covers the byte after an instruction starts
    there; the one that covers the byte before an instruction ends
    there. *)
Lemma region_instruction_next : forall r i i',
  region_inv r ->
  region_instruction cs_disasm_iter read_data r i ->
  region_instruction cs_disasm_iter read_data r i' ->
  0 < Instruction.length i ->
  covers i' (Instruction.offset i + Instruction.length i) ->
  Instruction.offset i' = Instruction.offset i + Instruction.length i.
Proof.
  intros r i i' Hreg Hi Hi' Hlen Hcov.
  unfold covers in Hcov.
  destruct (Z.eq_dec (Instruction.offset i')
                     (Instruction.offset i + Instruction.length i)) as [|Hne];
    [assumption|].
  exfalso.
  assert (H1 : covers i (Instruction.offset i + Instruction.length i - 1))
    by (unfold covers; lia).
  assert (H2 : covers i' (Instruction.offset i + Instruction.length i - 1))
    by (unfold covers; lia).
  pose proof (region_instruction_unique _ _ _ _ Hreg Hi Hi' H1 H2) as <-. lia.
Qed.

Lemma region_instruction_prev : forall r i i',
  region_inv r ->
  region_instruction cs_disasm_iter read_data r i ->
  region_instruction cs_disasm_iter read_data r i' ->
  0 < Instruction.length i ->
  covers i' (Instruction.offset i - 1) ->
  Instruction.offset i' + Instruction.length i' = Instruction.offset i.
Proof.
  intros r i i' Hreg Hi Hi' Hlen Hcov.
  unfold covers in Hcov.
  destruct (Z.eq_dec (Instruction.offset i' + Instruction.length i')
                     (Instruction.offset i)) as [|Hne];
    [assumption|].
  exfalso.
  assert (H1 : covers i (Instruction.offset i)) by (unfold covers; lia).
  assert (H2 : covers i' (Instruction.offset i)) by (unfold covers; lia).
  pose proof (region_instruction_unique _ _ _ _ Hreg Hi Hi' H1 H2) as <-. lia.
Qed.

(** An instruction of the cache is an instruction of the region. *)
Lemma cached_region_instruction : forall r i,
  cache_inv cs_disasm_iter read_data r ->
  In i (instructions r) ->
  region_instruction cs_disasm_iter read_data r i.
Proof.
  intros r i Hinv Hi.
  destruct (cached_instruction_facts cs_disasm_iter read_data decoder_contract
              read_contract r i Hinv Hi) as [c [Hc [Ho [Hpos [Hend _]]]]].
  pose proof (si_chunks (ci_summary Hinv)) as Hch. rewrite Forall_forall in Hch.
  destruct (Hch c Hc) as [l Hl].
  assert (Hcov : covers i (Instruction.offset i)) by (unfold covers; lia).
  assert (Hic : in_chunk c (Instruction.offset i)) by (unfold in_chunk; lia).
  destruct (cached_instruction_of_summary cs_disasm_iter read_data decoder_contract
              read_contract r c l i _ Hinv Hc Hl Hi Hcov Hic) as [Hib _].
  exists c, l. split; [exact Hc|]. split; [exact Hl | exact Hib].
Qed.

(** A lookup inside the processed area returns the instruction of the
    region that covers the offset. *)
Lemma lookup_region_instruction : forall fuel abs_offset s,
  cache_inv cs_disasm_iter read_data (rgn s) ->
  d_offset (rgn s) <= abs_offset < unprocessed_offset (rgn s) ->
  exists k i s1,
    instruction_by_offset NDEBUG cs_disasm_iter read_data (S (S fuel)) abs_offset s
    = (Returned (Some (k, i)), s1)
    /\ covers i abs_offset
    /\ region_instruction cs_disasm_iter read_data (rgn s) i
    /\ cache_inv cs_disasm_iter read_data (rgn s1)
    /\ rgn s1 = set_instructions (instructions (rgn s1)) (rgn s).
Proof.
  intros fuel o s Hinv Ho.
  destruct (instruction_by_offset_spec NDEBUG cs_disasm_iter read_data decoder_contract
              read_contract fuel o s Hinv Ho)
    as [k [i [s1 [H1 [Hcov [Hk [Hinv1 [Hframe _]]]]]]]].
  exists k, i, s1. split; [exact H1|]. split; [exact Hcov|]. split.
  - pose proof (cached_region_instruction _ _ Hinv1 (nth_error_In _ _ Hk)) as Hri.
    rewrite Hframe in Hri. apply region_instruction_frame in Hri. exact Hri.
  - split; [exact Hinv1 | exact Hframe].
Qed.

End RegionInstructions.

(* ================================================================== *)
(** * The ends of a line *)
(* ================================================================== *)

(** The offsets of a row of unprocessed bytes have the same remainder
    base. *)
Lemma row_remainder : forall w m t,
  0 < m -> 0 <= w -> 0 <= t < m ->
  Z.rem (w - Z.rem w m + t) m = t.
Proof.
  intros w m t Hm Hw Ht.
  pose proof (Z.rem_bound_pos w m Hw Hm) as Hr.
  pose proof (Z.quot_rem' w m) as Hqr.
  assert (Hq : 0 <= Z.quot w m) by (apply Z.quot_pos; lia).
  replace (w - Z.rem w m + t) with (t + Z.quot w m * m) by lia.
  rewrite Z.rem_mod_nonneg by nia.
  rewrite Z_mod_plus_full. apply Z.mod_small. exact Ht.
Qed.

Section LineEnds.

Variable NDEBUG : bool.
Variable cs_disasm_iter : list byte -> Z -> option cs_insn.
Variable read_data : Z -> Z -> ReadResult.
Hypothesis decoder_contract : decoder_ok cs_disasm_iter.
Hypothesis read_contract : read_ok read_data.
Hypothesis decoder_prefix : decoder_stable cs_disasm_iter.
Hypothesis read_prefix : read_stable read_data.

(** [cursor_home_from] and [cursor_end_from] at an offset that an
    instruction of the cache covers. *)
Lemma cursor_home_end_hit : forall fuel s pos i,
  cache_inv cs_disasm_iter read_data (rgn s) ->
  In i (instructions (rgn s)) -> covers i pos ->
  cursor_home_from NDEBUG cs_disasm_iter read_data (S fuel) pos s
  = (Returned (Instruction.offset i), s)
  /\ cursor_end_from NDEBUG cs_disasm_iter read_data (S fuel) pos s
     = (Returned (Instruction.offset i + Instruction.length i - 1), s).
Proof.
  intros fuel s pos i Hinv Hi Hcov.
  destruct (cached_instruction_line cs_disasm_iter read_data decoder_contract
              read_contract _ _ Hinv Hi) as [_ [Hlo [Hhi Hlen]]].
  pose proof (li_region (ci_lookup Hinv)) as Hreg.
  pose proof (inv_frontier Hreg) as Hf.
  unfold covers in Hcov.
  assert (Hrange : d_offset (rgn s) <= pos <= d_offset (rgn s) + d_length (rgn s))
    by lia.
  destruct (instruction_by_offset_hit NDEBUG cs_disasm_iter read_data fuel s pos i
              (li_order (ci_lookup Hinv)) Hi (conj (proj1 Hcov) (proj2 Hcov)))
    as [k [_ Hhit]].
  split.
  - unfold cursor_home_from. unfold bind at 1.
    rewrite (assert_pos_in_region_ok NDEBUG s pos Hrange).
    unfold get_region, bind at 1.
    destruct (Z.ltb_spec pos (unprocessed_offset (rgn s))); [|lia].
    unfold bind. rewrite Hhit. reflexivity.
  - unfold cursor_end_from. unfold bind at 1.
    rewrite (assert_pos_in_region_ok NDEBUG s pos Hrange).
    unfold get_region, bind at 1.
    destruct (Z.ltb_spec pos (unprocessed_offset (rgn s))); [|lia].
    unfold bind. rewrite Hhit. reflexivity.
Qed.

End LineEnds.

(** X13.  The two ends of the line of an offset.  In every state that
    calls of [check] and of [instruction_by_offset] lead to, on an unchanged
    document, for an offset of the region, [cursor_home_from] and
    [cursor_end_from] return the first and the last offset of its line: the
    offset lies between them, both are offsets of the region, the line is
    no longer than [max_bytes_per_line], and from every offset between them
    the two functions return the same two ends. *)
Theorem cursor_home_and_end_of_line :
  forall NDEBUG cs_disasm_iter read_data,
    decoder_ok cs_disasm_iter -> read_ok read_data ->
    decoder_stable cs_disasm_iter -> read_stable read_data ->
    forall s pos fuel,
      reachable NDEBUG cs_disasm_iter read_data s ->
      d_offset (rgn s) <= pos < d_offset (rgn s) + d_length (rgn s) ->
      exists home last s1,
        cursor_home_from NDEBUG cs_disasm_iter read_data (S (S fuel)) pos s
        = (Returned home, s1)
        /\ cursor_end_from NDEBUG cs_disasm_iter read_data (S (S fuel)) pos s1
           = (Returned last, s1)
        /\ d_offset (rgn s) <= home <= pos
        /\ pos <= last < d_offset (rgn s) + d_length (rgn s)
        /\ last - home < max_bytes_per_line (rgn s)
        /\ forall p,
             home <= p <= last ->
             cursor_home_from NDEBUG cs_disasm_iter read_data (S (S fuel)) p s1
             = (Returned home, s1)
             /\ cursor_end_from NDEBUG cs_disasm_iter read_data (S (S fuel)) p s1
                = (Returned last, s1).
Proof.
  intros NDEBUG dec read Hdec Hread Hdecs Hreads s pos fuel Hreach Hpos.
  pose proof (reachable_cache_inv NDEBUG dec read Hdec Hread Hdecs Hreads s Hreach)
    as Hinv.
  pose proof (li_region (ci_lookup Hinv)) as Hreg.
  pose proof (inv_frontier Hreg) as Hf.
  assert (Hrange : d_offset (rgn s) <= pos <= d_offset (rgn s) + d_length (rgn s))
    by lia.
  destruct (Z_lt_le_dec pos (unprocessed_offset (rgn s))) as [Hproc | Hup].
  - destruct (instruction_by_offset_spec NDEBUG dec read Hdec Hread fuel pos s Hinv
                (conj (proj1 Hpos) Hproc))
      as [k [i [s1 [H1 [Hcov [Hk [Hinv1 [Hframe _]]]]]]]].
    pose proof (nth_error_In _ _ Hk) as Hi.
    destruct (cached_instruction_line dec read Hdec Hread _ _ Hinv1 Hi)
      as [_ [Hlo [Hhi Hlen]]].
    rewrite Hframe in Hlo, Hhi, Hlen.
    change (d_offset (set_instructions (instructions (rgn s1)) (rgn s)))
      with (d_offset (rgn s)) in Hlo.
    change (unprocessed_offset (set_instructions (instructions (rgn s1)) (rgn s)))
      with (unprocessed_offset (rgn s)) in Hhi.
    change (max_bytes_per_line (set_instructions (instructions (rgn s1)) (rgn s)))
      with (max_bytes_per_line (rgn s)) in Hlen.
    exists (Instruction.offset i), (Instruction.offset i + Instruction.length i - 1), s1.
    split.
    { unfold cursor_home_from. unfold bind at 1.
      rewrite (assert_pos_in_region_ok NDEBUG s pos Hrange).
      unfold get_region, bind at 1.
      destruct (Z.ltb_spec pos (unprocessed_offset (rgn s))); [|lia].
      unfold bind. rewrite H1. reflexivity. }
    split.
    { apply (cursor_home_end_hit NDEBUG dec read Hdec Hread (S fuel) s1 pos i Hinv1 Hi
               Hcov). }
    unfold covers in Hcov.
    split; [lia|]. split; [lia|]. split; [lia|].
    intros p Hp.
    apply (cursor_home_end_hit NDEBUG dec read Hdec Hread (S fuel) s1 p i Hinv1 Hi).
    unfold covers. lia.
  - pose proof (max_bytes_per_line_pos (rgn s)) as Hm.
    set (m := max_bytes_per_line (rgn s)) in *.
    set (up := unprocessed_offset (rgn s)) in *.
    assert (Hw : 0 <= pos - up) by lia.
    pose proof (Z.rem_bound_pos (pos - up) m Hw Hm) as Hrem.
    pose proof (Z.rem_le (pos - up) m Hw Hm) as Hrle.
    set (home := pos - Z.rem (pos - up) m).
    set (last := Z.min (home + (m - 1)) (d_offset (rgn s) + d_length (rgn s) - 1)).
    destruct (contiguous_ends _ _ _ (inv_chunks Hreg) (inv_nonneg Hreg)) as [Hb _].
    change (chunks_end (d_offset (rgn s)) (processed (rgn s))) with up in Hb.
    assert (Hhome : forall p, home <= p <= last ->
              cursor_home_from NDEBUG dec read (S (S fuel)) p s = (Returned home, s)
              /\ cursor_end_from NDEBUG dec read (S (S fuel)) p s = (Returned last, s)).
    { intros p Hp.
      assert (Hpr : d_offset (rgn s) <= p <= d_offset (rgn s) + d_length (rgn s))
        by (unfold home, last in *; lia).
      assert (Hrp : Z.rem (p - up) m = p - home).
      { replace (p - up) with ((pos - up) - Z.rem (pos - up) m + (p - home))
          by (unfold home; lia).
        apply row_remainder; unfold home, last in *; lia. }
      split.
      - unfold cursor_home_from. unfold bind at 1.
        rewrite (assert_pos_in_region_ok NDEBUG s p Hpr).
        unfold get_region, bind. fold up m.
        destruct (Z.ltb_spec p up); [unfold home in *; lia|].
        rewrite Hrp. unfold ret. f_equal. f_equal. lia.
      - unfold cursor_end_from. unfold bind at 1.
        rewrite (assert_pos_in_region_ok NDEBUG s p Hpr).
        unfold get_region, bind. fold up m.
        destruct (Z.ltb_spec p up); [unfold home in *; lia|].
        rewrite Hrp. unfold ret. f_equal. f_equal. unfold last. f_equal. lia. }
    exists home, last, s.
    assert (Hin : home <= pos <= last) by (unfold home, last; lia).
    split; [apply (Hhome pos Hin)|]. split; [apply (Hhome pos Hin)|].
    split; [unfold home; lia|]. split; [unfold last; lia|].
    split; [unfold last; lia | exact Hhome].
Qed.

(** X13 on the sample: offset 12 of the fifteen bytes is on the line of the
    [mov] at offsets 10 to 14. *)
Lemma cursor_home_and_end_of_line_witness :
  exists s1,
    cursor_home_from false (Sample.decode true) (Sample.buffer_read_data Sample.code15)
      2 12
      (after_check false (Sample.decode true) (Sample.buffer_read_data Sample.code15)
         (Sample.start (DisassemblyRegion_new 0 15)))
    = (Returned 10, s1)
    /\ cursor_end_from false (Sample.decode true)
         (Sample.buffer_read_data Sample.code15) 2 12 s1
       = (Returned 14, s1).
Proof.
  destruct (cursor_home_and_end_of_line false (Sample.decode true)
              (Sample.buffer_read_data Sample.code15)
              (sample_decoder_ok true) (sample_read_ok Sample.code15)
              (sample_decoder_stable true) (sample_read_stable Sample.code15)
              (after_check false (Sample.decode true)
                 (Sample.buffer_read_data Sample.code15)
                 (Sample.start (DisassemblyRegion_new 0 15))) 12 O)
    as [home [last [s1 [Hh [He _]]]]].
  - apply reach_check. apply reach_new. lia.
  - vm_compute. split; [discriminate | reflexivity].
  - assert (Hhome : home = 10).
    { vm_compute in Hh. injection Hh as <- _. reflexivity. }
    assert (Hs1 : s1 = snd (cursor_home_from false (Sample.decode true)
                              (Sample.buffer_read_data Sample.code15) 2 12
                              (after_check false (Sample.decode true)
                                 (Sample.buffer_read_data Sample.code15)
                                 (Sample.start (DisassemblyRegion_new 0 15)))))
      by (rewrite Hh; reflexivity).
    assert (Hlast : last = 14).
    { pose proof He as He'. rewrite Hs1 in He'. vm_compute in He'.
      injection He' as <-. reflexivity. }
    subst home last. exists s1. split; assumption.
Defined.

(* ================================================================== *)
(** * One line up, one line down *)
(* ================================================================== *)

Section LineValues.

Variable NDEBUG : bool.
Variable cs_disasm_iter : list byte -> Z -> option cs_insn.
Variable read_data : Z -> Z -> ReadResult.
Hypothesis decoder_contract : decoder_ok cs_disasm_iter.
Hypothesis read_contract : read_ok read_data.
Hypothesis decoder_prefix : decoder_stable cs_disasm_iter.
Hypothesis read_prefix : read_stable read_data.

(** The ends of the line of an offset that instruction [i] of the region
    covers are the ends of [i]. *)
Lemma line_ends_of_instruction : forall fuel s p i,
  cache_inv cs_disasm_iter read_data (rgn s) ->
  region_instruction cs_disasm_iter read_data (rgn s) i ->
  covers i p ->
  fst (cursor_home_from NDEBUG cs_disasm_iter read_data (S (S fuel)) p s)
  = Returned (Instruction.offset i)
  /\ fst (cursor_end_from NDEBUG cs_disasm_iter read_data (S (S fuel)) p s)
     = Returned (Instruction.offset i + Instruction.length i - 1).
Proof.
  intros fuel s p i Hinv Hi Hcov.
  pose proof (li_region (ci_lookup Hinv)) as Hreg.
  destruct (region_instruction_facts cs_disasm_iter read_data (rgn s) i Hreg
              (ci_summary Hinv) Hi) as [_ [Hlo [Hhi _]]].
  pose proof (inv_frontier Hreg) as Hf.
  pose proof Hcov as Hcov'. unfold covers in Hcov'.
  assert (Hp : d_offset (rgn s) <= p < unprocessed_offset (rgn s)) by lia.
  assert (Hrange : d_offset (rgn s) <= p <= d_offset (rgn s) + d_length (rgn s)) by lia.
  destruct (lookup_region_instruction NDEBUG cs_disasm_iter read_data decoder_contract
              read_contract fuel p s Hinv Hp)
    as [k [i' [s1 [H1 [Hcov1 [Hi' _]]]]]].
  pose proof (region_instruction_unique cs_disasm_iter read_data _ _ _ _ Hreg Hi Hi'
                Hcov Hcov1) as <-.
  split.
  - unfold cursor_home_from. unfold bind at 1.
    rewrite (assert_pos_in_region_ok NDEBUG s p Hrange).
    unfold get_region, bind at 1.
    destruct (Z.ltb_spec p (unprocessed_offset (rgn s))); [|lia].
    unfold bind. rewrite H1. reflexivity.
  - unfold cursor_end_from. unfold bind at 1.
    rewrite (assert_pos_in_region_ok NDEBUG s p Hrange).
    unfold get_region, bind at 1.
    destruct (Z.ltb_spec p (unprocessed_offset (rgn s))); [|lia].
    unfold bind. rewrite H1. reflexivity.
Qed.

End LineValues.

(** The ends of a row of unprocessed bytes. *)
Lemma line_ends_of_row :
  forall NDEBUG cs_disasm_iter read_data fuel s p,
    unprocessed_offset (rgn s) <= p <= d_offset (rgn s) + d_length (rgn s) ->
    d_offset (rgn s) <= unprocessed_offset (rgn s) ->
    fst (cursor_home_from NDEBUG cs_disasm_iter read_data fuel p s)
    = Returned (p - Z.rem (p - unprocessed_offset (rgn s)) (max_bytes_per_line (rgn s)))
    /\ fst (cursor_end_from NDEBUG cs_disasm_iter read_data fuel p s)
       = Returned (Z.min (p - Z.rem (p - unprocessed_offset (rgn s))
                                    (max_bytes_per_line (rgn s))
                          + (max_bytes_per_line (rgn s) - 1))
                         (d_offset (rgn s) + d_length (rgn s) - 1)).
Proof.
  intros NDEBUG dec read fuel s p Hp Hb.
  assert (Hrange : d_offset (rgn s) <= p <= d_offset (rgn s) + d_length (rgn s)) by lia.
  split.
  - unfold cursor_home_from. unfold bind at 1.
    rewrite (assert_pos_in_region_ok NDEBUG s p Hrange).
    unfold get_region, bind.
    destruct (Z.ltb_spec p (unprocessed_offset (rgn s))); [lia|]. reflexivity.
  - unfold cursor_end_from. unfold bind at 1.
    rewrite (assert_pos_in_region_ok NDEBUG s p Hrange).
    unfold get_region, bind.
    destruct (Z.ltb_spec p (unprocessed_offset (rgn s))); [lia|]. reflexivity.
Qed.

Lemma rem_shift : forall w m, 0 < m -> m <= w -> Z.rem (w - m) m = Z.rem w m.
Proof.
  intros w m Hm Hw.
  rewrite !Z.rem_mod_nonneg by lia.
  replace (w - m) with (w + (-1) * m) by lia.
  apply Z_mod_plus_full.
Qed.

Lemma rem_shift_up : forall w m, 0 < m -> 0 <= w -> Z.rem (w + m) m = Z.rem w m.
Proof.
  intros w m Hm Hw.
  rewrite !Z.rem_mod_nonneg by lia.
  replace (w + m) with (w + 1 * m) by lia.
  apply Z_mod_plus_full.
Qed.

(** X14.  [cursor_up_from] moves to the line before.  In every state that
    calls of [check] and of [instruction_by_offset] lead to, on an unchanged
    document, for an offset of the region whose line starts at [home] (what
    [cursor_home_from] returns): on the first line of the region the call
    returns [CURSOR_PREV_REGION]; on any other line it returns an offset of
    the region whose line ends at [home - 1], at the column of the offset or
    on the last byte of that line if the line is shorter.  The call changes
    the cache only. *)
Theorem cursor_up_moves_to_line_before :
  forall NDEBUG cs_disasm_iter read_data,
    decoder_ok cs_disasm_iter -> read_ok read_data ->
    decoder_stable cs_disasm_iter -> read_stable read_data ->
    forall s pos fuel,
      reachable NDEBUG cs_disasm_iter read_data s ->
      d_offset (rgn s) <= pos < d_offset (rgn s) + d_length (rgn s) ->
      exists home r s1,
        fst (cursor_home_from NDEBUG cs_disasm_iter read_data (S (S fuel)) pos s)
        = Returned home
        /\ cursor_up_from NDEBUG cs_disasm_iter read_data (S (S fuel)) pos s
           = (Returned r, s1)
        /\ rgn s1 = set_instructions (instructions (rgn s1)) (rgn s)
        /\ (home = d_offset (rgn s) -> r = CURSOR_PREV_REGION)
        /\ (home <> d_offset (rgn s) ->
            d_offset (rgn s) <= r < home
            /\ fst (cursor_end_from NDEBUG cs_disasm_iter read_data (S (S fuel)) r s)
               = Returned (home - 1)
            /\ exists home_r,
                 fst (cursor_home_from NDEBUG cs_disasm_iter read_data (S (S fuel)) r s)
                 = Returned home_r
                 /\ r = Z.min (home_r + (pos - home)) (home - 1)).
Proof.
  intros NDEBUG dec read Hdec Hread Hdecs Hreads s pos fuel Hreach Hpos.
  pose proof (reachable_cache_inv NDEBUG dec read Hdec Hread Hdecs Hreads s Hreach)
    as Hinv.
  pose proof (li_region (ci_lookup Hinv)) as Hreg.
  pose proof (ci_summary Hinv) as Hsum.
  pose proof (inv_frontier Hreg) as Hf.
  destruct (contiguous_ends _ _ _ (inv_chunks Hreg) (inv_nonneg Hreg)) as [Hb _].
  change (chunks_end (d_offset (rgn s)) (processed (rgn s)))
    with (unprocessed_offset (rgn s)) in Hb.
  pose proof (max_bytes_per_line_pos (rgn s)) as Hm.
  assert (Hrange : d_offset (rgn s) <= pos <= d_offset (rgn s) + d_length (rgn s))
    by lia.
  (* what a lookup of the byte before [bound] gives *)
  assert (Hbefore : forall s0 bound,
             cache_inv dec read (rgn s0) ->
             rgn s0 = set_instructions (instructions (rgn s0)) (rgn s) ->
             d_offset (rgn s) < bound <= unprocessed_offset (rgn s) ->
             (forall i, region_instruction dec read (rgn s) i ->
                        covers i (bound - 1) ->
                        Instruction.offset i + Instruction.length i = bound) ->
             exists k prev s2,
               instruction_by_offset NDEBUG dec read (S (S fuel)) (bound - 1) s0
               = (Returned (Some (k, prev)), s2)
               /\ rgn s2 = set_instructions (instructions (rgn s2)) (rgn s)
               /\ region_instruction dec read (rgn s) prev
               /\ covers prev (bound - 1)
               /\ Instruction.offset prev + Instruction.length prev = bound
               /\ d_offset (rgn s) <= Instruction.offset prev
               /\ 0 < Instruction.length prev).
  { intros s0 bound Hinv0 Hframe0 Hbound Hends.
    assert (Hr0 : d_offset (rgn s0) <= bound - 1 < unprocessed_offset (rgn s0)).
    { rewrite Hframe0.
      change (d_offset (set_instructions (instructions (rgn s0)) (rgn s)))
        with (d_offset (rgn s)).
      change (unprocessed_offset (set_instructions (instructions (rgn s0)) (rgn s)))
        with (unprocessed_offset (rgn s)). lia. }
    destruct (lookup_region_instruction NDEBUG dec read Hdec Hread fuel (bound - 1) s0
                Hinv0 Hr0) as [k [prev [s2 [H2 [Hcov2 [Hprev [_ Hframe2]]]]]]].
    rewrite Hframe0 in Hprev. apply region_instruction_frame in Hprev.
    destruct (region_instruction_facts dec read (rgn s) prev Hreg Hsum Hprev)
      as [[Hlen _] [Hlo _]].
    exists k, prev, s2. split; [exact H2|]. split.
    { rewrite Hframe2, Hframe0. reflexivity. }
    split; [exact Hprev|]. split; [exact Hcov2|].
    split; [apply (Hends prev Hprev Hcov2)|]. split; assumption. }
  (* the result on the line of [prev] *)
  assert (Hresult : forall prev home,
             region_instruction dec read (rgn s) prev ->
             Instruction.offset prev + Instruction.length prev = home ->
             d_offset (rgn s) <= Instruction.offset prev ->
             0 < Instruction.length prev ->
             home <= pos ->
             let r := Z.min (Instruction.offset prev + (pos - home))
                            (Instruction.offset prev + Instruction.length prev - 1) in
             d_offset (rgn s) <= r < home
             /\ fst (cursor_end_from NDEBUG dec read (S (S fuel)) r s)
                = Returned (home - 1)
             /\ exists home_r,
                  fst (cursor_home_from NDEBUG dec read (S (S fuel)) r s)
                  = Returned home_r
                  /\ r = Z.min (home_r + (pos - home)) (home - 1)).
  { intros prev home Hprev Hend Hlo Hlen Hhp r.
    assert (Hcovr : covers prev r) by (unfold covers, r; lia).
    destruct (line_ends_of_instruction NDEBUG dec read Hdec Hread fuel s r prev Hinv
                Hprev Hcovr) as [Hh He].
    split; [unfold r; lia|]. split.
    - rewrite He. f_equal. lia.
    - exists (Instruction.offset prev). split; [exact Hh|]. unfold r. f_equal. lia. }
  destruct (Z_lt_le_dec pos (unprocessed_offset (rgn s))) as [Hproc | Hup].
  - (* Case: within the disassembly *)
    destruct (lookup_region_instruction NDEBUG dec read Hdec Hread fuel pos s Hinv
                (conj (proj1 Hpos) Hproc))
      as [k [this [s1 [H1 [Hcov [Hthis [Hinv1 Hframe1]]]]]]].
    destruct (region_instruction_facts dec read (rgn s) this Hreg Hsum Hthis)
      as [[Hlen _] [Hlo [Hhi _]]].
    destruct (line_ends_of_instruction NDEBUG dec read Hdec Hread fuel s pos this Hinv
                Hthis Hcov) as [Hhome _].
    pose proof Hcov as Hcov'. unfold covers in Hcov'.
    exists (Instruction.offset this).
    destruct (Z.eq_dec (Instruction.offset this) (d_offset (rgn s))) as [Hfirst | Hnot].
    + exists CURSOR_PREV_REGION, s1. split; [exact Hhome|]. split.
      { unfold cursor_up_from. unfold bind at 1.
        rewrite (assert_pos_in_region_ok NDEBUG s pos Hrange).
        unfold get_region, bind at 1.
        destruct (Z.ltb_spec pos (unprocessed_offset (rgn s))); [|lia].
        unfold bind. rewrite H1.
        destruct (Z.eqb_spec (Instruction.offset this) (d_offset (rgn s))); [|lia].
        reflexivity. }
      split; [exact Hframe1|]. split; [reflexivity | intros Hne; contradiction].
    + destruct (Hbefore s1 (Instruction.offset this) Hinv1 Hframe1)
        as [k2 [prev [s2 [H2 [Hframe2 [Hprev [Hcov2 [Hend [Hplo Hplen]]]]]]]]].
      { lia. }
      { intros i Hi Hci.
        apply (region_instruction_prev dec read (rgn s) this i Hreg Hthis Hi Hlen Hci). }
      exists (Z.min (Instruction.offset prev + (pos - Instruction.offset this))
                    (Instruction.offset prev + Instruction.length prev - 1)), s2.
      split; [exact Hhome|]. split.
      { unfold cursor_up_from. unfold bind at 1.
        rewrite (assert_pos_in_region_ok NDEBUG s pos Hrange).
        unfold get_region, bind at 1.
        destruct (Z.ltb_spec pos (unprocessed_offset (rgn s))); [|lia].
        unfold bind at 1. rewrite H1.
        destruct (Z.eqb_spec (Instruction.offset this) (d_offset (rgn s))); [lia|].
        unfold bind. rewrite H2. reflexivity. }
      split; [exact Hframe2|]. split; [intros He; contradiction|].
      intros _. apply (Hresult prev (Instruction.offset this) Hprev Hend Hplo Hplen).
      lia.
  - set (m := max_bytes_per_line (rgn s)) in *.
    set (up := unprocessed_offset (rgn s)) in *.
    assert (Hw : 0 <= pos - up) by lia.
    pose proof (Z.rem_bound_pos (pos - up) m Hw Hm) as Hrem.
    pose proof (Z.rem_le (pos - up) m Hw Hm) as Hrle.
    destruct (line_ends_of_row NDEBUG dec read (S (S fuel)) s pos) as [Hhome _].
    { fold up. lia. }
    { exact Hb. }
    fold up m in Hhome.
    exists (pos - Z.rem (pos - up) m).
    destruct (Z_lt_le_dec pos (up + m)) as [Htop | Hlow].
    + (* Case: the top row of the unprocessed bytes *)
      assert (Hr : Z.rem (pos - up) m = pos - up) by (apply Z.rem_small; lia).
      rewrite Hr in *.
      replace (pos - (pos - up)) with up in * by lia.
      destruct (Z.eq_dec up (d_offset (rgn s))) as [Hfirst | Hnot].
      * exists CURSOR_PREV_REGION, s. split; [exact Hhome|]. split.
        { unfold cursor_up_from. unfold bind at 1.
          rewrite (assert_pos_in_region_ok NDEBUG s pos Hrange).
          unfold get_region, bind. fold up m.
          destruct (Z.ltb_spec pos up); [lia|].
          destruct (Z.ltb_spec pos (up + m)); [|lia].
          destruct (Z.eqb_spec up (d_offset (rgn s))); [|lia].
          reflexivity. }
        split; [symmetry; apply set_instructions_same|].
        split; [reflexivity | intros Hne; contradiction].
      * destruct (Hbefore s up Hinv (eq_sym (set_instructions_same (rgn s))))
          as [k2 [prev [s2 [H2 [Hframe2 [Hprev [Hcov2 [Hend [Hplo Hplen]]]]]]]]].
        { fold up. lia. }
        { intros i Hi Hci.
          destruct (region_instruction_facts dec read (rgn s) i Hreg Hsum Hi)
            as [_ [_ [Hie _]]].
          fold up in Hie. unfold covers in Hci. lia. }
        exists (Z.min (Instruction.offset prev + (pos - up))
                      (Instruction.offset prev + Instruction.length prev - 1)), s2.
        split; [exact Hhome|]. split.
        { unfold cursor_up_from. unfold bind at 1.
          rewrite (assert_pos_in_region_ok NDEBUG s pos Hrange).
          unfold get_region, bind at 1. fold up m.
          destruct (Z.ltb_spec pos up); [lia|].
          destruct (Z.ltb_spec pos (up + m)); [|lia].
          destruct (Z.eqb_spec up (d_offset (rgn s))); [lia|].
          unfold bind. rewrite H2. reflexivity. }
        split; [exact Hframe2|]. split; [intros He; contradiction|].
        intros _. apply (Hresult prev up Hprev Hend Hplo Hplen). lia.
    + (* Case: between unprocessed rows *)
      exists (pos - m), s. split; [exact Hhome|]. split.
      { unfold cursor_up_from. unfold bind at 1.
        rewrite (assert_pos_in_region_ok NDEBUG s pos Hrange).
        unfold get_region, bind. fold up m.
        destruct (Z.ltb_spec pos up); [lia|].
        destruct (Z.ltb_spec pos (up + m)); [lia|].
        reflexivity. }
      split; [symmetry; apply set_instructions_same|].
      pose proof (Z.quot_rem' (pos - up) m) as Hqr.
      assert (Hq : 1 <= Z.quot (pos - up) m).
      { apply Z.quot_le_lower_bound; lia. }
      split; [intros He; nia|].
      intros _.
      destruct (line_ends_of_row NDEBUG dec read (S (S fuel)) s (pos - m)) as [Hh He].
      { fold up. lia. }
      { exact Hb. }
      fold up m in Hh, He.
      replace (pos - m - up) with (pos - up - m) in Hh, He by lia.
      rewrite (rem_shift (pos - up) m Hm) in Hh, He by lia.
      split; [lia|]. split.
      * rewrite He. f_equal. lia.
      * eexists. split; [exact Hh|]. lia.
Qed.

(** X14 on the sample: from offset 12, in the [mov] at offsets 10 to 14,
    up to the [nop] at offset 9, which has one byte. *)
Lemma cursor_up_moves_to_line_before_witness :
  exists s1,
    cursor_up_from false (Sample.decode true) (Sample.buffer_read_data Sample.code15)
      2 12
      (after_check false (Sample.decode true) (Sample.buffer_read_data Sample.code15)
         (Sample.start (DisassemblyRegion_new 0 15)))
    = (Returned 9, s1).
Proof.
  destruct (cursor_up_moves_to_line_before false (Sample.decode true)
              (Sample.buffer_read_data Sample.code15)
              (sample_decoder_ok true) (sample_read_ok Sample.code15)
              (sample_decoder_stable true) (sample_read_stable Sample.code15)
              (after_check false (Sample.decode true)
                 (Sample.buffer_read_data Sample.code15)
                 (Sample.start (DisassemblyRegion_new 0 15))) 12 O)
    as [home [r [s1 [_ [Hup _]]]]].
  - apply reach_check. apply reach_new. lia.
  - vm_compute. split; [discriminate | reflexivity].
  - assert (Hr : r = 9).
    { vm_compute in Hup. injection Hup as <- _. reflexivity. }
    subst r. exists s1. exact Hup.
Defined.

(** X15.  [cursor_down_from] moves to the line after.  In every state that
    calls of [check] and of [instruction_by_offset] lead to, on an unchanged
    document, for an offset of the region whose line goes from [home] to
    [last] (what [cursor_home_from] and [cursor_end_from] return): on the
    last line of the region the call returns [CURSOR_NEXT_REGION]; on any
    other line it returns an offset of the region whose line starts at
    [last + 1], at the column of the offset or on the last byte of that line
    if the line is shorter.  The call changes the cache only. *)
Theorem cursor_down_moves_to_line_after :
  forall NDEBUG cs_disasm_iter read_data,
    decoder_ok cs_disasm_iter -> read_ok read_data ->
    decoder_stable cs_disasm_iter -> read_stable read_data ->
    forall s pos fuel,
      reachable NDEBUG cs_disasm_iter read_data s ->
      d_offset (rgn s) <= pos < d_offset (rgn s) + d_length (rgn s) ->
      exists home last r s1,
        fst (cursor_home_from NDEBUG cs_disasm_iter read_data (S (S fuel)) pos s)
        = Returned home
        /\ fst (cursor_end_from NDEBUG cs_disasm_iter read_data (S (S fuel)) pos s)
           = Returned last
        /\ cursor_down_from NDEBUG cs_disasm_iter read_data (S (S fuel)) pos s
           = (Returned r, s1)
        /\ rgn s1 = set_instructions (instructions (rgn s1)) (rgn s)
        /\ (last = d_offset (rgn s) + d_length (rgn s) - 1 -> r = CURSOR_NEXT_REGION)
        /\ (last <> d_offset (rgn s) + d_length (rgn s) - 1 ->
            last < r < d_offset (rgn s) + d_length (rgn s)
            /\ fst (cursor_home_from NDEBUG cs_disasm_iter read_data (S (S fuel)) r s)
               = Returned (last + 1)
            /\ exists last_r,
                 fst (cursor_end_from NDEBUG cs_disasm_iter read_data (S (S fuel)) r s)
                 = Returned last_r
                 /\ r = Z.min (last + 1 + (pos - home)) last_r).
Proof.
  intros NDEBUG dec read Hdec Hread Hdecs Hreads s pos fuel Hreach Hpos.
  pose proof (reachable_cache_inv NDEBUG dec read Hdec Hread Hdecs Hreads s Hreach)
    as Hinv.
  pose proof (li_region (ci_lookup Hinv)) as Hreg.
  pose proof (ci_summary Hinv) as Hsum.
  pose proof (inv_frontier Hreg) as Hf.
  destruct (contiguous_ends _ _ _ (inv_chunks Hreg) (inv_nonneg Hreg)) as [Hb _].
  change (chunks_end (d_offset (rgn s)) (processed (rgn s)))
    with (unprocessed_offset (rgn s)) in Hb.
  pose proof (max_bytes_per_line_pos (rgn s)) as Hm.
  assert (Hrange : d_offset (rgn s) <= pos <= d_offset (rgn s) + d_length (rgn s))
    by lia.
  set (m := max_bytes_per_line (rgn s)) in *.
  set (up := unprocessed_offset (rgn s)) in *.
  set (fin := d_offset (rgn s) + d_length (rgn s)) in *.
  destruct (Z_lt_le_dec pos up) as [Hproc | Hup].
  - (* Case: within the disassembly *)
    destruct (lookup_region_instruction NDEBUG dec read Hdec Hread fuel pos s Hinv
                (conj (proj1 Hpos) Hproc))
      as [k [this [s1 [H1 [Hcov [Hthis [Hinv1 Hframe1]]]]]]].
    destruct (region_instruction_facts dec read (rgn s) this Hreg Hsum Hthis)
      as [[Hlen Hwide] [Hlo [Hhi _]]].
    fold up in Hhi. fold m in Hwide.
    destruct (line_ends_of_instruction NDEBUG dec read Hdec Hread fuel s pos this Hinv
                Hthis Hcov) as [Hhome Hlast].
    pose proof Hcov as Hcov'. unfold covers in Hcov'.
    assert (Hup1 : unprocessed_offset (rgn s1) = up) by (rewrite Hframe1; reflexivity).
    assert (Hdo1 : d_offset (rgn s1) = d_offset (rgn s)) by (rewrite Hframe1; reflexivity).
    assert (Hdl1 : d_length (rgn s1) = d_length (rgn s)) by (rewrite Hframe1; reflexivity).
    exists (Instruction.offset this),
      (Instruction.offset this + Instruction.length this - 1).
    destruct (Z.eq_dec (Instruction.offset this + Instruction.length this) fin)
      as [Hlastline | Hnotlast].
    + exists CURSOR_NEXT_REGION, s1.
      split; [exact Hhome|]. split; [exact Hlast|]. split.
      { unfold cursor_down_from. unfold bind at 1.
        rewrite (assert_pos_in_region_ok NDEBUG s pos Hrange).
        unfold get_region, bind at 1. fold up.
        destruct (Z.ltb_spec pos up); [|lia].
        unfold bind. rewrite H1. rewrite Hdo1, Hdl1. fold fin.
        destruct (Z.eqb_spec (Instruction.offset this + Instruction.length this) fin);
          [|lia].
        reflexivity. }
      split; [exact Hframe1|]. split; [reflexivity | intros Hne; lia].
    + destruct (Z.eq_dec (Instruction.offset this + Instruction.length this) up)
        as [Hedge | Hinner].
      * (* on the last line of the disassembly *)
        exists (Z.min (up + (pos - Instruction.offset this)) (fin - 1)), s1.
        split; [exact Hhome|]. split; [exact Hlast|]. split.
        { unfold cursor_down_from. unfold bind at 1.
          rewrite (assert_pos_in_region_ok NDEBUG s pos Hrange).
          unfold get_region, bind at 1. fold up.
          destruct (Z.ltb_spec pos up); [|lia].
          unfold bind. rewrite H1. rewrite Hdo1, Hdl1, Hup1. fold fin.
          destruct (Z.eqb_spec (Instruction.offset this + Instruction.length this) fin);
            [lia|].
          destruct (Z.eqb_spec (Instruction.offset this + Instruction.length this) up);
            [|lia].
          reflexivity. }
        split; [exact Hframe1|]. split; [intros He; lia|].
        intros _.
        set (r := Z.min (up + (pos - Instruction.offset this)) (fin - 1)).
        assert (Hr : up <= r <= fin) by (unfold r, fin in *; lia).
        destruct (line_ends_of_row NDEBUG dec read (S (S fuel)) s r) as [Hh He].
        { fold up fin. lia. }
        { exact Hb. }
        fold up m fin in Hh, He.
        assert (Hrem : Z.rem (r - up) m = r - up) by (apply Z.rem_small; unfold r; lia).
        rewrite Hrem in Hh, He.
        split; [unfold r, fin in *; lia|]. split.
        { rewrite Hh. f_equal. lia. }
        { eexists. split; [exact He|]. unfold r. lia. }
      * (* the next instruction *)
        assert (Hr1 : d_offset (rgn s1)
                      <= Instruction.offset this + Instruction.length this
                      < unprocessed_offset (rgn s1)) by (rewrite Hdo1, Hup1; lia).
        destruct (lookup_region_instruction NDEBUG dec read Hdec Hread fuel _ s1 Hinv1 Hr1)
          as [k2 [next [s2 [H2 [Hcov2 [Hnext [_ Hframe2]]]]]]].
        rewrite Hframe1 in Hnext. apply region_instruction_frame in Hnext.
        pose proof (region_instruction_next dec read (rgn s) this next Hreg Hthis Hnext
                      Hlen Hcov2) as Hadj.
        destruct (region_instruction_facts dec read (rgn s) next Hreg Hsum Hnext)
          as [[Hnlen _] [_ [Hnhi _]]].
        fold up in Hnhi.
        exists (Z.min (Instruction.offset next + (pos - Instruction.offset this))
                      (Instruction.offset next + Instruction.length next - 1)), s2.
        split; [exact Hhome|]. split; [exact Hlast|]. split.
        { unfold cursor_down_from. unfold bind at 1.
          rewrite (assert_pos_in_region_ok NDEBUG s pos Hrange).
          unfold get_region, bind at 1. fold up.
          destruct (Z.ltb_spec pos up); [|lia].
          unfold bind at 1. rewrite H1. unfold bind at 1.
          rewrite Hdo1, Hdl1, Hup1. fold fin.
          destruct (Z.eqb_spec (Instruction.offset this + Instruction.length this) fin);
            [lia|].
          destruct (Z.eqb_spec (Instruction.offset this + Instruction.length this) up);
            [lia|].
          unfold bind. rewrite H2. reflexivity. }
        split; [rewrite Hframe2, Hframe1; reflexivity|]. split; [intros He; lia|].
        intros _.
        set (r := Z.min (Instruction.offset next + (pos - Instruction.offset this))
                        (Instruction.offset next + Instruction.length next - 1)).
        assert (Hcovr : covers next r) by (unfold covers, r; lia).
        destruct (line_ends_of_instruction NDEBUG dec read Hdec Hread fuel s r next Hinv
                    Hnext Hcovr) as [Hh He].
        split; [unfold r, fin in *; lia|]. split.
        { rewrite Hh. f_equal. lia. }
        { eexists. split; [exact He|]. unfold r. lia. }
  - (* Case: within the unprocessed bytes *)
    assert (Hw : 0 <= pos - up) by lia.
    pose proof (Z.rem_bound_pos (pos - up) m Hw Hm) as Hrem.
    pose proof (Z.rem_le (pos - up) m Hw Hm) as Hrle.
    destruct (line_ends_of_row NDEBUG dec read (S (S fuel)) s pos) as [Hhome Hlast].
    { fold up fin. lia. }
    { exact Hb. }
    fold up m fin in Hhome, Hlast.
    set (t := Z.rem (pos - up) m) in *.
    exists (pos - t), (Z.min (pos - t + (m - 1)) (fin - 1)).
    destruct (Z_lt_le_dec (pos + m) fin) as [Hnext | Hshort].
    + (* the same position in the next row *)
      exists (pos + m), s.
      split; [exact Hhome|]. split; [exact Hlast|]. split.
      { unfold cursor_down_from. unfold bind at 1.
        rewrite (assert_pos_in_region_ok NDEBUG s pos Hrange).
        unfold get_region, bind. fold up m fin.
        destruct (Z.ltb_spec pos up); [lia|].
        destruct (Z.ltb_spec (pos + m) fin); [|lia].
        reflexivity. }
      split; [symmetry; apply set_instructions_same|].
      split; [intros He; lia|]. intros _.
      destruct (line_ends_of_row NDEBUG dec read (S (S fuel)) s (pos + m)) as [Hh He].
      { fold up fin. lia. }
      { exact Hb. }
      fold up m fin in Hh, He.
      replace (pos + m - up) with (pos - up + m) in Hh, He by lia.
      rewrite (rem_shift_up (pos - up) m Hm Hw) in Hh, He. fold t in Hh, He.
      split; [lia|]. split.
      { rewrite Hh. f_equal. lia. }
      { eexists. split; [exact He|]. lia. }
    + destruct (Z_lt_le_dec (pos - t + m) fin) as [Hrow | Hnorow].
      * (* the end of the next, last row *)
        exists (fin - 1), s.
        split; [exact Hhome|]. split; [exact Hlast|]. split.
        { unfold cursor_down_from. unfold bind at 1.
          rewrite (assert_pos_in_region_ok NDEBUG s pos Hrange).
          unfold get_region, bind. fold up m fin. fold t.
          destruct (Z.ltb_spec pos up); [lia|].
          destruct (Z.ltb_spec (pos + m) fin); [lia|].
          destruct (Z.ltb_spec (pos - t + m) fin); [|lia].
          reflexivity. }
        split; [symmetry; apply set_instructions_same|].
        split; [intros He; lia|]. intros _.
        destruct (line_ends_of_row NDEBUG dec read (S (S fuel)) s (fin - 1)) as [Hh He].
        { fold up fin. lia. }
        { exact Hb. }
        fold up m fin in Hh, He.
        assert (Hr : Z.rem (fin - 1 - up) m = fin - 1 - (pos - t + m)).
        { replace (fin - 1 - up)
            with ((pos - up + m) - Z.rem (pos - up + m) m + (fin - 1 - (pos - t + m))).
          - apply row_remainder; lia.
          - rewrite (rem_shift_up (pos - up) m Hm Hw). fold t. lia. }
        rewrite Hr in Hh, He.
        split; [lia|]. split.
        { rewrite Hh. f_equal. lia. }
        { eexists. split; [exact He|]. lia. }
      * (* no row below *)
        exists CURSOR_NEXT_REGION, s.
        split; [exact Hhome|]. split; [exact Hlast|]. split.
        { unfold cursor_down_from. unfold bind at 1.
          rewrite (assert_pos_in_region_ok NDEBUG s pos Hrange).
          unfold get_region, bind. fold up m fin. fold t.
          destruct (Z.ltb_spec pos up); [lia|].
          destruct (Z.ltb_spec (pos + m) fin); [lia|].
          destruct (Z.ltb_spec (pos - t + m) fin); [lia|].
          reflexivity. }
        split; [symmetry; apply set_instructions_same|].
        split; [reflexivity | intros He; lia].
Qed.

(** X15 on the sample: from offset 9, the [nop], down to the [mov] at
    offsets 10 to 14. *)
Lemma cursor_down_moves_to_line_after_witness :
  exists s1,
    cursor_down_from false (Sample.decode true) (Sample.buffer_read_data Sample.code15)
      2 9
      (after_check false (Sample.decode true) (Sample.buffer_read_data Sample.code15)
         (Sample.start (DisassemblyRegion_new 0 15)))
    = (Returned 10, s1).
Proof.
  destruct (cursor_down_moves_to_line_after false (Sample.decode true)
              (Sample.buffer_read_data Sample.code15)
              (sample_decoder_ok true) (sample_read_ok Sample.code15)
              (sample_decoder_stable true) (sample_read_stable Sample.code15)
              (after_check false (Sample.decode true)
                 (Sample.buffer_read_data Sample.code15)
                 (Sample.start (DisassemblyRegion_new 0 15))) 9 O)
    as [home [last [r [s1 [_ [_ [Hdown _]]]]]]].
  - apply reach_check. apply reach_new. lia.
  - vm_compute. split; [discriminate | reflexivity].
  - assert (Hr : r = 10).
    { vm_compute in Hdown. injection Hdown as <- _. reflexivity. }
    subst r. exists s1. exact Hdown.
Defined.

(* ================================================================== *)
(** * The disassembly of the preview *)
(* ================================================================== *)

Lemma map_insert_last : forall (m : Disassemble.InstructionMap) k v,
  Forall (fun e => fst e < k) m ->
  Disassemble.map_insert k v m = m ++ [(k, v)].
Proof.
  induction m as [|[k' v'] m IH]; intros k v H; [reflexivity|].
  inversion H as [|? ? Hk Hm]; subst. cbn in Hk. cbn [Disassemble.map_insert].
  destruct (Z.ltb_spec k k'); [lia|].
  destruct (Z.eqb_spec k k'); [lia|].
  rewrite IH by exact Hm. reflexivity.
Qed.

(** The loop of [disassemble] appends one entry per instruction. *)
Lemma disassemble_body_fold : forall l address (acc : Disassemble.InstructionMap),
  decoded_chain address l ->
  Forall (fun e => fst e < address) acc ->
  fold_left (fun a d => Disassemble.disassemble_body a (dec_address d) (dec_bytes d)
                                                     (dec_insn d)) l acc
  = acc ++ map preview_entry l.
Proof.
  induction l as [|d l IH]; intros address acc Hchain Hacc.
  - simpl. now rewrite app_nil_r.
  - destruct Hchain as [Ha [Hs Hchain]]. cbn [fold_left map].
    unfold Disassemble.disassemble_body at 2.
    rewrite map_insert_last by (rewrite Ha; exact Hacc).
    rewrite (IH (address + size (dec_insn d))).
    + rewrite <- app_assoc. reflexivity.
    + exact Hchain.
    + apply Forall_app. split.
      * eapply Forall_impl; [|exact Hacc]. intros e He. cbn in *. lia.
      * constructor; [cbn; lia | constructor].
Qed.

Lemma preview_chain_of_decoded : forall l address,
  decoded_chain address l ->
  preview_chain address (map preview_entry l)
  /\ preview_bytes (map preview_entry l) = total_size l.
Proof.
  induction l as [|d l IH]; intros address H.
  - split; [exact I | reflexivity].
  - destruct H as [Ha [Hs H]]. destruct (IH _ H) as [IH1 IH2].
    cbn [map preview_chain preview_entry]. split.
    + split; [exact Ha|]. split; [exact Hs|]. cbn. rewrite Ha. exact IH1.
    + unfold preview_bytes, total_size in *. cbn. rewrite IH2. reflexivity.
Qed.

Lemma preview_chain_bounds : forall m offset k v,
  preview_chain offset m -> In (k, v) m ->
  offset <= k /\ 0 < Disassemble.length v
  /\ k + Disassemble.length v <= offset + preview_bytes m.
Proof.
  induction m as [|[k' v'] m IH]; intros offset k v Hc Hin; [contradiction|].
  destruct Hc as [Hk [Hl Hc]].
  assert (Hpos : 0 <= preview_bytes m).
  { clear -Hc. revert Hc. generalize (k' + Disassemble.length v').
    induction m as [|[a b] m IHm]; intros o Hc; unfold preview_bytes in *; simpl; [lia|].
    destruct Hc as [_ [Hb Hc]]. specialize (IHm _ Hc). cbn. lia. }
  unfold preview_bytes in *. cbn [fold_right snd].
  destruct Hin as [E | Hin].
  - injection E as <- <-. lia.
  - specialize (IH _ _ _ Hc Hin). lia.
Qed.

(** X16.  [Disassemble::disassemble] returns, with the instructions in a
    row: the first entry is at [offset], each next one where the one before
    ends, each has at least one byte, together they take no more bytes than
    the buffer holds, and the map is empty exactly when the decoder gives
    nothing for the first byte. *)
Theorem disassemble_gives_a_chain :
  forall cs_disasm_iter offset code,
    decoder_ok cs_disasm_iter ->
    exists m,
      Disassemble.disassemble cs_disasm_iter offset code = Some m
      /\ preview_chain offset m
      /\ preview_bytes m <= vsize code
      /\ (m = [] <-> cs_disasm_iter code offset = None)
      /\ forall k v, In (k, v) m ->
           offset <= k /\ k + Disassemble.length v <= offset + vsize code.
Proof.
  intros dec offset code Hdec.
  destruct (cs_disasm_list_ends dec Hdec (S (List.length code)) code offset)
    as [l [Hl [Hchain Htotal]]]; [lia|].
  exists (map preview_entry l).
  destruct (preview_chain_of_decoded l offset Hchain) as [Hpc Hpb].
  split.
  { unfold Disassemble.disassemble. rewrite cs_disasm_while_list, Hl.
    rewrite (disassemble_body_fold l offset [] Hchain) by constructor. reflexivity. }
  split; [exact Hpc|]. split; [lia|]. split.
  - cbn [cs_disasm_list] in Hl.
    destruct (dec code offset) as [insn|].
    + destruct (cs_disasm_list dec _ _ _); [|discriminate].
      injection Hl as <-. split; discriminate.
    + injection Hl as <-. split; reflexivity.
  - intros k v Hin.
    destruct (preview_chain_bounds _ _ _ _ Hpc Hin) as [H1 [_ H2]]. lia.
Qed.

(** X16 on the sample: the three bytes [31 c0 90] from offset 7. *)
Lemma disassemble_gives_a_chain_witness :
  exists v1 v2,
    Disassemble.disassemble (Sample.decode false) 7 [x31; xc0; x90]
    = Some [(7, v1); (9, v2)]
    /\ preview_chain 7 [(7, v1); (9, v2)].
Proof.
  destruct (disassemble_gives_a_chain (Sample.decode false) 7 [x31; xc0; x90]
              (sample_decoder_ok false)) as [m [Hm [Hc _]]].
  assert (E : exists v1 v2, m = [(7, v1); (9, v2)]).
  { vm_compute in Hm. injection Hm as <-. eexists. eexists. reflexivity. }
  destruct E as [v1 [v2 ->]].
  exists v1, v2. split; [exact Hm | exact Hc].
Defined.

(* ================================================================== *)
(** * What the preview shows *)
(* ================================================================== *)

Lemma show_lines : forall position m this_line highlighted_line,
  fst (Disassemble.show position m this_line highlighted_line)
  = map (preview_line position) m.
Proof.
  intros position. induction m as [|[k v] m IH]; intros n h; [reflexivity|].
  cbn [Disassemble.show map]. unfold preview_line at 1. cbn [fst snd].
  destruct ((k <=? position) && (k + Disassemble.length v >? position))%bool;
    cbn [fst]; rewrite IH; reflexivity.
Qed.

(** With no active line from some place on, the line to centre on is the
    one found before. *)
Lemma show_center_none : forall position m this_line highlighted_line,
  Forall (fun e => Disassemble.active (preview_line position e) = false) m ->
  snd (Disassemble.show position m this_line highlighted_line) = highlighted_line.
Proof.
  intros position. induction m as [|[k v] m IH]; intros n h H; [reflexivity|].
  inversion H as [|? ? He Hm]; subst. unfold preview_line in He. cbn in He.
  cbn [Disassemble.show]. rewrite He. cbn [snd]. apply IH. exact Hm.
Qed.

(** In a chain of entries, one covers the position at most. *)
Lemma preview_chain_after : forall m offset position,
  preview_chain offset m -> position < offset ->
  Forall (fun e => Disassemble.active (preview_line position e) = false) m.
Proof.
  induction m as [|[k v] m IH]; intros offset position Hc Hlt; [constructor|].
  destruct Hc as [Hk [Hl Hc]]. constructor.
  - unfold preview_line. cbn. destruct (Z.leb_spec k position); [lia | reflexivity].
  - apply (IH (k + Disassemble.length v)); [exact Hc | lia].
Qed.

(** The one active line of a chain that covers the position. *)
Lemma show_one_active : forall m offset position this_line highlighted_line k v,
  preview_chain offset m -> In (k, v) m ->
  k <= position < k + Disassemble.length v ->
  exists idx,
    nth_error m idx = Some (k, v)
    /\ snd (Disassemble.show position m this_line highlighted_line)
       = this_line + Z.of_nat idx
    /\ forall j e, nth_error m j = Some e ->
                   Disassemble.active (preview_line position e) = true -> j = idx.
Proof.
  induction m as [|[k' v'] m IH]; intros offset position n h k v Hc Hin Hcov;
    [contradiction|].
  destruct Hc as [Hk [Hl Hc]].
  destruct Hin as [E | Hin].
  - injection E as -> ->. exists O. split; [reflexivity|].
    pose proof (preview_chain_after m _ position Hc (proj2 Hcov)) as Hafter.
    split.
    + cbn [Disassemble.show].
      destruct (Z.leb_spec k position); [|lia].
      destruct (Z.gtb_spec (k + Disassemble.length v) position); [|lia].
      cbn [andb snd]. rewrite (show_center_none _ _ _ _ Hafter). lia.
    + intros j e Hj Ha. destruct j as [|j]; [reflexivity|]. cbn [nth_error] in Hj.
      rewrite Forall_forall in Hafter.
      rewrite (Hafter e (nth_error_In _ _ Hj)) in Ha. discriminate.
  - destruct (preview_chain_bounds _ _ _ _ Hc Hin) as [Hlo _].
    destruct (IH _ position (n + 1) h k v Hc Hin Hcov) as [idx [Hn [Hs Huniq]]].
    exists (S idx). split; [exact Hn|].
    assert (Hhead : ((k' <=? position) && (k' + Disassemble.length v' >? position))%bool
                    = false).
    { destruct (Z.gtb_spec (k' + Disassemble.length v') position);
        [lia | apply andb_false_r]. }
    split.
    + cbn [Disassemble.show]. rewrite Hhead. cbn [snd]. rewrite Hs. lia.
    + intros j e Hj Ha. destruct j as [|j].
      * cbn [nth_error] in Hj. injection Hj as <-.
        unfold preview_line in Ha. cbn in Ha. rewrite Hhead in Ha. discriminate.
      * f_equal. apply (Huniq j e Hj Ha).
Qed.

Section PreviewSearch.

Variable cs_disasm_iter : list byte -> Z -> option cs_insn.
Hypothesis decoder_contract : decoder_ok cs_disasm_iter.

Lemma disassemble_returns_chain : forall offset code,
  exists m,
    Disassemble.disassemble cs_disasm_iter offset code = Some m
    /\ preview_chain offset m.
Proof.
  intros offset code.
  destruct (cs_disasm_list_ends cs_disasm_iter decoder_contract
              (S (List.length code)) code offset) as [l [Hl [Hchain _]]]; [lia|].
  exists (map preview_entry l). split.
  - unfold Disassemble.disassemble. rewrite cs_disasm_while_list, Hl.
    rewrite (disassemble_body_fold l offset [] Hchain) by constructor. reflexivity.
  - apply (preview_chain_of_decoded l offset Hchain).
Qed.

(** What one of the two loops of [update] returns: the first disassembly
    that the test accepts, or the empty map when it accepts none. *)
Lemma search_result : forall accept position data doc_off,
  accept [] = false ->
  exists m,
    Disassemble.search cs_disasm_iter accept position doc_off data = Some m
    /\ ((accept m = true
         /\ exists j, (j < List.length data)%nat
                      /\ doc_off + Z.of_nat j <= position
                      /\ Disassemble.disassemble cs_disasm_iter (doc_off + Z.of_nat j)
                                                 (skipn j data) = Some m)
        \/ (m = []
            /\ forall j mj, (j < List.length data)%nat ->
                            doc_off + Z.of_nat j <= position ->
                            Disassemble.disassemble cs_disasm_iter
                              (doc_off + Z.of_nat j) (skipn j data) = Some mj ->
                            accept mj = false)).
Proof.
  intros accept position data Hnil. revert Hnil.
  induction data as [|b data IH]; intros doc_off Hnil.
  - exists []. split; [reflexivity|]. right. split; [reflexivity|].
    intros j mj Hj. simpl in Hj. lia.
  - cbn [Disassemble.search].
    destruct (Z.leb_spec doc_off position) as [Hle | Hgt].
    + destruct (disassemble_returns_chain doc_off (b :: data)) as [m0 [Hm0 _]].
      rewrite Hm0. destruct (accept m0) eqn:Ha.
      * exists m0. split; [reflexivity|]. left. split; [exact Ha|].
        exists O. split; [simpl; lia|]. split; [lia|].
        rewrite Z.add_0_r. exact Hm0.
      * destruct (IH (doc_off + 1) Hnil) as [m [Hm Hcases]].
        exists m. split; [exact Hm|].
        destruct Hcases as [[Hacc [j [Hj [Hpos Hd]]]] | [-> Hall]].
        -- left. split; [exact Hacc|]. exists (S j).
           split; [simpl; lia|]. split; [lia|].
           cbn [skipn]. replace (doc_off + Z.of_nat (S j))
             with (doc_off + 1 + Z.of_nat j) by lia. exact Hd.
        -- right. split; [reflexivity|]. intros j mj Hj Hpos Hd.
           destruct j as [|j].
           ++ rewrite Z.add_0_r in Hd. cbn [skipn] in Hd. congruence.
           ++ apply (Hall j mj); [simpl in Hj; lia | lia |].
              cbn [skipn] in Hd. replace (doc_off + 1 + Z.of_nat j)
                with (doc_off + Z.of_nat (S j)) by lia. exact Hd.
    + exists []. split; [reflexivity|]. right. split; [reflexivity|].
      intros j mj Hj Hpos. lia.
Qed.

End PreviewSearch.

Lemma starts_at_entry : forall position (m : Disassemble.InstructionMap),
  Disassemble.starts_at position m = true ->
  exists v, In (position, v) m.
Proof.
  intros position m H. unfold Disassemble.starts_at, Disassemble.map_has in H.
  apply existsb_exists in H. destruct H as [[k v] [Hin Hk]].
  cbn in Hk. apply Z.eqb_eq in Hk. subst k. exists v. exact Hin.
Qed.

Lemma entry_starts_at : forall position (m : Disassemble.InstructionMap) v,
  In (position, v) m -> Disassemble.starts_at position m = true.
Proof.
  intros position m v H. unfold Disassemble.starts_at, Disassemble.map_has.
  apply existsb_exists. exists (position, v). split; [exact H|]. cbn. apply Z.eqb_refl.
Qed.

Lemma lower_bound_before : forall (m : Disassemble.InstructionMap) position j e,
  (j < Disassemble.lower_bound m position)%nat ->
  nth_error m j = Some e -> fst e < position.
Proof.
  induction m as [|[k v] m IH]; intros position j e Hj Hn; [simpl in Hj; lia|].
  cbn [Disassemble.lower_bound] in Hj.
  destruct (Z.ltb_spec k position); [|lia].
  destruct j as [|j]; cbn [nth_error] in Hn.
  - injection Hn as <-. exact H.
  - apply (IH position j e); [lia | exact Hn].
Qed.

(** The test of step 2 accepts a disassembly only with an instruction that
    starts before the position and covers it. *)
Lemma overlaps_entry : forall position (m : Disassemble.InstructionMap),
  Disassemble.overlaps position m = true ->
  exists k v, In (k, v) m /\ k < position < k + Disassemble.length v.
Proof.
  intros position m H. unfold Disassemble.overlaps in H.
  apply andb_prop in H. destruct H as [H Hlast].
  apply andb_prop in H. destruct H as [Hfirst _].
  apply negb_true_iff, Nat.eqb_neq in Hfirst.
  destruct (nth_error m (Nat.pred (Disassemble.lower_bound m position)))
    as [[k v]|] eqn:Hn; [|discriminate].
  apply Z.gtb_lt in Hlast.
  exists k, v. split; [eapply nth_error_In; exact Hn|].
  assert (Hlt : (Nat.pred (Disassemble.lower_bound m position)
                 < Disassemble.lower_bound m position)%nat) by lia.
  pose proof (lower_bound_before m position _ (k, v) Hlt Hn) as Hk. cbn in Hk. lia.
Qed.

(** The display of a disassembly in which the entry [(k, v)] covers the
    position. *)
Lemma shown_disassembly :
  forall cs_disasm_iter position shown doc_off code (m : Disassemble.InstructionMap) k v,
    decoder_ok cs_disasm_iter ->
    Disassemble.disassemble cs_disasm_iter doc_off code = Some m ->
    In (k, v) m -> k <= position < k + Disassemble.length v ->
    exists d idx,
      (if negb (Nat.eqb (List.length m) 0)
       then Some {| Disassemble.lines := fst (Disassemble.show position m 0 0);
                    Disassemble.center_line :=
                      Some (snd (Disassemble.show position m 0 0)) |}
       else Some {| Disassemble.lines :=
                      [ {| Disassemble.line_offset := position;
                           Disassemble.text := "<invalid instruction>";
                           Disassemble.active := true |} ];
                    Disassemble.center_line := Disassemble.center_line shown |})
      = Some d
      /\ one_active_line d idx (preview_line position (k, v))
      /\ Disassemble.lines d = map (preview_line position) m
      /\ nth_error m idx = Some (k, v)
      /\ Disassemble.center_line d = Some (Z.of_nat idx).
Proof.
  intros dec position shown doc_off code m k v Hdec Hd Hin Hcov.
  destruct (disassemble_returns_chain dec Hdec doc_off code) as [m' [Hd' Hchain]].
  rewrite Hd in Hd'. injection Hd' as <-.
  destruct (show_one_active m _ position 0 0 k v Hchain Hin Hcov)
    as [idx [Hn [Hs Huniq]]].
  destruct m as [|e m']; [contradiction|]. cbn [List.length Nat.eqb negb].
  eexists. exists idx.
  split; [reflexivity|]. unfold one_active_line.
  cbn [Disassemble.lines Disassemble.center_line].
  rewrite show_lines. split.
  - split; [apply map_nth_error; exact Hn|]. split.
    + unfold preview_line. cbn.
      destruct (Z.leb_spec k position); [|lia].
      destruct (Z.gtb_spec (k + Disassemble.length v) position); [reflexivity | lia].
    + intros j' l Hj' Ha.
      rewrite nth_error_map in Hj'.
      destruct (nth_error (e :: m') j') as [e'|] eqn:He'; [|discriminate].
      injection Hj' as <-. apply (Huniq j' e' He' Ha).
  - split; [reflexivity|]. split; [exact Hn|]. rewrite Hs. reflexivity.
Qed.

(** X17.  What [update] shows when the panel is visible, the disassembler
    is open and the window around the cursor can be read: the call returns,
    and exactly one line is active.  Either the lines are those of one
    disassembly, one per instruction and in its order, the active line is
    that of the instruction that covers the cursor, and it is the line
    centred on; or the only line is "<invalid instruction>", at the cursor,
    and nothing is centred anew. *)
Theorem update_marks_one_line :
  forall cs_disasm_iter read_data position shown data,
    decoder_ok cs_disasm_iter ->
    read_data (Z.max (position - 128) 0) Disassemble.WINDOW_SIZE = ReadOk data ->
    exists d idx line,
      Disassemble.update cs_disasm_iter read_data true true position shown = Some d
      /\ one_active_line d idx line
      /\ ((exists doc_off m k v,
              Disassemble.disassemble cs_disasm_iter doc_off
                (skipn (Z.to_nat (doc_off - Z.max (position - 128) 0)) data) = Some m
              /\ Z.max (position - 128) 0 <= doc_off <= position
              /\ Disassemble.lines d = map (preview_line position) m
              /\ nth_error m idx = Some (k, v)
              /\ k <= position < k + Disassemble.length v
              /\ Disassemble.center_line d = Some (Z.of_nat idx))
          \/ (Disassemble.lines d
              = [ {| Disassemble.line_offset := position;
                     Disassemble.text := "<invalid instruction>";
                     Disassemble.active := true |} ]
              /\ Disassemble.center_line d = Disassemble.center_line shown)).
Proof.
  intros dec read position shown data Hdec Hr.
  set (base := Z.max (position - 128) 0) in *.
  unfold Disassemble.update. cbn [negb]. cbv zeta.
  change (Z.quot Disassemble.WINDOW_SIZE 2) with 128. fold base. rewrite Hr.
  destruct (search_result dec Hdec (Disassemble.starts_at position) position data base
              eq_refl) as [m1 [Hm1 Hcase1]].
  rewrite Hm1.
  destruct Hcase1 as [[Hacc1 [j [Hj [Hpos Hdj]]]] | [-> Hnone1]].
  - (* step 1 finds a disassembly *)
    destruct (starts_at_entry _ _ Hacc1) as [v Hv].
    assert (Hlen : Nat.eqb (List.length m1) 0 = false).
    { destruct m1; [contradiction | reflexivity]. }
    rewrite Hlen.
    destruct (disassemble_returns_chain dec Hdec (base + Z.of_nat j) (skipn j data))
      as [m' [Hd' Hchain]].
    rewrite Hdj in Hd'. injection Hd' as <-.
    destruct (preview_chain_bounds _ _ _ _ Hchain Hv) as [_ [Hl _]].
    destruct (shown_disassembly dec position shown _ _ m1 position v Hdec Hdj Hv
                ltac:(lia)) as [d [idx [Hd [Hone [Hlines [Hn Hcenter]]]]]].
    exists d, idx, (preview_line position (position, v)).
    split; [exact Hd|]. split; [exact Hone|]. left.
    exists (base + Z.of_nat j), m1, position, v.
    replace (Z.to_nat (base + Z.of_nat j - base)) with j by lia.
    split; [exact Hdj|]. split; [lia|]. split; [exact Hlines|].
    split; [exact Hn|]. split; [lia | exact Hcenter].
  - (* step 2 *)
    cbn [List.length Nat.eqb].
    destruct (search_result dec Hdec (Disassemble.overlaps position) position data base
                eq_refl) as [m2 [Hm2 Hcase2]].
    rewrite Hm2.
    destruct Hcase2 as [[Hacc2 [j [Hj [Hpos Hdj]]]] | [-> Hnone2]].
    + destruct (overlaps_entry _ _ Hacc2) as [k [v [Hin Hcov]]].
      destruct (shown_disassembly dec position shown _ _ m2 k v Hdec Hdj Hin
                  ltac:(lia)) as [d [idx [Hd [Hone [Hlines [Hn Hcenter]]]]]].
      exists d, idx, (preview_line position (k, v)).
      split; [exact Hd|]. split; [exact Hone|]. left.
      exists (base + Z.of_nat j), m2, k, v.
      replace (Z.to_nat (base + Z.of_nat j - base)) with j by lia.
      split; [exact Hdj|]. split; [lia|]. split; [exact Hlines|].
      split; [exact Hn|]. split; [lia | exact Hcenter].
    + cbn [List.length Nat.eqb negb].
      eexists. exists O. eexists. split; [reflexivity|]. unfold one_active_line.
      cbn [Disassemble.lines Disassemble.center_line]. split.
      * split; [reflexivity|]. split; [reflexivity|].
        intros j l Hj _. destruct j as [|[|j]]; [reflexivity | discriminate | discriminate].
      * right. split; reflexivity.
Qed.

(** X17 on the sample: the document [31 c0 90] with the cursor on its
    second byte; the disassembly from offset 0 is taken, and its first line
    is the active one. *)
Lemma update_marks_one_line_witness :
  exists d line,
    Disassemble.update (Sample.decode false) (Sample.buffer_read_data [x31; xc0; x90])
                       true true 1 Sample.blank = Some d
    /\ one_active_line d 0 line
    /\ Disassemble.line_offset line = 0.
Proof.
  destruct (update_marks_one_line (Sample.decode false)
              (Sample.buffer_read_data [x31; xc0; x90]) 1 Sample.blank
              [x31; xc0; x90] (sample_decoder_ok false) eq_refl)
    as [d [idx [line [Hd [Hone _]]]]].
  assert (Hidx : idx = O /\ Disassemble.line_offset line = 0).
  { destruct Hone as [Hn [Ha _]]. vm_compute in Hd. injection Hd as <-.
    destruct idx as [|[|[|idx]]]; cbn in Hn; try discriminate;
      injection Hn as <-; try discriminate Ha.
    split; reflexivity. }
  destruct Hidx as [-> Hoff].
  exists d, line. split; [exact Hd|]. split; [exact Hone | exact Hoff].
Defined.

(** X18.  When the byte at the cursor starts an instruction, [update] shows
    it: with the panel visible, the disassembler open and a window that
    holds the cursor, step 1 takes a disassembly with an instruction that
    starts at the cursor; its line is the one active line and the one
    centred on, and "<invalid instruction>" is not what is shown. *)
Theorem update_shows_instruction_at_cursor :
  forall cs_disasm_iter read_data position shown data,
    decoder_ok cs_disasm_iter ->
    read_data (Z.max (position - 128) 0) Disassemble.WINDOW_SIZE = ReadOk data ->
    0 <= position ->
    position - Z.max (position - 128) 0 < vsize data ->
    cs_disasm_iter (skipn (Z.to_nat (position - Z.max (position - 128) 0)) data)
                   position <> None ->
    exists d idx doc_off m v,
      Disassemble.update cs_disasm_iter read_data true true position shown = Some d
      /\ Disassemble.disassemble cs_disasm_iter doc_off
           (skipn (Z.to_nat (doc_off - Z.max (position - 128) 0)) data) = Some m
      /\ Z.max (position - 128) 0 <= doc_off <= position
      /\ Disassemble.lines d = map (preview_line position) m
      /\ nth_error m idx = Some (position, v)
      /\ one_active_line d idx (preview_line position (position, v))
      /\ Disassemble.center_line d = Some (Z.of_nat idx).
Proof.
  intros dec read position shown data Hdec Hr Hpos Hin Hdecodes.
  set (base := Z.max (position - 128) 0) in *.
  unfold Disassemble.update. cbn [negb]. cbv zeta.
  change (Z.quot Disassemble.WINDOW_SIZE 2) with 128. fold base. rewrite Hr.
  destruct (search_result dec Hdec (Disassemble.starts_at position) position data base
              eq_refl) as [m1 [Hm1 Hcase1]].
  rewrite Hm1.
  destruct Hcase1 as [[Hacc1 [j [Hj [Hjpos Hdj]]]] | [-> Hnone1]].
  - destruct (starts_at_entry _ _ Hacc1) as [v Hv].
    assert (Hlen : Nat.eqb (List.length m1) 0 = false).
    { destruct m1; [contradiction | reflexivity]. }
    rewrite Hlen.
    destruct (disassemble_returns_chain dec Hdec (base + Z.of_nat j) (skipn j data))
      as [m' [Hd' Hchain]].
    rewrite Hdj in Hd'. injection Hd' as <-.
    destruct (preview_chain_bounds _ _ _ _ Hchain Hv) as [_ [Hl _]].
    destruct (shown_disassembly dec position shown _ _ m1 position v Hdec Hdj Hv
                ltac:(lia)) as [d [idx [Hd [Hone [Hlines [Hn Hcenter]]]]]].
    exists d, idx, (base + Z.of_nat j), m1, v.
    replace (Z.to_nat (base + Z.of_nat j - base)) with j by lia.
    split; [exact Hd|]. split; [exact Hdj|]. split; [unfold base in *; lia|].
    split; [exact Hlines|]. split; [exact Hn|]. split; [exact Hone | exact Hcenter].
  - (* the disassembly from the cursor itself is one that step 1 accepts *)
    exfalso.
    set (j := Z.to_nat (position - base)) in *.
    destruct (disassemble_returns_chain dec Hdec position (skipn j data))
      as [mj [Hdj Hchain]].
    assert (Hj : (j < List.length data)%nat) by (unfold j, vsize, base in *; lia).
    assert (Hbj : base + Z.of_nat j = position) by (unfold j, base in *; lia).
    assert (Hrej : Disassemble.starts_at position mj = false).
    { apply (Hnone1 j mj Hj); [lia|]. rewrite Hbj. exact Hdj. }
    unfold Disassemble.disassemble in Hdj.
    cbn [cs_disasm_while] in Hdj.
    destruct (dec (skipn j data) position) as [insn|] eqn:E; [|contradiction].
    rewrite cs_disasm_while_list in Hdj.
    destruct (cs_disasm_list dec _ _ _) as [l|] eqn:El; [|discriminate].
    injection Hdj as <-.
    assert (Hhas : exists v, In (position, v)
                     (fold_left (fun a d => Disassemble.disassemble_body a (dec_address d)
                                              (dec_bytes d) (dec_insn d)) l
                                (Disassemble.disassemble_body [] position
                                   (firstn (Z.to_nat (size insn)) (skipn j data)) insn))).
    { clear. generalize (firstn (Z.to_nat (size insn)) (skipn j data)). intros bytes.
      unfold Disassemble.disassemble_body at 2. cbn [Disassemble.map_insert].
      set (acc := [(position, _)]).
      assert (Hacc : exists v, In (position, v) acc) by (eexists; left; reflexivity).
      clearbody acc. revert acc Hacc.
      induction l as [|d l IH]; intros acc Hacc; [exact Hacc|].
      cbn [fold_left]. apply IH. destruct Hacc as [v Hv].
      unfold Disassemble.disassemble_body.
      clear -Hv. induction acc as [|[k' v'] acc IHa]; [contradiction|].
      cbn [Disassemble.map_insert].
      destruct (dec_address d <? k').
      - exists v. right. exact Hv.
      - destruct (dec_address d =? k'); [exists v; exact Hv|].
        destruct Hv as [E | Hv].
        + exists v. left. exact E.
        + destruct (IHa Hv) as [w Hw]. exists w. right. exact Hw. }
    destruct Hhas as [v Hv].
    rewrite (entry_starts_at _ _ _ Hv) in Hrej. discriminate.
Qed.

(** X18 on the sample: the document [90 31 c0] with the cursor on the
    [xor] at offset 1. *)
Lemma update_shows_instruction_at_cursor_witness :
  exists d idx v,
    Disassemble.update (Sample.decode false) (Sample.buffer_read_data [x90; x31; xc0])
                       true true 1 Sample.blank = Some d
    /\ one_active_line d idx (preview_line 1 (1, v))
    /\ Disassemble.center_line d = Some (Z.of_nat idx).
Proof.
  destruct (update_shows_instruction_at_cursor (Sample.decode false)
              (Sample.buffer_read_data [x90; x31; xc0]) 1 Sample.blank
              [x90; x31; xc0] (sample_decoder_ok false) eq_refl)
    as [d [idx [doc_off [m [v [Hd [_ [_ [_ [_ [Hone Hc]]]]]]]]]]].
  - lia.
  - vm_compute. reflexivity.
  - vm_compute. discriminate.
  - exists d, idx, v. split; [exact Hd|]. split; [exact Hone | exact Hc].
Defined.
(* ================================================================== *)
(** * The byte under the mouse *)

(** X19.  The byte that [offset_at_xy] finds is a byte of the line under
    the mouse.  In every state that calls of [check] and of
    [instruction_by_offset] lead to, on an unchanged document, the call
    returns; left of the hex column it finds nothing; and when it finds a
    byte, the area is [SA_HEX], the mouse is in the hex column, the byte is
    one of the region, and [calc_offset_bounds] places that byte on the
    line the mouse is on, without a further change of the state. *)
Theorem offset_at_xy_finds_byte_of_line :
  forall NDEBUG cs_disasm_iter read_data layout bytes_per_group hf_string_width
         offset_at_x_hex,
    decoder_ok cs_disasm_iter -> read_ok read_data ->
    decoder_stable cs_disasm_iter -> read_stable read_data ->
    bytes_per_group <> 0 ->
    forall s mouse_x_px mouse_y_lines fuel,
      reachable NDEBUG cs_disasm_iter read_data s ->
      exists o a s1,
        offset_at_xy NDEBUG cs_disasm_iter read_data layout offset_at_x_hex
                     (S (S fuel)) mouse_x_px mouse_y_lines s
        = (Returned (o, a), s1)
        /\ (mouse_x_px < hex_text_x layout -> (o, a) = (-1, SA_NONE))
        /\ ((o, a) = (-1, SA_NONE)
            \/ (a = SA_HEX
                /\ hex_text_x layout <= mouse_x_px
                /\ d_offset (rgn s) <= o < d_offset (rgn s) + d_length (rgn s)
                /\ exists bounds,
                     calc_offset_bounds NDEBUG cs_disasm_iter read_data layout
                                        bytes_per_group hf_string_width
                                        (S (S fuel)) o s1
                     = (Returned bounds, s1)
                     /\ rect_y bounds = y_offset layout + mouse_y_lines
                     /\ rect_h bounds = 1)).
Proof.
  intros NDEBUG dec read layout bpg hf at_x Hdec Hread Hdecs Hreads Hbpg s x y fuel
         Hreach.
  pose proof (reachable_cache_inv NDEBUG dec read Hdec Hread Hdecs Hreads s Hreach)
    as Hinv.
  pose proof (li_region (ci_lookup Hinv)) as Hreg.
  assert (Hbpg' : (bpg =? 0) = false) by (apply Z.eqb_neq; exact Hbpg).
  destruct (region_inv_accounts _ Hreg) as [_ [Hub _]].
  unfold unprocessed_bytes in Hub.
  destruct (contiguous_ends _ _ _ (inv_chunks Hreg) (inv_nonneg Hreg))
    as [Hb0 [Hl0 _]].
  change (chunks_end (d_offset (rgn s)) (processed (rgn s)))
    with (unprocessed_offset (rgn s)) in Hb0.
  change (lines_end 0 (processed (rgn s))) with (processed_lines (rgn s)) in Hl0.
  unfold offset_at_xy, get_region. unfold bind at 1.
  destruct (Z.ltb_spec y (processed_lines (rgn s))) as [Hproc | Hup].
  - (* a line of the disassembly *)
    destruct (Z_lt_le_dec y 0) as [Hneg | Hnn].
    { unfold bind.
      rewrite (instruction_by_line_outside NDEBUG dec read (S (S fuel)) y s Hreg)
        by lia.
      exists (-1), SA_NONE, s. split; [reflexivity|].
      split; [reflexivity | left; reflexivity]. }
    destruct (instruction_by_line_spec NDEBUG dec read Hdec Hread fuel y s Hinv
                (conj Hnn Hproc))
      as [c [l [pos [i [s1 [Hc [Hcl [Hl [Hx [H1 [Hpos [Hinv1 [Hframe _]]]]]]]]]]]]].
    unfold bind. rewrite H1.
    destruct (to_instructions_nth _ _ _ _ _ Hx) as [d [_ [_ [_ Hy]]]].
    unfold in_chunk_lines in Hcl.
    assert (Hyi : Instruction.rel_y_offset i = y) by (rewrite Hy; lia).
    pose proof (nth_error_In _ _ Hpos) as Hi.
    destruct (cached_instruction_line dec read Hdec Hread _ _ Hinv1 Hi)
      as [_ [Hlo [Hhi Hlen]]].
    assert (Hsame : unprocessed_offset (rgn s1) = unprocessed_offset (rgn s)
                    /\ d_offset (rgn s1) = d_offset (rgn s))
      by (rewrite Hframe; split; reflexivity).
    destruct Hsame as [Hup1 Hdo1].
    destruct (Z.geb_spec x (hex_text_x layout)) as [Hx1 | Hx1].
    + destruct (Z.ltb_spec (at_x (x - hex_text_x layout)) 0) as [Hlo1 | Hlo1];
        cbn [orb].
      { exists (-1), SA_NONE, s1. split; [reflexivity|].
        split; [reflexivity | left; reflexivity]. }
      destruct (Z.geb_spec (at_x (x - hex_text_x layout)) (Instruction.length i))
        as [Hhi1 | Hhi1].
      { exists (-1), SA_NONE, s1. split; [reflexivity|].
        split; [reflexivity | left; reflexivity]. }
      set (lo := at_x (x - hex_text_x layout)) in *.
      exists (Instruction.offset i + lo), SA_HEX, s1.
      split; [reflexivity|]. split; [intros; lia|]. right.
      split; [reflexivity|]. split; [lia|]. split; [lia|].
      assert (Hcov : covers i (Instruction.offset i + lo)) by (unfold covers; lia).
      destruct (instruction_by_offset_hit NDEBUG dec read (S fuel) s1 _ i
                  (li_order (ci_lookup Hinv1)) Hi Hcov) as [k' [_ Hhit]].
      eexists. split.
      { unfold calc_offset_bounds, get_region, bind at 1. rewrite Hup1.
        destruct (Z.ltb_spec (Instruction.offset i + lo) (unprocessed_offset (rgn s)));
          [|lia].
        unfold bind at 1. rewrite Hhit.
        assert (E1 : (Instruction.offset i <=? Instruction.offset i + lo) = true)
          by (apply Z.leb_le; lia).
        assert (E2 : (Instruction.offset i + Instruction.length i
                      >? Instruction.offset i + lo) = true)
          by (apply Z.gtb_lt; lia).
        rewrite E1, E2. unfold bind at 1. rewrite assert_holds.
        unfold bind. rewrite assert_holds. rewrite Hbpg'. reflexivity. }
      cbn [rect_y rect_h]. split; [lia | reflexivity].
    + exists (-1), SA_NONE, s1. split; [reflexivity|].
      split; [reflexivity | left; reflexivity].
  - (* a line of the bytes not yet processed *)
    pose proof (max_bytes_per_line_pos (rgn s)) as Hm.
    set (m := max_bytes_per_line (rgn s)) in *.
    set (up := unprocessed_offset (rgn s)) in *.
    set (row := y - processed_lines (rgn s)) in *.
    assert (Hrow : 0 <= row) by (unfold row; lia).
    cbv zeta.
    destruct (Z.geb_spec x (hex_text_x layout)) as [Hx1 | Hx1].
    + destruct (Z.ltb_spec (at_x (x - hex_text_x layout)) 0) as [Hlo1 | Hlo1];
        cbn [orb].
      { exists (-1), SA_NONE, s. split; [reflexivity|].
        split; [reflexivity | left; reflexivity]. }
      destruct (Z.geb_spec (at_x (x - hex_text_x layout))
                  (Z.min (up + row * m + m) (d_offset (rgn s) + d_length (rgn s) - 1)
                   - (up + row * m))) as [Hhi1 | Hhi1].
      { exists (-1), SA_NONE, s. split; [reflexivity|].
        split; [reflexivity | left; reflexivity]. }
      set (lo := at_x (x - hex_text_x layout)) in *.
      exists (up + row * m + lo), SA_HEX, s.
      split; [reflexivity|]. split; [intros; lia|]. right.
      split; [reflexivity|]. split; [lia|].
      assert (Hrm : 0 <= row * m) by nia.
      split; [unfold up in *; lia|].
      eexists. split.
      { unfold calc_offset_bounds, get_region, bind. fold up.
        destruct (Z.ltb_spec (up + row * m + lo) up); [lia|].
        rewrite Hbpg'. reflexivity. }
      cbn [rect_y rect_h]. split; [|reflexivity].
      fold (processed_lines (rgn s)). fold m.
      replace (up + row * m + lo - up) with (lo + row * m) by lia.
      assert (Hq : Z.quot (lo + row * m) m = row).
      { rewrite Z.quot_div_nonneg by lia.
        rewrite Z.div_add by lia. rewrite Z.div_small by lia. lia. }
      rewrite Hq. unfold row. lia.
    + exists (-1), SA_NONE, s. split; [reflexivity|].
      split; [reflexivity | left; reflexivity].
Qed.

(** X19 on the sample: on line 5 of the fifteen bytes, a mouse over the
    third byte of the hex column is over offset 12. *)
Lemma offset_at_xy_finds_byte_of_line_witness :
  exists s1 bounds,
    offset_at_xy false (Sample.decode true) (Sample.buffer_read_data Sample.code15)
      {| y_offset := 100; hex_text_x := 40 |} (fun rel_x => Z.quot rel_x 24)
      2 90 5
      (after_check false (Sample.decode true) (Sample.buffer_read_data Sample.code15)
         (Sample.start (DisassemblyRegion_new 0 15)))
    = (Returned (12, SA_HEX), s1)
    /\ calc_offset_bounds false (Sample.decode true)
         (Sample.buffer_read_data Sample.code15)
         {| y_offset := 100; hex_text_x := 40 |} 4 (fun n => n * 8) 2 12 s1
       = (Returned bounds, s1)
    /\ rect_y bounds = 105.
Proof.
  destruct (offset_at_xy_finds_byte_of_line false (Sample.decode true)
              (Sample.buffer_read_data Sample.code15)
              {| y_offset := 100; hex_text_x := 40 |} 4 (fun n => n * 8)
              (fun rel_x => Z.quot rel_x 24)
              (sample_decoder_ok true) (sample_read_ok Sample.code15)
              (sample_decoder_stable true) (sample_read_stable Sample.code15)
              ltac:(discriminate)
              (after_check false (Sample.decode true)
                 (Sample.buffer_read_data Sample.code15)
                 (Sample.start (DisassemblyRegion_new 0 15))) 90 5 O)
    as [o [a [s1 [Hat [_ Hfound]]]]].
  - apply reach_check. apply reach_new. lia.
  - assert (Hoa : o = 12 /\ a = SA_HEX).
    { vm_compute in Hat. injection Hat as <- <- _. split; reflexivity. }
    destruct Hoa as [-> ->].
    destruct Hfound as [Hnone | [_ [_ [_ [bounds [Hb [Hy _]]]]]]]; [discriminate|].
    exists s1, bounds. split; [exact Hat|]. split; [exact Hb | exact Hy].
Defined.
